(** * AI-Firewall: the client-side content moderation pipeline

    A shallow embedding of the three scripts of the browser extension

    - the background service worker (analysis cache, Gateway requests),
    - the DOM manipulator (blocking, blurring, replacing, revealing),
    - the content scanner (discovery, queueing, dispatch of analyses),

    followed by the properties of the pipeline.  Asynchronous functions are
    cut at their [await]s: the code before the first [await] is one function
    of the state, and what runs when the awaited promise settles is a second
    one, driven by an explicit event.  JavaScript numbers are binary64 floats,
    [Date.now()] is an integer of milliseconds, a [Map] is an association
    list in insertion order, and page elements carry a numeric identity that
    stands for the identity of the JavaScript object. *)

From Stdlib Require Import ZArith List String Ascii Bool Lia Floats DecimalString.
Import ListNotations.

Set Warnings "-inexact-float,-register-all".
Set Implicit Arguments.

Open Scope string_scope.
Open Scope list_scope.
Open Scope Z_scope.

(* ===================================================================== *)
(** * Part I: definitions                                                 *)
(* ===================================================================== *)

(** ** JavaScript values the scripts rely on *)

Module Js.

(** [Map]: iteration follows insertion order, [set] on a key already
    present replaces the value and keeps the key's place. *)
Section MapOps.
Variables K V : Type.
Variable keq : K -> K -> bool.

Definition JsMap := list (K * V).

Fixpoint get (k : K) (m : JsMap) : option V :=
  match m with
  | [] => None
  | (k', v) :: rest => if keq k k' then Some v else get k rest
  end.

Definition has (k : K) (m : JsMap) : bool :=
  match get k m with Some _ => true | None => false end.

Fixpoint set (k : K) (v : V) (m : JsMap) : JsMap :=
  match m with
  | [] => [(k, v)]
  | (k', v') :: rest =>
      if keq k k' then (k', v) :: rest else (k', v') :: set k v rest
  end.

Definition delete (k : K) (m : JsMap) : JsMap :=
  filter (fun e => negb (keq k (fst e))) m.

Definition size (m : JsMap) : Z := Z.of_nat (List.length m).

Definition keys (m : JsMap) : list K := map fst m.

(** [m.keys().next().value]: [undefined] on an empty map. *)
Definition firstKey (m : JsMap) : option K := hd_error (keys m).

(** [m.delete(m.keys().next().value)]; deleting [undefined] from an
    empty map does nothing. *)
Definition deleteFirst (m : JsMap) : JsMap :=
  match firstKey m with
  | Some k => delete k m
  | None => m
  end.
End MapOps.

(** [Set] of object identities, in insertion order. *)
Definition setHas (x : nat) (s : list nat) : bool := existsb (Nat.eqb x) s.
Definition setAdd (x : nat) (s : list nat) : list nat :=
  if setHas x s then s else s ++ [x].
Definition setDelete (x : nat) (s : list nat) : list nat :=
  filter (fun y => negb (Nat.eqb x y)) s.

(** [ToInt32]: what [<<] and [&] return. *)
Definition toInt32 (z : Z) : Z := (z + 2 ^ 31) mod 2 ^ 32 - 2 ^ 31.

(** [str.charCodeAt(i)], for strings of 8-bit code units. *)
Definition charCode (c : ascii) : Z := Z.of_nat (nat_of_ascii c).

(** [n.toString()] for an integer. *)
Definition intToString (z : Z) : string := NilZero.string_of_int (Z.to_int z).

(** The number a template string prints for [a]: two numbers print the
    same text exactly when they are the same float, except that [-0]
    prints as [0]. *)
Definition printed (a : float) : float :=
  if (a =? 0)%float then 0%float else a.

(** Truthiness of a number: [0], [-0] and [NaN] are falsy. *)
Definition truthyNumber (a : float) : bool :=
  negb (a =? 0)%float && negb (PrimFloat.is_nan a).

(** [s.includes(sub)]. *)
Fixpoint includes (s sub : string) : bool :=
  String.prefix sub s ||
  match s with
  | EmptyString => false
  | String _ rest => includes rest sub
  end.

(** [s.trim()]: white space among the 8-bit code units. *)
Definition isWhiteSpace (c : ascii) : bool :=
  let n := nat_of_ascii c in
  (Nat.leb 9 n && Nat.leb n 13) || Nat.eqb n 32 || Nat.eqb n 160.

Fixpoint trimStart (s : string) : string :=
  match s with
  | EmptyString => EmptyString
  | String c rest => if isWhiteSpace c then trimStart rest else s
  end.

Fixpoint trimEnd (s : string) : string :=
  match s with
  | EmptyString => EmptyString
  | String c rest =>
      match trimEnd rest with
      | EmptyString => if isWhiteSpace c then EmptyString else String c EmptyString
      | r => String c r
      end
  end.

Definition trim (s : string) : string := trimEnd (trimStart s).

(** [/[a-zA-Z]/.test(s)]. *)
Definition isLetter (c : ascii) : bool :=
  let n := nat_of_ascii c in
  (Nat.leb 65 n && Nat.leb n 90) || (Nat.leb 97 n && Nat.leb n 122).

Fixpoint hasLetter (s : string) : bool :=
  match s with
  | EmptyString => false
  | String c rest => isLetter c || hasLetter rest
  end.

(** [arr.join(', ')]. *)
Fixpoint join (sep : string) (l : list string) : string :=
  match l with
  | [] => ""
  | [x] => x
  | x :: rest => (x ++ sep ++ join sep rest)%string
  end.

(** [arr.includes(x)] for an array of strings. *)
Definition arrayIncludes (x : string) (arr : list string) : bool :=
  existsb (String.eqb x) arr.

(** The property names every object literal inherits from
    [Object.prototype]: a lookup [obj[name]] that finds no own property
    finds these, eleven functions and the accessor [__proto__], all of
    them truthy. *)
Definition objectPrototype : list string :=
  [ "constructor"; "hasOwnProperty"; "isPrototypeOf"; "propertyIsEnumerable";
    "toLocaleString"; "toString"; "valueOf"; "__proto__";
    "__defineGetter__"; "__defineSetter__"; "__lookupGetter__"; "__lookupSetter__" ].

(** Such a member turned into a string, as [join] does: the source text
    of a built-in function, and ['[object Object]'] for the prototype
    object that [__proto__] gives. *)
Definition memberText (name : string) : string :=
  if String.eqb name "__proto__" then "[object Object]"
  else if String.eqb name "constructor" then "function Object() { [native code] }"
  else ("function " ++ name ++ "() { [native code] }")%string.

End Js.

(** ** Messages between the content script and the service worker *)

Inductive ContentType := text | image.

Definition ContentType_eqb (a b : ContentType) : bool :=
  match a, b with
  | text, text | image, image => true
  | _, _ => false
  end.

(** The Gateway's verdict, [{is_safe, confidence, flagged_categories}];
    [flagged_categories] may be missing. *)
Record AnalysisResult := {
  is_safe : bool;
  confidence : float;
  flagged_categories : option (list string)
}.

(** [message.data] of ANALYZE_TEXT ([{text, threshold, ageGroup}]) and of
    ANALYZE_IMAGE ([{imageData, threshold, ageGroup}]); [payload] is the
    text or the image data. *)
Record AnalyzeData := {
  payload : string;
  threshold : float;
  ageGroup : string
}.

Inductive Message :=
| ANALYZE_TEXT (data : AnalyzeData)
| ANALYZE_IMAGE (data : AnalyzeData).

(** What [sendResponse] is called with: [{success: true, result}] or
    [{success: false, error}]. *)
Inductive Response :=
| Success (result : AnalysisResult)
| Failure (error : string).

Definition success (r : Response) : bool :=
  match r with Success _ => true | Failure _ => false end.

(** ** The background service worker *)

Module ServiceWorker.

Module CONFIG.
Definition API_BASE_URL : string := "http://localhost:5000/api".
Definition CACHE_DURATION : Z := 5 * 60 * 1000.
Definition MAX_CACHE_SIZE : Z := 1000.
End CONFIG.

(** The cache key [`text:${hashString(text)}:${threshold}:${ageGroup}`]
    (or [image:...]).  The template is injective in its four parts (the
    hash and the number contain no colon), so the key is kept as the
    four parts, the number as it prints. *)
Record CacheKey := {
  ck_type : ContentType;
  ck_hash : string;
  ck_threshold : float;
  ck_ageGroup : string
}.

Definition CacheKey_eqb (a b : CacheKey) : bool :=
  ContentType_eqb (ck_type a) (ck_type b)
  && String.eqb (ck_hash a) (ck_hash b)
  && PrimFloat.Leibniz.eqb (ck_threshold a) (ck_threshold b)
  && String.eqb (ck_ageGroup a) (ck_ageGroup b).

(** A cache entry [{data, timestamp}]. *)
Record CacheEntry := {
  data : AnalysisResult;
  timestamp : Z
}.

Definition Cache := list (CacheKey * CacheEntry).

Fixpoint hashLoop (hash : Z) (str : string) : Z :=
  match str with
  | EmptyString => hash
  | String c rest =>
      let char := Js.charCode c in
      let hash1 := (Js.toInt32 (hash * 32) - hash) + char in  (* ((hash << 5) - hash) + char *)
      hashLoop (Js.toInt32 hash1) rest                        (* hash & hash *)
  end.

Definition hashString (str : string) : string :=
  Js.intToString (hashLoop 0 str).

Definition cacheKey (type : ContentType) (d : AnalyzeData) : CacheKey :=
  {| ck_type := type;
     ck_hash := hashString (payload d);
     ck_threshold := Js.printed (threshold d);
     ck_ageGroup := ageGroup d |}.

(** [getFromCache(key)] at time [now = Date.now()]: the value returned
    ([None] for [null]) and the cache afterwards. *)
Definition getFromCache (key : CacheKey) (now : Z) (c : Cache)
  : option AnalysisResult * Cache :=
  match Js.get CacheKey_eqb key c with
  | Some cached =>
      if now - timestamp cached <? CONFIG.CACHE_DURATION
      then (Some (data cached), c)
      else (None, Js.delete CacheKey_eqb key c)
  | None => (None, Js.delete CacheKey_eqb key c)
  end.

(** [setCache(key, data)] at time [now]. *)
Definition setCache (key : CacheKey) (d : AnalysisResult) (now : Z) (c : Cache)
  : Cache :=
  let c1 :=
    if Js.size c >=? CONFIG.MAX_CACHE_SIZE
    then Js.deleteFirst CacheKey_eqb c
    else c in
  Js.set CacheKey_eqb key {| data := d; timestamp := now |} c1.

(** How the [fetch] of [makeApiRequest] settles: it rejects (network
    error), or resolves with a status and a body ([None]: not JSON). *)
Inductive FetchOutcome :=
| NetworkError (msg : string)
| HttpResponse (status : Z) (json : option AnalysisResult).

Definition response_ok (status : Z) : bool :=
  (200 <=? status) && (status <=? 299).

(** [makeApiRequest] after its [fetch] settled: the parsed body, or the
    message of the error it throws. *)
Definition makeApiRequest (o : FetchOutcome) : AnalysisResult + string :=
  match o with
  | NetworkError msg => inr msg
  | HttpResponse status json =>
      if response_ok status
      then match json with
           | Some r => inl r
           | None => inr "Unexpected end of JSON input"
           end
      else inr ("API request failed: " ++ Js.intToString status)%string
  end.

(** A request sent to the Gateway: endpoint and body. *)
Record ApiRequest := {
  endpoint : string;
  body : AnalyzeData
}.

(** A handler suspended at [await makeApiRequest(...)]: the message it
    answers, its content type and the cache key it computed. *)
Record Suspended := {
  s_id : nat;
  s_type : ContentType;
  s_key : CacheKey
}.

(** The worker's state.  [sent] lists the Gateway requests issued, in
    order; [responses] the calls of [sendResponse], by message. *)
Record State := {
  analysisCache : Cache;
  pendingRequests : list (CacheKey * nat);
  suspended : list Suspended;
  sent : list ApiRequest;
  responses : list (nat * Response);
  stats : list (string * Z)
}.

Definition initial : State :=
  {| analysisCache := []; pendingRequests := []; suspended := [];
     sent := []; responses := []; stats := [] |}.

Definition sendResponse (id : nat) (r : Response) (s : State) : State :=
  {| analysisCache := analysisCache s; pendingRequests := pendingRequests s;
     suspended := suspended s; sent := sent s;
     responses := responses s ++ [(id, r)]; stats := stats s |}.

Definition withCache (c : Cache) (s : State) : State :=
  {| analysisCache := c; pendingRequests := pendingRequests s;
     suspended := suspended s; sent := sent s;
     responses := responses s; stats := stats s |}.

Definition endpointOf (type : ContentType) : string :=
  match type with text => "/analyze/text" | image => "/analyze/image" end.

(** [handleTextAnalysis] / [handleImageAnalysis] up to the
    [await makeApiRequest(...)]: cache lookup, then either the cached
    answer or a Gateway request.  A cached verdict is an object, so
    [if (cached)] holds exactly when the lookup returned one. *)
Definition handleAnalysis (type : ContentType) (id : nat) (d : AnalyzeData)
    (now : Z) (s : State) : State :=
  let key := cacheKey type d in
  let (cached, c) := getFromCache key now (analysisCache s) in
  match cached with
  | Some r => sendResponse id (Success r) (withCache c s)
  | None =>
      {| analysisCache := c; pendingRequests := pendingRequests s;
         suspended := suspended s ++ [{| s_id := id; s_type := type; s_key := key |}];
         sent := sent s ++ [{| endpoint := endpointOf type; body := d |}];
         responses := responses s; stats := stats s |}
  end.

Definition handleTextAnalysis := handleAnalysis text.
Definition handleImageAnalysis := handleAnalysis image.

(** [updateStats(statName)]: both counters go up by one. *)
Definition counter (name : string) (st : list (string * Z)) : Z :=
  match Js.get String.eqb name st with Some n => n | None => 0 end.

Definition updateStats (statName : string) (st : list (string * Z))
  : list (string * Z) :=
  let n := counter statName st + 1 in
  let t := counter "totalScanned" st + 1 in
  Js.set String.eqb "totalScanned" t (Js.set String.eqb statName n st).

Definition statNameOf (type : ContentType) : string :=
  match type with text => "text_analyzed" | image => "images_analyzed" end.

Definition findSuspended (id : nat) (l : list Suspended) : option Suspended :=
  find (fun p => Nat.eqb (s_id p) id) l.

Definition dropSuspended (id : nat) (l : list Suspended) : list Suspended :=
  filter (fun p => negb (Nat.eqb (s_id p) id)) l.

(** The rest of the handler, when the request of message [id] settles
    at time [now].  [storageError] is the error of [chrome.storage], if
    its first access fails while the statistics are updated (the storage
    calls are taken together with this step).  A thrown error reaches
    the handler's [catch], which answers [{success: false, error}]. *)
Definition resumeAnalysis (id : nat) (o : FetchOutcome) (now : Z)
    (storageError : option string) (s : State) : State :=
  match findSuspended id (suspended s) with
  | None => s
  | Some p =>
      let s0 :=
        {| analysisCache := analysisCache s; pendingRequests := pendingRequests s;
           suspended := dropSuspended id (suspended s); sent := sent s;
           responses := responses s; stats := stats s |} in
      match makeApiRequest o with
      | inr msg => sendResponse id (Failure msg) s0
      | inl result =>
          let s1 := withCache (setCache (s_key p) result now (analysisCache s0)) s0 in
          match storageError with
          | Some msg => sendResponse id (Failure msg) s1
          | None =>
              let st1 := updateStats (statNameOf (s_type p)) (stats s1) in
              let st2 := if is_safe result then st1
                         else updateStats "content_blocked" st1 in
              sendResponse id (Success result)
                {| analysisCache := analysisCache s1;
                   pendingRequests := pendingRequests s1;
                   suspended := suspended s1; sent := sent s1;
                   responses := responses s1; stats := st2 |}
          end
      end
  end.

(** What the worker reacts to. *)
Inductive Event :=
| onMessage (id : nat) (m : Message) (now : Z)
| fetchSettled (id : nat) (o : FetchOutcome) (now : Z) (storageError : option string).

Definition step (s : State) (e : Event) : State :=
  match e with
  | onMessage id (ANALYZE_TEXT d) now => handleTextAnalysis id d now s
  | onMessage id (ANALYZE_IMAGE d) now => handleImageAnalysis id d now s
  | fetchSettled id o now err => resumeAnalysis id o now err s
  end.

Definition run (s : State) (es : list Event) : State := fold_left step es s.

(** The cache invariant: keys are distinct and the size is bounded. *)
Definition cacheOk (c : Cache) : Prop :=
  NoDup (Js.keys c) /\ Js.size c <= CONFIG.MAX_CACHE_SIZE.

(** A run of calls of one content type, each with its message number,
    data and arrival time, and the Gateway requests they stand for. *)
Definition messageOf (type : ContentType) (d : AnalyzeData) : Message :=
  match type with text => ANALYZE_TEXT d | image => ANALYZE_IMAGE d end.

Definition callsOf (type : ContentType) (calls : list (nat * AnalyzeData * Z))
  : list Event :=
  map (fun c => onMessage (fst (fst c)) (messageOf type (snd (fst c))) (snd c)) calls.

Definition requestsOf (type : ContentType) (calls : list (nat * AnalyzeData * Z))
  : list ApiRequest :=
  map (fun c => {| endpoint := endpointOf type; body := snd (fst c) |}) calls.

End ServiceWorker.

(** ** The page: a forest of element trees *)

Module Dom.

(** An element.  [uid] is the identity of the JavaScript object.
    [styleDisplay] is the inline [element.style.display]; [cssDisplay]
    and [cssVisibility] are what the page's style sheets compute for the
    element; [src], [srcset], [width] and [height] are the image
    properties (empty and [0] where the element has none). *)
Record Element := {
  uid : nat;
  tagName : string;
  classList : list string;
  attributes : list (string * string);
  styleDisplay : string;
  cssDisplay : string;
  cssVisibility : string;
  src : string;
  srcset : string;
  width : Z;
  height : Z
}.

Inductive Node :=
| TextNode (s : string)
| ElementNode (e : Element) (children : list Node).

(** The document's tree, the trees that are not attached to it (created
    or removed elements a script still holds), and the next fresh
    identity. *)
Record Page := {
  document : Node;
  detached : list Node;
  nextUid : nat
}.

(** An element together with its ancestors, nearest first. *)
Definition Located := (Element * list Element)%type.

(** *** Reading the tree *)

Fixpoint descendantsOrSelf (anc : list Element) (n : Node) : list Located :=
  match n with
  | TextNode _ => []
  | ElementNode e kids => (e, anc) :: flat_map (descendantsOrSelf (e :: anc)) kids
  end.

Definition uids (n : Node) : list nat :=
  map (fun l => uid (fst l)) (descendantsOrSelf [] n).

Definition rootUid (n : Node) : option nat :=
  match n with
  | TextNode _ => None
  | ElementNode e _ => Some (uid e)
  end.

Definition isRoot (u : nat) (n : Node) : bool :=
  match rootUid n with Some v => Nat.eqb v u | None => false end.

(** The subtree whose root is the element [u]. *)
Fixpoint findNode (u : nat) (n : Node) : option Node :=
  match n with
  | TextNode _ => None
  | ElementNode e kids =>
      if Nat.eqb (uid e) u then Some n
      else
        (fix first (l : list Node) : option Node :=
           match l with
           | [] => None
           | k :: rest =>
               match findNode u k with
               | Some r => Some r
               | None => first rest
               end
           end) kids
  end.

Fixpoint firstSome {A B : Type} (f : A -> option B) (l : list A) : option B :=
  match l with
  | [] => None
  | a :: rest => match f a with Some r => Some r | None => firstSome f rest end
  end.

Definition trees (p : Page) : list Node := document p :: detached p.

Definition findInPage (u : nat) (p : Page) : option Node :=
  firstSome (findNode u) (trees p).

(** The element [u] with its ancestors, wherever it is in the forest. *)
Definition locate (u : nat) (p : Page) : option Located :=
  find (fun l => Nat.eqb (uid (fst l)) u)
       (flat_map (descendantsOrSelf []) (trees p)).

(** [element.parentNode], as the identity of the parent element;
    [None] stands for [null] (and for an element that is a root). *)
Definition parentNode (u : nat) (p : Page) : option nat :=
  match locate u p with
  | Some (_, a :: _) => Some (uid a)
  | _ => None
  end.

(** [node.textContent]. *)
Fixpoint textContent (n : Node) : string :=
  match n with
  | TextNode s => s
  | ElementNode _ kids =>
      fold_right (fun k acc => (textContent k ++ acc)%string) "" kids
  end.

(** *** Selectors *)

(** A simple selector and a chain of them joined by the descendant
    combinator: ['.g .LC20lb'] is [[Class "g"; Class "LC20lb"]]. *)
Inductive Simple :=
| Tag (t : string)
| Class (c : string)
| Attr (a : string)
| Id (i : string).

Definition Selector := list Simple.

Definition hasAttribute (a : string) (e : Element) : bool :=
  Js.has String.eqb a (attributes e).

Definition getAttribute (a : string) (e : Element) : option string :=
  Js.get String.eqb a (attributes e).

Definition hasClass (c : string) (e : Element) : bool :=
  Js.arrayIncludes c (classList e).

Definition matchesSimple (e : Element) (s : Simple) : bool :=
  match s with
  | Tag t => String.eqb (tagName e) t
  | Class c => hasClass c e
  | Attr a => hasAttribute a e
  | Id i => match getAttribute "id" e with
            | Some v => String.eqb v i
            | None => false
            end
  end.

(** The remaining selectors of a chain, innermost first, against the
    ancestors, nearest first. *)
Fixpoint matchesAncestors (anc : list Element) (chain : list Simple) : bool :=
  match chain with
  | [] => true
  | s :: rest =>
      match anc with
      | [] => false
      | a :: anc' =>
          if matchesSimple a s then matchesAncestors anc' rest
          else matchesAncestors anc' chain
      end
  end.

Definition matches (l : Located) (sel : Selector) : bool :=
  match rev sel with
  | [] => false
  | s :: outer => matchesSimple (fst l) s && matchesAncestors (snd l) outer
  end.

(** [element.matches(selectors.join(','))]. *)
Definition matchesAny (sels : list Selector) (l : Located) : bool :=
  existsb (matches l) sels.

(** [element.closest(selectors.join(','))] is not [null]. *)
Fixpoint closestFrom (sels : list Selector) (e : Element) (anc : list Element) : bool :=
  matchesAny sels (e, anc) ||
  match anc with
  | [] => false
  | a :: anc' => closestFrom sels a anc'
  end.

Definition closest (sels : list Selector) (l : Located) : bool :=
  closestFrom sels (fst l) (snd l).

(** [document.querySelectorAll(selectors.join(','))]: the matching
    elements in document order, as a static list of identities. *)
Definition querySelectorAll (sels : list Selector) (p : Page) : list nat :=
  map (fun l => uid (fst l))
      (filter (matchesAny sels) (descendantsOrSelf [] (document p))).

(** [element.querySelectorAll(...)]: the matching proper descendants of
    the element [u]. *)
Definition querySelectorAllIn (sels : list Selector) (u : nat) (p : Page) : list nat :=
  match locate u p, findInPage u p with
  | Some (e, anc), Some (ElementNode _ kids) =>
      map (fun l => uid (fst l))
          (filter (matchesAny sels)
                  (flat_map (descendantsOrSelf (e :: anc)) kids))
  | _, _ => []
  end.

(** *** Changing the tree *)

(** Apply [f] to the element [u]. *)
Fixpoint updateNode (u : nat) (f : Element -> Element) (n : Node) : Node :=
  match n with
  | TextNode s => TextNode s
  | ElementNode e kids =>
      ElementNode (if Nat.eqb (uid e) u then f e else e)
                  (map (updateNode u f) kids)
  end.

Definition updateElement (u : nat) (f : Element -> Element) (p : Page) : Page :=
  {| document := updateNode u f (document p);
     detached := map (updateNode u f) (detached p);
     nextUid := nextUid p |}.

(** Put [new] where the child [old] is. *)
Fixpoint substChild (old : nat) (new : Node) (n : Node) {struct n} : Node :=
  match n with
  | TextNode s => TextNode s
  | ElementNode e kids =>
      ElementNode e (map (fun k => if isRoot old k then new
                                   else substChild old new k) kids)
  end.

(** Insert [new] just before the child [old]. *)
Fixpoint insertChildBefore (old : nat) (new : Node) (n : Node) {struct n} : Node :=
  match n with
  | TextNode s => TextNode s
  | ElementNode e kids =>
      ElementNode e (flat_map (fun k => if isRoot old k then [new; k]
                                        else [insertChildBefore old new k]) kids)
  end.

(** Take the child [u] away from its parent. *)
Fixpoint removeChild (u : nat) (n : Node) : Node :=
  match n with
  | TextNode s => TextNode s
  | ElementNode e kids =>
      ElementNode e
        ((fix go (l : list Node) : list Node :=
            match l with
            | [] => []
            | k :: rest => if isRoot u k then go rest
                           else removeChild u k :: go rest
            end) kids)
  end.

(** Take the node [u] out of the forest, wherever it is. *)
Definition removeFromPage (u : nat) (p : Page) : Page :=
  {| document := removeChild u (document p);
     detached := map (removeChild u)
                     (filter (fun k => negb (isRoot u k)) (detached p));
     nextUid := nextUid p |}.

Definition containsUid (u : nat) (n : Node) : bool :=
  existsb (Nat.eqb u) (uids n).

(** [old.parentNode.replaceChild(new, old)].  [None] stands for the
    exception thrown when [old.parentNode] is [null], or when [new]
    contains [old].  [new] is first taken from where it was, and [old]
    ends up detached. *)
Definition replaceChild (new old : nat) (p : Page) : option Page :=
  match parentNode old p, findInPage new p with
  | Some _, Some newN =>
      if Nat.eqb new old then Some p
      else if containsUid old newN then None
      else
        let p1 := removeFromPage new p in
        match findInPage old p1 with
        | Some oldN =>
            Some {| document := substChild old newN (document p1);
                    detached := map (substChild old newN) (detached p1) ++ [oldN];
                    nextUid := nextUid p1 |}
        | None => None
        end
  | _, _ => None
  end.

(** [old.parentNode.insertBefore(new, old)] for a detached [new]. *)
Definition insertBefore (new old : nat) (p : Page) : option Page :=
  match parentNode old p, findInPage new p with
  | Some _, Some newN =>
      if containsUid old newN then None
      else
        let p1 := removeFromPage new p in
        Some {| document := insertChildBefore old newN (document p1);
                detached := map (insertChildBefore old newN) (detached p1);
                nextUid := nextUid p1 |}
  | _, _ => None
  end.

(** [element.remove()]. *)
Definition remove (u : nat) (p : Page) : Page :=
  match parentNode u p, findInPage u p with
  | Some _, Some n =>
      let p1 := removeFromPage u p in
      {| document := document p1; detached := detached p1 ++ [n];
         nextUid := nextUid p1 |}
  | _, _ => p
  end.

(** A new element of tag [tag], not attached anywhere. *)
Definition blank (u : nat) (tag : string) : Element :=
  {| uid := u; tagName := tag; classList := []; attributes := [];
     styleDisplay := ""; cssDisplay := "block"; cssVisibility := "visible";
     src := ""; srcset := ""; width := 0; height := 0 |}.

(** Element properties and methods the scripts write through. *)
Definition setAttribute (a v : string) (e : Element) : Element :=
  {| uid := uid e; tagName := tagName e; classList := classList e;
     attributes := Js.set String.eqb a v (attributes e);
     styleDisplay := styleDisplay e; cssDisplay := cssDisplay e;
     cssVisibility := cssVisibility e; src := src e; srcset := srcset e;
     width := width e; height := height e |}.

Definition setClassList (cl : list string) (e : Element) : Element :=
  {| uid := uid e; tagName := tagName e; classList := cl;
     attributes := attributes e;
     styleDisplay := styleDisplay e; cssDisplay := cssDisplay e;
     cssVisibility := cssVisibility e; src := src e; srcset := srcset e;
     width := width e; height := height e |}.

(** [element.classList.add(c)]: a token already present is not added. *)
Definition classList_add (c : string) (e : Element) : Element :=
  if hasClass c e then e else setClassList (classList e ++ [c]) e.

Definition classList_remove (c : string) (e : Element) : Element :=
  setClassList (filter (fun x => negb (String.eqb c x)) (classList e)) e.

Definition setStyleDisplay (v : string) (e : Element) : Element :=
  {| uid := uid e; tagName := tagName e; classList := classList e;
     attributes := attributes e;
     styleDisplay := v; cssDisplay := cssDisplay e;
     cssVisibility := cssVisibility e; src := src e; srcset := srcset e;
     width := width e; height := height e |}.

(** [getComputedStyle(element).display]: the inline value when there is
    one, the style sheets' value otherwise. *)
Definition computedDisplay (e : Element) : string :=
  if String.eqb (styleDisplay e) "" then cssDisplay e else styleDisplay e.

Definition computedVisibility (e : Element) : string := cssVisibility e.

(** Well-formed forest: identities are unique and below [nextUid]. *)
Definition allUids (p : Page) : list nat := flat_map uids (trees p).

Fixpoint nodupb (l : list nat) : bool :=
  match l with
  | [] => true
  | x :: rest => negb (existsb (Nat.eqb x) rest) && nodupb rest
  end.

Definition wellFormed (p : Page) : bool :=
  nodupb (allUids p) && forallb (fun u => Nat.ltb u (nextUid p)) (allUids p).

(** *** Places in a tree *)

(** One level of a path from the root to a node: the parent element and
    the siblings before and after the node.  [plug frames n] is the tree
    with [n] at the end of the path [frames], outermost level first. *)
Record Frame := {
  f_elem : Element;
  f_before : list Node;
  f_after : list Node
}.

Definition plugFrame (n : Node) (fr : Frame) : Node :=
  ElementNode (f_elem fr) (f_before fr ++ n :: f_after fr).

Fixpoint plug (frames : list Frame) (n : Node) : Node :=
  match frames with
  | [] => n
  | fr :: rest => plugFrame (plug rest n) fr
  end.

Definition frameUids (fr : Frame) : list nat :=
  uid (f_elem fr) :: flat_map uids (f_before fr) ++ flat_map uids (f_after fr).

(** [f] applied to the element [u] only. *)
Definition atUid (u : nat) (f : Element -> Element) (e : Element) : Element :=
  if Nat.eqb (uid e) u then f e else e.

Definition atUidLocated (u : nat) (f : Element -> Element) (l : Located) : Located :=
  (atUid u f (fst l), map (atUid u f) (snd l)).

(** *** The elements of a page *)

Definition elements (n : Node) : list Element :=
  map fst (descendantsOrSelf [] n).

Definition pageElements (p : Page) : list Element :=
  flat_map elements (trees p).

End Dom.

(** ** The content script's side: one tab *)

(** The detail of an 'ai-firewall-unsafe-content' event. *)
Record Detail := {
  d_element : nat;
  d_type : ContentType;
  d_analysisResult : AnalysisResult
}.

(** The session's settings, as [chrome.storage.sync] returns them. *)
Record Settings := {
  filteringLevel : option string;
  settingsAgeGroup : string;
  enabledCategories : list string;
  allowlist : list string
}.

(** An entry of the scan queue, [{type, element, content, timestamp}]. *)
Record Item := {
  i_type : ContentType;
  i_element : nat;
  i_content : string;
  i_timestamp : Z
}.

(** Closures the manipulator registers as click listeners. *)
Inductive Listener :=
| ReplacementClick (container original : nat) (type : ContentType)
| RemoveBlur (element : nat)
| ShowHidden (button element : nat) (originalDisplay : string).

(** What an asynchronous function of the scanner is suspended on. *)
Inductive Await :=
| AwaitImageData (item : Item)
| AwaitResponse (item : Item).

(** The state of a tab: the page, the [DOMManipulator] instance
    ([blockedElements], [replacementElements] and its listeners), the
    [ContentScanner] instance ([scanQueue], [isScanning], [settings], its
    timers and observer), the suspended analyses, the messages sent to
    the service worker, and two histories: every [scanQueue.push] and
    every unsafe-content event dispatched. *)
Record Tab := {
  page : Dom.Page;
  hostname : string;
  blockedElements : list nat;
  replacementElements : list (nat * nat);
  listeners : list Listener;
  scanQueue : list Item;
  isScanning : bool;
  settings : option Settings;
  intervals : nat;
  timeouts : nat;
  observing : bool;
  awaiting : list (nat * Await);
  outbox : list (nat * Message);
  nextRequest : nat;
  pushed : list Item;
  dispatched : list Detail
}.

Module Tabs.

Definition setPage (v : Dom.Page) (t : Tab) : Tab :=
  {| page := v; hostname := hostname t;
     blockedElements := blockedElements t;
     replacementElements := replacementElements t; listeners := listeners t;
     scanQueue := scanQueue t; isScanning := isScanning t;
     settings := settings t; intervals := intervals t; timeouts := timeouts t;
     observing := observing t; awaiting := awaiting t; outbox := outbox t;
     nextRequest := nextRequest t; pushed := pushed t;
     dispatched := dispatched t |}.

Definition setBlockedElements (v : list nat) (t : Tab) : Tab :=
  {| page := page t; hostname := hostname t;
     blockedElements := v;
     replacementElements := replacementElements t; listeners := listeners t;
     scanQueue := scanQueue t; isScanning := isScanning t;
     settings := settings t; intervals := intervals t; timeouts := timeouts t;
     observing := observing t; awaiting := awaiting t; outbox := outbox t;
     nextRequest := nextRequest t; pushed := pushed t;
     dispatched := dispatched t |}.

Definition setReplacementElements (v : list (nat * nat)) (t : Tab) : Tab :=
  {| page := page t; hostname := hostname t;
     blockedElements := blockedElements t;
     replacementElements := v; listeners := listeners t;
     scanQueue := scanQueue t; isScanning := isScanning t;
     settings := settings t; intervals := intervals t; timeouts := timeouts t;
     observing := observing t; awaiting := awaiting t; outbox := outbox t;
     nextRequest := nextRequest t; pushed := pushed t;
     dispatched := dispatched t |}.

Definition setListeners (v : list Listener) (t : Tab) : Tab :=
  {| page := page t; hostname := hostname t;
     blockedElements := blockedElements t;
     replacementElements := replacementElements t; listeners := v;
     scanQueue := scanQueue t; isScanning := isScanning t;
     settings := settings t; intervals := intervals t; timeouts := timeouts t;
     observing := observing t; awaiting := awaiting t; outbox := outbox t;
     nextRequest := nextRequest t; pushed := pushed t;
     dispatched := dispatched t |}.

Definition setScanQueue (v : list Item) (t : Tab) : Tab :=
  {| page := page t; hostname := hostname t;
     blockedElements := blockedElements t;
     replacementElements := replacementElements t; listeners := listeners t;
     scanQueue := v; isScanning := isScanning t;
     settings := settings t; intervals := intervals t; timeouts := timeouts t;
     observing := observing t; awaiting := awaiting t; outbox := outbox t;
     nextRequest := nextRequest t; pushed := pushed t;
     dispatched := dispatched t |}.

Definition setIsScanning (v : bool) (t : Tab) : Tab :=
  {| page := page t; hostname := hostname t;
     blockedElements := blockedElements t;
     replacementElements := replacementElements t; listeners := listeners t;
     scanQueue := scanQueue t; isScanning := v;
     settings := settings t; intervals := intervals t; timeouts := timeouts t;
     observing := observing t; awaiting := awaiting t; outbox := outbox t;
     nextRequest := nextRequest t; pushed := pushed t;
     dispatched := dispatched t |}.

Definition setSettings (v : option Settings) (t : Tab) : Tab :=
  {| page := page t; hostname := hostname t;
     blockedElements := blockedElements t;
     replacementElements := replacementElements t; listeners := listeners t;
     scanQueue := scanQueue t; isScanning := isScanning t;
     settings := v; intervals := intervals t; timeouts := timeouts t;
     observing := observing t; awaiting := awaiting t; outbox := outbox t;
     nextRequest := nextRequest t; pushed := pushed t;
     dispatched := dispatched t |}.

Definition setIntervals (v : nat) (t : Tab) : Tab :=
  {| page := page t; hostname := hostname t;
     blockedElements := blockedElements t;
     replacementElements := replacementElements t; listeners := listeners t;
     scanQueue := scanQueue t; isScanning := isScanning t;
     settings := settings t; intervals := v; timeouts := timeouts t;
     observing := observing t; awaiting := awaiting t; outbox := outbox t;
     nextRequest := nextRequest t; pushed := pushed t;
     dispatched := dispatched t |}.

Definition setTimeouts (v : nat) (t : Tab) : Tab :=
  {| page := page t; hostname := hostname t;
     blockedElements := blockedElements t;
     replacementElements := replacementElements t; listeners := listeners t;
     scanQueue := scanQueue t; isScanning := isScanning t;
     settings := settings t; intervals := intervals t; timeouts := v;
     observing := observing t; awaiting := awaiting t; outbox := outbox t;
     nextRequest := nextRequest t; pushed := pushed t;
     dispatched := dispatched t |}.

Definition setObserving (v : bool) (t : Tab) : Tab :=
  {| page := page t; hostname := hostname t;
     blockedElements := blockedElements t;
     replacementElements := replacementElements t; listeners := listeners t;
     scanQueue := scanQueue t; isScanning := isScanning t;
     settings := settings t; intervals := intervals t; timeouts := timeouts t;
     observing := v; awaiting := awaiting t; outbox := outbox t;
     nextRequest := nextRequest t; pushed := pushed t;
     dispatched := dispatched t |}.

Definition setAwaiting (v : list (nat * Await)) (t : Tab) : Tab :=
  {| page := page t; hostname := hostname t;
     blockedElements := blockedElements t;
     replacementElements := replacementElements t; listeners := listeners t;
     scanQueue := scanQueue t; isScanning := isScanning t;
     settings := settings t; intervals := intervals t; timeouts := timeouts t;
     observing := observing t; awaiting := v; outbox := outbox t;
     nextRequest := nextRequest t; pushed := pushed t;
     dispatched := dispatched t |}.

(** [chrome.runtime.sendMessage(message, resolve)]: the message leaves
    with a fresh number, by which its answer comes back. *)
Definition sendMessage (m : Message) (k : Await) (t : Tab) : Tab :=
  {| page := page t; hostname := hostname t;
     blockedElements := blockedElements t;
     replacementElements := replacementElements t; listeners := listeners t;
     scanQueue := scanQueue t; isScanning := isScanning t;
     settings := settings t; intervals := intervals t; timeouts := timeouts t;
     observing := observing t;
     awaiting := awaiting t ++ [(nextRequest t, k)];
     outbox := outbox t ++ [(nextRequest t, m)];
     nextRequest := S (nextRequest t); pushed := pushed t;
     dispatched := dispatched t |}.

(** Suspend on a promise that is not a message (the image load). *)
Definition suspend (k : Await) (t : Tab) : Tab :=
  {| page := page t; hostname := hostname t;
     blockedElements := blockedElements t;
     replacementElements := replacementElements t; listeners := listeners t;
     scanQueue := scanQueue t; isScanning := isScanning t;
     settings := settings t; intervals := intervals t; timeouts := timeouts t;
     observing := observing t;
     awaiting := awaiting t ++ [(nextRequest t, k)];
     outbox := outbox t;
     nextRequest := S (nextRequest t); pushed := pushed t;
     dispatched := dispatched t |}.

Definition recordPush (i : Item) (t : Tab) : Tab :=
  {| page := page t; hostname := hostname t;
     blockedElements := blockedElements t;
     replacementElements := replacementElements t; listeners := listeners t;
     scanQueue := scanQueue t ++ [i]; isScanning := isScanning t;
     settings := settings t; intervals := intervals t; timeouts := timeouts t;
     observing := observing t; awaiting := awaiting t; outbox := outbox t;
     nextRequest := nextRequest t; pushed := pushed t ++ [i];
     dispatched := dispatched t |}.

Definition recordDispatch (d : Detail) (t : Tab) : Tab :=
  {| page := page t; hostname := hostname t;
     blockedElements := blockedElements t;
     replacementElements := replacementElements t; listeners := listeners t;
     scanQueue := scanQueue t; isScanning := isScanning t;
     settings := settings t; intervals := intervals t; timeouts := timeouts t;
     observing := observing t; awaiting := awaiting t; outbox := outbox t;
     nextRequest := nextRequest t; pushed := pushed t;
     dispatched := dispatched t ++ [d] |}.

(** A freshly loaded tab, before the scripts' constructors have run. *)
Definition fresh (p : Dom.Page) (host : string) : Tab :=
  {| page := p; hostname := host; blockedElements := [];
     replacementElements := []; listeners := []; scanQueue := [];
     isScanning := false; settings := None; intervals := 0%nat;
     timeouts := 0%nat; observing := false; awaiting := []; outbox := [];
     nextRequest := 0%nat; pushed := []; dispatched := [] |}.

End Tabs.

(** ** The DOM manipulator *)

Module DOMManipulator.
Import Tabs.

Inductive Method := replace | blur | hide.

Definition typeName (type : ContentType) : string :=
  match type with text => "text" | image => "image" end.

Definition getBlockingMethod (type : ContentType) (analysisResult : AnalysisResult)
  : Method :=
  let confidence := confidence analysisResult in
  let flaggedCategories :=
    match flagged_categories analysisResult with Some l => l | None => [] end in
  (* High confidence or severe categories -> replace *)
  if (0.8 <? confidence)%float || Js.arrayIncludes "severe_toxic" flaggedCategories
  then replace
  (* Medium confidence -> blur *)
  else if (0.6 <? confidence)%float then blur
  (* Low confidence -> replace with option to show *)
  else replace.

Definition categoryLabels : list (string * string) :=
  [ ("toxic", "Toxic language");
    ("severe_toxic", "Severely toxic content");
    ("obscene", "Obscene content");
    ("threat", "Threatening language");
    ("insult", "Insulting content");
    ("identity_hate", "Hate speech");
    ("nsfw", "Adult content");
    ("violence", "Violent content");
    ("drugs", "Drug-related content");
    ("weapons", "Weapon-related content") ].

Definition getBlockingReason (analysisResult : AnalysisResult) : string :=
  let categories :=
    match flagged_categories analysisResult with Some l => l | None => [] end in
  match categories with
  | [] => "Potentially inappropriate content"
  | _ =>
      Js.join ", "
        (map (fun cat => match Js.get String.eqb cat categoryLabels with
                         | Some label => label
                         | None =>
                             (* [categoryLabels[cat]] finds an inherited member *)
                             if Js.arrayIncludes cat Js.objectPrototype
                             then Js.memberText cat
                             else cat
                         end) categories)
  end.

(** The placeholder built by [createReplacementElement]: a [div] with
    the icon, message, details and the two buttons of its [innerHTML]
    (the icon's glyph is left out).  It takes seven fresh identities and
    is not attached yet; its click listener is registered. *)
Definition replacementNode (u : nat) (type : ContentType)
    (analysisResult : AnalysisResult) : Dom.Node :=
  let typeLabel := match type with image => "Image" | text => "Text" end in
  let el (k : nat) (tag : string) (classes : list string)
         (attrs : list (string * string)) :=
    Dom.setClassList classes
      (fold_right (fun a e => Dom.setAttribute (fst a) (snd a) e)
                  (Dom.blank (k + u) tag) attrs) in
  Dom.ElementNode
    (el 0%nat "div"
        ["ai-firewall-blocked"; ("ai-firewall-blocked-" ++ typeName type)%string] [])
    [ Dom.ElementNode (el 1%nat "div" ["ai-firewall-icon"] []) [];
      Dom.ElementNode (el 2%nat "div" ["ai-firewall-message"] [])
        [Dom.TextNode (typeLabel ++ " blocked by AI-Firewall")%string];
      Dom.ElementNode (el 3%nat "div" ["ai-firewall-details"] [])
        [Dom.TextNode ("Reason: " ++ getBlockingReason analysisResult)%string];
      Dom.ElementNode (el 4%nat "div" ["ai-firewall-actions"] [])
        [ Dom.ElementNode
            (el 5%nat "button" ["ai-firewall-btn"; "ai-firewall-btn-primary"]
                [("data-action", "show")])
            [Dom.TextNode "Show Content"];
          Dom.ElementNode
            (el 6%nat "button" ["ai-firewall-btn"] [("data-action", "report")])
            [Dom.TextNode "Report Issue"] ] ].

Definition createReplacementElement (originalElement : nat) (type : ContentType)
    (analysisResult : AnalysisResult) (t : Tab) : nat * Tab :=
  let p := page t in
  let u := Dom.nextUid p in
  let p1 := {| Dom.document := Dom.document p;
               Dom.detached := Dom.detached p ++ [replacementNode u type analysisResult];
               Dom.nextUid := (7 + u)%nat |} in
  (u, setListeners (listeners t ++ [ReplacementClick u originalElement type])
        (setPage p1 t)).

(** [replaceContent].  When [element.parentNode] is [null] the last
    statement throws; the map entry written before it stays. *)
Definition replaceContent (element : nat) (type : ContentType)
    (analysisResult : AnalysisResult) (t : Tab) : Tab :=
  let (replacement, t1) := createReplacementElement element type analysisResult t in
  (* Store original element for potential restoration *)
  let t2 := setReplacementElements
              (Js.set Nat.eqb replacement element (replacementElements t1)) t1 in
  (* Replace in DOM *)
  match Dom.replaceChild replacement element (page t2) with
  | Some p => setPage p t2
  | None => t2
  end.

Definition blurContent (element : nat) (type : ContentType)
    (analysisResult : AnalysisResult) (t : Tab) : Tab :=
  let title :=
    ("Content blurred by AI-Firewall. Reason: "
       ++ getBlockingReason analysisResult ++ ". Click to reveal.")%string in
  let p1 := Dom.updateElement element
              (Dom.classList_add "ai-firewall-blurred") (page t) in
  let t1 := setListeners (listeners t ++ [RemoveBlur element]) (setPage p1 t) in
  setPage (Dom.updateElement element (Dom.setAttribute "title" title) (page t1)) t1.

(** [hideContent].  When [element.parentNode] is [null] the insertion of
    the button throws; the element stays hidden. *)
Definition hideContent (element : nat) (type : ContentType)
    (analysisResult : AnalysisResult) (t : Tab) : Tab :=
  let originalDisplay :=
    match Dom.locate element (page t) with
    | Some l => Dom.styleDisplay (fst l)
    | None => ""
    end in
  let p1 := Dom.updateElement element
              (Dom.setAttribute "data-original-display" originalDisplay) (page t) in
  let p2 := Dom.updateElement element (Dom.setStyleDisplay "none") p1 in
  let u := Dom.nextUid p2 in
  let button :=
    Dom.ElementNode
      (Dom.setClassList ["ai-firewall-btn"; "ai-firewall-btn-primary"]
                        (Dom.blank u "button"))
      [Dom.TextNode ("Show hidden " ++ typeName type)%string] in
  let p3 := {| Dom.document := Dom.document p2;
               Dom.detached := Dom.detached p2 ++ [button];
               Dom.nextUid := S u |} in
  let t1 := setListeners (listeners t ++ [ShowHidden u element originalDisplay])
              (setPage p3 t) in
  match Dom.insertBefore u element (page t1) with
  | Some p => setPage p t1
  | None => t1
  end.

Definition handleUnsafeContent (detail : Detail) (t : Tab) : Tab :=
  let element := d_element detail in
  let type := d_type detail in
  let analysisResult := d_analysisResult detail in
  if Js.setHas element (blockedElements t) then t (* Already handled *)
  else
    let t1 := setBlockedElements (Js.setAdd element (blockedElements t)) t in
    (* Choose blocking method based on content type and severity *)
    match getBlockingMethod type analysisResult with
    | replace => replaceContent element type analysisResult t1
    | blur => blurContent element type analysisResult t1
    | hide => hideContent element type analysisResult t1
    end.

(** [showOriginalContent]; [confirmed] is the answer to [confirm(...)].
    When [replacement.parentNode] is [null] the first statement throws
    and nothing changes. *)
Definition showOriginalContent (replacement originalElement : nat)
    (confirmed : bool) (t : Tab) : Tab :=
  if confirmed then
    (* Replace back with original *)
    match Dom.replaceChild originalElement replacement (page t) with
    | None => t
    | Some p =>
        (* Mark as safe to prevent re-scanning *)
        let p1 := Dom.updateElement originalElement
                    (Dom.classList_add "ai-firewall-safe") p in
        (* Clean up *)
        setBlockedElements (Js.setDelete originalElement (blockedElements t))
          (setReplacementElements
             (Js.delete Nat.eqb replacement (replacementElements t))
             (setPage p1 t))
    end
  else t.

Definition sameListener (a b : Listener) : bool :=
  match a, b with
  | RemoveBlur x, RemoveBlur y => Nat.eqb x y
  | _, _ => false
  end.

(** The closure [removeBlur] of [blurContent]. *)
Definition removeBlur (element : nat) (t : Tab) : Tab :=
  let p1 := Dom.updateElement element
              (Dom.classList_remove "ai-firewall-blurred") (page t) in
  let ls := filter (fun l => negb (sameListener (RemoveBlur element) l)) (listeners t) in
  (* Mark as safe *)
  let p2 := Dom.updateElement element (Dom.classList_add "ai-firewall-safe") p1 in
  setBlockedElements (Js.setDelete element (blockedElements t))
    (setListeners ls (setPage p2 t)).

(** The click listener of the button [hideContent] inserts. *)
Definition showHidden (button element : nat) (originalDisplay : string) (t : Tab)
  : Tab :=
  let p1 := Dom.updateElement element (Dom.setStyleDisplay originalDisplay) (page t) in
  let p2 := Dom.remove button p1 in
  let p3 := Dom.updateElement element (Dom.classList_add "ai-firewall-safe") p2 in
  setBlockedElements (Js.setDelete element (blockedElements t)) (setPage p3 t).

(** [restoreAllContent].  A [replaceChild] that throws ends the call
    where it stands. *)
Fixpoint restoreReplaced (l : list (nat * nat)) (p : Dom.Page) : option Dom.Page :=
  match l with
  | [] => Some p
  | (replacement, original) :: rest =>
      match Dom.parentNode replacement p with
      | Some _ =>
          match Dom.replaceChild original replacement p with
          | Some p1 => restoreReplaced rest p1
          | None => None
          end
      | None => restoreReplaced rest p
      end
  end.

Definition restoreAllContent (t : Tab) : Tab :=
  (* Restore all replaced content *)
  match restoreReplaced (replacementElements t) (page t) with
  | None => t
  | Some p1 =>
      (* Remove all blur effects *)
      let p2 := fold_left
                  (fun p u => Dom.updateElement u
                                (Dom.classList_remove "ai-firewall-blurred") p)
                  (Dom.querySelectorAll [[Dom.Class "ai-firewall-blurred"]] p1) p1 in
      (* Show all hidden content *)
      let p3 := fold_left
                  (fun p u => Dom.updateElement u
                                (fun e => Dom.setStyleDisplay
                                            (match Dom.getAttribute "data-original-display" e with
                                             | Some v => v
                                             | None => ""
                                             end) e) p)
                  (Dom.querySelectorAll [[Dom.Attr "data-original-display"]] p2) p2 in
      (* Clear tracking *)
      setBlockedElements [] (setReplacementElements [] (setPage p3 t))
  end.

Definition getBlockedCount (t : Tab) : Z := Z.of_nat (List.length (blockedElements t)).

(** What the user does to the manipulator's elements.  A click reaches
    the closure registered for the element. *)
Inductive UserEvent :=
| ClickShow (container : nat) (confirmed : bool)
| ClickBlurred (element : nat)
| ClickShowHidden (button : nat)
| RestoreAll.

Definition onUser (e : UserEvent) (t : Tab) : Tab :=
  match e with
  | ClickShow container confirmed =>
      match find (fun l => match l with
                           | ReplacementClick c _ _ => Nat.eqb c container
                           | _ => false
                           end) (listeners t) with
      | Some (ReplacementClick c original _) =>
          showOriginalContent c original confirmed t
      | _ => t
      end
  | ClickBlurred element =>
      if existsb (sameListener (RemoveBlur element)) (listeners t)
      then removeBlur element t else t
  | ClickShowHidden button =>
      match find (fun l => match l with
                           | ShowHidden b _ _ => Nat.eqb b button
                           | _ => false
                           end) (listeners t) with
      | Some (ShowHidden b element originalDisplay) =>
          showHidden b element originalDisplay t
      | _ => t
      end
  | RestoreAll => restoreAllContent t
  end.

(** [analysisResult.flagged_categories || []], and an unsafe verdict
    with a given confidence and labels. *)
Definition categoriesOf (r : AnalysisResult) : list string :=
  match flagged_categories r with Some l => l | None => [] end.

Definition verdict (c : float) (cats : list string) : AnalysisResult :=
  {| is_safe := false; confidence := c; flagged_categories := Some cats |}.

End DOMManipulator.

(** ** The content scanner *)

Module ContentScanner.
Import Tabs.

Definition tags (l : list string) : list Dom.Selector :=
  map (fun t => [Dom.Tag t]) l.

(** Selectors for content to scan *)
Definition textSelectors : list Dom.Selector :=
  tags ["p"; "div"; "span"; "h1"; "h2"; "h3"; "h4"; "h5"; "h6";
        "article"; "section"; "main"; "aside"; "blockquote";
        "li"; "td"; "th"; "caption"; "figcaption"]
  ++ [ [Dom.Class "g"]; [Dom.Class "rc"]; [Dom.Class "r"]; [Dom.Class "s"];
       [Dom.Class "st"]; [Dom.Attr "data-ved"]; [Dom.Class "LC20lb"] ].

Definition imageSelectors : list Dom.Selector := tags ["img"; "picture"; "svg"].

(** Elements to ignore *)
Definition ignoreSelectors : list Dom.Selector :=
  tags ["script"; "style"; "noscript"; "meta"; "link"; "title"]
  ++ [ [Dom.Class "ai-firewall-blocked"]; [Dom.Class "ai-firewall-safe"] ].

Definition googleSelectors : list Dom.Selector :=
  [ [Dom.Class "g"; Dom.Class "LC20lb"];
    [Dom.Class "g"; Dom.Class "VwiC3b"];
    [Dom.Class "g"; Dom.Class "s"; Dom.Class "st"];
    [Dom.Class "g"; Dom.Class "r"; Dom.Tag "a"];
    [Dom.Id "search"; Dom.Class "g"];
    [Dom.Class "srg"; Dom.Class "g"] ].

Definition defaultSettings : Settings :=
  {| filteringLevel := Some "moderate";
     settingsAgeGroup := "moderate";
     enabledCategories := ["explicit"; "violence"; "hate"];
     allowlist := [] |}.

(** [loadSettings], given how the GET_SETTINGS message is answered:
    [Some (Some s)] for [{success: true, settings: s}], [Some None] for
    an unsuccessful answer (the defaults are used), [None] when reading
    the answer throws ([settings] stays [null]). *)
Definition loadSettings (answer : option (option Settings)) (t : Tab) : Tab :=
  match answer with
  | Some (Some s) => setSettings (Some s) t
  | Some None => setSettings (Some defaultSettings) t
  | None => t
  end.

(** [isAllowlisted]; [None] when [settings] is [null] (a TypeError). *)
Definition isAllowlisted (t : Tab) : option bool :=
  let currentDomain := hostname t in
  match settings t with
  | None => None
  | Some s =>
      Some (existsb (fun domain => Js.includes currentDomain domain
                                   || Js.includes domain currentDomain)
                    (allowlist s))
  end.

Definition processedAttribute : string := "data-ai-firewall-processed".

Definition shouldIgnoreElement (element : nat) (t : Tab) : bool :=
  match Dom.locate element (page t) with
  | None => true
  | Some l =>
      (* Check if element or parent has ignore class *)
      if Dom.closest ignoreSelectors l then true
      (* Check if already processed *)
      else if Dom.hasAttribute processedAttribute (fst l) then true
      (* Check if element is hidden *)
      else if String.eqb (Dom.computedDisplay (fst l)) "none"
              || String.eqb (Dom.computedVisibility (fst l)) "hidden" then true
      else false
  end.

Definition extractText (element : nat) (t : Tab) : string :=
  match Dom.findInPage element (page t) with
  | Some n => Js.trim (Dom.textContent n)
  | None => ""
  end.

Definition shouldAnalyzeText (txt : string) : bool :=
  let len := Z.of_nat (String.length txt) in
  (* Skip if too short or too long *)
  if (len <? 5) || (5000 <? len) then false
  (* Skip if only numbers/symbols *)
  else if negb (Js.hasLetter txt) then false
  else true.

Definition shouldAnalyzeImage (element : nat) (t : Tab) : bool :=
  match Dom.locate element (page t) with
  | None => false
  | Some (e, _) =>
      (* Skip if no src *)
      if String.eqb (Dom.src e) "" && String.eqb (Dom.srcset e) "" then false
      (* Skip if too small (likely icons) *)
      else if (Dom.width e <? 50) || (Dom.height e <? 50) then false
      else true
  end.

Definition thresholds (type : ContentType) : list (string * float) :=
  match type with
  | text => [("mild", 0.8%float); ("moderate", 0.6%float); ("strict", 0.4%float)]
  | image => [("mild", 0.7%float); ("moderate", 0.5%float); ("strict", 0.3%float)]
  end.

(** What [thresholds[type][level] || 0.6] evaluates to: a number, or
    the member of [Object.prototype] the level names. *)
Inductive Threshold :=
| Number (v : float)
| Inherited (member : string).

(** [getThreshold(type)] under the settings [s]:
    [thresholds[type][level] || 0.6].  An undefined level is looked up
    as the property ["undefined"].  The table is an object literal: a
    level it has no own property for is looked up in [Object.prototype],
    and what is found there is truthy, so [||] returns it. *)
Definition getThreshold (type : ContentType) (s : Settings) : Threshold :=
  let level := match filteringLevel s with Some l => l | None => "undefined" end in
  match Js.get String.eqb level (thresholds type) with
  | Some v => if Js.truthyNumber v then Number v else Number 0.6%float
  | None =>
      if Js.arrayIncludes level Js.objectPrototype then Inherited level
      else Number 0.6%float
  end.

(** The [threshold] of a message, as the worker's handlers read it.  A
    number travels as it is.  An inherited member is a function or an
    object: it does not arrive as a number, and [NaN] stands for what
    arrives, no number that the table or the fallback gives. *)
Definition onTheWire (v : Threshold) : float :=
  match v with
  | Number a => a
  | Inherited _ => PrimFloat.nan
  end.

(** [this.handleUnsafeContent]: the event is dispatched, and the
    manipulator's listener runs before [dispatchEvent] returns.  An
    exception in the listener does not come back to the dispatcher. *)
Definition handleUnsafeContent (element : nat) (type : ContentType)
    (analysisResult : AnalysisResult) (t : Tab) : Tab :=
  let detail := {| d_element := element; d_type := type;
                   d_analysisResult := analysisResult |} in
  DOMManipulator.handleUnsafeContent detail (recordDispatch detail t).

(** The end of [processQueue], after its [try]/[catch]. *)
Definition continueProcessing (t : Tab) : Tab :=
  match scanQueue t with
  | [] => t
  | _ :: _ => setTimeouts (S (timeouts t)) t
  end.

(** [analyzeText] up to its [await].  With [settings] null,
    [getThreshold] throws; [processQueue] catches and goes on. *)
Definition analyzeText (item : Item) (t : Tab) : Tab :=
  match settings t with
  | None => continueProcessing t
  | Some s =>
      sendMessage
        (ANALYZE_TEXT {| payload := i_content item;
                         threshold := onTheWire (getThreshold text s);
                         ageGroup := settingsAgeGroup s |})
        (AwaitResponse item) t
  end.

(** [analyzeImage] up to its first [await], the image load of
    [getImageData]. *)
Definition analyzeImage (item : Item) (t : Tab) : Tab :=
  suspend (AwaitImageData item) t.

Definition markProcessed (element : nat) (t : Tab) : Tab :=
  setPage (Dom.updateElement element
             (Dom.setAttribute processedAttribute "true") (page t)) t.

(** [processQueue] up to its [await]. *)
Definition processQueue (t : Tab) : Tab :=
  match scanQueue t with
  | [] => t
  | item :: rest =>
      let t1 := setScanQueue rest t in
      (* Mark as processed *)
      let t2 := markProcessed (i_element item) t1 in
      match i_type item with
      | text => analyzeText item t2
      | image => analyzeImage item t2
      end
  end.

Definition queueTextAnalysis (element : nat) (txt : string) (now : Z) (t : Tab)
  : Tab :=
  processQueue
    (recordPush {| i_type := text; i_element := element; i_content := txt;
                   i_timestamp := now |} t).

Definition queueImageAnalysis (element : nat) (now : Z) (t : Tab) : Tab :=
  processQueue
    (recordPush {| i_type := image; i_element := element; i_content := "";
                   i_timestamp := now |} t).

(** The body of the [forEach] over text candidates. *)
Definition visitText (now : Z) (t : Tab) (element : nat) : Tab :=
  if shouldIgnoreElement element t then t
  else
    let txt := extractText element t in
    if shouldAnalyzeText txt then queueTextAnalysis element txt now t else t.

(** The body of the [forEach] over image candidates. *)
Definition visitImage (now : Z) (t : Tab) (element : nat) : Tab :=
  if shouldIgnoreElement element t then t
  else if shouldAnalyzeImage element t then queueImageAnalysis element now t
  else t.

Definition scanTextContent (now : Z) (t : Tab) : Tab :=
  fold_left (visitText now) (Dom.querySelectorAll textSelectors (page t)) t.

Definition scanImageContent (now : Z) (t : Tab) : Tab :=
  fold_left (visitImage now) (Dom.querySelectorAll imageSelectors (page t)) t.

Definition scanGoogleSearchResults (now : Z) (t : Tab) : Tab :=
  fold_left
    (fun t1 selector =>
       fold_left (visitText now) (Dom.querySelectorAll [selector] (page t1)) t1)
    googleSelectors t.

Definition scanExistingContent (now : Z) (t : Tab) : Tab :=
  (* Scan text content *)
  let t1 := scanTextContent now t in
  (* Special handling for Google search *)
  let t2 := if Js.includes (hostname t1) "google."
            then scanGoogleSearchResults now t1 else t1 in
  (* Scan images *)
  scanImageContent now t2.

(** [continuousScanning]: one more interval timer. *)
Definition continuousScanning (t : Tab) : Tab :=
  setIntervals (S (intervals t)) t.

(** [startScanning].  With [settings] null, [isAllowlisted] throws
    after [isScanning] was set. *)
Definition startScanning (now : Z) (t : Tab) : Tab :=
  if isScanning t then t
  else
    let t1 := setIsScanning true t in
    (* Check if current site is in allowlist *)
    match isAllowlisted t1 with
    | None => t1
    | Some true => t1
    | Some false =>
        (* Scan existing content; continue scanning new content *)
        continuousScanning (scanExistingContent now t1)
    end.

(** The callback of the interval timer. *)
Definition periodicRescan (now : Z) (t : Tab) : Tab :=
  match isAllowlisted t with
  | Some false => scanExistingContent now t
  | _ => t
  end.

Definition scanNewElement (now : Z) (element : nat) (t : Tab) : Tab :=
  (* Scan text in new element *)
  let t1 := fold_left (visitText now)
              (Dom.querySelectorAllIn textSelectors element (page t)) t in
  (* Scan images in new element *)
  fold_left (visitImage now)
    (Dom.querySelectorAllIn imageSelectors element (page t1)) t1.

(** The mutation observer's callback, for the element nodes added. *)
Definition onMutations (now : Z) (addedNodes : list nat) (t : Tab) : Tab :=
  fold_left (fun t1 node => scanNewElement now node t1) addedNodes t.

Definition setupMutationObserver (t : Tab) : Tab := setObserving true t.

(** [init], once the settings message is answered.  With [settings]
    still null, [startScanning] throws in [isAllowlisted] and the
    observer is not set up, unless the scanner is marked as scanning
    already: then [startScanning] returns at its first test. *)
Definition init (answer : option (option Settings)) (now : Z) (t : Tab) : Tab :=
  let t1 := loadSettings answer t in
  match settings t1 with
  | None =>
      if isScanning t1 then setupMutationObserver (startScanning now t1)
      else startScanning now t1
  | Some _ => setupMutationObserver (startScanning now t1)
  end.

Definition findAwaiting (id : nat) (t : Tab) : option Await :=
  Js.get Nat.eqb id (awaiting t).

Definition dropAwaiting (id : nat) (t : Tab) : Tab :=
  setAwaiting (Js.delete Nat.eqb id (awaiting t)) t.

(** [analyzeText] / [analyzeImage] after the service worker answered,
    then the end of [processQueue]. *)
Definition onResponse (id : nat) (response : Response) (t : Tab) : Tab :=
  match findAwaiting id t with
  | Some (AwaitResponse item) =>
      let t1 := dropAwaiting id t in
      let t2 :=
        match response with
        | Success result =>
            if negb (is_safe result)
            then handleUnsafeContent (i_element item) (i_type item) result t1
            else t1
        | Failure _ => t1
        end in
      continueProcessing t2
  | _ => t
  end.

(** [analyzeImage] after [getImageData] settled: [Some dataURL], or
    [None] when the image failed to load (caught and logged). *)
Definition onImageData (id : nat) (imageData : option string) (t : Tab) : Tab :=
  match findAwaiting id t with
  | Some (AwaitImageData item) =>
      let t1 := dropAwaiting id t in
      match imageData, settings t1 with
      | Some d, Some s =>
          sendMessage
            (ANALYZE_IMAGE {| payload := d;
                              threshold := onTheWire (getThreshold image s);
                              ageGroup := settingsAgeGroup s |})
            (AwaitResponse item) t1
      | _, _ => continueProcessing t1
      end
  | _ => t
  end.

(** The timer set at the end of [processQueue] fires. *)
Definition onTimeout (t : Tab) : Tab :=
  match timeouts t with
  | O => t
  | S n => processQueue (setTimeouts n t)
  end.

Definition destroy (t : Tab) : Tab :=
  setScanQueue [] (setIsScanning false (setObserving false t)).




(** The mark [processQueue] puts on an element, on a page, and on a
    page for several elements in turn. *)
Definition mark : Dom.Element -> Dom.Element :=
  Dom.setAttribute processedAttribute "true".

Definition markPage (u : nat) (p : Dom.Page) : Dom.Page :=
  Dom.updateElement u mark p.

Definition markAll (us : list nat) (p : Dom.Page) : Dom.Page :=
  fold_left (fun q u => markPage u q) us p.

(** Selectors that do not look at the processed mark. *)
Definition plainSimple (s : Dom.Simple) : bool :=
  match s with
  | Dom.Attr a => negb (String.eqb a processedAttribute)
  | _ => true
  end.

Definition plainSelectors (sels : list Dom.Selector) : bool :=
  forallb (forallb plainSimple) sels.

(** A fragment the scanner would queue in the state [t]: a text
    candidate it does not ignore whose text is worth analysing, or an
    image candidate it does not ignore that is worth analysing. *)
Definition eligibleText (t : Tab) (element : nat) : Prop :=
  In element (Dom.querySelectorAll textSelectors (page t)) /\
  shouldIgnoreElement element t = false /\
  shouldAnalyzeText (extractText element t) = true.

Definition eligibleImage (t : Tab) (element : nat) : Prop :=
  In element (Dom.querySelectorAll imageSelectors (page t)) /\
  shouldIgnoreElement element t = false /\
  shouldAnalyzeImage element t = true.

(** The allowlist rule as the specification words it: some entry is a
    substring of the hostname. *)
Definition entryInHostname (host : string) (al : list string) : bool :=
  existsb (fun domain => Js.includes host domain) al.

(** The rule [isAllowlisted] applies: an entry is a substring of the
    hostname, or the hostname is a substring of an entry. *)
Definition listedEitherWay (host : string) (al : list string) : bool :=
  existsb (fun domain => Js.includes host domain || Js.includes domain host) al.

(** What the scanner would queue, judged in the state [t]. *)
Definition wantsText (t : Tab) (element : nat) : bool :=
  negb (shouldIgnoreElement element t)
  && shouldAnalyzeText (extractText element t).

Definition wantsImage (t : Tab) (element : nat) : bool :=
  negb (shouldIgnoreElement element t) && shouldAnalyzeImage element t.

(** [t'] is [t] after some scanning that queued [items], in this order:
    the queue is empty again, the page differs by the marks of the
    queued elements, which are distinct and were not ignored in [t]. *)
Definition since (t t' : Tab) (items : list Item) : Prop :=
  scanQueue t' = [] /\
  pushed t' = pushed t ++ items /\
  page t' = markAll (map i_element items) (page t) /\
  hostname t' = hostname t /\
  NoDup (map i_element items) /\
  (forall x, In x (map i_element items) -> shouldIgnoreElement x t = false).

End ContentScanner.

(** ** The content script's controller (visibility handling) *)

Module ContentScript.
Import Tabs.

Definition pauseScanning (t : Tab) : Tab := setIsScanning false t.

Definition resumeScanning (isEnabled : bool) (now : Z) (t : Tab) : Tab :=
  if isEnabled
  then ContentScanner.startScanning now (setIsScanning true t)
  else t.

End ContentScript.

(** ** The pipeline: a tab and the service worker *)

Module Pipeline.

Record System := {
  tab : Tab;
  worker : ServiceWorker.State
}.

(** What happens, one task at a time. *)
Inductive Event :=
| Init (answer : option (option Settings)) (now : Z)
| Rescan (now : Z)
| Mutations (now : Z) (addedNodes : list nat)
| Timeout
| ImageData (id : nat) (imageData : option string)
| User (e : DOMManipulator.UserEvent)
| Deliver (id : nat) (now : Z)
| FetchSettled (id : nat) (o : ServiceWorker.FetchOutcome) (now : Z)
               (storageError : option string)
| Answer (id : nat).

Definition onTab (f : Tab -> Tab) (s : System) : System :=
  {| tab := f (tab s); worker := worker s |}.

Definition onWorker (e : ServiceWorker.Event) (s : System) : System :=
  {| tab := tab s; worker := ServiceWorker.step (worker s) e |}.

Definition takeFromOutbox (id : nat) (t : Tab) : Tab :=
  {| page := page t; hostname := hostname t;
     blockedElements := blockedElements t;
     replacementElements := replacementElements t; listeners := listeners t;
     scanQueue := scanQueue t; isScanning := isScanning t;
     settings := settings t; intervals := intervals t; timeouts := timeouts t;
     observing := observing t; awaiting := awaiting t;
     outbox := Js.delete Nat.eqb id (outbox t);
     nextRequest := nextRequest t; pushed := pushed t;
     dispatched := dispatched t |}.

Definition step (s : System) (e : Event) : System :=
  match e with
  | Init answer now => onTab (ContentScanner.init answer now) s
  | Rescan now => onTab (ContentScanner.periodicRescan now) s
  | Mutations now nodes => onTab (ContentScanner.onMutations now nodes) s
  | Timeout => onTab ContentScanner.onTimeout s
  | ImageData id d => onTab (ContentScanner.onImageData id d) s
  | User u => onTab (DOMManipulator.onUser u) s
  | Deliver id now =>
      match Js.get Nat.eqb id (outbox (tab s)) with
      | Some m =>
          onWorker (ServiceWorker.onMessage id m now) (onTab (takeFromOutbox id) s)
      | None => s
      end
  | FetchSettled id o now err => onWorker (ServiceWorker.fetchSettled id o now err) s
  | Answer id =>
      match Js.get Nat.eqb id (ServiceWorker.responses (worker s)) with
      | Some r => onTab (ContentScanner.onResponse id r) s
      | None => s
      end
  end.

Definition run (s : System) (es : list Event) : System := fold_left step es s.

Definition start (p : Dom.Page) (host : string) : System :=
  {| tab := Tabs.fresh p host; worker := ServiceWorker.initial |}.

(** The events by which the scanner discovers fragments: its start,
    the periodic rescan, and the mutation observer. *)
Definition isDiscovery (e : Event) : bool :=
  match e with
  | Init _ _ | Rescan _ | Mutations _ _ => true
  | _ => false
  end.

(** How the scripts change elements: the identity stays, and neither
    the processed mark nor the class 'ai-firewall-safe' is ever taken
    away. *)
Definition evolves (a b : Dom.Element) : Prop :=
  Dom.uid b = Dom.uid a /\
  (Dom.hasAttribute ContentScanner.processedAttribute a = true ->
   Dom.hasAttribute ContentScanner.processedAttribute b = true) /\
  (Dom.hasClass "ai-firewall-safe" a = true ->
   Dom.hasClass "ai-firewall-safe" b = true).

Definition gentle (f : Dom.Element -> Dom.Element) : Prop :=
  forall e, evolves e (f e).

(** [p'] comes from [p] by such changes, by moving nodes around, and by
    creating elements with fresh identities. *)
Definition pageEvolves (p p' : Dom.Page) : Prop :=
  (Dom.nextUid p <= Dom.nextUid p')%nat /\
  forall el, In el (Dom.pageElements p') ->
             (exists el0, In el0 (Dom.pageElements p) /\ evolves el0 el) \/
             (Dom.nextUid p <= Dom.uid el /\ Dom.uid el < Dom.nextUid p')%nat.

(** Every identity in use is below the next fresh one. *)
Definition allBelow (p : Dom.Page) : Prop :=
  forall el, In el (Dom.pageElements p) -> (Dom.uid el < Dom.nextUid p)%nat.

(** Every element of the page with identity [x] satisfies [phi]. *)
Definition everywhere (phi : Dom.Element -> bool) (x : nat) (p : Dom.Page) : Prop :=
  (x < Dom.nextUid p)%nat /\
  forall el, In el (Dom.pageElements p) -> Dom.uid el = x -> phi el = true.

(** The tab between two events, as far as queueing goes: nothing waits
    in the scan queue, every identity in use is below the next fresh
    one, no element has been queued twice, and every element that has
    been queued carries the processed mark wherever it is. *)
Definition settled (t : Tab) : Prop :=
  scanQueue t = [] /\
  allBelow (page t) /\
  NoDup (map i_element (pushed t)) /\
  forall x, In x (map i_element (pushed t)) ->
            everywhere (Dom.hasAttribute ContentScanner.processedAttribute) x (page t).

End Pipeline.

(** ** Concrete data for the examples *)

Module Examples.

Definition someText : AnalyzeData :=
  {| payload := "some text to check"; threshold := 0.6%float;
     ageGroup := "moderate" |}.

Definition safe : AnalysisResult :=
  {| is_safe := true; confidence := 0.1%float; flagged_categories := Some [] |}.

Definition hateful : AnalysisResult :=
  {| is_safe := false; confidence := 0.9%float;
     flagged_categories := Some ["identity_hate"] |}.

(** Two and three calls for the same text, a millisecond apart. *)
Definition twoCalls : list (nat * AnalyzeData * Z) :=
  [ (0%nat, someText, 1000); (1%nat, someText, 1001) ].

Definition threeCalls : list (nat * AnalyzeData * Z) :=
  twoCalls ++ [ (2%nat, someText, 1002) ].

(** [n] analyses of distinct texts, each answered by the Gateway. *)
Fixpoint analyses (n : nat) : list ServiceWorker.Event :=
  match n with
  | O => []
  | S k =>
      analyses k ++
      [ ServiceWorker.onMessage k
          (ANALYZE_TEXT {| payload := Js.intToString (Z.of_nat k);
                           threshold := 0.6%float; ageGroup := "moderate" |})
          (Z.of_nat k);
        ServiceWorker.fetchSettled k
          (ServiceWorker.HttpResponse 200 (Some safe)) (Z.of_nat k) None ]
  end.

Definition img (u : nat) : Dom.Element :=
  {| Dom.uid := u; Dom.tagName := "img"; Dom.classList := [];
     Dom.attributes := []; Dom.styleDisplay := ""; Dom.cssDisplay := "inline";
     Dom.cssVisibility := "visible"; Dom.src := "http://example.com/a.png";
     Dom.srcset := ""; Dom.width := 100; Dom.height := 80 |}.

(** [<html><body><p>  Hello wonderful world  </p>
      <div><span>1234567</span><img ...></div>
      <script><p>inside script</p></script></body></html>] *)
Definition samplePage : Dom.Page :=
  {| Dom.document :=
       Dom.ElementNode (Dom.blank 0 "html")
         [ Dom.ElementNode (Dom.blank 1 "body")
             [ Dom.ElementNode (Dom.blank 2 "p")
                 [Dom.TextNode "  Hello wonderful world  "];
               Dom.ElementNode (Dom.blank 3 "div")
                 [ Dom.ElementNode (Dom.blank 4 "span") [Dom.TextNode "1234567"];
                   Dom.ElementNode (img 5) [] ];
               Dom.ElementNode (Dom.blank 6 "script")
                 [ Dom.ElementNode (Dom.blank 7 "p")
                     [Dom.TextNode "inside script"] ] ] ];
     Dom.detached := [];
     Dom.nextUid := 8 |}.

Definition settingsWith (level : option string) (al : list string) : Settings :=
  {| filteringLevel := level; settingsAgeGroup := "moderate";
     enabledCategories := ["explicit"; "violence"; "hate"]; allowlist := al |}.

(** The sample page on example.com, settings loaded, before the scan. *)
Definition tabWith (level : option string) (al : list string) : Tab :=
  Tabs.setSettings (Some (settingsWith level al))
                   (Tabs.fresh samplePage "example.com").

Definition plainTab : Tab := tabWith (Some "moderate") [].

(** The scanner has started on the sample page and the paragraph's
    analysis is under way: the message is with the worker, whose Gateway
    request is in flight. *)
Definition underWay : Pipeline.System :=
  Pipeline.run (Pipeline.start samplePage "example.com")
               [ Pipeline.Init (Some None) 1000; Pipeline.Deliver 0 1001 ].

(** A session on the sample page: the scanner starts, the paragraph's
    analysis comes back hateful and the paragraph is replaced, the user
    reveals it, and the page is scanned again by the periodic rescan and
    after a mutation of the body. *)
Definition session : list Pipeline.Event :=
  [ Pipeline.Init (Some None) 1000;
    Pipeline.Deliver 0 1001;
    Pipeline.FetchSettled 0 (ServiceWorker.HttpResponse 200 (Some hateful)) 1500 None;
    Pipeline.Answer 0;
    Pipeline.User (DOMManipulator.ClickShow 8 true);
    Pipeline.Rescan 6000;
    Pipeline.Mutations 7000 [1%nat];
    Pipeline.Timeout ].

(** The paragraph of the sample page was judged hateful. *)
Definition hatefulParagraph : Detail :=
  {| d_element := 2%nat; d_type := text; d_analysisResult := hateful |}.

End Examples.

(** ** The service worker, seen from outside *)

Module Worker.
Import ServiceWorker.

(** The hash of [hashString] without its 32-bit truncations: the
    polynomial [31 * h + c] over the code units. *)
Fixpoint polynomial (h : Z) (str : string) : Z :=
  match str with
  | EmptyString => h
  | String c rest => polynomial (31 * h + Js.charCode c) rest
  end.

(** The messages among the events, by number. *)
Definition messageIds (es : list Event) : list nat :=
  flat_map (fun e => match e with
                     | onMessage id _ _ => [id]
                     | fetchSettled _ _ _ _ => []
                     end) es.

(** The cache key a handler computes for a message. *)
Definition keyOf (m : Message) : CacheKey :=
  match m with
  | ANALYZE_TEXT d => cacheKey text d
  | ANALYZE_IMAGE d => cacheKey image d
  end.

Definition answered (s : State) : list nat := map fst (responses s).

Definition inFlight (s : State) : list nat := map s_id (suspended s).

End Worker.

(** ** [chrome.storage] and the settings kept in it *)

Module Storage.

(** The values the extension stores. *)
Inductive Value :=
| VStr (s : string)
| VBool (b : bool)
| VList (l : list string)
| VNum (z : Z).

Section Areas.
Variable V : Type.

(** [area.get(keys)]: those of the keys that are stored, with their
    values. *)
Definition get (keys : list string) (a : list (string * V)) : list (string * V) :=
  flat_map (fun k => match Js.get String.eqb k a with
                     | Some v => [(k, v)]
                     | None => []
                     end) keys.

(** [area.set(items)]: every item is written; the rest stays. *)
Definition set (items : list (string * V)) (a : list (string * V))
  : list (string * V) :=
  fold_left (fun acc kv => Js.set String.eqb (fst kv) (snd kv) acc) items a.

End Areas.

(** A storage area, and the objects [get] resolves with and [set]
    takes: keys with their values. *)
Definition Area := list (string * Value).

End Storage.

Module Install.
Import Storage.

Definition defaults : Area :=
  [ ("filteringLevel", VStr "moderate");
    ("ageGroup", VStr "moderate");
    ("enabledCategories", VList ["explicit"; "violence"; "hate"; "harassment"]);
    ("allowlist", VList []);
    ("parentalMode", VBool false) ].

(** [setDefaultSettings] once its [get] has resolved with [existing]:
    the defaults whose key is not in it. *)
Definition toSet (existing : Area) : Area :=
  filter (fun kv => negb (Js.has String.eqb (fst kv) existing)) defaults.

(** Its last statement, on the area as it is by then: nothing is
    written when nothing is missing. *)
Definition writeMissing (missing : Area) (sync : Area) : Area :=
  match missing with
  | [] => sync
  | _ :: _ => Storage.set missing sync
  end.

(** [setDefaultSettings] when nothing else touches the area between
    its two [await]s. *)
Definition setDefaultSettings (sync : Area) : Area :=
  writeMissing (toSet (Storage.get (map fst defaults) sync)) sync.

(** The settings [handleGetSettings] answers with. *)
Definition handleGetSettings (sync : Area) : Area :=
  Storage.get ["filteringLevel"; "ageGroup"; "enabledCategories"; "allowlist";
               "parentalMode"] sync.

(** The statistics [handleGetStats] answers with, read from
    [chrome.storage.local]. *)
Definition handleGetStats (local : list (string * Z)) : list (string * Z) :=
  Storage.get ["totalScanned"; "contentBlocked"; "textAnalyzed"; "imagesAnalyzed";
               "lastReset"] local.

End Install.

(** ** The popup *)

Module PopupManager.

(** The allowlist [toggleSiteAllowlist] sends to the settings for the
    tab's [hostname]; [allowlist] is [this.settings.allowlist], [None]
    when the settings have none. *)
Definition toggleSiteAllowlist (hostname : string) (allowlist : option (list string))
  : list string :=
  let allowlist := match allowlist with Some l => l | None => [] end in
  let isAllowlisted := Js.arrayIncludes hostname allowlist in
  if isAllowlisted
  then filter (fun site => negb (String.eqb site hostname)) allowlist
  else allowlist ++ [hostname].

End PopupManager.

(** ** Changes of a tab that scanning does not look at *)

Module Scanning.
Import Tabs.

(** The tab with another allowlist in its settings. *)
Definition withAllowlist (al : list string) (t : Tab) : Tab :=
  match settings t with
  | Some s =>
      setSettings (Some {| filteringLevel := filteringLevel s;
                           settingsAgeGroup := settingsAgeGroup s;
                           enabledCategories := enabledCategories s;
                           allowlist := al |}) t
  | None => t
  end.

End Scanning.

(** ** What is on its way to the Gateway *)

Module Filtering.
Import ServiceWorker.

(** Every text waiting in the scan queue, every text ever queued and
    every text in a message that waits to be delivered passed
    [shouldAnalyzeText]. *)
Definition filteredTab (t : Tab) : Prop :=
  (forall item, In item (scanQueue t) -> i_type item = text ->
                ContentScanner.shouldAnalyzeText (i_content item) = true) /\
  (forall item, In item (pushed t) -> i_type item = text ->
                ContentScanner.shouldAnalyzeText (i_content item) = true) /\
  (forall id d, In (id, ANALYZE_TEXT d) (outbox t) ->
                ContentScanner.shouldAnalyzeText (payload d) = true).

(** Every text request sent to the Gateway carries such a text. *)
Definition filteredWorker (w : State) : Prop :=
  forall req, In req (sent w) -> endpoint req = "/analyze/text" ->
              ContentScanner.shouldAnalyzeText (payload (body req)) = true.

Definition filtered (s : Pipeline.System) : Prop :=
  filteredTab (Pipeline.tab s) /\ filteredWorker (Pipeline.worker s).

End Filtering.

(** ** The manipulator's side of a tab *)

Module Manipulator.

(** What belongs to the [DOMManipulator] instance and to the events it
    listens to: the tracking, the click listeners and the unsafe-content
    events dispatched so far. *)
Definition state (t : Tab)
  : list nat * list (nat * nat) * list Listener * list Detail :=
  (blockedElements t, replacementElements t, listeners t, dispatched t).

Definition isShowHidden (l : Listener) : bool :=
  match l with
  | ShowHidden _ _ _ => true
  | _ => false
  end.

End Manipulator.

(** ** Keeping count of the elements under analysis *)

Module Bookkeeping.

(** The queue entry an analysis waits with. *)
Definition itemOf (a : Await) : Item :=
  match a with
  | AwaitImageData item => item
  | AwaitResponse item => item
  end.

Definition awaitedOf (m : list (nat * Await)) : list nat :=
  map (fun a => i_element (itemOf (snd a))) m.

Definition queuedElements (t : Tab) : list nat := map i_element (scanQueue t).
Definition awaitedElements (t : Tab) : list nat := awaitedOf (awaiting t).
Definition dispatchedElements (t : Tab) : list nat := map d_element (dispatched t).
Definition pushedElements (t : Tab) : list nat := map i_element (pushed t).

Definition occ (x : nat) (l : list nat) : nat := count_occ Nat.eq_dec l x.

(** An element is in the queue, under analysis or reported unsafe at
    most as often as it has been queued. *)
Definition balanced (t : Tab) : Prop :=
  forall x, (occ x (queuedElements t) + occ x (awaitedElements t)
             + occ x (dispatchedElements t) <= occ x (pushedElements t))%nat.

(** The verdict [r] is the body of a Gateway response with a success
    status among the events. *)
Definition fromGateway (es : list Pipeline.Event) (r : AnalysisResult) : Prop :=
  exists id status now err,
    In (Pipeline.FetchSettled id (ServiceWorker.HttpResponse status (Some r)) now err) es /\
    ServiceWorker.response_ok status = true.

(** Every blocked element has an unsafe-content event; every such
    event, every successful answer of the worker and every cache entry
    carries a verdict of the Gateway, the events' verdicts unsafe ones. *)
Definition justified (es : list Pipeline.Event) (s : Pipeline.System) : Prop :=
  (forall x, In x (blockedElements (Pipeline.tab s)) ->
             exists d, In d (dispatched (Pipeline.tab s)) /\ d_element d = x) /\
  (forall d, In d (dispatched (Pipeline.tab s)) ->
             is_safe (d_analysisResult d) = false /\
             fromGateway es (d_analysisResult d)) /\
  (forall id r, In (id, Success r) (ServiceWorker.responses (Pipeline.worker s)) ->
                fromGateway es r) /\
  (forall k e, In (k, e) (ServiceWorker.analysisCache (Pipeline.worker s)) ->
               fromGateway es (ServiceWorker.data e)).

End Bookkeeping.

(** ** Where the items of a scan come from *)

Module Origin.
Import Tabs ContentScanner.

(** What the text passes of [scanExistingContent] iterate over in the
    state [t]: the matches of the text selectors and, on a hostname
    with 'google.', the matches of each Google selector. *)
Definition textCandidate (t : Tab) (element : nat) : Prop :=
  In element (Dom.querySelectorAll textSelectors (page t)) \/
  (Js.includes (hostname t) "google." = true /\
   exists sel, In sel googleSelectors /\
               In element (Dom.querySelectorAll [sel] (page t))).

Definition imageCandidate (t : Tab) (element : nat) : Prop :=
  In element (Dom.querySelectorAll imageSelectors (page t)).

(** An entry a scan that started in [t] at [now] may queue. *)
Definition scanned (t : Tab) (now : Z) (item : Item) : Prop :=
  i_timestamp item = now /\
  match i_type item with
  | text =>
      textCandidate t (i_element item) /\
      wantsText t (i_element item) = true /\
      i_content item = extractText (i_element item) t
  | image =>
      imageCandidate t (i_element item) /\
      wantsImage t (i_element item) = true /\
      i_content item = ""
  end.

End Origin.

(** ** The placeholders and the scanner *)

Module Placeholders.
Import Tabs.

(** The placeholders created so far, by their containers: each has one
    click listener, registered when it is created and never removed. *)
Definition containerOf (l : Listener) : list nat :=
  match l with
  | ReplacementClick container _ _ => [container]
  | _ => []
  end.

Definition containers (t : Tab) : list nat := flat_map containerOf (listeners t).

Definition isContainer (cs : list nat) (u : nat) : bool := existsb (Nat.eqb u) cs.

(** One of the six elements created inside a container. *)
Definition isInner (cs : list nat) (u : nat) : bool :=
  existsb (fun c => Nat.ltb c u && Nat.ltb u (7 + c)) cs.

Definition ofPlaceholder (cs : list nat) (u : nat) : bool :=
  isContainer cs u || isInner cs u.

(** The tree [n], met below a container or not ([inside]), keeps the
    placeholders apart: the elements below a container are the inner
    elements of the placeholders, and every container carries the class
    'ai-firewall-blocked'. *)
Fixpoint tidy (cs : list nat) (inside : bool) (n : Dom.Node) : bool :=
  match n with
  | Dom.TextNode _ => true
  | Dom.ElementNode e kids =>
      Bool.eqb (isInner cs (Dom.uid e)) inside
      && (negb (isContainer cs (Dom.uid e)) || Dom.hasClass "ai-firewall-blocked" e)
      && forallb (tidy cs (inside || isContainer cs (Dom.uid e))) kids
  end.

(** Changes of an element that keep its identity and the class. *)
Definition keepsClass (f : Dom.Element -> Dom.Element) : Prop :=
  forall e, Dom.uid (f e) = Dom.uid e /\
            (Dom.hasClass "ai-firewall-blocked" e = true ->
             Dom.hasClass "ai-firewall-blocked" (f e) = true).

Definition tidyPage (cs : list nat) (p : Dom.Page) : bool :=
  forallb (tidy cs false) (Dom.trees p).

(** What holds of the placeholders between two events: they were made
    of identities that have been handed out, seven apart; the page keeps
    them apart; nothing of them has been queued; and what the listeners
    and the map of replacements would put back are elements that have
    been queued. *)
Definition kept (t : Tab) : Prop :=
  let cs := containers t in
  (forall c, In c cs -> (c + 7 <= Dom.nextUid (page t))%nat /\ isInner cs c = false) /\
  tidyPage cs (page t) = true /\
  (forall x, In x (map i_element (pushed t)) -> ofPlaceholder cs x = false) /\
  (forall l, In l (listeners t) ->
             match l with
             | ReplacementClick _ original _ => In original (map i_element (pushed t))
             | RemoveBlur _ => True
             | ShowHidden _ _ _ => False
             end) /\
  (forall c e, In (c, e) (replacementElements t) ->
               In c cs /\ In e (map i_element (pushed t))).

End Placeholders.


(** ** Originals kept off the page *)

Module Keeping.
Import Tabs.







End Keeping.

(** ** A block inside a blocked fragment *)

Module Nesting.
Import Tabs.




End Nesting.

(* ===================================================================== *)
(** * Part II: properties                                                 *)
(* ===================================================================== *)

Unset Implicit Arguments.

(** ** Facts about JavaScript maps and sets *)

Section MapFacts.
Variables K V : Type.
Variable keq : K -> K -> bool.
Hypothesis keq_spec : forall a b, keq a b = true <-> a = b.

Lemma keq_refl : forall k, keq k k = true.
Proof. intro k. apply keq_spec. reflexivity. Qed.

Lemma keq_neq : forall a b, a <> b -> keq a b = false.
Proof.
  intros a b Hab. destruct (keq a b) eqn:E; [|reflexivity].
  apply keq_spec in E. contradiction.
Qed.

Lemma get_set_same : forall k (v : V) m, Js.get keq k (Js.set keq k v m) = Some v.
Proof.
  intros k v m. induction m as [|[k' v'] rest IH]; simpl.
  - rewrite keq_refl. reflexivity.
  - destruct (keq k k') eqn:E; simpl; rewrite E; [reflexivity | exact IH].
Qed.

Lemma get_set_other : forall k k' (v : V) m,
    k <> k' -> Js.get keq k' (Js.set keq k v m) = Js.get keq k' m.
Proof.
  intros k k' v m Hne. induction m as [|[k0 v0] rest IH]; simpl.
  - rewrite keq_neq by congruence. reflexivity.
  - destruct (keq k k0) eqn:E; simpl.
    + apply keq_spec in E. subst k0. rewrite keq_neq by congruence. reflexivity.
    + rewrite IH. reflexivity.
Qed.

Lemma get_delete_same : forall k (m : list (K * V)),
    Js.get keq k (Js.delete keq k m) = None.
Proof.
  intros k m. induction m as [|[k0 v0] rest IH]; simpl; [reflexivity|].
  destruct (keq k k0) eqn:E; simpl; [exact IH | rewrite E; exact IH].
Qed.

Lemma get_none_notin : forall k (m : list (K * V)),
    Js.get keq k m = None <-> ~ In k (Js.keys m).
Proof.
  intros k m. induction m as [|[k0 v0] rest IH]; simpl.
  - split; [intros _ [] | reflexivity].
  - destruct (keq k k0) eqn:E.
    + apply keq_spec in E. subst. split; [discriminate | intros H; exfalso; apply H; now left].
    + rewrite IH. split.
      * intros H [H1|H1]; [subst; rewrite keq_refl in E; discriminate | contradiction].
      * intros H H1. apply H. now right.
Qed.

Lemma delete_notin : forall k (m : list (K * V)),
    ~ In k (Js.keys m) -> Js.delete keq k m = m.
Proof.
  intros k m. induction m as [|[k0 v0] rest IH]; simpl; intros H; [reflexivity|].
  rewrite keq_neq by (intro; subst; apply H; now left). simpl.
  f_equal. apply IH. intro; apply H; now right.
Qed.

Lemma set_fresh : forall k (v : V) m,
    Js.get keq k m = None -> Js.set keq k v m = m ++ [(k, v)].
Proof.
  intros k v m. induction m as [|[k0 v0] rest IH]; simpl; intros H; [reflexivity|].
  destruct (keq k k0); [discriminate|]. rewrite IH by exact H. reflexivity.
Qed.

Lemma keys_set_present : forall k (v : V) m,
    Js.get keq k m <> None -> Js.keys (Js.set keq k v m) = Js.keys m.
Proof.
  intros k v m. induction m as [|[k0 v0] rest IH]; simpl; intros H; [congruence|].
  destruct (keq k k0) eqn:E; simpl; [reflexivity|].
  f_equal. apply IH. exact H.
Qed.

Lemma length_set : forall k (v : V) m,
    List.length (Js.set keq k v m) =
    match Js.get keq k m with
    | Some _ => List.length m
    | None => S (List.length m)
    end.
Proof.
  intros k v m. induction m as [|[k0 v0] rest IH]; simpl; [reflexivity|].
  destruct (keq k k0); simpl; [reflexivity|].
  rewrite IH. destruct (Js.get keq k rest); reflexivity.
Qed.

Lemma length_delete : forall k (m : list (K * V)),
    (List.length (Js.delete keq k m) <= List.length m)%nat.
Proof. intros k m. unfold Js.delete. apply filter_length_le. Qed.

Lemma nodup_keys_set : forall k (v : V) m,
    NoDup (Js.keys m) -> NoDup (Js.keys (Js.set keq k v m)).
Proof.
  intros k v m Hnd. destruct (Js.get keq k m) eqn:G.
  - rewrite keys_set_present by congruence. exact Hnd.
  - rewrite set_fresh by exact G. unfold Js.keys. rewrite map_app. simpl.
    apply NoDup_app; [exact Hnd | repeat constructor; intros [] | ].
    intros x Hx [Hx'|[]]. simpl in Hx'. subst x.
    apply get_none_notin in G. contradiction.
Qed.

Lemma nodup_keys_delete : forall k (m : list (K * V)),
    NoDup (Js.keys m) -> NoDup (Js.keys (Js.delete keq k m)).
Proof.
  intros k m. induction m as [|[k0 v0] rest IH]; simpl; intros Hnd; [constructor|].
  inversion Hnd as [|? ? Hn Hr]; subst.
  destruct (keq k k0); simpl; [apply IH; exact Hr|].
  constructor; [|apply IH; exact Hr].
  intro Hin. apply Hn. unfold Js.keys, Js.delete in *.
  apply in_map_iff in Hin. destruct Hin as [x [Hx Hin]].
  apply filter_In in Hin. apply in_map_iff. exists x. tauto.
Qed.

Lemma deleteFirst_tl : forall (m : list (K * V)),
    NoDup (Js.keys m) -> Js.deleteFirst keq m = tl m.
Proof.
  intros [|[k0 v0] rest] Hnd; [reflexivity|].
  unfold Js.deleteFirst. simpl. rewrite keq_refl. simpl.
  inversion Hnd; subst. apply delete_notin. assumption.
Qed.

End MapFacts.

Lemma setHas_In : forall x s, Js.setHas x s = true <-> In x s.
Proof.
  intros x s. unfold Js.setHas. rewrite existsb_exists. split.
  - intros [y [Hy E]]. apply Nat.eqb_eq in E. subst. exact Hy.
  - intros H. exists x. split; [exact H | apply Nat.eqb_refl].
Qed.

Lemma nodup_setAdd : forall x s, NoDup s -> NoDup (Js.setAdd x s).
Proof.
  intros x s Hnd. unfold Js.setAdd. destruct (Js.setHas x s) eqn:E; [exact Hnd|].
  apply NoDup_app; [exact Hnd | repeat constructor; intros [] |].
  intros y Hy [Hy'|[]]. subst y.
  apply setHas_In in Hy. congruence.
Qed.

Lemma nodup_setDelete : forall x s, NoDup s -> NoDup (Js.setDelete x s).
Proof. intros x s. unfold Js.setDelete. apply NoDup_filter. Qed.

Lemma arrayIncludes_In : forall x l, Js.arrayIncludes x l = true <-> In x l.
Proof.
  intros x l. unfold Js.arrayIncludes. rewrite existsb_exists. split.
  - intros [y [Hy E]]. apply String.eqb_eq in E. subst. exact Hy.
  - intros H. exists x. split; [exact H | apply String.eqb_refl].
Qed.

(** ** The analysis cache *)

Lemma ContentType_eqb_spec : forall a b, ContentType_eqb a b = true <-> a = b.
Proof. intros [] []; simpl; split; congruence. Qed.

Lemma CacheKey_eqb_spec : forall a b,
    ServiceWorker.CacheKey_eqb a b = true <-> a = b.
Proof.
  intros [t1 h1 f1 g1] [t2 h2 f2 g2]. unfold ServiceWorker.CacheKey_eqb. simpl.
  rewrite !andb_true_iff, ContentType_eqb_spec, !String.eqb_eq,
    FloatAxioms.Leibniz.eqb_spec.
  split.
  - intros [[[-> ->] ->] ->]. reflexivity.
  - intros H. inversion H. tauto.
Qed.

Module CacheFacts.
Import ServiceWorker.

Lemma cacheOk_empty : cacheOk [].
Proof. split; [constructor | unfold Js.size, CONFIG.MAX_CACHE_SIZE; simpl; lia]. Qed.

Lemma size_tl : forall (c : Cache), c <> [] -> Js.size (tl c) = Js.size c - 1.
Proof. intros [|x c] H; [congruence|]. unfold Js.size. simpl tl. simpl List.length. lia. Qed.

Lemma size_set_le : forall k e (c : Cache),
    Js.size (Js.set CacheKey_eqb k e c) <= Js.size c + 1.
Proof.
  intros k e c. unfold Js.size. rewrite length_set.
  destruct (Js.get CacheKey_eqb k c); lia.
Qed.

(** What [setCache] does, by the size of the cache. *)
Lemma setCache_cases : forall key d now (c : Cache),
    NoDup (Js.keys c) ->
    (CONFIG.MAX_CACHE_SIZE <= Js.size c ->
     setCache key d now c =
     Js.set CacheKey_eqb key {| data := d; timestamp := now |} (tl c)) /\
    (Js.size c < CONFIG.MAX_CACHE_SIZE ->
     setCache key d now c =
     Js.set CacheKey_eqb key {| data := d; timestamp := now |} c).
Proof.
  intros key d now c Hnd. unfold setCache. split; intros H.
  - replace (Js.size c >=? CONFIG.MAX_CACHE_SIZE) with true
      by (symmetry; apply Z.geb_le; lia).
    rewrite (deleteFirst_tl _ _ _ CacheKey_eqb_spec) by exact Hnd. reflexivity.
  - replace (Js.size c >=? CONFIG.MAX_CACHE_SIZE) with false; [reflexivity|].
    symmetry. rewrite Z.geb_leb. apply Z.leb_gt. lia.
Qed.

Lemma nodup_keys_tl : forall (c : Cache), NoDup (Js.keys c) -> NoDup (Js.keys (tl c)).
Proof. intros [|x c] H; [exact H|]. simpl in *. inversion H; assumption. Qed.

Lemma cacheOk_setCache : forall key d now c, cacheOk c -> cacheOk (setCache key d now c).
Proof.
  intros key d now c [Hnd Hsz].
  destruct (setCache_cases key d now c Hnd) as [Hfull Hroom].
  destruct (Z_lt_le_dec (Js.size c) CONFIG.MAX_CACHE_SIZE) as [Hlt|Hge].
  - rewrite (Hroom Hlt). split.
    + apply (nodup_keys_set _ _ _ CacheKey_eqb_spec). exact Hnd.
    + pose proof (size_set_le key {| data := d; timestamp := now |} c). lia.
  - rewrite (Hfull Hge). split.
    + apply (nodup_keys_set _ _ _ CacheKey_eqb_spec). apply nodup_keys_tl. exact Hnd.
    + pose proof (size_set_le key {| data := d; timestamp := now |} (tl c)).
      assert (c <> []) by (intro; subst; unfold Js.size, CONFIG.MAX_CACHE_SIZE in Hge; simpl in Hge; lia).
      rewrite size_tl in H by assumption. lia.
Qed.

Lemma cacheOk_delete : forall key c, cacheOk c -> cacheOk (Js.delete CacheKey_eqb key c).
Proof.
  intros key c [Hnd Hsz]. split.
  - apply nodup_keys_delete. exact Hnd.
  - pose proof (length_delete _ _ CacheKey_eqb key c). unfold Js.size in *. lia.
Qed.

Lemma cacheOk_getFromCache : forall key now c,
    cacheOk c -> cacheOk (snd (getFromCache key now c)).
Proof.
  intros key now c H. unfold getFromCache.
  destruct (Js.get CacheKey_eqb key c) as [e|].
  - destruct (now - timestamp e <? CONFIG.CACHE_DURATION); simpl;
      [exact H | apply cacheOk_delete; exact H].
  - simpl. apply cacheOk_delete; exact H.
Qed.

Lemma cacheOk_handleAnalysis : forall type id d now s,
    cacheOk (analysisCache s) -> cacheOk (analysisCache (handleAnalysis type id d now s)).
Proof.
  intros type id d now s H. unfold handleAnalysis.
  pose proof (cacheOk_getFromCache (cacheKey type d) now _ H) as H1.
  destruct (getFromCache (cacheKey type d) now (analysisCache s)) as [[r|] c];
    simpl in *; exact H1.
Qed.

Lemma cacheOk_resumeAnalysis : forall id o now err s,
    cacheOk (analysisCache s) -> cacheOk (analysisCache (resumeAnalysis id o now err s)).
Proof.
  intros id o now err s H. unfold resumeAnalysis.
  destruct (findSuspended id (suspended s)) as [p|]; [|exact H].
  destruct (makeApiRequest o) as [r|msg]; simpl; [|exact H].
  destruct err; simpl; apply cacheOk_setCache; exact H.
Qed.

Lemma cacheOk_step : forall s e, cacheOk (analysisCache s) -> cacheOk (analysisCache (step s e)).
Proof.
  intros s [id [d|d] now | id o now err] H; simpl.
  - apply cacheOk_handleAnalysis; exact H.
  - apply cacheOk_handleAnalysis; exact H.
  - apply cacheOk_resumeAnalysis; exact H.
Qed.

Lemma cacheOk_run : forall es s, cacheOk (analysisCache s) -> cacheOk (analysisCache (run s es)).
Proof.
  induction es as [|e es IH]; intros s H; simpl; [exact H|].
  apply IH. apply cacheOk_step. exact H.
Qed.

(** C5.  Whatever the worker has been through since it started, its
    cache holds at most MAX_CACHE_SIZE (1000) entries, and so it does
    after one more [setCache].  A [setCache] on a cache at the limit
    first drops the entry at the head of the map's insertion order, and
    only that one, then stores the new entry; below the limit it drops
    nothing.  Storing puts a key that is not present at the end of the
    order and leaves the order alone for a key that is present, so the
    head is the entry inserted longest ago. *)
Theorem cache_never_exceeds_limit_fifo :
  forall (es : list Event),
    let c := analysisCache (run initial es) in
    Js.size c <= CONFIG.MAX_CACHE_SIZE /\
    forall key d now,
      let entry := {| data := d; timestamp := now |} in
      Js.size (setCache key d now c) <= CONFIG.MAX_CACHE_SIZE /\
      (CONFIG.MAX_CACHE_SIZE <= Js.size c ->
       setCache key d now c = Js.set CacheKey_eqb key entry (tl c)) /\
      (Js.size c < CONFIG.MAX_CACHE_SIZE ->
       setCache key d now c = Js.set CacheKey_eqb key entry c) /\
      (forall c', Js.get CacheKey_eqb key c' = None ->
                  Js.set CacheKey_eqb key entry c' = c' ++ [(key, entry)]) /\
      (forall c', Js.get CacheKey_eqb key c' <> None ->
                  Js.keys (Js.set CacheKey_eqb key entry c') = Js.keys c').
Proof.
  intros es c.
  assert (Hok : cacheOk c) by (apply cacheOk_run; apply cacheOk_empty).
  split; [apply Hok|].
  intros key d now entry.
  destruct (setCache_cases key d now c (proj1 Hok)) as [Hfull Hroom].
  repeat split.
  - apply (cacheOk_setCache key d now c Hok).
  - exact Hfull.
  - exact Hroom.
  - intros c' H. apply (set_fresh _ _ CacheKey_eqb key entry c' H).
  - intros c' H. apply (keys_set_present _ _ CacheKey_eqb key entry c' H).
Qed.

(** *** Expiry *)

Lemma getFromCache_hit : forall key now (c : Cache) r,
    fst (getFromCache key now c) = Some r <->
    exists e, Js.get CacheKey_eqb key c = Some e /\ data e = r /\
              now - timestamp e < CONFIG.CACHE_DURATION.
Proof.
  intros key now c r. unfold getFromCache.
  destruct (Js.get CacheKey_eqb key c) as [e|].
  - destruct (now - timestamp e <? CONFIG.CACHE_DURATION) eqn:E; simpl.
    + apply Z.ltb_lt in E. split.
      * intros H. inversion H. exists e. auto.
      * intros [e' [He' [Hd _]]]. inversion He'. subst. reflexivity.
    + apply Z.ltb_ge in E. split; [discriminate|].
      intros [e' [He' [_ Hlt]]]. inversion He'. subst. lia.
  - simpl. split; [discriminate | intros [e' [He' _]]; discriminate].
Qed.

Lemma get_setCache_same : forall key d now (c : Cache),
    Js.get CacheKey_eqb key (setCache key d now c) =
    Some {| data := d; timestamp := now |}.
Proof. intros. unfold setCache. apply (get_set_same _ _ _ CacheKey_eqb_spec). Qed.

(** C6.  Take any worker state and store [result] under the key of
    the data [d] at time [t0].  A lookup of that key at time [now]
    returns a result exactly when [now - t0] is below CACHE_DURATION (5
    minutes), and then it is [result]; otherwise it returns [null] and
    the entry is deleted.  So an analysis call for [d] inside the window
    answers [{success: true, result}] without touching the Gateway, while
    a call once the window has elapsed sends a new Gateway request and
    answers nothing yet. *)
Theorem cached_result_valid_for_cache_duration :
  forall (s : State) (type : ContentType) (d : AnalyzeData)
         (result : AnalysisResult) (t0 now : Z) (id : nat),
    let key := cacheKey type d in
    let s1 := withCache (setCache key result t0 (analysisCache s)) s in
    let s2 := handleAnalysis type id d now s1 in
    CONFIG.CACHE_DURATION = 300000 /\
    (forall r, fst (getFromCache key now (analysisCache s1)) = Some r <->
               r = result /\ now - t0 < CONFIG.CACHE_DURATION) /\
    (now - t0 < CONFIG.CACHE_DURATION ->
     s2 = sendResponse id (Success result) s1 /\ sent s2 = sent s1) /\
    (CONFIG.CACHE_DURATION <= now - t0 ->
     getFromCache key now (analysisCache s1) =
       (None, Js.delete CacheKey_eqb key (analysisCache s1)) /\
     Js.get CacheKey_eqb key (analysisCache s2) = None /\
     sent s2 = sent s1 ++ [{| endpoint := endpointOf type; body := d |}] /\
     responses s2 = responses s1).
Proof.
  intros s type d result t0 now id key s1 s2.
  assert (G : Js.get CacheKey_eqb key (analysisCache s1) =
              Some {| data := result; timestamp := t0 |})
    by (apply get_setCache_same).
  split; [reflexivity|]. split; [|split].
  - intros r. rewrite getFromCache_hit. rewrite G. split.
    + intros [e [He [Hd Hlt]]]. inversion He. subst e. simpl in *. auto.
    + intros [-> Hlt]. eexists. split; [reflexivity|]. simpl. auto.
  - intros Hlt. unfold s2, handleAnalysis. fold key. unfold getFromCache.
    rewrite G. simpl timestamp.
    replace (now - t0 <? CONFIG.CACHE_DURATION) with true
      by (symmetry; apply Z.ltb_lt; exact Hlt).
    simpl. split; [|reflexivity].
    unfold sendResponse, withCache. simpl. reflexivity.
  - intros Hge.
    assert (E : getFromCache key now (analysisCache s1) =
                (None, Js.delete CacheKey_eqb key (analysisCache s1))).
    { unfold getFromCache. rewrite G. simpl timestamp.
      replace (now - t0 <? CONFIG.CACHE_DURATION) with false
        by (symmetry; apply Z.ltb_ge; exact Hge).
      reflexivity. }
    split; [exact E|].
    unfold s2, handleAnalysis. fold key. rewrite E. simpl.
    split; [apply get_delete_same | split; reflexivity].
Qed.

(** *** No request coalescing *)

Lemma step_message : forall s type id d now,
    step s (onMessage id (messageOf type d) now) = handleAnalysis type id d now s.
Proof. intros s [] id d now; reflexivity. Qed.

Lemma handleAnalysis_miss : forall type id d now s,
    Js.get CacheKey_eqb (cacheKey type d) (analysisCache s) = None ->
    let s' := handleAnalysis type id d now s in
    analysisCache s' = analysisCache s /\
    sent s' = sent s ++ [{| endpoint := endpointOf type; body := d |}] /\
    suspended s' = suspended s ++
                   [{| s_id := id; s_type := type; s_key := cacheKey type d |}] /\
    responses s' = responses s /\
    pendingRequests s' = pendingRequests s.
Proof.
  intros type id d now s G. unfold handleAnalysis, getFromCache. rewrite G. simpl.
  repeat split. apply (delete_notin _ _ _ CacheKey_eqb_spec).
  apply (get_none_notin _ _ _ CacheKey_eqb_spec). exact G.
Qed.

(** C1 (as the code has it).  [pendingRequests] is never read or
    written, and nothing else joins a call to a request in flight.  When
    the cache has no entry for a key, every one of N calls for that key
    that arrive before any of their requests settles sends its own
    Gateway request: N calls, N requests, N suspended handlers, and no
    call is answered from another call's request. *)
Theorem overlapping_calls_each_send_a_request :
  forall (s : State) (type : ContentType) (key : CacheKey)
         (calls : list (nat * AnalyzeData * Z)),
    Forall (fun c => cacheKey type (snd (fst c)) = key) calls ->
    Js.get CacheKey_eqb key (analysisCache s) = None ->
    let s' := run s (callsOf type calls) in
    sent s' = sent s ++ requestsOf type calls /\
    List.length (sent s') = (List.length (sent s) + List.length calls)%nat /\
    List.length (suspended s') = (List.length (suspended s) + List.length calls)%nat /\
    responses s' = responses s /\
    pendingRequests s' = pendingRequests s /\
    analysisCache s' = analysisCache s.
Proof.
  intros s type key calls. revert s.
  induction calls as [|[[id d] now] calls IH]; intros s Hall Hmiss; cbv zeta.
  - simpl. rewrite !app_nil_r, !Nat.add_0_r. repeat split; reflexivity.
  - inversion Hall as [|x l Hk Hrest [Hx Hl]]. simpl in Hk.
    change (run s (callsOf type ((id, d, now) :: calls)))
      with (run (step s (onMessage id (messageOf type d) now)) (callsOf type calls)).
    change (requestsOf type ((id, d, now) :: calls))
      with ({| endpoint := endpointOf type; body := d |} :: requestsOf type calls).
    rewrite step_message.
    assert (G : Js.get CacheKey_eqb (cacheKey type d) (analysisCache s) = None)
      by (rewrite Hk; exact Hmiss).
    destruct (handleAnalysis_miss type id d now s G) as (Hc & Hs & Hp & Hr & Hq).
    specialize (IH (handleAnalysis type id d now s) Hrest).
    rewrite Hc in IH. specialize (IH Hmiss). cbv zeta in IH.
    destruct IH as (I1 & I2 & I3 & I4 & I5 & I6).
    repeat split.
    + rewrite I1, Hs, <- app_assoc. reflexivity.
    + rewrite I2, Hs, length_app. simpl. lia.
    + rewrite I3, Hp, length_app. simpl. lia.
    + rewrite I4. exact Hr.
    + rewrite I5. exact Hq.
    + exact I6.
Qed.

End CacheFacts.

(** ** Choice of the blocking method *)

Module MethodFacts.
Import DOMManipulator.

(** C2.  [getBlockingMethod] depends on the confidence and the flagged
    categories only (not on the content type nor on the safety flag).
    It returns [replace] when the confidence is above 0.8 or the label
    'severe_toxic' is flagged; otherwise [blur] when the confidence is
    above 0.6 (the middle band, 0.8 itself included); and [replace] in
    every other case.  It never returns [hide].  Confidence 0.85 with a
    severe label gives [replace], 0.65 gives [blur], 0.3 gives
    [replace]. *)
Theorem getBlockingMethod_rule :
  forall (type : ContentType) (r : AnalysisResult),
    let c := confidence r in
    let severe := In "severe_toxic" (categoriesOf r) in
    (forall type' r', confidence r' = c -> categoriesOf r' = categoriesOf r ->
                      getBlockingMethod type' r' = getBlockingMethod type r) /\
    ((0.8 <? c)%float = true \/ severe -> getBlockingMethod type r = replace) /\
    ((0.6 <? c)%float = true -> (0.8 <? c)%float = false -> ~ severe ->
     getBlockingMethod type r = blur) /\
    ((0.6 <? c)%float = false -> getBlockingMethod type r = replace) /\
    getBlockingMethod type r <> hide /\
    getBlockingMethod type (verdict 0.85 ["severe"]) = replace /\
    getBlockingMethod type (verdict 0.85 ["severe_toxic"]) = replace /\
    getBlockingMethod type (verdict 0.65 []) = blur /\
    getBlockingMethod type (verdict 0.3 []) = replace.
Proof.
  intros type r c severe.
  assert (Hinc : Js.arrayIncludes "severe_toxic" (categoriesOf r) = true <-> severe)
    by apply arrayIncludes_In.
  unfold getBlockingMethod. fold (categoriesOf r). fold c.
  repeat split.
  - intros type' r' Hc Hcat. unfold getBlockingMethod.
    fold (categoriesOf r'). rewrite Hc, Hcat. reflexivity.
  - intros [H|H].
    + rewrite H. reflexivity.
    + apply Hinc in H. rewrite H, orb_true_r. reflexivity.
  - intros H6 H8 Hns. rewrite H8, H6.
    destruct (Js.arrayIncludes "severe_toxic" (categoriesOf r)) eqn:E; [|reflexivity].
    exfalso. apply Hns, Hinc. reflexivity.
  - intros H6.
    destruct ((0.8 <? c)%float || Js.arrayIncludes "severe_toxic" (categoriesOf r));
      [reflexivity | rewrite H6; reflexivity].
  - destruct ((0.8 <? c)%float || Js.arrayIncludes "severe_toxic" (categoriesOf r));
      [discriminate | destruct (0.6 <? c)%float; discriminate].
Qed.

End MethodFacts.

(** ** Thresholds *)

Module ThresholdFacts.
Import Tabs ContentScanner.





End ThresholdFacts.

(** ** What the scanner's and the manipulator's steps leave alone *)

Lemma fold_left_invariant : forall (A B : Type) (P : A -> Prop) (f : A -> B -> A) l a,
    (forall a x, P a -> P (f a x)) -> P a -> P (fold_left f l a).
Proof.
  intros A B P f l. induction l as [|x l IH]; intros a Hf Ha; simpl; [exact Ha|].
  apply IH; [exact Hf | apply Hf; exact Ha].
Qed.

Module BlockedFacts.
Import Tabs.

Lemma blocked_processQueue : forall t,
    blockedElements (ContentScanner.processQueue t) = blockedElements t.
Proof.
  intros t. unfold ContentScanner.processQueue, ContentScanner.analyzeText,
    ContentScanner.analyzeImage, ContentScanner.continueProcessing.
  destruct (scanQueue t) as [|item rest]; [reflexivity|]. simpl.
  destruct (i_type item); simpl; [|reflexivity].
  destruct (settings t); simpl; [reflexivity|].
  destruct rest; reflexivity.
Qed.

Lemma blocked_visitText : forall now t el,
    blockedElements (ContentScanner.visitText now t el) = blockedElements t.
Proof.
  intros now t el. unfold ContentScanner.visitText, ContentScanner.queueTextAnalysis.
  destruct (ContentScanner.shouldIgnoreElement el t); [reflexivity|].
  destruct (ContentScanner.shouldAnalyzeText _); [|reflexivity].
  rewrite blocked_processQueue. reflexivity.
Qed.

Lemma blocked_visitImage : forall now t el,
    blockedElements (ContentScanner.visitImage now t el) = blockedElements t.
Proof.
  intros now t el. unfold ContentScanner.visitImage, ContentScanner.queueImageAnalysis.
  destruct (ContentScanner.shouldIgnoreElement el t); [reflexivity|].
  destruct (ContentScanner.shouldAnalyzeImage _ _); [|reflexivity].
  rewrite blocked_processQueue. reflexivity.
Qed.

Lemma blocked_fold : forall (B : Type) (f : Tab -> B -> Tab) l t,
    (forall t x, blockedElements (f t x) = blockedElements t) ->
    blockedElements (fold_left f l t) = blockedElements t.
Proof.
  intros B f l. induction l as [|x l IH]; intros t H; simpl; [reflexivity|].
  rewrite IH by exact H. apply H.
Qed.

Lemma blocked_scanExistingContent : forall now t,
    blockedElements (ContentScanner.scanExistingContent now t) = blockedElements t.
Proof.
  intros now t. unfold ContentScanner.scanExistingContent,
    ContentScanner.scanImageContent, ContentScanner.scanGoogleSearchResults,
    ContentScanner.scanTextContent.
  rewrite blocked_fold by apply blocked_visitImage.
  destruct (Js.includes _ _).
  - rewrite blocked_fold.
    + apply blocked_fold. apply blocked_visitText.
    + intros t1 sel. apply blocked_fold. apply blocked_visitText.
  - apply blocked_fold. apply blocked_visitText.
Qed.

Lemma blocked_startScanning : forall now t,
    blockedElements (ContentScanner.startScanning now t) = blockedElements t.
Proof.
  intros now t. unfold ContentScanner.startScanning.
  destruct (isScanning t); [reflexivity|].
  destruct (ContentScanner.isAllowlisted _) as [[|]|]; try reflexivity.
  unfold ContentScanner.continuousScanning. simpl.
  rewrite blocked_scanExistingContent. reflexivity.
Qed.

Lemma blocked_init : forall answer now t,
    blockedElements (ContentScanner.init answer now t) = blockedElements t.
Proof.
  intros answer now t. unfold ContentScanner.init.
  assert (H : blockedElements (ContentScanner.loadSettings answer t) = blockedElements t)
    by (destruct answer as [[s|]|]; reflexivity).
  destruct (settings (ContentScanner.loadSettings answer t));
    [|destruct (isScanning (ContentScanner.loadSettings answer t))]; simpl;
    rewrite blocked_startScanning; exact H.
Qed.

Lemma blocked_periodicRescan : forall now t,
    blockedElements (ContentScanner.periodicRescan now t) = blockedElements t.
Proof.
  intros now t. unfold ContentScanner.periodicRescan.
  destruct (ContentScanner.isAllowlisted t) as [[|]|]; try reflexivity.
  apply blocked_scanExistingContent.
Qed.

Lemma blocked_onMutations : forall now nodes t,
    blockedElements (ContentScanner.onMutations now nodes t) = blockedElements t.
Proof.
  intros now nodes t. unfold ContentScanner.onMutations.
  apply blocked_fold. intros t1 node. unfold ContentScanner.scanNewElement.
  rewrite blocked_fold by apply blocked_visitImage.
  apply blocked_fold. apply blocked_visitText.
Qed.

Lemma blocked_onTimeout : forall t,
    blockedElements (ContentScanner.onTimeout t) = blockedElements t.
Proof.
  intros t. unfold ContentScanner.onTimeout. destruct (timeouts t); [reflexivity|].
  rewrite blocked_processQueue. reflexivity.
Qed.

Lemma blocked_onImageData : forall id d t,
    blockedElements (ContentScanner.onImageData id d t) = blockedElements t.
Proof.
  intros id d t. unfold ContentScanner.onImageData, ContentScanner.continueProcessing.
  destruct (ContentScanner.findAwaiting id t) as [[item|item]|]; try reflexivity.
  simpl. destruct d; [destruct (settings t)|]; simpl; try reflexivity;
    destruct (scanQueue t); reflexivity.
Qed.

Lemma blocked_replaceContent : forall e ty r t,
    blockedElements (DOMManipulator.replaceContent e ty r t) = blockedElements t.
Proof.
  intros. unfold DOMManipulator.replaceContent. simpl.
  destruct (Dom.replaceChild _ _ _); reflexivity.
Qed.

Lemma blocked_blurContent : forall e ty r t,
    blockedElements (DOMManipulator.blurContent e ty r t) = blockedElements t.
Proof. reflexivity. Qed.

Lemma blocked_hideContent : forall e ty r t,
    blockedElements (DOMManipulator.hideContent e ty r t) = blockedElements t.
Proof.
  intros. unfold DOMManipulator.hideContent. simpl.
  destruct (Dom.insertBefore _ _ _); reflexivity.
Qed.

Lemma nodup_handleUnsafeContent : forall detail t,
    NoDup (blockedElements t) ->
    NoDup (blockedElements (DOMManipulator.handleUnsafeContent detail t)).
Proof.
  intros detail t H. unfold DOMManipulator.handleUnsafeContent.
  destruct (Js.setHas _ _); [exact H|].
  destruct (DOMManipulator.getBlockingMethod _ _);
    rewrite ?blocked_replaceContent, ?blocked_blurContent, ?blocked_hideContent;
    simpl; apply nodup_setAdd; exact H.
Qed.

Lemma nodup_onResponse : forall id r t,
    NoDup (blockedElements t) ->
    NoDup (blockedElements (ContentScanner.onResponse id r t)).
Proof.
  intros id r t H. unfold ContentScanner.onResponse.
  destruct (ContentScanner.findAwaiting id t) as [[item|item]|]; try exact H.
  assert (K : forall t', NoDup (blockedElements t') ->
                         NoDup (blockedElements (ContentScanner.continueProcessing t'))).
  { intros t' H'. unfold ContentScanner.continueProcessing.
    destruct (scanQueue t'); exact H'. }
  apply K. destruct r as [result|err]; [|exact H].
  destruct (negb (is_safe result)); [|exact H].
  unfold ContentScanner.handleUnsafeContent.
  apply nodup_handleUnsafeContent. exact H.
Qed.

Lemma nodup_onUser : forall u t,
    NoDup (blockedElements t) ->
    NoDup (blockedElements (DOMManipulator.onUser u t)).
Proof.
  intros u t H. destruct u as [c confirmed | e | b | ]; simpl.
  - destruct (find _ _) as [[c' o ty| |]|]; try exact H.
    unfold DOMManipulator.showOriginalContent.
    destruct confirmed; [|exact H].
    destruct (Dom.replaceChild _ _ _); [|exact H].
    simpl. apply nodup_setDelete. exact H.
  - destruct (existsb _ _); [|exact H].
    simpl. apply nodup_setDelete. exact H.
  - destruct (find _ _) as [[| |b' e' od]|]; try exact H.
    simpl. apply nodup_setDelete. exact H.
  - unfold DOMManipulator.restoreAllContent.
    destruct (DOMManipulator.restoreReplaced _ _); [|exact H].
    simpl. constructor.
Qed.

Lemma nodup_step : forall s e,
    NoDup (blockedElements (Pipeline.tab s)) ->
    NoDup (blockedElements (Pipeline.tab (Pipeline.step s e))).
Proof.
  intros s e H. destruct e; simpl.
  - rewrite blocked_init. exact H.
  - rewrite blocked_periodicRescan. exact H.
  - rewrite blocked_onMutations. exact H.
  - rewrite blocked_onTimeout. exact H.
  - rewrite blocked_onImageData. exact H.
  - apply nodup_onUser. exact H.
  - destruct (Js.get _ _ _); simpl; exact H.
  - exact H.
  - destruct (Js.get _ _ _); simpl; [apply nodup_onResponse|]; exact H.
Qed.

Lemma nodup_run : forall es s,
    NoDup (blockedElements (Pipeline.tab s)) ->
    NoDup (blockedElements (Pipeline.tab (Pipeline.run s es))).
Proof.
  induction es as [|e es IH]; intros s H; simpl; [exact H|].
  apply IH. apply nodup_step. exact H.
Qed.

(** C8.  In every state the pipeline reaches, whatever has happened on
    the page, an element is tracked in [blockedElements] at most once.
    An unsafe-content event for an element that is tracked leaves the
    tab exactly as it was: the page, [blockedElements],
    [replacementElements] and the listeners are unchanged, and no
    blocking method is applied.  (The scanner's dispatch of such an
    event is recorded, and that is all it changes.) *)
Theorem already_blocked_element_is_skipped :
  forall (p : Dom.Page) (host : string) (es : list Pipeline.Event)
         (detail : Detail) (t : Tab),
    NoDup (blockedElements (Pipeline.tab (Pipeline.run (Pipeline.start p host) es))) /\
    (Js.setHas (d_element detail) (blockedElements t) = true ->
     DOMManipulator.handleUnsafeContent detail t = t /\
     ContentScanner.handleUnsafeContent
       (d_element detail) (d_type detail) (d_analysisResult detail) t
     = recordDispatch detail t).
Proof.
  intros p host es detail t. split.
  - apply nodup_run. simpl. constructor.
  - intros H. split.
    + unfold DOMManipulator.handleUnsafeContent. rewrite H. reflexivity.
    + unfold ContentScanner.handleUnsafeContent, DOMManipulator.handleUnsafeContent.
      simpl. rewrite H. destruct detail; reflexivity.
Qed.

End BlockedFacts.

(** ** Gateway failures *)

Module FailureFacts.
Import ServiceWorker Pipeline.

Lemma get_app_fresh : forall (V : Type) (k : nat) (v : V) m,
    Js.get Nat.eqb k m = None -> Js.get Nat.eqb k (m ++ [(k, v)]) = Some v.
Proof.
  intros V k v m. induction m as [|[k0 v0] m IH]; simpl; intros H.
  - rewrite Nat.eqb_refl. reflexivity.
  - destruct (Nat.eqb k k0); [discriminate | apply IH; exact H].
Qed.

(** C4.  A Gateway request fails when its [fetch] rejects or when the
    status is not a success status; [makeApiRequest] then throws.  When
    the request of a suspended handler fails so, the handler's [catch]
    answers [{success: false, error}] and the analysis cache is left as
    it was.  When that answer reaches the tab, no unsafe-content event is
    dispatched, and the page, [blockedElements], [replacementElements]
    and the listeners stay as they were: the fragment is not blocked.
    Both steps are ordinary transitions; no exception leaves them. *)
Theorem gateway_failure_blocks_nothing :
  forall (s : System) (id : nat) (p : Suspended) (item : Item)
         (o : FetchOutcome) (msg : string) (now : Z) (err : option string),
    makeApiRequest o = inr msg ->
    findSuspended id (suspended (worker s)) = Some p ->
    ContentScanner.findAwaiting id (tab s) = Some (AwaitResponse item) ->
    Js.get Nat.eqb id (responses (worker s)) = None ->
    let s1 := step s (FetchSettled id o now err) in
    let s2 := step s1 (Answer id) in
    (forall m, makeApiRequest (NetworkError m) = inr m) /\
    (forall status json, response_ok status = false ->
        makeApiRequest (HttpResponse status json)
        = inr ("API request failed: " ++ Js.intToString status)%string) /\
    analysisCache (worker s1) = analysisCache (worker s) /\
    responses (worker s1) = responses (worker s) ++ [(id, Failure msg)] /\
    sent (worker s1) = sent (worker s) /\
    tab s1 = tab s /\
    worker s2 = worker s1 /\
    dispatched (tab s2) = dispatched (tab s) /\
    page (tab s2) = page (tab s) /\
    blockedElements (tab s2) = blockedElements (tab s) /\
    replacementElements (tab s2) = replacementElements (tab s) /\
    listeners (tab s2) = listeners (tab s) /\
    ContentScanner.findAwaiting id (tab s2) = None.
Proof.
  intros s id p item o msg now err Hfail Hsusp Hawait Hnone s1 s2.
  assert (E1 : worker s1 =
               sendResponse id (Failure msg)
                 {| analysisCache := analysisCache (worker s);
                    pendingRequests := pendingRequests (worker s);
                    suspended := dropSuspended id (suspended (worker s));
                    sent := sent (worker s);
                    responses := responses (worker s);
                    stats := stats (worker s) |}).
  { unfold s1. simpl. unfold resumeAnalysis. rewrite Hsusp, Hfail. reflexivity. }
  assert (E2 : Js.get Nat.eqb id (responses (worker s1)) = Some (Failure msg)).
  { rewrite E1. simpl. apply get_app_fresh. exact Hnone. }
  assert (E3 : s2 = {| tab := ContentScanner.onResponse id (Failure msg) (tab s);
                       worker := worker s1 |}).
  { unfold s2. unfold step at 1. rewrite E2. reflexivity. }
  assert (E4 : ContentScanner.onResponse id (Failure msg) (tab s) =
               ContentScanner.continueProcessing
                 (ContentScanner.dropAwaiting id (tab s))).
  { unfold ContentScanner.onResponse. rewrite Hawait. reflexivity. }
  split; [reflexivity|]. split.
  { intros status json Hok. simpl. rewrite Hok. reflexivity. }
  rewrite E3, E4, E1. simpl.
  unfold ContentScanner.continueProcessing. simpl.
  repeat split; try (destruct (scanQueue (tab s)); reflexivity).
  destruct (scanQueue (tab s)); unfold ContentScanner.findAwaiting; simpl;
    apply get_delete_same.
Qed.

End FailureFacts.

(** ** Trees *)

Module DomFacts.
Import Dom.

(** Induction over a tree, with the hypothesis for every child. *)
Lemma Node_induction : forall (P : Node -> Prop),
    (forall s, P (TextNode s)) ->
    (forall e kids, Forall P kids -> P (ElementNode e kids)) ->
    forall n, P n.
Proof.
  intros P Ht He. fix IH 1. intros [s|e kids].
  - apply Ht.
  - apply He. induction kids as [|k kids IHk]; constructor.
    + apply IH.
    + exact IHk.
Qed.

Lemma flat_map_map : forall (A B C : Type) (f : A -> B) (g : B -> list C) l,
    flat_map g (map f l) = flat_map (fun x => g (f x)) l.
Proof.
  intros A B C f g l. induction l as [|x l IH]; simpl; [reflexivity|].
  rewrite IH. reflexivity.
Qed.

Lemma map_flat_map : forall (A B C : Type) (f : B -> C) (g : A -> list B) l,
    map f (flat_map g l) = flat_map (fun x => map f (g x)) l.
Proof.
  intros A B C f g l. induction l as [|x l IH]; simpl; [reflexivity|].
  rewrite map_app, IH. reflexivity.
Qed.

Lemma flat_map_ext_Forall : forall (A B : Type) (f g : A -> list B) l,
    Forall (fun x => f x = g x) l -> flat_map f l = flat_map g l.
Proof.
  intros A B f g l H. induction H as [|x l Hx _ IH]; simpl; [reflexivity|].
  rewrite Hx, IH. reflexivity.
Qed.

Lemma map_id_Forall : forall (A : Type) (f : A -> A) l,
    Forall (fun x => f x = x) l -> map f l = l.
Proof.
  intros A f l H. induction H as [|x l Hx _ IH]; simpl; [reflexivity|].
  rewrite Hx, IH. reflexivity.
Qed.

(** The identities of a tree do not depend on the ancestors it is read
    under. *)
Lemma uids_under : forall n anc,
    map (fun l => uid (fst l)) (descendantsOrSelf anc n) = uids n.
Proof.
  induction n as [s|e kids IH] using Node_induction; intros anc; [reflexivity|].
  unfold uids. simpl. f_equal. rewrite !map_flat_map.
  apply flat_map_ext_Forall.
  apply Forall_impl with (2 := IH). intros k Hk. simpl in Hk.
  rewrite Hk. symmetry. apply Hk.
Qed.

Lemma uids_element : forall e kids,
    uids (ElementNode e kids) = uid e :: flat_map uids kids.
Proof.
  intros e kids. unfold uids at 1. simpl. f_equal. rewrite map_flat_map.
  apply flat_map_ext_Forall. apply Forall_forall. intros k _. apply uids_under.
Qed.

(** Updating an element in a tree updates it wherever the tree lists
    it: as an element and as an ancestor. *)
Lemma descendants_updateNode : forall u f n anc,
    descendantsOrSelf (map (atUid u f) anc) (updateNode u f n)
    = map (atUidLocated u f) (descendantsOrSelf anc n).
Proof.
  intros u f. induction n as [s|e kids IH] using Node_induction; intros anc;
    [reflexivity|].
  simpl. unfold atUidLocated at 1. simpl. f_equal.
  rewrite flat_map_map, map_flat_map.
  apply flat_map_ext_Forall.
  apply Forall_impl with (2 := IH). intros k Hk. simpl in Hk.
  apply (Hk (e :: anc)).
Qed.

Lemma textContent_updateNode : forall u f n,
    textContent (updateNode u f n) = textContent n.
Proof.
  intros u f. induction n as [s|e kids IH] using Node_induction; [reflexivity|].
  simpl. induction IH as [|k kids Hk _ IHk]; simpl; [reflexivity|].
  rewrite Hk, IHk. reflexivity.
Qed.


Lemma firstSome_map : forall (A B : Type) (g : A -> A) (f : A -> option B)
                             (h : B -> B) l,
    Forall (fun x => f (g x) = option_map h (f x)) l ->
    firstSome f (map g l) = option_map h (firstSome f l).
Proof.
  intros A B g f h l H. induction H as [|x l Hx _ IH]; simpl; [reflexivity|].
  rewrite Hx. destruct (f x); simpl; [reflexivity | exact IH].
Qed.

Lemma findNode_element : forall u e kids,
    findNode u (ElementNode e kids) =
    if Nat.eqb (uid e) u then Some (ElementNode e kids)
    else firstSome (findNode u) kids.
Proof.
  intros u e kids. simpl. destruct (Nat.eqb (uid e) u); [reflexivity|].
  induction kids as [|k kids IH]; simpl; [reflexivity|].
  destruct (findNode u k); [reflexivity | exact IH].
Qed.

Lemma findNode_updateNode : forall u f x n,
    (forall e, uid (f e) = uid e) ->
    findNode x (updateNode u f n) = option_map (updateNode u f) (findNode x n).
Proof.
  intros u f x n Hf. induction n as [s|e kids IH] using Node_induction;
    [reflexivity|].
  change (updateNode u f (ElementNode e kids))
    with (ElementNode (atUid u f e) (map (updateNode u f) kids)).
  rewrite !findNode_element.
  assert (Hu : uid (atUid u f e) = uid e)
    by (unfold atUid; destruct (Nat.eqb (uid e) u); [apply Hf | reflexivity]).
  rewrite Hu. destruct (Nat.eqb (uid e) x); [reflexivity|].
  apply firstSome_map. exact IH.
Qed.

Lemma findInPage_updateElement : forall u f x p,
    (forall e, uid (f e) = uid e) ->
    findInPage x (updateElement u f p)
    = option_map (updateNode u f) (findInPage x p).
Proof.
  intros u f x p Hf.
  change (findInPage x (updateElement u f p))
    with (firstSome (findNode x) (map (updateNode u f) (document p :: detached p))).
  change (findInPage x p) with (firstSome (findNode x) (document p :: detached p)).
  apply firstSome_map. apply Forall_forall. intros n _.
  apply findNode_updateNode. exact Hf.
Qed.

Lemma find_map : forall (A : Type) (g : A -> A) (P : A -> bool) l,
    (forall x, P (g x) = P x) ->
    find P (map g l) = option_map g (find P l).
Proof.
  intros A g P l H. induction l as [|x l IH]; simpl; [reflexivity|].
  rewrite H. destruct (P x); [reflexivity | exact IH].
Qed.

Lemma uid_atUid : forall u f e,
    (forall e, uid (f e) = uid e) -> uid (atUid u f e) = uid e.
Proof.
  intros u f e Hf. unfold atUid. destruct (Nat.eqb (uid e) u); [apply Hf | reflexivity].
Qed.

Lemma located_updateElement : forall u f p,
    flat_map (descendantsOrSelf []) (trees (updateElement u f p))
    = map (atUidLocated u f) (flat_map (descendantsOrSelf []) (trees p)).
Proof.
  intros u f p.
  change (trees (updateElement u f p))
    with (map (updateNode u f) (document p :: detached p)).
  change (trees p) with (document p :: detached p).
  rewrite flat_map_map, map_flat_map.
  apply flat_map_ext_Forall. apply Forall_forall. intros n _.
  apply (descendants_updateNode u f n []).
Qed.

Lemma locate_updateElement : forall u f x p,
    (forall e, uid (f e) = uid e) ->
    locate x (updateElement u f p) = option_map (atUidLocated u f) (locate x p).
Proof.
  intros u f x p Hf. unfold locate. rewrite located_updateElement.
  apply find_map. intros l. simpl. rewrite uid_atUid by exact Hf. reflexivity.
Qed.

Lemma locate_uid : forall x p l, locate x p = Some l -> uid (fst l) = x.
Proof.
  intros x p l H. unfold locate in H. apply find_some in H.
  apply Nat.eqb_eq. apply H.
Qed.

End DomFacts.

(** ** The processed mark *)

Module MarkFacts.
Import Dom Tabs ContentScanner DomFacts.

Lemma uid_mark : forall e, uid (mark e) = uid e.
Proof. reflexivity. Qed.

Lemma getAttribute_mark : forall a e,
    a <> processedAttribute -> getAttribute a (mark e) = getAttribute a e.
Proof.
  intros a e Ha. unfold getAttribute, mark. simpl.
  apply (get_set_other _ _ _ String.eqb_eq). congruence.
Qed.

Lemma hasAttribute_mark : forall a e,
    hasAttribute a (mark e) = hasAttribute a e || String.eqb a processedAttribute.
Proof.
  intros a e. unfold hasAttribute, Js.has, mark. simpl.
  destruct (String.eqb a processedAttribute) eqn:E.
  - apply String.eqb_eq in E. subst a.
    rewrite (get_set_same _ _ _ String.eqb_eq). rewrite orb_true_r. reflexivity.
  - apply String.eqb_neq in E.
    rewrite (get_set_other _ _ _ String.eqb_eq) by congruence.
    rewrite orb_false_r. reflexivity.
Qed.

Lemma matchesSimple_mark : forall u e s,
    plainSimple s = true -> matchesSimple (atUid u mark e) s = matchesSimple e s.
Proof.
  intros u e s Hs. unfold atUid. destruct (Nat.eqb (uid e) u); [|reflexivity].
  destruct s as [t|c|a|i]; simpl in *; try reflexivity.
  - fold (hasAttribute a (mark e)). rewrite hasAttribute_mark.
    apply negb_true_iff in Hs. rewrite Hs, orb_false_r. reflexivity.
  - fold (getAttribute "id" (mark e)). rewrite getAttribute_mark by discriminate.
    reflexivity.
Qed.

Lemma matchesAncestors_mark : forall u anc chain,
    forallb plainSimple chain = true ->
    matchesAncestors (map (atUid u mark) anc) chain = matchesAncestors anc chain.
Proof.
  intros u. induction anc as [|a anc IH]; intros chain Hc.
  - destruct chain; reflexivity.
  - destruct chain as [|s rest]; [reflexivity|].
    simpl in Hc. apply andb_true_iff in Hc. destruct Hc as [Hs Hrest].
    simpl. rewrite matchesSimple_mark by exact Hs.
    destruct (matchesSimple a s).
    + apply IH. exact Hrest.
    + apply IH. simpl. rewrite Hs, Hrest. reflexivity.
Qed.

Lemma forallb_rev : forall (A : Type) (P : A -> bool) l,
    forallb P l = true -> forallb P (rev l) = true.
Proof.
  intros A P l H. rewrite forallb_forall in *. intros x Hx.
  apply H. apply in_rev. exact Hx.
Qed.

Lemma matches_mark : forall u l sel,
    forallb plainSimple sel = true ->
    matches (atUidLocated u mark l) sel = matches l sel.
Proof.
  intros u l sel Hs. unfold matches. apply forallb_rev in Hs.
  destruct (rev sel) as [|s outer]; [reflexivity|].
  simpl in Hs. apply andb_true_iff in Hs. destruct Hs as [H1 H2].
  unfold atUidLocated. simpl.
  rewrite matchesSimple_mark by exact H1.
  rewrite matchesAncestors_mark by exact H2. reflexivity.
Qed.

Lemma matchesAny_mark : forall u l sels,
    plainSelectors sels = true ->
    matchesAny sels (atUidLocated u mark l) = matchesAny sels l.
Proof.
  intros u l sels. unfold matchesAny, plainSelectors.
  induction sels as [|sel sels IH]; intros H; [reflexivity|].
  simpl in H. apply andb_true_iff in H. destruct H as [H1 H2].
  simpl. rewrite matches_mark by exact H1. rewrite IH by exact H2. reflexivity.
Qed.

Lemma closestFrom_mark : forall u sels anc e,
    plainSelectors sels = true ->
    closestFrom sels (atUid u mark e) (map (atUid u mark) anc)
    = closestFrom sels e anc.
Proof.
  intros u sels. induction anc as [|a anc IH]; intros e H; simpl.
  - change (atUid u mark e, @nil Element) with (atUidLocated u mark (e, [])).
    rewrite matchesAny_mark by exact H. reflexivity.
  - change (atUid u mark e, atUid u mark a :: map (atUid u mark) anc)
      with (atUidLocated u mark (e, a :: anc)).
    rewrite matchesAny_mark by exact H. rewrite IH by exact H. reflexivity.
Qed.

Lemma querySelectorAll_markPage : forall sels u p,
    plainSelectors sels = true ->
    querySelectorAll sels (markPage u p) = querySelectorAll sels p.
Proof.
  intros sels u p H. unfold querySelectorAll.
  change (descendantsOrSelf [] (document (markPage u p)))
    with (descendantsOrSelf (map (atUid u mark) []) (updateNode u mark (document p))).
  rewrite descendants_updateNode.
  rewrite filter_map_swap, map_map.
  rewrite (filter_ext _ (matchesAny sels))
    by (intros l; apply matchesAny_mark; exact H).
  apply map_ext. intros l. simpl. apply uid_atUid. apply uid_mark.
Qed.

Lemma querySelectorAll_markAll : forall sels us p,
    plainSelectors sels = true ->
    querySelectorAll sels (markAll us p) = querySelectorAll sels p.
Proof.
  intros sels us. induction us as [|u us IH]; intros p H; simpl; [reflexivity|].
  rewrite IH by exact H. apply querySelectorAll_markPage. exact H.
Qed.

(** Marking [u] makes the scanner ignore [u], and changes nothing for
    any other element. *)
Lemma shouldIgnoreElement_markPage : forall x u t t',
    page t' = markPage u (page t) ->
    shouldIgnoreElement x t' = shouldIgnoreElement x t || Nat.eqb x u.
Proof.
  intros x u t t' Hp. unfold shouldIgnoreElement. rewrite Hp.
  unfold markPage. rewrite locate_updateElement by apply uid_mark.
  destruct (locate x (page t)) as [[e anc]|] eqn:L; simpl; [|reflexivity].
  apply locate_uid in L. simpl in L.
  unfold closest. simpl.
  rewrite closestFrom_mark by reflexivity.
  destruct (closestFrom ignoreSelectors e anc); [reflexivity|].
  unfold atUid. rewrite L. rewrite (Nat.eqb_sym x u).
  destruct (Nat.eqb u x) eqn:E.
  - rewrite hasAttribute_mark. rewrite String.eqb_refl, orb_true_r.
    rewrite orb_true_r. reflexivity.
  - rewrite orb_false_r. reflexivity.
Qed.

Lemma shouldIgnoreElement_page : forall x t t',
    page t' = page t -> shouldIgnoreElement x t' = shouldIgnoreElement x t.
Proof. intros x t t' H. unfold shouldIgnoreElement. rewrite H. reflexivity. Qed.

Lemma shouldIgnoreElement_markAll : forall x us t t',
    page t' = markAll us (page t) ->
    shouldIgnoreElement x t' = shouldIgnoreElement x t || existsb (Nat.eqb x) us.
Proof.
  intros x us. induction us as [|u us IH]; intros t t' Hp; simpl in *.
  - rewrite orb_false_r. apply shouldIgnoreElement_page. exact Hp.
  - rewrite (IH (setPage (markPage u (page t)) t) t') by exact Hp.
    rewrite (shouldIgnoreElement_markPage x u t) by reflexivity.
    rewrite orb_assoc. reflexivity.
Qed.

Lemma extractText_markPage : forall x u t t',
    page t' = markPage u (page t) -> extractText x t' = extractText x t.
Proof.
  intros x u t t' Hp. unfold extractText. rewrite Hp. unfold markPage.
  rewrite findInPage_updateElement by apply uid_mark.
  destruct (findInPage x (page t)); simpl; [|reflexivity].
  rewrite textContent_updateNode. reflexivity.
Qed.

Lemma extractText_markAll : forall x us t t',
    page t' = markAll us (page t) -> extractText x t' = extractText x t.
Proof.
  intros x us. induction us as [|u us IH]; intros t t' Hp; simpl in *.
  - unfold extractText. rewrite Hp. reflexivity.
  - rewrite (IH (setPage (markPage u (page t)) t) t') by exact Hp.
    apply (extractText_markPage x u t). reflexivity.
Qed.

Lemma shouldAnalyzeImage_markPage : forall x u t t',
    page t' = markPage u (page t) -> shouldAnalyzeImage x t' = shouldAnalyzeImage x t.
Proof.
  intros x u t t' Hp. unfold shouldAnalyzeImage. rewrite Hp. unfold markPage.
  rewrite locate_updateElement by apply uid_mark.
  destruct (locate x (page t)) as [[e anc]|]; simpl; [|reflexivity].
  unfold atUid. destruct (Nat.eqb (uid e) u); reflexivity.
Qed.

Lemma shouldAnalyzeImage_markAll : forall x us t t',
    page t' = markAll us (page t) -> shouldAnalyzeImage x t' = shouldAnalyzeImage x t.
Proof.
  intros x us. induction us as [|u us IH]; intros t t' Hp; simpl in *.
  - unfold shouldAnalyzeImage. rewrite Hp. reflexivity.
  - rewrite (IH (setPage (markPage u (page t)) t) t') by exact Hp.
    apply (shouldAnalyzeImage_markPage x u t). reflexivity.
Qed.

End MarkFacts.

(** ** Scanning *)

Module ScanFacts.
Import Dom Tabs ContentScanner DomFacts MarkFacts.

Lemma since_refl : forall t, scanQueue t = [] -> since t t [].
Proof.
  intros t H. unfold since. simpl. rewrite app_nil_r.
  repeat split; auto. - constructor. - intros x [].
Qed.

Lemma since_frame : forall t t' t'' items,
    since t t' items ->
    page t'' = page t' -> pushed t'' = pushed t' ->
    scanQueue t'' = scanQueue t' -> hostname t'' = hostname t' ->
    since t t'' items.
Proof.
  intros t t' t'' items (H1 & H2 & H3 & H4 & H5 & H6) Hp Hq Hs Hh.
  unfold since. rewrite Hp, Hq, Hs, Hh. repeat split; assumption.
Qed.

(** Queueing marks at once: after [queueTextAnalysis] the queue is
    empty again and the element carries the mark. *)
Lemma queueTextAnalysis_effect : forall element txt now t,
    scanQueue t = [] ->
    let t' := queueTextAnalysis element txt now t in
    scanQueue t' = [] /\
    pushed t' = pushed t ++ [{| i_type := text; i_element := element;
                                i_content := txt; i_timestamp := now |}] /\
    page t' = markPage element (page t) /\
    hostname t' = hostname t.
Proof.
  intros element txt now t Hq. cbv zeta.
  unfold queueTextAnalysis, processQueue. simpl. rewrite Hq. simpl.
  unfold analyzeText. simpl. destruct (settings t); simpl; repeat split; reflexivity.
Qed.

Lemma queueImageAnalysis_effect : forall element now t,
    scanQueue t = [] ->
    let t' := queueImageAnalysis element now t in
    scanQueue t' = [] /\
    pushed t' = pushed t ++ [{| i_type := image; i_element := element;
                                i_content := ""; i_timestamp := now |}] /\
    page t' = markPage element (page t) /\
    hostname t' = hostname t.
Proof.
  intros element now t Hq. cbv zeta.
  unfold queueImageAnalysis, processQueue. simpl. rewrite Hq. simpl.
  repeat split; reflexivity.
Qed.

Lemma existsb_In : forall x l, existsb (Nat.eqb x) l = true <-> In x l.
Proof. intros. apply setHas_In. Qed.

Lemma markAll_snoc : forall us u p, markAll (us ++ [u]) p = markPage u (markAll us p).
Proof. intros us u p. unfold markAll. rewrite fold_left_app. reflexivity. Qed.

Lemma since_push : forall t t' t'' items item,
    since t t' items ->
    shouldIgnoreElement (i_element item) t' = false ->
    scanQueue t'' = [] ->
    pushed t'' = pushed t' ++ [item] ->
    page t'' = markPage (i_element item) (page t') ->
    hostname t'' = hostname t' ->
    since t t'' (items ++ [item]).
Proof.
  intros t t' t'' items item (H1 & H2 & H3 & H4 & H5 & H6) Hi Hq Hp Hpg Hh.
  rewrite (shouldIgnoreElement_markAll _ _ t t' H3) in Hi.
  apply orb_false_iff in Hi. destruct Hi as [Hi1 Hi2].
  assert (Hnot : ~ In (i_element item) (map i_element items)).
  { intro Hin. apply existsb_In in Hin. congruence. }
  unfold since. rewrite map_app. simpl.
  repeat split.
  - exact Hq.
  - rewrite Hp, H2, app_assoc. reflexivity.
  - rewrite Hpg, H3, markAll_snoc. reflexivity.
  - congruence.
  - apply NoDup_app; [exact H5 | repeat constructor; intros [] |].
    intros a Ha [Ha'|[]]. subst a. contradiction.
  - intros x Hx. apply in_app_or in Hx. destruct Hx as [Hx|[Hx|[]]].
    + apply H6. exact Hx.
    + subst x. exact Hi1.
Qed.

Lemma visitText_since : forall now t t' items x,
    since t t' items ->
    exists more,
      since t (visitText now t' x) (items ++ more) /\
      (wantsText t x = true -> In x (map i_element (items ++ more))).
Proof.
  intros now t t' items x S.
  pose proof S as (H1 & H2 & H3 & H4 & H5 & H6).
  pose proof (shouldIgnoreElement_markAll x _ t t' H3) as Hign.
  pose proof (extractText_markAll x _ t t' H3) as Htxt.
  unfold visitText, wantsText.
  destruct (shouldIgnoreElement x t') eqn:E.
  - exists []. rewrite app_nil_r. split; [exact S|].
    intros W. apply andb_true_iff in W. destruct W as [W _].
    apply negb_true_iff in W. rewrite W in Hign. simpl in Hign.
    apply existsb_In. congruence.
  - symmetry in Hign. apply orb_false_iff in Hign. destruct Hign as [Hi1 Hi2].
    rewrite Htxt. destruct (shouldAnalyzeText (extractText x t)) eqn:A.
    + destruct (queueTextAnalysis_effect x (extractText x t) now t' H1)
        as (Q1 & Q2 & Q3 & Q4).
      exists [{| i_type := text; i_element := x; i_content := extractText x t;
                 i_timestamp := now |}]. split.
      * apply (since_push t t' _ items _ S); simpl; assumption.
      * intros _. rewrite map_app. apply in_or_app. right. simpl. left. reflexivity.
    + exists []. rewrite app_nil_r. split; [exact S|].
      rewrite andb_false_r. discriminate.
Qed.

Lemma visitImage_since : forall now t t' items x,
    since t t' items ->
    exists more,
      since t (visitImage now t' x) (items ++ more) /\
      (wantsImage t x = true -> In x (map i_element (items ++ more))).
Proof.
  intros now t t' items x S.
  pose proof S as (H1 & H2 & H3 & H4 & H5 & H6).
  pose proof (shouldIgnoreElement_markAll x _ t t' H3) as Hign.
  pose proof (shouldAnalyzeImage_markAll x _ t t' H3) as Himg.
  unfold visitImage, wantsImage.
  destruct (shouldIgnoreElement x t') eqn:E.
  - exists []. rewrite app_nil_r. split; [exact S|].
    intros W. apply andb_true_iff in W. destruct W as [W _].
    apply negb_true_iff in W. rewrite W in Hign. simpl in Hign.
    apply existsb_In. congruence.
  - symmetry in Hign. apply orb_false_iff in Hign. destruct Hign as [Hi1 Hi2].
    rewrite Himg. destruct (shouldAnalyzeImage x t) eqn:A.
    + destruct (queueImageAnalysis_effect x now t' H1) as (Q1 & Q2 & Q3 & Q4).
      exists [{| i_type := image; i_element := x; i_content := "";
                 i_timestamp := now |}]. split.
      * apply (since_push t t' _ items _ S); simpl; assumption.
      * intros _. rewrite map_app. apply in_or_app. right. simpl. left. reflexivity.
    + exists []. rewrite app_nil_r. split; [exact S|].
      rewrite andb_false_r. discriminate.
Qed.

(** A pass over any list of candidates. *)
Lemma pass_since : forall (visit : Z -> Tab -> nat -> Tab) (wants : Tab -> nat -> bool),
    (forall now t t' items x,
        since t t' items ->
        exists more, since t (visit now t' x) (items ++ more) /\
                     (wants t x = true -> In x (map i_element (items ++ more)))) ->
    forall now t l t' items,
      since t t' items ->
      exists more,
        since t (fold_left (visit now) l t') (items ++ more) /\
        (forall x, In x l -> wants t x = true ->
                   In x (map i_element (items ++ more))).
Proof.
  intros visit wants Hv now t. induction l as [|y l IH]; intros t' items S.
  - exists []. rewrite app_nil_r. split; [exact S | intros x []].
  - destruct (Hv now t t' items y S) as (m1 & S1 & C1).
    destruct (IH (visit now t' y) (items ++ m1) S1) as (m2 & S2 & C2).
    exists (m1 ++ m2). rewrite app_assoc. split; [exact S2|].
    intros x [Hx|Hx] W.
    + subst x. specialize (C1 W). rewrite map_app. apply in_or_app. left. exact C1.
    + apply C2; assumption.
Qed.

Lemma textPass : forall now t l t' items,
    since t t' items ->
    exists more,
      since t (fold_left (visitText now) l t') (items ++ more) /\
      (forall x, In x l -> wantsText t x = true ->
                 In x (map i_element (items ++ more))).
Proof. exact (pass_since visitText wantsText visitText_since). Qed.

Lemma imagePass : forall now t l t' items,
    since t t' items ->
    exists more,
      since t (fold_left (visitImage now) l t') (items ++ more) /\
      (forall x, In x l -> wantsImage t x = true ->
                 In x (map i_element (items ++ more))).
Proof. exact (pass_since visitImage wantsImage visitImage_since). Qed.

Lemma In_more : forall x (items more : list Item),
    In x (map i_element items) -> In x (map i_element (items ++ more)).
Proof. intros. rewrite map_app. apply in_or_app. left. assumption. Qed.

Lemma since_query : forall sels t t' items,
    since t t' items -> plainSelectors sels = true ->
    querySelectorAll sels (page t') = querySelectorAll sels (page t).
Proof.
  intros sels t t' items (H1 & H2 & H3 & H4 & H5 & H6) Hs.
  rewrite H3. apply querySelectorAll_markAll. exact Hs.
Qed.

(** The pass over the Google selectors, one selector after the other. *)
Lemma googlePass : forall now t sels t' items,
    forallb (fun sel => plainSelectors [sel]) sels = true ->
    since t t' items ->
    exists more,
      since t (fold_left
                 (fun t1 selector =>
                    fold_left (visitText now)
                              (querySelectorAll [selector] (page t1)) t1)
                 sels t') (items ++ more) /\
      (forall sel x, In sel sels -> In x (querySelectorAll [sel] (page t)) ->
                     wantsText t x = true ->
                     In x (map i_element (items ++ more))).
Proof.
  intros now t. induction sels as [|sel sels IH]; intros t' items Hp S.
  - exists []. rewrite app_nil_r. split; [exact S | intros sel x []].
  - simpl in Hp. apply andb_true_iff in Hp. destruct Hp as [Hsel Hrest].
    simpl.
    destruct (textPass now t (querySelectorAll [sel] (page t')) t' items S)
      as (m1 & S1 & C1).
    rewrite (since_query [sel] t t' items S Hsel) in C1.
    destruct (IH _ (items ++ m1) Hrest S1) as (m2 & S2 & C2).
    exists (m1 ++ m2). rewrite app_assoc. split; [exact S2|].
    intros sel' x [Hs|Hs] Hx W.
    + subst sel'. apply In_more. apply C1; assumption.
    + apply (C2 sel' x Hs Hx W).
Qed.

Lemma scanExistingContent_since : forall now t t' items,
    since t t' items ->
    exists more,
      since t (scanExistingContent now t') (items ++ more) /\
      (forall x, In x (querySelectorAll textSelectors (page t)) ->
                 wantsText t x = true -> In x (map i_element (items ++ more))) /\
      (Js.includes (hostname t) "google." = true ->
       forall sel x, In sel googleSelectors ->
                     In x (querySelectorAll [sel] (page t)) ->
                     wantsText t x = true -> In x (map i_element (items ++ more))) /\
      (forall x, In x (querySelectorAll imageSelectors (page t)) ->
                 wantsImage t x = true -> In x (map i_element (items ++ more))).
Proof.
  intros now t t' items S. unfold scanExistingContent, scanTextContent, scanImageContent.
  destruct (textPass now t (querySelectorAll textSelectors (page t')) t' items S)
    as (m1 & S1 & C1).
  rewrite (since_query textSelectors t t' items S eq_refl) in C1.
  set (t1 := fold_left (visitText now) (querySelectorAll textSelectors (page t')) t') in *.
  assert (Hh : hostname t1 = hostname t) by apply S1.
  rewrite Hh.
  destruct (Js.includes (hostname t) "google.") eqn:G.
  - destruct (googlePass now t googleSelectors t1 (items ++ m1) eq_refl S1)
      as (m2 & S2 & C2).
    unfold scanGoogleSearchResults.
    set (t2 := fold_left _ googleSelectors t1) in *.
    destruct (imagePass now t (querySelectorAll imageSelectors (page t2)) t2 _ S2)
      as (m3 & S3 & C3).
    rewrite (since_query imageSelectors t t2 _ S2 eq_refl) in C3.
    exists ((m1 ++ m2) ++ m3).
    replace (items ++ (m1 ++ m2) ++ m3) with (((items ++ m1) ++ m2) ++ m3)
      by (rewrite <- !app_assoc; reflexivity).
    split; [exact S3|]. split; [|split].
    + intros x Hx W. apply In_more, In_more. apply C1; assumption.
    + intros _ sel x Hs Hx W. apply In_more. apply (C2 sel x Hs Hx W).
    + exact C3.
  - destruct (imagePass now t (querySelectorAll imageSelectors (page t1)) t1 _ S1)
      as (m3 & S3 & C3).
    rewrite (since_query imageSelectors t t1 _ S1 eq_refl) in C3.
    exists (m1 ++ m3).
    replace (items ++ m1 ++ m3) with ((items ++ m1) ++ m3)
      by (rewrite <- !app_assoc; reflexivity).
    split; [exact S3|]. split; [|split].
    + intros x Hx W. apply In_more. apply C1; assumption.
    + discriminate.
    + exact C3.
Qed.

(** Once everything a pass wants is queued, the pass changes nothing. *)
Lemma visitText_settled : forall now t t' items x,
    since t t' items ->
    (wantsText t x = true -> In x (map i_element items)) ->
    visitText now t' x = t'.
Proof.
  intros now t t' items x S C.
  pose proof S as (H1 & H2 & H3 & H4 & H5 & H6).
  pose proof (shouldIgnoreElement_markAll x _ t t' H3) as Hign.
  pose proof (extractText_markAll x _ t t' H3) as Htxt.
  unfold visitText. destruct (shouldIgnoreElement x t') eqn:E; [reflexivity|].
  symmetry in Hign. apply orb_false_iff in Hign. destruct Hign as [Hi1 Hi2].
  rewrite Htxt. destruct (shouldAnalyzeText (extractText x t)) eqn:A; [|reflexivity].
  exfalso. assert (W : wantsText t x = true)
    by (unfold wantsText; rewrite Hi1, A; reflexivity).
  apply C, existsb_In in W. congruence.
Qed.

Lemma visitImage_settled : forall now t t' items x,
    since t t' items ->
    (wantsImage t x = true -> In x (map i_element items)) ->
    visitImage now t' x = t'.
Proof.
  intros now t t' items x S C.
  pose proof S as (H1 & H2 & H3 & H4 & H5 & H6).
  pose proof (shouldIgnoreElement_markAll x _ t t' H3) as Hign.
  pose proof (shouldAnalyzeImage_markAll x _ t t' H3) as Himg.
  unfold visitImage. destruct (shouldIgnoreElement x t') eqn:E; [reflexivity|].
  symmetry in Hign. apply orb_false_iff in Hign. destruct Hign as [Hi1 Hi2].
  rewrite Himg. destruct (shouldAnalyzeImage x t) eqn:A; [|reflexivity].
  exfalso. assert (W : wantsImage t x = true)
    by (unfold wantsImage; rewrite Hi1, A; reflexivity).
  apply C, existsb_In in W. congruence.
Qed.

Lemma fold_left_fixed : forall (A B : Type) (f : A -> B -> A) l a,
    (forall x, In x l -> f a x = a) -> fold_left f l a = a.
Proof.
  intros A B f l a. induction l as [|y l IH]; intros H; simpl; [reflexivity|].
  rewrite (H y) by (left; reflexivity). apply IH.
  intros x Hx. apply H. right. exact Hx.
Qed.

(** Scanning again, on the page as the first scan left it, does
    nothing at all. *)
Lemma rescan_changes_nothing : forall now now' t,
    scanQueue t = [] ->
    scanExistingContent now' (scanExistingContent now t) = scanExistingContent now t.
Proof.
  intros now now' t Hq.
  destruct (scanExistingContent_since now t t [] (since_refl t Hq))
    as (items & S & Ct & Cg & Ci).
  simpl in S, Ct, Cg, Ci.
  set (t3 := scanExistingContent now t) in *.
  assert (Ht : scanTextContent now' t3 = t3).
  { unfold scanTextContent. apply fold_left_fixed. intros x Hx.
    rewrite (since_query textSelectors t t3 items S eq_refl) in Hx.
    apply (visitText_settled now' t t3 items x S). apply Ct. exact Hx. }
  assert (Hg : Js.includes (hostname t3) "google." = true ->
               scanGoogleSearchResults now' t3 = t3).
  { intros G. unfold scanGoogleSearchResults. apply fold_left_fixed.
    intros sel Hsel. apply fold_left_fixed. intros x Hx.
    assert (Hplain : plainSelectors [sel] = true).
    { assert (Hall : forallb (fun s0 => plainSelectors [s0]) googleSelectors = true)
        by reflexivity.
      rewrite forallb_forall in Hall. apply Hall. exact Hsel. }
    rewrite (since_query [sel] t t3 items S Hplain) in Hx.
    apply (visitText_settled now' t t3 items x S).
    apply (Cg ltac:(replace (hostname t) with (hostname t3) by apply S; exact G)
              sel x Hsel Hx). }
  assert (Hi : scanImageContent now' t3 = t3).
  { unfold scanImageContent. apply fold_left_fixed. intros x Hx.
    rewrite (since_query imageSelectors t t3 items S eq_refl) in Hx.
    apply (visitImage_settled now' t t3 items x S). apply Ci. exact Hx. }
  unfold scanExistingContent at 1. rewrite Ht.
  destruct (Js.includes (hostname t3) "google.") eqn:G.
  - rewrite (Hg eq_refl). exact Hi.
  - exact Hi.
Qed.

End ScanFacts.

Module SinceFacts.
Import Dom Tabs ContentScanner DomFacts MarkFacts ScanFacts.

Lemma since_nothing : forall t t' items,
    since t t' items -> exists more, since t t' (items ++ more).
Proof. intros. exists []. rewrite app_nil_r. assumption. Qed.

Lemma startScanning_since : forall now t t' items,
    since t t' items ->
    exists more, since t (startScanning now t') (items ++ more).
Proof.
  intros now t t' items S. unfold startScanning.
  destruct (isScanning t'); [apply since_nothing; exact S|].
  assert (S1 : since t (setIsScanning true t') items)
    by (apply (since_frame t t' _ items S); reflexivity).
  destruct (isAllowlisted (setIsScanning true t')) as [[|]|];
    try (apply since_nothing; exact S1).
  destruct (scanExistingContent_since now t _ items S1) as (more & S2 & _).
  exists more. apply (since_frame t _ _ _ S2); reflexivity.
Qed.

Lemma init_since : forall answer now t t' items,
    since t t' items ->
    exists more, since t (init answer now t') (items ++ more).
Proof.
  intros answer now t t' items S. unfold init.
  assert (S1 : since t (loadSettings answer t') items)
    by (apply (since_frame t t' _ items S); destruct answer as [[s|]|]; reflexivity).
  destruct (startScanning_since now t _ items S1) as (more & S2).
  destruct (settings (loadSettings answer t'));
    [|destruct (isScanning (loadSettings answer t'))].
  - exists more. apply (since_frame t _ _ _ S2); reflexivity.
  - exists more. apply (since_frame t _ _ _ S2); reflexivity.
  - exists more. exact S2.
Qed.

Lemma periodicRescan_since : forall now t t' items,
    since t t' items ->
    exists more, since t (periodicRescan now t') (items ++ more).
Proof.
  intros now t t' items S. unfold periodicRescan.
  destruct (isAllowlisted t') as [[|]|]; try (apply since_nothing; exact S).
  destruct (scanExistingContent_since now t _ items S) as (more & S2 & _).
  exists more. exact S2.
Qed.

Lemma scanNewElement_since : forall now node t t' items,
    since t t' items ->
    exists more, since t (scanNewElement now node t') (items ++ more).
Proof.
  intros now node t t' items S. unfold scanNewElement.
  destruct (textPass now t (querySelectorAllIn textSelectors node (page t')) t' items S)
    as (m1 & S1 & _).
  set (t1 := fold_left (visitText now) _ t') in *.
  destruct (imagePass now t (querySelectorAllIn imageSelectors node (page t1)) t1 _ S1)
    as (m2 & S2 & _).
  exists (m1 ++ m2). rewrite app_assoc. exact S2.
Qed.

Lemma onMutations_since : forall now nodes t t' items,
    since t t' items ->
    exists more, since t (onMutations now nodes t') (items ++ more).
Proof.
  intros now nodes t. unfold onMutations.
  induction nodes as [|node nodes IH]; intros t' items S; simpl.
  - apply since_nothing. exact S.
  - destruct (scanNewElement_since now node t t' items S) as (m1 & S1).
    destruct (IH _ _ S1) as (m2 & S2).
    exists (m1 ++ m2). rewrite app_assoc. exact S2.
Qed.

Lemma discovery_since : forall es t s items,
    forallb Pipeline.isDiscovery es = true ->
    since t (Pipeline.tab s) items ->
    exists more, since t (Pipeline.tab (Pipeline.run s es)) (items ++ more).
Proof.
  induction es as [|e es IH]; intros t s items Hd S.
  - apply since_nothing. exact S.
  - simpl in Hd. apply andb_true_iff in Hd. destruct Hd as [He Hes].
    assert (S1 : exists m1, since t (Pipeline.tab (Pipeline.step s e)) (items ++ m1)).
    { destruct e; try discriminate; simpl.
      - apply init_since. exact S.
      - apply periodicRescan_since. exact S.
      - apply onMutations_since. exact S. }
    destruct S1 as (m1 & S1).
    destruct (IH t (Pipeline.step s e) _ Hes S1) as (m2 & S2).
    exists (m1 ++ m2). rewrite app_assoc. exact S2.
Qed.

(** The scan queue is empty between any two events. *)
Lemma queue_empty_processQueue : forall t,
    scanQueue t = [] -> ContentScanner.processQueue t = t.
Proof. intros t H. unfold ContentScanner.processQueue. rewrite H. reflexivity. Qed.

Lemma queue_empty_continue : forall t,
    scanQueue t = [] -> ContentScanner.continueProcessing t = t.
Proof. intros t H. unfold ContentScanner.continueProcessing. rewrite H. reflexivity. Qed.

Lemma queue_empty_onUser : forall u t,
    scanQueue (DOMManipulator.onUser u t) = scanQueue t.
Proof.
  intros u t. destruct u as [c confirmed | e | b | ]; simpl.
  - destruct (find _ _) as [[c' o ty| |]|]; try reflexivity.
    unfold DOMManipulator.showOriginalContent.
    destruct confirmed; [|reflexivity].
    destruct (Dom.replaceChild _ _ _); reflexivity.
  - destruct (existsb _ _); reflexivity.
  - destruct (find _ _) as [[| |b' e' od]|]; reflexivity.
  - unfold DOMManipulator.restoreAllContent.
    destruct (DOMManipulator.restoreReplaced _ _); reflexivity.
Qed.

Lemma queue_empty_handleUnsafeContent : forall d t,
    scanQueue (DOMManipulator.handleUnsafeContent d t) = scanQueue t.
Proof.
  intros d t. unfold DOMManipulator.handleUnsafeContent.
  destruct (Js.setHas _ _); [reflexivity|].
  destruct (DOMManipulator.getBlockingMethod _ _).
  - unfold DOMManipulator.replaceContent. simpl.
    destruct (Dom.replaceChild _ _ _); reflexivity.
  - reflexivity.
  - unfold DOMManipulator.hideContent. simpl.
    destruct (Dom.insertBefore _ _ _); reflexivity.
Qed.

Lemma queue_empty_step : forall s e,
    scanQueue (Pipeline.tab s) = [] ->
    scanQueue (Pipeline.tab (Pipeline.step s e)) = [].
Proof.
  intros s e H.
  assert (D : forall f, (forall t items, since t (Pipeline.tab s) items ->
                                         exists more, since t (f (Pipeline.tab s)) (items ++ more)) ->
                        scanQueue (f (Pipeline.tab s)) = []).
  { intros f Hf. destruct (Hf (Pipeline.tab s) [] (since_refl _ H)) as (more & S).
    apply S. }
  destruct e; simpl.
  - apply D. intros t items. apply init_since.
  - apply D. intros t items. apply periodicRescan_since.
  - apply D. intros t items. apply onMutations_since.
  - unfold onTimeout. destruct (timeouts (Pipeline.tab s)); [exact H|].
    rewrite queue_empty_processQueue; exact H.
  - unfold onImageData.
    destruct (findAwaiting id (Pipeline.tab s)) as [[item|item]|]; try exact H.
    destruct imageData; [destruct (settings _)|];
      try (rewrite queue_empty_continue; exact H); exact H.
  - rewrite queue_empty_onUser. exact H.
  - destruct (Js.get _ _ _); simpl; exact H.
  - exact H.
  - destruct (Js.get _ _ _) as [r|]; simpl; [|exact H].
    unfold onResponse.
    destruct (findAwaiting id (Pipeline.tab s)) as [[item|item]|]; try exact H.
    assert (Q : scanQueue
                  match r with
                  | Success result =>
                      if negb (is_safe result)
                      then handleUnsafeContent (i_element item) (i_type item) result
                             (dropAwaiting id (Pipeline.tab s))
                      else dropAwaiting id (Pipeline.tab s)
                  | Failure _ => dropAwaiting id (Pipeline.tab s)
                  end = []).
    { destruct r as [result|err]; [|exact H].
      destruct (negb (is_safe result)); [|exact H].
      unfold handleUnsafeContent. rewrite queue_empty_handleUnsafeContent. exact H. }
    rewrite queue_empty_continue; exact Q.
Qed.

Lemma queue_empty_run : forall es s,
    scanQueue (Pipeline.tab s) = [] ->
    scanQueue (Pipeline.tab (Pipeline.run s es)) = [].
Proof.
  induction es as [|e es IH]; intros s H; simpl; [exact H|].
  apply IH. apply queue_empty_step. exact H.
Qed.

Lemma wantsText_eligible : forall t x,
    eligibleText t x -> wantsText t x = true.
Proof.
  intros t x (_ & H1 & H2). unfold wantsText. rewrite H1, H2. reflexivity.
Qed.

Lemma wantsImage_eligible : forall t x,
    eligibleImage t x -> wantsImage t x = true.
Proof.
  intros t x (_ & H1 & H2). unfold wantsImage. rewrite H1, H2. reflexivity.
Qed.

Lemma pushed_handleUnsafeContent : forall d t,
    pushed (DOMManipulator.handleUnsafeContent d t) = pushed t /\
    scanQueue (DOMManipulator.handleUnsafeContent d t) = scanQueue t.
Proof.
  intros d t. unfold DOMManipulator.handleUnsafeContent.
  destruct (Js.setHas _ _); [split; reflexivity|].
  destruct (DOMManipulator.getBlockingMethod _ _).
  - unfold DOMManipulator.replaceContent. simpl.
    destruct (Dom.replaceChild _ _ _); split; reflexivity.
  - split; reflexivity.
  - unfold DOMManipulator.hideContent. simpl.
    destruct (Dom.insertBefore _ _ _); split; reflexivity.
Qed.

Lemma pushed_showOriginalContent : forall c e b t,
    pushed (DOMManipulator.showOriginalContent c e b t) = pushed t /\
    scanQueue (DOMManipulator.showOriginalContent c e b t) = scanQueue t.
Proof.
  intros c e b t. unfold DOMManipulator.showOriginalContent.
  destruct b; [|split; reflexivity].
  destruct (Dom.replaceChild _ _ _); split; reflexivity.
Qed.

End SinceFacts.


(** ** The allowlist guard *)

Module AllowlistFacts.
Import Tabs ContentScanner.

(** C9 (as the code has it).  With the settings loaded, [isAllowlisted]
    holds when some allowlist entry is a substring of the hostname or
    the hostname is a substring of some entry; a match in the first
    direction is one case of it.  [startScanning] returns without
    scanning, leaving the tab as it was but for [isScanning], exactly
    when the scanner is already marked as scanning or the page is
    allowlisted in this sense, and the periodic rescan does nothing on
    an allowlisted page.  Otherwise [startScanning] scans the existing
    content and sets up the periodic rescan, and the periodic rescan
    scans the existing content. *)
Theorem startScanning_skips_allowlisted_either_way :
  forall (t : Tab) (s : Settings) (now : Z),
    settings t = Some s ->
    let listed := listedEitherWay (hostname t) (allowlist s) in
    isAllowlisted t = Some listed /\
    (entryInHostname (hostname t) (allowlist s) = true -> listed = true) /\
    (isScanning t = true -> startScanning now t = t) /\
    (isScanning t = false -> listed = true ->
     startScanning now t = setIsScanning true t) /\
    (listed = true -> periodicRescan now t = t) /\
    (isScanning t = false -> listed = false ->
     startScanning now t
     = continuousScanning (scanExistingContent now (setIsScanning true t))) /\
    (listed = false -> periodicRescan now t = scanExistingContent now t).
Proof.
  intros t s now Hs listed.
  assert (Ha : isAllowlisted t = Some listed)
    by (unfold isAllowlisted; rewrite Hs; reflexivity).
  assert (Ha' : isAllowlisted (setIsScanning true t) = Some listed)
    by (unfold isAllowlisted; simpl; rewrite Hs; reflexivity).
  split; [exact Ha|]. split; [|split; [|split; [|split; [|split]]]].
  - unfold entryInHostname, listed, listedEitherWay. rewrite !existsb_exists.
    intros [d [Hd Hin]]. exists d. split; [exact Hd|]. rewrite Hin. reflexivity.
  - intros H. unfold startScanning. rewrite H. reflexivity.
  - intros H L. unfold startScanning. rewrite H, Ha', L. reflexivity.
  - intros L. unfold periodicRescan. rewrite Ha, L. reflexivity.
  - intros H L. unfold startScanning. rewrite H, Ha', L. reflexivity.
  - intros L. unfold periodicRescan. rewrite Ha, L. reflexivity.
Qed.

(** A page on example.com with 'docs.example.com' on the allowlist: no
    entry is a substring of the hostname, the page has a fragment a scan
    would queue, and yet [startScanning] queues nothing and the periodic
    rescan does nothing.  And with an empty allowlist, a scanner that is
    resumed (so already marked as scanning) queues nothing either. *)
Lemma hostname_inside_an_entry_is_skipped :
  let t := Examples.tabWith (Some "moderate") ["docs.example.com"] in
  entryInHostname (hostname t) ["docs.example.com"] = false /\
  map i_element (pushed (scanExistingContent 1000 (setIsScanning true t))) = [2%nat; 5%nat] /\
  pushed (startScanning 1000 t) = [] /\
  periodicRescan 6000 t = t /\
  entryInHostname (hostname Examples.plainTab) [] = false /\
  pushed (ContentScript.resumeScanning true 1000 Examples.plainTab) = [].
Proof. vm_compute. repeat split; reflexivity. Qed.

Lemma startScanning_allowlist_witness :
  settings Examples.plainTab = Some (Examples.settingsWith (Some "moderate") []) /\
  isScanning Examples.plainTab = false /\
  listedEitherWay (hostname Examples.plainTab) [] = false /\
  startScanning 1000 Examples.plainTab
  = continuousScanning
      (scanExistingContent 1000 (setIsScanning true Examples.plainTab)).
Proof.
  split; [reflexivity|]. split; [reflexivity|]. split; [reflexivity|].
  apply (proj1 (proj2 (proj2 (proj2 (proj2 (proj2
           (startScanning_skips_allowlisted_either_way
              Examples.plainTab (Examples.settingsWith (Some "moderate") [])
              1000 eq_refl))))))); reflexivity.
Defined.

End AllowlistFacts.

(** ** Replacing a node and putting it back *)

Module TreeFacts.
Import Dom DomFacts.

Lemma NoDup_app_inv : forall (A : Type) (l1 l2 : list A),
    NoDup (l1 ++ l2) ->
    NoDup l1 /\ NoDup l2 /\ (forall x, In x l1 -> ~ In x l2).
Proof.
  intros A l1 l2 H. split; [|split].
  - apply NoDup_app_remove_r in H. exact H.
  - apply NoDup_app_remove_l in H. exact H.
  - induction l1 as [|a l1 IH]; intros x Hx; [destruct Hx|].
    simpl in H. inversion H as [|? ? Hn Hr]; subst.
    destruct Hx as [Hx|Hx].
    + subst x. intro Hin. apply Hn. apply in_or_app. right. exact Hin.
    + apply IH; assumption.
Qed.

Lemma nodupb_NoDup : forall l, nodupb l = true -> NoDup l.
Proof.
  induction l as [|x l IH]; intros H; [constructor|].
  simpl in H. apply andb_true_iff in H. destruct H as [H1 H2].
  constructor; [|apply IH; exact H2].
  intro Hin. apply setHas_In in Hin. unfold Js.setHas in Hin.
  rewrite Hin in H1. discriminate.
Qed.

Lemma firstSome_app : forall (A B : Type) (f : A -> option B) l1 l2,
    firstSome f (l1 ++ l2) =
    match firstSome f l1 with Some r => Some r | None => firstSome f l2 end.
Proof.
  intros A B f l1 l2. induction l1 as [|a l1 IH]; simpl; [reflexivity|].
  destruct (f a); [reflexivity | exact IH].
Qed.

Lemma firstSome_none : forall (A B : Type) (f : A -> option B) l,
    (forall x, In x l -> f x = None) -> firstSome f l = None.
Proof.
  intros A B f l. induction l as [|a l IH]; intros H; simpl; [reflexivity|].
  rewrite (H a) by (left; reflexivity). apply IH. intros x Hx. apply H. right. exact Hx.
Qed.

Lemma isRoot_In : forall u n, isRoot u n = true -> In u (uids n).
Proof.
  intros u [s|e kids] H; [discriminate|]. unfold isRoot in H. simpl in H.
  apply Nat.eqb_eq in H. rewrite uids_element. left. exact H.
Qed.

Lemma isRoot_rootUid : forall u n, rootUid n = Some u -> isRoot u n = true.
Proof. intros u n H. unfold isRoot. rewrite H. apply Nat.eqb_refl. Qed.

Lemma rootUid_isRoot : forall u n, isRoot u n = true -> rootUid n = Some u.
Proof.
  intros u n H. unfold isRoot in H. destruct (rootUid n) as [v|]; [|discriminate].
  apply Nat.eqb_eq in H. subst. reflexivity.
Qed.

Lemma isRoot_notin : forall u n, ~ In u (uids n) -> isRoot u n = false.
Proof.
  intros u n H. destruct (isRoot u n) eqn:E; [|reflexivity].
  exfalso. apply H. apply isRoot_In. exact E.
Qed.

Lemma In_uids_kid : forall u e kids k,
    In k kids -> In u (uids k) -> In u (uids (ElementNode e kids)).
Proof.
  intros u e kids k Hk Hu. rewrite uids_element. right.
  apply in_flat_map. exists k. split; assumption.
Qed.

Lemma substChild_notin : forall u new n,
    ~ In u (uids n) -> substChild u new n = n.
Proof.
  intros u new. induction n as [s|e kids IH] using Node_induction; intros H;
    [reflexivity|].
  simpl. f_equal. apply map_id_Forall.
  rewrite Forall_forall in *. intros k Hk.
  assert (Hn : ~ In u (uids k))
    by (intro Hin; apply H; apply (In_uids_kid u e kids k Hk Hin)).
  rewrite (isRoot_notin u k Hn). apply IH; assumption.
Qed.

Lemma removeChild_element : forall u e kids,
    removeChild u (ElementNode e kids)
    = ElementNode e (map (removeChild u) (filter (fun k => negb (isRoot u k)) kids)).
Proof.
  intros u e kids. simpl. f_equal.
  induction kids as [|k kids IH]; simpl; [reflexivity|].
  destruct (isRoot u k); simpl; [exact IH | rewrite IH; reflexivity].
Qed.

Lemma filter_all : forall (A : Type) (P : A -> bool) l,
    (forall x, In x l -> P x = true) -> filter P l = l.
Proof.
  intros A P l. induction l as [|a l IH]; intros H; simpl; [reflexivity|].
  rewrite (H a) by (left; reflexivity). f_equal. apply IH.
  intros x Hx. apply H. right. exact Hx.
Qed.

Lemma removeChild_notin : forall u n,
    ~ In u (uids n) -> removeChild u n = n.
Proof.
  intros u. induction n as [s|e kids IH] using Node_induction; intros H;
    [reflexivity|].
  rewrite removeChild_element. f_equal.
  rewrite filter_all.
  - apply map_id_Forall. rewrite Forall_forall in *. intros k Hk.
    apply IH; [exact Hk|]. intro Hin. apply H. apply (In_uids_kid u e kids k Hk Hin).
  - intros k Hk. apply negb_true_iff. apply isRoot_notin.
    intro Hin. apply H. apply (In_uids_kid u e kids k Hk Hin).
Qed.

Lemma findNode_notin : forall u n, ~ In u (uids n) -> findNode u n = None.
Proof.
  intros u. induction n as [s|e kids IH] using Node_induction; intros H;
    [reflexivity|].
  rewrite findNode_element.
  assert (He : Nat.eqb (uid e) u = false).
  { apply Nat.eqb_neq. intro. apply H. rewrite uids_element. left. assumption. }
  rewrite He. apply firstSome_none. rewrite Forall_forall in IH.
  intros k Hk. apply IH; [exact Hk|].
  intro Hin. apply H. apply (In_uids_kid u e kids k Hk Hin).
Qed.

Lemma findNode_root : forall u n, rootUid n = Some u -> findNode u n = Some n.
Proof.
  intros u [s|e kids] H; [discriminate|]. simpl in H. inversion H; subst.
  rewrite findNode_element, Nat.eqb_refl. reflexivity.
Qed.

(** *** Paths *)

Lemma uids_plugFrame : forall n fr,
    uids (plugFrame n fr)
    = uid (f_elem fr) :: flat_map uids (f_before fr) ++ uids n
                      ++ flat_map uids (f_after fr).
Proof.
  intros n fr. unfold plugFrame. rewrite uids_element, flat_map_app. reflexivity.
Qed.

Lemma In_uids_plugFrame : forall x n fr,
    In x (uids (plugFrame n fr)) <-> In x (uids n) \/ In x (frameUids fr).
Proof.
  intros x n fr. rewrite uids_plugFrame. unfold frameUids. simpl.
  rewrite !in_app_iff. tauto.
Qed.

Lemma In_uids_plug : forall x frames n,
    In x (uids (plug frames n)) <->
    In x (uids n) \/ exists fr, In fr frames /\ In x (frameUids fr).
Proof.
  intros x. induction frames as [|fr rest IH]; intros n.
  - simpl. split; [auto | intros [H|[fr [[] _]]]; exact H].
  - change (plug (fr :: rest) n) with (plugFrame (plug rest n) fr).
    rewrite In_uids_plugFrame, IH. split.
    + intros [[H|[fr' [H1 H2]]]|H].
      * left; exact H.
      * right; exists fr'; split; [right; exact H1 | exact H2].
      * right; exists fr; split; [left; reflexivity | exact H].
    + intros [H|[fr' [[H1|H1] H2]]].
      * left; left; exact H.
      * subst fr'. right. exact H2.
      * left; right; exists fr'; split; assumption.
Qed.

Lemma rootUid_plug : forall fr rest n,
    rootUid (plug (fr :: rest) n) = Some (uid (f_elem fr)).
Proof. reflexivity. Qed.

(** A node that is in a tree and is not its root sits at the end of a
    path. *)
Lemma decompose : forall n u,
    In u (uids n) -> isRoot u n = false ->
    exists frames X, frames <> [] /\ n = plug frames X /\ rootUid X = Some u.
Proof.
  induction n as [s|e kids IH] using Node_induction; intros u Hin Hroot;
    [destruct Hin|].
  rewrite uids_element in Hin. destruct Hin as [Hin|Hin].
  - unfold isRoot in Hroot. simpl in Hroot. subst u.
    rewrite Nat.eqb_refl in Hroot. discriminate.
  - apply in_flat_map in Hin. destruct Hin as [k [Hk Hu]].
    destruct (in_split k kids Hk) as [before [after Hsplit]].
    rewrite Forall_forall in IH.
    destruct (isRoot u k) eqn:Rk.
    + exists [{| f_elem := e; f_before := before; f_after := after |}], k.
      split; [discriminate|]. split.
      * simpl. unfold plugFrame. simpl. rewrite Hsplit. reflexivity.
      * apply rootUid_isRoot. exact Rk.
    + destruct (IH k Hk u Hu Rk) as [frames [X [Hne [Hk' HX]]]].
      exists ({| f_elem := e; f_before := before; f_after := after |} :: frames), X.
      split; [discriminate|]. split.
      * simpl. unfold plugFrame. simpl. rewrite <- Hk', Hsplit. reflexivity.
      * exact HX.
Qed.

(** In a tree without repeated identities, what is at the end of a path
    appears nowhere along the path. *)
Lemma off_path : forall frames X u,
    NoDup (uids (plug frames X)) -> In u (uids X) ->
    forall fr, In fr frames -> ~ In u (frameUids fr).
Proof.
  induction frames as [|fr0 rest IH]; intros X u Hnd Hu fr Hfr; [destruct Hfr|].
  change (plug (fr0 :: rest) X) with (plugFrame (plug rest X) fr0) in Hnd.
  rewrite uids_plugFrame in Hnd.
  assert (Hu' : In u (uids (plug rest X))) by (apply In_uids_plug; left; exact Hu).
  inversion Hnd as [|? ? Hhead Htail]; subst.
  apply NoDup_app_inv in Htail. destruct Htail as (_ & Hmid & Hdisj1).
  apply NoDup_app_inv in Hmid. destruct Hmid as (Hnd' & _ & Hdisj2).
  destruct Hfr as [Hfr|Hfr].
  - subst fr. unfold frameUids. simpl. intros [H|H].
    + apply Hhead. rewrite H. apply in_or_app. right. apply in_or_app. left. exact Hu'.
    + apply in_app_or in H. destruct H as [H|H].
      * apply (Hdisj1 u H). apply in_or_app. left. exact Hu'.
      * apply (Hdisj2 u Hu' H).
  - apply (IH X u Hnd' Hu fr Hfr).
Qed.

Lemma map_app_mid : forall (A B : Type) (g : A -> B) l1 x l2,
    map g (l1 ++ x :: l2) = map g l1 ++ g x :: map g l2.
Proof. intros. rewrite map_app. reflexivity. Qed.

Lemma substChild_plug : forall u new frames X,
    frames <> [] ->
    (forall fr, In fr frames -> ~ In u (frameUids fr)) ->
    rootUid X = Some u ->
    substChild u new (plug frames X) = plug frames new.
Proof.
  intros u new. induction frames as [|fr rest IH]; intros X Hne Hoff HX;
    [congruence|].
  assert (Hfr : ~ In u (frameUids fr)) by (apply Hoff; left; reflexivity).
  unfold frameUids in Hfr. simpl in Hfr.
  assert (Hside : forall k, In k (f_before fr) \/ In k (f_after fr) ->
                            (if isRoot u k then new else substChild u new k) = k).
  { intros k Hk.
    assert (Hn : ~ In u (uids k)).
    { intro Hin. apply Hfr. right. apply in_or_app.
      destruct Hk as [Hk|Hk]; [left|right]; apply in_flat_map; exists k; auto. }
    rewrite (isRoot_notin u k Hn). apply substChild_notin. exact Hn. }
  change (plug (fr :: rest) X)
    with (ElementNode (f_elem fr) (f_before fr ++ plug rest X :: f_after fr)).
  change (plug (fr :: rest) new)
    with (ElementNode (f_elem fr) (f_before fr ++ plug rest new :: f_after fr)).
  cbn [substChild]. f_equal. rewrite map_app_mid.
  rewrite (map_id_Forall _ _ (f_before fr))
    by (apply Forall_forall; intros k Hk; apply Hside; left; exact Hk).
  rewrite (map_id_Forall _ _ (f_after fr))
    by (apply Forall_forall; intros k Hk; apply Hside; right; exact Hk).
  f_equal. f_equal.
  destruct rest as [|fr' rest'].
  - simpl. rewrite (isRoot_rootUid u X HX). reflexivity.
  - assert (Hr : isRoot u (plug (fr' :: rest') X) = false).
    { unfold isRoot. rewrite rootUid_plug. apply Nat.eqb_neq. intro E.
      apply (Hoff fr' (or_intror (or_introl eq_refl))). left. exact E. }
    rewrite Hr. apply IH; [discriminate | | exact HX].
    intros fr0 H0. apply Hoff. right. exact H0.
Qed.

Lemma findNode_plug : forall u frames X,
    (forall fr, In fr frames -> ~ In u (frameUids fr)) ->
    rootUid X = Some u ->
    findNode u (plug frames X) = Some X.
Proof.
  intros u. induction frames as [|fr rest IH]; intros X Hoff HX.
  - apply findNode_root. exact HX.
  - assert (Hfr : ~ In u (frameUids fr)) by (apply Hoff; left; reflexivity).
    unfold frameUids in Hfr. simpl in Hfr.
    change (plug (fr :: rest) X)
      with (ElementNode (f_elem fr) (f_before fr ++ plug rest X :: f_after fr)).
    rewrite findNode_element.
    assert (He : Nat.eqb (uid (f_elem fr)) u = false)
      by (apply Nat.eqb_neq; intro E; apply Hfr; left; exact E).
    rewrite He, firstSome_app.
    rewrite firstSome_none.
    + cbn [firstSome]. rewrite IH; [reflexivity | | exact HX].
      intros fr0 H0. apply Hoff. right. exact H0.
    + intros k Hk. apply findNode_notin. intro Hin. apply Hfr. right.
      apply in_or_app. left. apply in_flat_map. exists k. auto.
Qed.

End TreeFacts.

(** ** What every step of the page preserves *)

Module EvolveFacts.
Import Dom Tabs DomFacts TreeFacts Pipeline.

Lemma elements_under : forall n anc,
    map fst (descendantsOrSelf anc n) = elements n.
Proof.
  induction n as [s|e kids IH] using Node_induction; intros anc; [reflexivity|].
  unfold elements. simpl. f_equal. rewrite !map_flat_map.
  apply flat_map_ext_Forall.
  apply Forall_impl with (2 := IH). intros k Hk. simpl in Hk.
  rewrite Hk. symmetry. apply Hk.
Qed.

Lemma elements_element : forall e kids,
    elements (ElementNode e kids) = e :: flat_map elements kids.
Proof.
  intros e kids. unfold elements at 1. simpl. f_equal. rewrite map_flat_map.
  apply flat_map_ext_Forall. apply Forall_forall. intros k _. apply elements_under.
Qed.

Lemma uids_elements : forall n, uids n = map uid (elements n).
Proof. intros n. unfold uids, elements. rewrite map_map. reflexivity. Qed.

Lemma elements_updateNode : forall u f n,
    elements (updateNode u f n) = map (atUid u f) (elements n).
Proof.
  intros u f n. unfold elements.
  change (descendantsOrSelf [] (updateNode u f n))
    with (descendantsOrSelf (map (atUid u f) []) (updateNode u f n)).
  rewrite descendants_updateNode, !map_map. reflexivity.
Qed.

Lemma In_elements_kid : forall x e kids,
    In x (elements (ElementNode e kids)) <->
    x = e \/ exists k, In k kids /\ In x (elements k).
Proof.
  intros x e kids. rewrite elements_element. simpl. rewrite in_flat_map.
  split; (intros [H|H]; [left; congruence | right; exact H]).
Qed.

Lemma In_elements_substChild : forall old new n x,
    In x (elements (substChild old new n)) ->
    In x (elements n) \/ In x (elements new).
Proof.
  intros old new. induction n as [s|e kids IH] using Node_induction; intros x Hx;
    [left; exact Hx|].
  cbn [substChild] in Hx. apply In_elements_kid in Hx.
  destruct Hx as [Hx|[k' [Hk' Hx]]].
  - left. apply In_elements_kid. left. exact Hx.
  - apply in_map_iff in Hk'. destruct Hk' as [k [Hk Hin]]. subst k'.
    rewrite Forall_forall in IH.
    destruct (isRoot old k).
    + right. exact Hx.
    + destruct (IH k Hin x Hx) as [H|H]; [|right; exact H].
      left. apply In_elements_kid. right. exists k. split; assumption.
Qed.

Lemma In_elements_removeChild : forall u n x,
    In x (elements (removeChild u n)) -> In x (elements n).
Proof.
  intros u. induction n as [s|e kids IH] using Node_induction; intros x Hx;
    [exact Hx|].
  rewrite removeChild_element in Hx. apply In_elements_kid in Hx.
  apply In_elements_kid. destruct Hx as [Hx|[k' [Hk' Hx]]]; [left; exact Hx|].
  right. apply in_map_iff in Hk'. destruct Hk' as [k [Hk Hin]]. subst k'.
  apply filter_In in Hin. destruct Hin as [Hin _].
  rewrite Forall_forall in IH. exists k. split; [exact Hin|]. apply IH; assumption.
Qed.

Lemma insertChildBefore_element : forall old new e kids,
    insertChildBefore old new (ElementNode e kids)
    = ElementNode e (flat_map (fun k => if isRoot old k then [new; k]
                                        else [insertChildBefore old new k]) kids).
Proof. reflexivity. Qed.

Lemma In_elements_insertChildBefore : forall old new n x,
    In x (elements (insertChildBefore old new n)) ->
    In x (elements n) \/ In x (elements new).
Proof.
  intros old new. induction n as [s|e kids IH] using Node_induction; intros x Hx;
    [left; exact Hx|].
  rewrite insertChildBefore_element in Hx. apply In_elements_kid in Hx.
  destruct Hx as [Hx|[k' [Hk' Hx]]].
  - left. apply In_elements_kid. left. exact Hx.
  - apply in_flat_map in Hk'. destruct Hk' as [k [Hin Hk']].
    rewrite Forall_forall in IH.
    destruct (isRoot old k).
    + destruct Hk' as [Hk'|[Hk'|[]]]; subst k'.
      * right. exact Hx.
      * left. apply In_elements_kid. right. exists k. split; assumption.
    + destruct Hk' as [Hk'|[]]. subst k'.
      destruct (IH k Hin x Hx) as [H|H]; [|right; exact H].
      left. apply In_elements_kid. right. exists k. split; assumption.
Qed.

Lemma firstSome_In : forall (A B : Type) (f : A -> option B) l r,
    firstSome f l = Some r -> exists a, In a l /\ f a = Some r.
Proof.
  intros A B f l r. induction l as [|a l IH]; simpl; intros H; [discriminate|].
  destruct (f a) eqn:E.
  - exists a. split; [left; reflexivity | congruence].
  - destruct (IH H) as [a' [H1 H2]]. exists a'. split; [right; exact H1 | exact H2].
Qed.

Lemma In_elements_findNode : forall u n m x,
    findNode u n = Some m -> In x (elements m) -> In x (elements n).
Proof.
  intros u. induction n as [s|e kids IH] using Node_induction; intros m x Hf Hx;
    [discriminate|].
  rewrite findNode_element in Hf. destruct (Nat.eqb (uid e) u).
  - inversion Hf. subst m. exact Hx.
  - apply firstSome_In in Hf. destruct Hf as [k [Hk Hf]].
    rewrite Forall_forall in IH.
    apply In_elements_kid. right. exists k. split; [exact Hk|].
    apply (IH k Hk m x Hf Hx).
Qed.

Lemma In_pageElements : forall x p,
    In x (pageElements p) <->
    In x (elements (document p)) \/ exists k, In k (detached p) /\ In x (elements k).
Proof.
  intros x p. unfold pageElements, trees. simpl. rewrite in_app_iff, in_flat_map.
  reflexivity.
Qed.

Lemma In_elements_findInPage : forall u p m x,
    findInPage u p = Some m -> In x (elements m) -> In x (pageElements p).
Proof.
  intros u p m x Hf Hx. unfold findInPage in Hf. apply firstSome_In in Hf.
  destruct Hf as [n [Hn Hf]]. unfold pageElements. apply in_flat_map.
  exists n. split; [exact Hn|]. apply (In_elements_findNode u n m x Hf Hx).
Qed.

(** *** The relation between pages *)

Lemma evolves_refl : forall e, evolves e e.
Proof. intros e. repeat split; auto. Qed.

Lemma evolves_trans : forall a b c, evolves a b -> evolves b c -> evolves a c.
Proof.
  intros a b c (H1 & H2 & H3) (K1 & K2 & K3). repeat split.
  - congruence.
  - auto.
  - auto.
Qed.

Lemma pageEvolves_refl : forall p, pageEvolves p p.
Proof.
  intros p. split; [lia|]. intros el H. left. exists el. split; [exact H|].
  apply evolves_refl.
Qed.

Lemma pageEvolves_trans : forall p q r,
    pageEvolves p q -> pageEvolves q r -> pageEvolves p r.
Proof.
  intros p q r [H1 H2] [K1 K2]. split; [lia|].
  intros el Hel. destruct (K2 el Hel) as [[el1 [Hin1 E1]]|K].
  - destruct (H2 el1 Hin1) as [[el0 [Hin0 E0]]|H].
    + left. exists el0. split; [exact Hin0|]. apply (evolves_trans _ _ _ E0 E1).
    + right. destruct E1 as [E1 _]. rewrite E1. lia.
  - right. lia.
Qed.

(** Pages with the same elements, or fewer. *)
Lemma pageEvolves_subset : forall p p',
    nextUid p' = nextUid p ->
    (forall el, In el (pageElements p') -> In el (pageElements p)) ->
    pageEvolves p p'.
Proof.
  intros p p' Hn H. split; [lia|]. intros el Hel. left. exists el.
  split; [apply H; exact Hel | apply evolves_refl].
Qed.

Lemma pageElements_updateElement : forall u f p,
    pageElements (updateElement u f p) = map (atUid u f) (pageElements p).
Proof.
  intros u f p. unfold pageElements.
  change (trees (updateElement u f p))
    with (map (updateNode u f) (document p :: detached p)).
  change (trees p) with (document p :: detached p).
  rewrite flat_map_map, map_flat_map. apply flat_map_ext_Forall.
  apply Forall_forall. intros n _. apply elements_updateNode.
Qed.

Lemma pageEvolves_updateElement : forall u f p,
    gentle f -> pageEvolves p (updateElement u f p).
Proof.
  intros u f p Hf. split; [simpl; lia|]. intros el Hel.
  rewrite pageElements_updateElement in Hel. apply in_map_iff in Hel.
  destruct Hel as [el0 [E Hin]]. left. exists el0. split; [exact Hin|].
  subst el. unfold atUid. destruct (Nat.eqb (uid el0) u); [apply Hf | apply evolves_refl].
Qed.

Lemma In_pageElements_removeFromPage : forall u p x,
    In x (pageElements (removeFromPage u p)) -> In x (pageElements p).
Proof.
  intros u p x Hx. apply In_pageElements in Hx. apply In_pageElements.
  destruct Hx as [Hx|[k' [Hk' Hx]]].
  - left. apply (In_elements_removeChild u _ _ Hx).
  - right. simpl in Hk'. apply in_map_iff in Hk'. destruct Hk' as [k [Hk Hin]].
    subst k'. apply filter_In in Hin. destruct Hin as [Hin _].
    exists k. split; [exact Hin|]. apply (In_elements_removeChild u _ _ Hx).
Qed.

Lemma nextUid_removeFromPage : forall u p, nextUid (removeFromPage u p) = nextUid p.
Proof. reflexivity. Qed.

Lemma pageEvolves_replaceChild : forall new old p p',
    replaceChild new old p = Some p' -> pageEvolves p p'.
Proof.
  intros new old p p' H. unfold replaceChild in H.
  destruct (parentNode old p) as [par|]; [|discriminate].
  destruct (findInPage new p) as [newN|] eqn:Fn; [|discriminate].
  destruct (Nat.eqb new old); [inversion H; apply pageEvolves_refl|].
  destruct (containsUid old newN); [discriminate|].
  destruct (findInPage old (removeFromPage new p)) as [oldN|] eqn:Fo; [|discriminate].
  inversion H as [Hp']. clear H. apply pageEvolves_subset; [reflexivity|].
  intros el Hel. apply In_pageElements in Hel. cbn [document detached] in Hel.
  assert (Hnew : In el (elements newN) -> In el (pageElements p))
    by (apply (In_elements_findInPage new p newN el Fn)).
  assert (Hrem : forall k, In k (trees (removeFromPage new p)) ->
                           In el (elements k) -> In el (pageElements p)).
  { intros k Hk Hx. apply (In_pageElements_removeFromPage new).
    unfold pageElements. apply in_flat_map. exists k. split; assumption. }
  destruct Hel as [Hel|[k' [Hk' Hel]]].
  - apply In_elements_substChild in Hel. destruct Hel as [Hel|Hel]; [|auto].
    apply (Hrem (document (removeFromPage new p))); [left; reflexivity | exact Hel].
  - apply in_app_or in Hk'. destruct Hk' as [Hk'|[Hk'|[]]].
    + apply in_map_iff in Hk'. destruct Hk' as [k [Hk Hin]]. subst k'.
      apply In_elements_substChild in Hel. destruct Hel as [Hel|Hel]; [|auto].
      apply (Hrem k); [right; exact Hin | exact Hel].
    + subst k'. apply (In_pageElements_removeFromPage new).
      apply (In_elements_findInPage old _ oldN el Fo Hel).
Qed.

Lemma pageEvolves_insertBefore : forall new old p p',
    insertBefore new old p = Some p' -> pageEvolves p p'.
Proof.
  intros new old p p' H. unfold insertBefore in H.
  destruct (parentNode old p) as [par|]; [|discriminate].
  destruct (findInPage new p) as [newN|] eqn:Fn; [|discriminate].
  destruct (containsUid old newN); [discriminate|].
  inversion H as [Hp']. clear H. apply pageEvolves_subset; [reflexivity|].
  intros el Hel. apply In_pageElements in Hel. cbn [document detached] in Hel.
  assert (Hnew : In el (elements newN) -> In el (pageElements p))
    by (apply (In_elements_findInPage new p newN el Fn)).
  assert (Hrem : forall k, In k (trees (removeFromPage new p)) ->
                           In el (elements k) -> In el (pageElements p)).
  { intros k Hk Hx. apply (In_pageElements_removeFromPage new).
    unfold pageElements. apply in_flat_map. exists k. split; assumption. }
  destruct Hel as [Hel|[k' [Hk' Hel]]].
  - apply In_elements_insertChildBefore in Hel. destruct Hel as [Hel|Hel]; [|auto].
    apply (Hrem (document (removeFromPage new p))); [left; reflexivity | exact Hel].
  - apply in_map_iff in Hk'. destruct Hk' as [k [Hk Hin]]. subst k'.
    apply In_elements_insertChildBefore in Hel. destruct Hel as [Hel|Hel]; [|auto].
    apply (Hrem k); [right; exact Hin | exact Hel].
Qed.

Lemma pageEvolves_remove : forall u p, pageEvolves p (remove u p).
Proof.
  intros u p. unfold remove.
  destruct (parentNode u p) as [par|]; [|apply pageEvolves_refl].
  destruct (findInPage u p) as [m|] eqn:F; [|apply pageEvolves_refl].
  apply pageEvolves_subset; [reflexivity|].
  intros el Hel. apply In_pageElements in Hel. cbn [document detached] in Hel.
  destruct Hel as [Hel|[k [Hk Hel]]].
  - apply (In_pageElements_removeFromPage u). apply In_pageElements. left. exact Hel.
  - apply in_app_or in Hk. destruct Hk as [Hk|[Hk|[]]].
    + apply (In_pageElements_removeFromPage u). apply In_pageElements. right.
      exists k. split; assumption.
    + subst k. apply (In_elements_findInPage u p m el F Hel).
Qed.

(** A new detached node with identities from [nextUid p] up. *)
Lemma pageEvolves_create : forall p n k,
    (forall el, In el (elements n) ->
                (nextUid p <= uid el /\ uid el < k + nextUid p)%nat) ->
    pageEvolves p {| document := document p; detached := detached p ++ [n];
                     nextUid := (k + nextUid p)%nat |}.
Proof.
  intros p n k Hn. split; [simpl; lia|]. intros el Hel.
  apply In_pageElements in Hel. cbn [document detached nextUid] in *.
  destruct Hel as [Hel|[m [Hm Hel]]].
  - left. exists el. split; [|apply evolves_refl]. apply In_pageElements. left. exact Hel.
  - apply in_app_or in Hm. destruct Hm as [Hm|[Hm|[]]].
    + left. exists el. split; [|apply evolves_refl]. apply In_pageElements. right.
      exists m. split; assumption.
    + subst m. right. apply Hn. exact Hel.
Qed.

End EvolveFacts.

Module StepFacts.
Import Dom Tabs DomFacts TreeFacts Pipeline EvolveFacts.

Lemma gentle_setAttribute : forall a v, gentle (setAttribute a v).
Proof.
  intros a v e. split; [reflexivity|]. split; [|auto].
  unfold hasAttribute, Js.has. simpl. intros H.
  destruct (String.eqb a ContentScanner.processedAttribute) eqn:E.
  - apply String.eqb_eq in E. subst a.
    rewrite (get_set_same _ _ _ String.eqb_eq). reflexivity.
  - apply String.eqb_neq in E.
    rewrite (get_set_other _ _ _ String.eqb_eq) by congruence. exact H.
Qed.

Lemma gentle_classList_add : forall c, gentle (classList_add c).
Proof.
  intros c e. unfold classList_add. destruct (hasClass c e); [apply evolves_refl|].
  split; [reflexivity|]. split; [auto|].
  unfold hasClass, Js.arrayIncludes. cbn [classList setClassList]. intros H.
  rewrite existsb_app, H. reflexivity.
Qed.

Lemma gentle_classList_remove : forall c,
    c <> "ai-firewall-safe" -> gentle (classList_remove c).
Proof.
  intros c Hc e. split; [reflexivity|]. split; [auto|].
  unfold hasClass, Js.arrayIncludes, classList_remove.
  cbn [classList setClassList]. intros H.
  apply existsb_exists in H. destruct H as [x [Hx Ex]].
  apply existsb_exists. exists x. split; [|exact Ex].
  apply filter_In. split; [exact Hx|].
  apply String.eqb_eq in Ex. subst x. apply negb_true_iff.
  apply String.eqb_neq. exact Hc.
Qed.

Lemma gentle_setStyleDisplay : forall f, gentle (fun e => setStyleDisplay (f e) e).
Proof. intros f e. repeat split; auto. Qed.

Lemma created_replacementNode : forall u type r el,
    In el (elements (DOMManipulator.replacementNode u type r)) ->
    (u <= uid el /\ uid el < 7 + u)%nat.
Proof.
  intros u type r el H. destruct type; simpl in H;
    repeat (destruct H as [H|H]; [subst el; simpl; lia|]); destruct H.
Qed.

(** *** The scanner *)

Lemma evolves_processQueue : forall t,
    pageEvolves (page t) (page (ContentScanner.processQueue t)).
Proof.
  intros t. unfold ContentScanner.processQueue.
  destruct (scanQueue t) as [|item rest]; [apply pageEvolves_refl|].
  assert (H : pageEvolves (page t)
                (page (ContentScanner.markProcessed (i_element item)
                         (setScanQueue rest t))))
    by (apply pageEvolves_updateElement; apply gentle_setAttribute).
  destruct (i_type item); [|exact H].
  unfold ContentScanner.analyzeText, ContentScanner.continueProcessing.
  cbn [settings ContentScanner.markProcessed setPage setScanQueue scanQueue].
  destruct (settings t); [exact H|]. destruct rest; exact H.
Qed.

Lemma evolves_visitText : forall now t x,
    pageEvolves (page t) (page (ContentScanner.visitText now t x)).
Proof.
  intros now t x. unfold ContentScanner.visitText.
  destruct (ContentScanner.shouldIgnoreElement x t); [apply pageEvolves_refl|].
  destruct (ContentScanner.shouldAnalyzeText _); [|apply pageEvolves_refl].
  unfold ContentScanner.queueTextAnalysis.
  apply (evolves_processQueue (recordPush _ t)).
Qed.

Lemma evolves_visitImage : forall now t x,
    pageEvolves (page t) (page (ContentScanner.visitImage now t x)).
Proof.
  intros now t x. unfold ContentScanner.visitImage.
  destruct (ContentScanner.shouldIgnoreElement x t); [apply pageEvolves_refl|].
  destruct (ContentScanner.shouldAnalyzeImage _ _); [|apply pageEvolves_refl].
  unfold ContentScanner.queueImageAnalysis.
  apply (evolves_processQueue (recordPush _ t)).
Qed.

Lemma evolves_fold : forall (B : Type) (f : Tab -> B -> Tab) l t,
    (forall t x, pageEvolves (page t) (page (f t x))) ->
    pageEvolves (page t) (page (fold_left f l t)).
Proof.
  intros B f l. induction l as [|x l IH]; intros t H; simpl;
    [apply pageEvolves_refl|].
  apply (pageEvolves_trans _ (page (f t x))); [apply H | apply IH; exact H].
Qed.

Lemma evolves_scanExistingContent : forall now t,
    pageEvolves (page t) (page (ContentScanner.scanExistingContent now t)).
Proof.
  intros now t. unfold ContentScanner.scanExistingContent,
    ContentScanner.scanImageContent, ContentScanner.scanGoogleSearchResults,
    ContentScanner.scanTextContent.
  set (t1 := fold_left (ContentScanner.visitText now) _ t).
  assert (H1 : pageEvolves (page t) (page t1))
    by (apply evolves_fold; apply evolves_visitText).
  set (t2 := if Js.includes (hostname t1) "google." then _ else t1).
  assert (H2 : pageEvolves (page t1) (page t2)).
  { unfold t2. destruct (Js.includes _ _); [|apply pageEvolves_refl].
    apply evolves_fold. intros t0 sel. apply evolves_fold. apply evolves_visitText. }
  apply (pageEvolves_trans _ (page t2)).
  - apply (pageEvolves_trans _ _ _ H1 H2).
  - apply evolves_fold. apply evolves_visitImage.
Qed.

Lemma evolves_startScanning : forall now t,
    pageEvolves (page t) (page (ContentScanner.startScanning now t)).
Proof.
  intros now t. unfold ContentScanner.startScanning.
  destruct (isScanning t); [apply pageEvolves_refl|].
  destruct (ContentScanner.isAllowlisted _) as [[|]|]; try apply pageEvolves_refl.
  apply (evolves_scanExistingContent now (setIsScanning true t)).
Qed.

Lemma evolves_init : forall answer now t,
    pageEvolves (page t) (page (ContentScanner.init answer now t)).
Proof.
  intros answer now t. unfold ContentScanner.init.
  assert (H : page (ContentScanner.loadSettings answer t) = page t)
    by (destruct answer as [[s|]|]; reflexivity).
  rewrite <- H.
  destruct (settings (ContentScanner.loadSettings answer t));
    [|destruct (isScanning (ContentScanner.loadSettings answer t))];
    apply evolves_startScanning.
Qed.

Lemma evolves_periodicRescan : forall now t,
    pageEvolves (page t) (page (ContentScanner.periodicRescan now t)).
Proof.
  intros now t. unfold ContentScanner.periodicRescan.
  destruct (ContentScanner.isAllowlisted t) as [[|]|]; try apply pageEvolves_refl.
  apply evolves_scanExistingContent.
Qed.

Lemma evolves_onMutations : forall now nodes t,
    pageEvolves (page t) (page (ContentScanner.onMutations now nodes t)).
Proof.
  intros now nodes t. unfold ContentScanner.onMutations.
  apply evolves_fold. intros t0 node. unfold ContentScanner.scanNewElement.
  set (t1 := fold_left (ContentScanner.visitText now) _ t0).
  apply (pageEvolves_trans _ (page t1)).
  - apply evolves_fold. apply evolves_visitText.
  - apply evolves_fold. apply evolves_visitImage.
Qed.

Lemma evolves_onTimeout : forall t,
    pageEvolves (page t) (page (ContentScanner.onTimeout t)).
Proof.
  intros t. unfold ContentScanner.onTimeout.
  destruct (timeouts t) as [|n]; [apply pageEvolves_refl|].
  apply (evolves_processQueue (setTimeouts n t)).
Qed.

Lemma page_onImageData : forall id d t,
    page (ContentScanner.onImageData id d t) = page t.
Proof.
  intros id d t. unfold ContentScanner.onImageData, ContentScanner.continueProcessing.
  destruct (ContentScanner.findAwaiting id t) as [[item|item]|]; try reflexivity.
  simpl. destruct d; [destruct (settings t)|]; simpl; try reflexivity;
    destruct (scanQueue t); reflexivity.
Qed.

(** *** The manipulator *)

Lemma evolves_replaceContent : forall e type r t,
    pageEvolves (page t) (page (DOMManipulator.replaceContent e type r t)).
Proof.
  intros e type r t. unfold DOMManipulator.replaceContent,
    DOMManipulator.createReplacementElement. cbv zeta.
  cbn [page setPage setListeners setReplacementElements].
  assert (H : pageEvolves (page t)
                {| document := document (page t);
                   detached := detached (page t)
                               ++ [DOMManipulator.replacementNode (nextUid (page t)) type r];
                   nextUid := (7 + nextUid (page t))%nat |}).
  { apply pageEvolves_create. intros el Hel.
    apply (created_replacementNode _ type r el Hel). }
  destruct (replaceChild _ _ _) as [p'|] eqn:R; cbn [page setPage setListeners
                                                       setReplacementElements].
  - apply (pageEvolves_trans _ _ _ H). apply (pageEvolves_replaceChild _ _ _ _ R).
  - exact H.
Qed.

Lemma evolves_blurContent : forall e type r t,
    pageEvolves (page t) (page (DOMManipulator.blurContent e type r t)).
Proof.
  intros e type r t. unfold DOMManipulator.blurContent. cbv zeta.
  cbn [page setPage setListeners].
  eapply pageEvolves_trans; apply pageEvolves_updateElement.
  - apply gentle_classList_add.
  - apply gentle_setAttribute.
Qed.

Lemma evolves_hideContent : forall e type r t,
    pageEvolves (page t) (page (DOMManipulator.hideContent e type r t)).
Proof.
  intros e type r t. unfold DOMManipulator.hideContent. cbv zeta.
  cbn [page setPage setListeners].
  set (p1 := updateElement e (setAttribute "data-original-display" _) (page t)).
  set (p2 := updateElement e (setStyleDisplay "none") p1).
  assert (H1 : pageEvolves (page t) p1)
    by (apply pageEvolves_updateElement; apply gentle_setAttribute).
  assert (H2 : pageEvolves p1 p2)
    by (apply pageEvolves_updateElement;
        apply (gentle_setStyleDisplay (fun _ => "none"))).
  set (p3 := {| document := document p2; detached := _; nextUid := S (nextUid p2) |}).
  assert (H3 : pageEvolves p2 p3).
  { apply (pageEvolves_create p2 _ 1). intros el Hel.
    simpl in Hel. destruct Hel as [Hel|[]]. subst el. simpl. lia. }
  assert (H : pageEvolves (page t) p3)
    by (apply (pageEvolves_trans _ p2); [apply (pageEvolves_trans _ p1); assumption
                                        | assumption]).
  destruct (insertBefore _ _ _) as [p'|] eqn:I; cbn [page setPage setListeners].
  - apply (pageEvolves_trans _ _ _ H). apply (pageEvolves_insertBefore _ _ _ _ I).
  - exact H.
Qed.

Lemma evolves_handleUnsafeContent : forall d t,
    pageEvolves (page t) (page (DOMManipulator.handleUnsafeContent d t)).
Proof.
  intros d t. unfold DOMManipulator.handleUnsafeContent.
  destruct (Js.setHas _ _); [apply pageEvolves_refl|].
  destruct (DOMManipulator.getBlockingMethod _ _).
  - apply (evolves_replaceContent _ _ _ (setBlockedElements _ t)).
  - apply (evolves_blurContent _ _ _ (setBlockedElements _ t)).
  - apply (evolves_hideContent _ _ _ (setBlockedElements _ t)).
Qed.

Lemma evolves_showOriginalContent : forall c e b t,
    pageEvolves (page t) (page (DOMManipulator.showOriginalContent c e b t)).
Proof.
  intros c e b t. unfold DOMManipulator.showOriginalContent.
  destruct b; [|apply pageEvolves_refl].
  destruct (replaceChild e c (page t)) as [p'|] eqn:R; [|apply pageEvolves_refl].
  cbn [page setPage setBlockedElements setReplacementElements].
  apply (pageEvolves_trans _ p').
  - apply (pageEvolves_replaceChild _ _ _ _ R).
  - apply pageEvolves_updateElement. apply gentle_classList_add.
Qed.

Lemma evolves_restoreReplaced : forall l p p',
    DOMManipulator.restoreReplaced l p = Some p' -> pageEvolves p p'.
Proof.
  induction l as [|[replacement original] l IH]; intros p p' H; simpl in H.
  - inversion H. apply pageEvolves_refl.
  - destruct (parentNode replacement p) as [par|]; [|apply IH; exact H].
    destruct (replaceChild original replacement p) as [p1|] eqn:R; [|discriminate].
    apply (pageEvolves_trans _ p1);
      [apply (pageEvolves_replaceChild _ _ _ _ R) | apply IH; exact H].
Qed.

Lemma evolves_updates : forall (f : Element -> Element) us p,
    gentle f ->
    pageEvolves p (fold_left (fun q u => updateElement u f q) us p).
Proof.
  intros f us. induction us as [|u us IH]; intros p Hf; simpl;
    [apply pageEvolves_refl|].
  apply (pageEvolves_trans _ (updateElement u f p));
    [apply pageEvolves_updateElement; exact Hf | apply IH; exact Hf].
Qed.

Lemma evolves_onUser : forall u t,
    pageEvolves (page t) (page (DOMManipulator.onUser u t)).
Proof.
  intros u t. destruct u as [c confirmed | e | b | ]; simpl.
  - destruct (find _ _) as [[c' o ty| |]|]; try apply pageEvolves_refl.
    apply evolves_showOriginalContent.
  - destruct (existsb _ _); [|apply pageEvolves_refl].
    unfold DOMManipulator.removeBlur. cbn [page setPage setListeners setBlockedElements].
    eapply pageEvolves_trans; apply pageEvolves_updateElement.
    + apply gentle_classList_remove. discriminate.
    + apply gentle_classList_add.
  - destruct (find _ _) as [[| |b' e' od]|]; try apply pageEvolves_refl.
    unfold DOMManipulator.showHidden. cbn [page setPage setBlockedElements].
    eapply pageEvolves_trans; [eapply pageEvolves_trans|].
    + apply pageEvolves_updateElement. apply (gentle_setStyleDisplay (fun _ => od)).
    + apply pageEvolves_remove.
    + apply pageEvolves_updateElement. apply gentle_classList_add.
  - unfold DOMManipulator.restoreAllContent.
    destruct (DOMManipulator.restoreReplaced _ _) as [p1|] eqn:R;
      [|apply pageEvolves_refl].
    cbn [page setPage setBlockedElements setReplacementElements].
    eapply pageEvolves_trans; [eapply pageEvolves_trans|].
    + apply (evolves_restoreReplaced _ _ _ R).
    + apply (evolves_updates (classList_remove "ai-firewall-blurred")).
      apply gentle_classList_remove. discriminate.
    + apply (evolves_updates
               (fun e => setStyleDisplay
                           match getAttribute "data-original-display" e with
                           | Some v => v
                           | None => ""
                           end e)).
      apply (gentle_setStyleDisplay
               (fun e => match getAttribute "data-original-display" e with
                         | Some v => v
                         | None => ""
                         end)).
Qed.

Lemma evolves_onResponse : forall id r t,
    pageEvolves (page t) (page (ContentScanner.onResponse id r t)).
Proof.
  intros id r t. unfold ContentScanner.onResponse.
  destruct (ContentScanner.findAwaiting id t) as [[item|item]|];
    try apply pageEvolves_refl.
  assert (K : forall t', page (ContentScanner.continueProcessing t') = page t')
    by (intros t'; unfold ContentScanner.continueProcessing;
        destruct (scanQueue t'); reflexivity).
  rewrite K. destruct r as [result|err]; [|apply pageEvolves_refl].
  destruct (negb (is_safe result)); [|apply pageEvolves_refl].
  unfold ContentScanner.handleUnsafeContent.
  apply (evolves_handleUnsafeContent _ (recordDispatch _ (ContentScanner.dropAwaiting id t))).
Qed.

(** Every event of the pipeline. *)
Lemma evolves_step : forall s e,
    pageEvolves (page (tab s)) (page (tab (step s e))).
Proof.
  intros s e. destruct e; simpl.
  - apply evolves_init.
  - apply evolves_periodicRescan.
  - apply evolves_onMutations.
  - apply evolves_onTimeout.
  - rewrite page_onImageData. apply pageEvolves_refl.
  - apply evolves_onUser.
  - destruct (Js.get _ _ _); simpl; apply pageEvolves_refl.
  - apply pageEvolves_refl.
  - destruct (Js.get _ _ _); simpl; [apply evolves_onResponse | apply pageEvolves_refl].
Qed.

End StepFacts.

(** ** Over every event of the pipeline *)

Module DiscoveryFacts.
Import Dom Tabs ContentScanner DomFacts MarkFacts ScanFacts SinceFacts.
Import Pipeline EvolveFacts StepFacts.

Lemma locate_In : forall x p l,
    locate x p = Some l -> In (fst l) (pageElements p) /\ uid (fst l) = x.
Proof.
  intros x p l H. split; [|apply (locate_uid x p l H)].
  unfold locate in H. apply find_some in H. destruct H as [H _].
  apply in_flat_map in H. destruct H as [n [Hn Hl]].
  unfold pageElements. apply in_flat_map. exists n. split; [exact Hn|].
  unfold elements. apply in_map. exact Hl.
Qed.

Lemma allBelow_wellFormed : forall p, wellFormed p = true -> allBelow p.
Proof.
  intros p H el Hel. unfold wellFormed in H. apply andb_true_iff in H.
  destruct H as [_ H]. rewrite forallb_forall in H. apply Nat.ltb_lt. apply H.
  unfold allUids. unfold pageElements in Hel. apply in_flat_map in Hel.
  destruct Hel as [n [Hn Hel]]. apply in_flat_map. exists n. split; [exact Hn|].
  rewrite uids_elements. apply in_map. exact Hel.
Qed.

Lemma allBelow_evolves : forall p p', pageEvolves p p' -> allBelow p -> allBelow p'.
Proof.
  intros p p' [Hn H] Hb el Hel. destruct (H el Hel) as [[el0 [Hin [E _]]]|[_ K]].
  - rewrite E. specialize (Hb el0 Hin). lia.
  - exact K.
Qed.

Lemma processed_evolves : forall p p' x,
    pageEvolves p p' ->
    everywhere (hasAttribute processedAttribute) x p ->
    everywhere (hasAttribute processedAttribute) x p'.
Proof.
  intros p p' x [Hn H] [Hx Hall]. split; [lia|]. intros el Hel Hu.
  destruct (H el Hel) as [[el0 [Hin (E1 & E2 & E3)]]|[K _]].
  - apply E2. apply Hall; [exact Hin | congruence].
  - lia.
Qed.

Lemma processed_is_ignored : forall x t,
    everywhere (hasAttribute processedAttribute) x (page t) ->
    shouldIgnoreElement x t = true.
Proof.
  intros x t [_ H]. unfold shouldIgnoreElement.
  destruct (locate x (page t)) as [l|] eqn:L; [|reflexivity].
  destruct (locate_In _ _ _ L) as [Hin Hu].
  rewrite (H _ Hin Hu). destruct (closest _ _); reflexivity.
Qed.

Lemma unignored_is_below : forall x t,
    allBelow (page t) -> shouldIgnoreElement x t = false ->
    (x < nextUid (page t))%nat.
Proof.
  intros x t Hb H. unfold shouldIgnoreElement in H.
  destruct (locate x (page t)) as [l|] eqn:L; [|discriminate].
  destruct (locate_In _ _ _ L) as [Hin Hu]. rewrite <- Hu. apply Hb. exact Hin.
Qed.

Lemma markAll_cons : forall u us p, markAll (u :: us) p = markAll us (markPage u p).
Proof. reflexivity. Qed.

Lemma mark_is_processed : forall el, hasAttribute processedAttribute (mark el) = true.
Proof.
  intros el. unfold hasAttribute, Js.has, mark, setAttribute. cbn [attributes].
  rewrite (get_set_same _ _ _ String.eqb_eq). reflexivity.
Qed.

Lemma marks_markPage : forall x p el,
    In el (pageElements (markPage x p)) -> uid el = x ->
    hasAttribute processedAttribute el = true.
Proof.
  intros x p el Hel Hu. unfold markPage in Hel.
  rewrite pageElements_updateElement in Hel. apply in_map_iff in Hel.
  destruct Hel as [el0 [E Hin]]. subst el. unfold atUid in *.
  destruct (Nat.eqb (uid el0) x) eqn:Q.
  - apply mark_is_processed.
  - apply Nat.eqb_neq in Q. contradiction.
Qed.

Lemma marked_markPage : forall u x p,
    (forall el, In el (pageElements p) -> uid el = x ->
                hasAttribute processedAttribute el = true) ->
    forall el, In el (pageElements (markPage u p)) -> uid el = x ->
               hasAttribute processedAttribute el = true.
Proof.
  intros u x p H el Hel Hu. unfold markPage in Hel.
  rewrite pageElements_updateElement in Hel. apply in_map_iff in Hel.
  destruct Hel as [el0 [E Hin]]. subst el. unfold atUid in *.
  destruct (Nat.eqb (uid el0) u); [|apply H; assumption].
  apply mark_is_processed.
Qed.

Lemma marked_markAll : forall us x p,
    (forall el, In el (pageElements p) -> uid el = x ->
                hasAttribute processedAttribute el = true) ->
    forall el, In el (pageElements (markAll us p)) -> uid el = x ->
               hasAttribute processedAttribute el = true.
Proof.
  induction us as [|u us IH]; intros x p H; [exact H|].
  rewrite markAll_cons. apply IH. apply marked_markPage. exact H.
Qed.

Lemma marks_markAll : forall us x p,
    In x us ->
    forall el, In el (pageElements (markAll us p)) -> uid el = x ->
               hasAttribute processedAttribute el = true.
Proof.
  induction us as [|u us IH]; intros x p Hx; [destruct Hx|].
  rewrite markAll_cons. destruct (in_dec Nat.eq_dec x us) as [Hin|Hnin].
  - apply IH. exact Hin.
  - destruct Hx as [Hx|Hx]; [|contradiction]. subst u.
    apply marked_markAll. apply marks_markPage.
Qed.

Lemma nextUid_markAll : forall us p, nextUid (markAll us p) = nextUid p.
Proof.
  induction us as [|u us IH]; intros p; [reflexivity|].
  rewrite markAll_cons, IH. reflexivity.
Qed.

Lemma pageEvolves_markAll : forall us p, pageEvolves p (markAll us p).
Proof.
  induction us as [|u us IH]; intros p; [apply pageEvolves_refl|].
  rewrite markAll_cons. apply (pageEvolves_trans _ (markPage u p)); [|apply IH].
  apply pageEvolves_updateElement. apply gentle_setAttribute.
Qed.

(** A scan leaves the tab settled. *)
Lemma since_settled : forall t t' items,
    settled t -> since t t' items -> settled t'.
Proof.
  intros t t' items (Q & B & N & M) (H1 & H2 & H3 & H4 & H5 & H6).
  assert (E : pageEvolves (page t) (page t'))
    by (rewrite H3; apply pageEvolves_markAll).
  split; [exact H1|]. split; [apply (allBelow_evolves _ _ E B)|].
  rewrite H2, map_app. split.
  - apply NoDup_app; [exact N | exact H5 |].
    intros x Hx Hx'. specialize (H6 x Hx').
    rewrite (processed_is_ignored x t (M x Hx)) in H6. discriminate.
  - intros x Hx. apply in_app_or in Hx. destruct Hx as [Hx|Hx].
    + apply (processed_evolves _ _ x E (M x Hx)).
    + split.
      * rewrite H3, nextUid_markAll. apply (unignored_is_below x t B (H6 x Hx)).
      * rewrite H3. apply marks_markAll. exact Hx.
Qed.

(** What a discovery event queues. *)
Lemma discovery_step_since : forall s e,
    isDiscovery e = true -> scanQueue (tab s) = [] ->
    exists items, since (tab s) (tab (step s e)) items.
Proof.
  intros s e He Hq. pose proof (since_refl (tab s) Hq) as S.
  destruct e; try discriminate; simpl.
  - apply (init_since answer now _ _ _ S).
  - apply (periodicRescan_since now _ _ _ S).
  - apply (onMutations_since now addedNodes _ _ _ S).
Qed.

(** The other events queue nothing. *)
Lemma pushed_processQueue : forall t, pushed (processQueue t) = pushed t.
Proof.
  intros t. unfold processQueue. destruct (scanQueue t) as [|item rest]; [reflexivity|].
  destruct (i_type item); [|reflexivity].
  unfold analyzeText, continueProcessing. simpl.
  destruct (settings t); [reflexivity|]. destruct rest; reflexivity.
Qed.

Lemma pushed_continueProcessing : forall t, pushed (continueProcessing t) = pushed t.
Proof. intros t. unfold continueProcessing. destruct (scanQueue t); reflexivity. Qed.

Lemma pushed_onUser : forall u t, pushed (DOMManipulator.onUser u t) = pushed t.
Proof.
  intros u t. destruct u as [c confirmed | e | b | ]; simpl.
  - destruct (find _ _) as [[c' o ty| |]|]; try reflexivity.
    apply pushed_showOriginalContent.
  - destruct (existsb _ _); reflexivity.
  - destruct (find _ _) as [[| |b' e' od]|]; reflexivity.
  - unfold DOMManipulator.restoreAllContent.
    destruct (DOMManipulator.restoreReplaced _ _); reflexivity.
Qed.

Lemma pushed_onResponse : forall id r t, pushed (onResponse id r t) = pushed t.
Proof.
  intros id r t. unfold onResponse.
  destruct (findAwaiting id t) as [[item|item]|]; try reflexivity.
  rewrite pushed_continueProcessing. destruct r as [result|err]; [|reflexivity].
  destruct (negb (is_safe result)); [|reflexivity].
  unfold handleUnsafeContent.
  rewrite (proj1 (pushed_handleUnsafeContent _ _)). reflexivity.
Qed.

Lemma pushed_onImageData : forall id d t, pushed (onImageData id d t) = pushed t.
Proof.
  intros id d t. unfold onImageData.
  destruct (findAwaiting id t) as [[item|item]|]; try reflexivity.
  cbv zeta. destruct d; [destruct (settings (dropAwaiting id t))|];
    try reflexivity; rewrite pushed_continueProcessing; reflexivity.
Qed.

Lemma other_step_pushes_nothing : forall s e,
    isDiscovery e = false -> pushed (tab (step s e)) = pushed (tab s).
Proof.
  intros s e He. destruct e; try discriminate; simpl.
  - unfold onTimeout. destruct (timeouts (tab s)); [reflexivity|].
    rewrite pushed_processQueue. reflexivity.
  - apply pushed_onImageData.
  - apply pushed_onUser.
  - destruct (Js.get _ _ _); reflexivity.
  - reflexivity.
  - destruct (Js.get _ _ _); simpl; [apply pushed_onResponse | reflexivity].
Qed.

(** What any event queues: elements that were not ignored before it. *)
Lemma step_pushes : forall s e,
    scanQueue (tab s) = [] ->
    exists items,
      pushed (tab (step s e)) = pushed (tab s) ++ items /\
      forall x, In x (map i_element items) -> shouldIgnoreElement x (tab s) = false.
Proof.
  intros s e Hq. destruct (isDiscovery e) eqn:D.
  - destruct (discovery_step_since s e D Hq) as (items & S).
    exists items. split; apply S.
  - exists []. rewrite app_nil_r. split; [apply other_step_pushes_nothing; exact D|].
    intros x [].
Qed.

Lemma settled_step : forall s e, settled (tab s) -> settled (tab (step s e)).
Proof.
  intros s e H. destruct (isDiscovery e) eqn:D.
  - destruct (discovery_step_since s e D (proj1 H)) as (items & S).
    apply (since_settled _ _ _ H S).
  - destruct H as (Q & B & N & M).
    pose proof (evolves_step s e) as E.
    split; [apply queue_empty_step; exact Q|].
    split; [apply (allBelow_evolves _ _ E B)|].
    rewrite (other_step_pushes_nothing s e D). split; [exact N|].
    intros x Hx. apply (processed_evolves _ _ x E (M x Hx)).
Qed.

Lemma settled_run : forall es s, settled (tab s) -> settled (tab (run s es)).
Proof.
  induction es as [|e es IH]; intros s H; simpl; [exact H|].
  apply IH. apply settled_step. exact H.
Qed.

Lemma settled_start : forall p host,
    wellFormed p = true -> settled (tab (start p host)).
Proof.
  intros p host H. split; [reflexivity|]. split; [apply allBelow_wellFormed; exact H|].
  simpl. split; [constructor|]. intros x [].
Qed.

(** C3.  Take a tab whose scan queue is empty.  Queueing an element
    marks it processed in the same step: the queue is empty again and
    [shouldIgnoreElement] holds for the element from then on.  A scan of
    the page queues distinct elements only, queues every eligible text
    or image fragment, and leaves each queued element ignored; a second
    scan of the page so left is the identity, so after two scans every
    eligible fragment has been queued exactly once.  And on a
    well-formed page, over any sequence of events of the pipeline
    (start, periodic rescans, mutation batches, timers, image data,
    deliveries, fetches, answers with their blocking, and the user's
    reveals and restores), no element is ever queued twice.  The scan
    queue is empty after every event of the pipeline. *)
Theorem each_node_is_queued_at_most_once :
  forall (t : Tab) (now now' : Z),
    scanQueue t = [] ->
    let t1 := scanExistingContent now t in
    (forall element txt,
        let t' := queueTextAnalysis element txt now t in
        scanQueue t' = [] /\ page t' = markPage element (page t) /\
        shouldIgnoreElement element t' = true) /\
    (forall element,
        let t' := queueImageAnalysis element now t in
        scanQueue t' = [] /\ page t' = markPage element (page t) /\
        shouldIgnoreElement element t' = true) /\
    (exists items,
        pushed t1 = pushed t ++ items /\
        NoDup (map i_element items) /\
        (forall x, In x (map i_element items) ->
                   shouldIgnoreElement x t = false /\
                   shouldIgnoreElement x t1 = true) /\
        (forall x, eligibleText t x \/ eligibleImage t x ->
                   In x (map i_element items))) /\
    scanExistingContent now' t1 = t1 /\
    (forall p host es,
        wellFormed p = true ->
        NoDup (map i_element
                   (pushed (Pipeline.tab (Pipeline.run (Pipeline.start p host) es))))) /\
    (forall p host es,
        scanQueue (Pipeline.tab (Pipeline.run (Pipeline.start p host) es)) = []).
Proof.
  intros t now now' Hq t1. split; [|split; [|split; [|split; [|split]]]].
  - intros element txt. cbv zeta.
    destruct (queueTextAnalysis_effect element txt now t Hq) as (Q1 & Q2 & Q3 & Q4).
    split; [exact Q1|]. split; [exact Q3|].
    rewrite (shouldIgnoreElement_markPage element element t _ Q3).
    rewrite Nat.eqb_refl. apply orb_true_r.
  - intros element. cbv zeta.
    destruct (queueImageAnalysis_effect element now t Hq) as (Q1 & Q2 & Q3 & Q4).
    split; [exact Q1|]. split; [exact Q3|].
    rewrite (shouldIgnoreElement_markPage element element t _ Q3).
    rewrite Nat.eqb_refl. apply orb_true_r.
  - destruct (scanExistingContent_since now t t [] (since_refl t Hq))
      as (items & S & Ct & Cg & Ci).
    simpl in S, Ct, Cg, Ci. fold t1 in S.
    pose proof S as (H1 & H2 & H3 & H4 & H5 & H6).
    exists items. split; [exact H2|]. split; [exact H5|]. split.
    + intros x Hx. split; [apply H6; exact Hx|].
      rewrite (shouldIgnoreElement_markAll x _ t t1 H3).
      apply existsb_In in Hx. rewrite Hx. apply orb_true_r.
    + intros x [E|E].
      * apply Ct; [apply E | apply wantsText_eligible; exact E].
      * apply Ci; [apply E | apply wantsImage_eligible; exact E].
  - apply rescan_changes_nothing. exact Hq.
  - intros p host es Hwf.
    apply (settled_run es (Pipeline.start p host) (settled_start p host Hwf)).
  - intros p host es. apply queue_empty_run. reflexivity.
Qed.

End DiscoveryFacts.

Module SwapFacts.
Import Dom DomFacts TreeFacts.

Lemma under_ancestors : forall n anc l,
    In l (descendantsOrSelf anc n) -> exists pre, snd l = pre ++ anc.
Proof.
  induction n as [s|e kids IH] using Node_induction; intros anc l Hl;
    [destruct Hl|].
  simpl in Hl. destruct Hl as [Hl|Hl].
  - subst l. exists []. reflexivity.
  - apply in_flat_map in Hl. destruct Hl as [k [Hk Hl]].
    rewrite Forall_forall in IH.
    destruct (IH k Hk (e :: anc) l Hl) as [pre Hpre].
    exists (pre ++ [e]). rewrite Hpre, <- app_assoc. reflexivity.
Qed.

Lemma find_app_first : forall (A : Type) (P : A -> bool) l1 l2 x,
    In x l1 -> P x = true ->
    exists y, find P (l1 ++ l2) = Some y /\ In y l1.
Proof.
  intros A P l1 l2 x. induction l1 as [|a l1 IH]; intros Hx Px; [destruct Hx|].
  simpl. destruct (P a) eqn:Pa.
  - exists a. split; [reflexivity | left; reflexivity].
  - destruct Hx as [Hx|Hx]; [subst; congruence|].
    destruct (IH Hx Px) as [y [Hy Hin]]. exists y. split; [exact Hy | right; exact Hin].
Qed.

Lemma located_trees : forall p,
    flat_map (descendantsOrSelf []) (trees p)
    = descendantsOrSelf [] (document p)
      ++ flat_map (descendantsOrSelf []) (detached p).
Proof. reflexivity. Qed.

Lemma parent_of_found : forall (T rest : list Located) u,
    (exists l, In l T /\ uid (fst l) = u) ->
    (forall y, In y T -> snd y <> []) ->
    match find (fun l0 : Located => Nat.eqb (uid (fst l0)) u) (T ++ rest) with
    | Some (_, a :: _) => Some (uid a)
    | _ => None
    end <> None.
Proof.
  intros T rest u [l [Hin Hl]] Hanc.
  destruct (find_app_first Located (fun l0 : Located => Nat.eqb (uid (fst l0)) u)
                           T rest l Hin) as [y [Hy Hyin]].
  { apply Nat.eqb_eq. exact Hl. }
  rewrite Hy. specialize (Hanc y Hyin). destruct y as [e [|a anc]]; simpl in *;
    [congruence | discriminate].
Qed.

(** An element of the document that is not its root has a parent. *)
Lemma parentNode_in_document : forall u p,
    In u (uids (document p)) -> isRoot u (document p) = false ->
    parentNode u p <> None.
Proof.
  intros u p Hin Hroot. unfold parentNode, locate. rewrite located_trees.
  destruct (document p) as [s|e0 kids] eqn:D; [destruct Hin|].
  unfold isRoot in Hroot. simpl in Hroot.
  unfold uids in Hin. simpl in Hin. destruct Hin as [Hin|Hin];
    [subst u; rewrite Nat.eqb_refl in Hroot; discriminate|].
  apply in_map_iff in Hin. destruct Hin as [l [Hl Hin]].
  simpl. rewrite Hroot.
  apply parent_of_found.
  - exists l. split; assumption.
  - intros y Hy. apply in_flat_map in Hy. destruct Hy as [k [_ Hyk]].
    destruct (under_ancestors k [e0] y Hyk) as [pre Hpre].
    rewrite Hpre. destruct pre; discriminate.
Qed.

Lemma parentNode_of_root : forall u p,
    isRoot u (document p) = true -> parentNode u p = None.
Proof.
  intros u p Hroot. unfold parentNode, locate. rewrite located_trees.
  destruct (document p) as [s|e0 kids]; [discriminate|].
  unfold isRoot in Hroot. simpl in Hroot. simpl. rewrite Hroot. reflexivity.
Qed.

Lemma isRoot_plug : forall u fr rest X,
    ~ In u (frameUids fr) -> isRoot u (plug (fr :: rest) X) = false.
Proof.
  intros u fr rest X H. unfold isRoot. rewrite rootUid_plug.
  apply Nat.eqb_neq. intro E. apply H. left. exact E.
Qed.

Lemma containsUid_false : forall u n, ~ In u (uids n) -> containsUid u n = false.
Proof.
  intros u n H. unfold containsUid. destruct (existsb (Nat.eqb u) (uids n)) eqn:E;
    [|reflexivity].
  exfalso. apply H. apply setHas_In. exact E.
Qed.

Lemma containsUid_In : forall u n, containsUid u n = true -> In u (uids n).
Proof. intros u n H. apply setHas_In. exact H. Qed.

(** Swapping the node at the end of a path of the document with a
    detached node: the detached node takes the place, the node that was
    there becomes detached. *)
Lemma replaceChild_swap : forall frames O N det nx old new,
    frames <> [] ->
    rootUid O = Some old -> rootUid N = Some new -> old <> new ->
    (forall fr, In fr frames -> ~ In old (frameUids fr)) ->
    (forall fr, In fr frames -> ~ In new (frameUids fr)) ->
    ~ In new (uids O) -> ~ In old (uids N) ->
    (forall k, In k det -> ~ In old (uids k) /\ ~ In new (uids k)) ->
    replaceChild new old
      {| document := plug frames O; detached := det ++ [N]; nextUid := nx |}
    = Some {| document := plug frames N; detached := det ++ [O]; nextUid := nx |}.
Proof.
  intros frames O N det nx old new Hne HO HN Hdiff Hold Hnew HnO HoN Hdet.
  set (p := {| document := plug frames O; detached := det ++ [N]; nextUid := nx |}).
  assert (Hnewdoc : ~ In new (uids (plug frames O))).
  { rewrite In_uids_plug. intros [H|[fr [H1 H2]]]; [contradiction|].
    apply (Hnew fr H1 H2). }
  assert (Holddoc : In old (uids (plug frames O))).
  { apply In_uids_plug. left. apply isRoot_In. apply isRoot_rootUid. exact HO. }
  assert (Hparent : parentNode old p <> None).
  { apply parentNode_in_document; [exact Holddoc|].
    destruct frames as [|fr rest]; [congruence|].
    apply isRoot_plug. apply Hold. left. reflexivity. }
  assert (HfindN : findInPage new p = Some N).
  { unfold findInPage, trees, p. cbn [document detached firstSome].
    rewrite (findNode_notin new _ Hnewdoc). rewrite firstSome_app.
    rewrite firstSome_none
      by (intros k Hk; apply findNode_notin; apply (Hdet k Hk)).
    cbn [firstSome]. rewrite (findNode_root new N HN). reflexivity. }
  assert (Hrem : removeFromPage new p
                 = {| document := plug frames O; detached := det; nextUid := nx |}).
  { unfold removeFromPage, p. cbn [document detached nextUid].
    rewrite (removeChild_notin new _ Hnewdoc). f_equal.
    rewrite filter_app. cbn [filter]. rewrite (isRoot_rootUid new N HN). cbn [negb].
    rewrite app_nil_r. rewrite filter_all.
    - apply map_id_Forall. apply Forall_forall. intros k Hk.
      apply removeChild_notin. apply (Hdet k Hk).
    - intros k Hk. apply negb_true_iff. apply isRoot_notin. apply (Hdet k Hk). }
  unfold replaceChild.
  destruct (parentNode old p) as [par|]; [|congruence].
  rewrite HfindN.
  assert (E : Nat.eqb new old = false) by (apply Nat.eqb_neq; congruence).
  rewrite E. rewrite (containsUid_false old N HoN). rewrite Hrem.
  unfold findInPage, trees. cbn [document detached nextUid firstSome].
  rewrite (findNode_plug old frames O Hold HO).
  rewrite (substChild_plug old N frames O Hne Hold HO).
  f_equal. f_equal. f_equal.
  apply map_id_Forall. apply Forall_forall. intros k Hk.
  apply substChild_notin. apply (Hdet k Hk).
Qed.

End SwapFacts.

Module RevealFacts.
Import Dom Tabs DomFacts TreeFacts SwapFacts.

Lemma matchesAncestors_nil : forall anc, matchesAncestors anc [] = true.
Proof. intros [|a anc]; reflexivity. Qed.

Lemma uids_replacementNode : forall u type r,
    uids (DOMManipulator.replacementNode u type r)
    = [u; S u; S (S u); S (S (S u)); S (S (S (S u))); S (S (S (S (S u))));
       S (S (S (S (S (S u)))))].
Proof. intros u [] r; reflexivity. Qed.

Lemma rootUid_replacementNode : forall u type r,
    rootUid (DOMManipulator.replacementNode u type r) = Some u.
Proof. intros u [] r; reflexivity. Qed.

Lemma uid_classList_add : forall c e, uid (classList_add c e) = uid e.
Proof. intros c e. unfold classList_add. destruct (hasClass c e); reflexivity. Qed.

Lemma hasClass_classList_add : forall c e, hasClass c (classList_add c e) = true.
Proof.
  intros c e. unfold classList_add. destruct (hasClass c e) eqn:E; [exact E|].
  unfold hasClass, Js.arrayIncludes. simpl. rewrite existsb_app. simpl.
  rewrite String.eqb_refl. rewrite orb_true_r. reflexivity.
Qed.

Lemma setDelete_setAdd : forall x s,
    Js.setHas x s = false -> Js.setDelete x (Js.setAdd x s) = s.
Proof.
  intros x s H. unfold Js.setAdd. rewrite H. unfold Js.setDelete.
  rewrite filter_app. simpl. rewrite Nat.eqb_refl. simpl. rewrite app_nil_r.
  apply filter_all. intros y Hy. apply negb_true_iff. apply Nat.eqb_neq.
  intro E. subst y. apply setHas_In in Hy. congruence.
Qed.

(** An element that carries the class 'ai-firewall-safe' is ignored by
    the scanner. *)
Lemma safe_is_ignored : forall x t l,
    locate x (page t) = Some l -> hasClass "ai-firewall-safe" (fst l) = true ->
    ContentScanner.shouldIgnoreElement x t = true.
Proof.
  intros x t [e anc] L H. unfold ContentScanner.shouldIgnoreElement. rewrite L.
  assert (C : closest ContentScanner.ignoreSelectors (e, anc) = true).
  { unfold closest. simpl fst. simpl snd.
    assert (M : matchesAny ContentScanner.ignoreSelectors (e, anc) = true).
    { unfold matchesAny. apply existsb_exists. exists [Class "ai-firewall-safe"]. split.
      - simpl. tauto.
      - unfold matches. simpl rev. cbn [fst snd]. simpl in H.
        rewrite matchesAncestors_nil. simpl. rewrite H. reflexivity. }
    revert M. destruct anc; cbn [closestFrom]; intros M; rewrite M; reflexivity. }
  rewrite C. reflexivity.
Qed.

End RevealFacts.

Module RestoreFacts.
Import Dom Tabs DomFacts TreeFacts SwapFacts RevealFacts SinceFacts.
Import EvolveFacts StepFacts DiscoveryFacts.

(** What [handleUnsafeContent] does to an element that is not tracked
    when the method is [replace] and the swap succeeds. *)
Lemma handleUnsafeContent_replace : forall t e type r p2,
    Js.setHas e (blockedElements t) = false ->
    DOMManipulator.getBlockingMethod type r = DOMManipulator.replace ->
    replaceChild (nextUid (page t)) e
      {| document := document (page t);
         detached := detached (page t)
                     ++ [DOMManipulator.replacementNode (nextUid (page t)) type r];
         nextUid := (7 + nextUid (page t))%nat |} = Some p2 ->
    DOMManipulator.handleUnsafeContent
      {| d_element := e; d_type := type; d_analysisResult := r |} t
    = setPage p2
        (setReplacementElements
           (Js.set Nat.eqb (nextUid (page t)) e (replacementElements t))
           (setListeners
              (listeners t ++ [ReplacementClick (nextUid (page t)) e type])
              (setPage
                 {| document := document (page t);
                    detached := detached (page t)
                                ++ [DOMManipulator.replacementNode
                                      (nextUid (page t)) type r];
                    nextUid := (7 + nextUid (page t))%nat |}
                 (setBlockedElements (Js.setAdd e (blockedElements t)) t)))).
Proof.
  intros t e type r p2 Hnb Hm Hswap.
  unfold DOMManipulator.handleUnsafeContent.
  cbn [d_element d_type d_analysisResult]. rewrite Hnb, Hm.
  unfold DOMManipulator.replaceContent, DOMManipulator.createReplacementElement.
  cbv zeta.
  cbn [page setPage setListeners setReplacementElements setBlockedElements
       replacementElements listeners blockedElements].
  rewrite Hswap. reflexivity.
Qed.

(** An element that carries the class 'ai-firewall-safe' wherever it
    is keeps it through every event, and is never queued. *)
Lemma safe_after_update : forall e p,
    (e < nextUid p)%nat ->
    Pipeline.everywhere (hasClass "ai-firewall-safe") e
      (updateElement e (classList_add "ai-firewall-safe") p).
Proof.
  intros e p He. split; [exact He|]. intros el Hel Hu.
  rewrite pageElements_updateElement in Hel. apply in_map_iff in Hel.
  destruct Hel as [el0 [E Hin]]. subst el. unfold atUid in *.
  destruct (Nat.eqb (uid el0) e) eqn:Q.
  - apply hasClass_classList_add.
  - apply Nat.eqb_neq in Q. contradiction.
Qed.

Lemma safe_evolves : forall p p' x,
    Pipeline.pageEvolves p p' ->
    Pipeline.everywhere (hasClass "ai-firewall-safe") x p ->
    Pipeline.everywhere (hasClass "ai-firewall-safe") x p'.
Proof.
  intros p p' x [Hn H] [Hx Hall]. split; [lia|]. intros el Hel Hu.
  destruct (H el Hel) as [[el0 [Hin (E1 & E2 & E3)]]|[K _]].
  - apply E3. apply Hall; [exact Hin | congruence].
  - lia.
Qed.

Lemma safe_everywhere_is_ignored : forall x t,
    Pipeline.everywhere (hasClass "ai-firewall-safe") x (page t) ->
    ContentScanner.shouldIgnoreElement x t = true.
Proof.
  intros x t [_ H].
  destruct (locate x (page t)) as [l|] eqn:L.
  - destruct (locate_In _ _ _ L) as [Hin Hu].
    apply (safe_is_ignored x t l L). apply H; assumption.
  - unfold ContentScanner.shouldIgnoreElement. rewrite L. reflexivity.
Qed.

Lemma safe_is_never_queued : forall es s x,
    scanQueue (Pipeline.tab s) = [] ->
    Pipeline.everywhere (hasClass "ai-firewall-safe") x (page (Pipeline.tab s)) ->
    exists more,
      pushed (Pipeline.tab (Pipeline.run s es)) = pushed (Pipeline.tab s) ++ more /\
      ~ In x (map i_element more).
Proof.
  induction es as [|ev es IH]; intros s x Hq Hs.
  - exists []. rewrite app_nil_r. split; [reflexivity | intros []].
  - destruct (step_pushes s ev Hq) as (items & P1 & P2).
    assert (Hq1 : scanQueue (Pipeline.tab (Pipeline.step s ev)) = [])
      by (apply queue_empty_step; exact Hq).
    assert (Hs1 : Pipeline.everywhere (hasClass "ai-firewall-safe") x
                    (page (Pipeline.tab (Pipeline.step s ev))))
      by (apply (safe_evolves _ _ x (evolves_step s ev) Hs)).
    destruct (IH (Pipeline.step s ev) x Hq1 Hs1) as (more & M1 & M2).
    exists (items ++ more). split.
    + simpl. rewrite M1, P1, app_assoc. reflexivity.
    + rewrite map_app. intro Hin. apply in_app_or in Hin. destruct Hin as [Hin|Hin].
      * specialize (P2 x Hin).
        rewrite (safe_everywhere_is_ignored x _ Hs) in P2. discriminate.
      * exact (M2 Hin).
Qed.


End RestoreFacts.

(** ** The properties at concrete inputs *)

Module Witnesses.
Import ServiceWorker.

(** Three overlapping calls for the same text on an empty cache send
    three Gateway requests. *)
Lemma overlapping_calls_witness :
  Forall (fun c => cacheKey text (snd (fst c)) = cacheKey text Examples.someText)
         Examples.threeCalls /\
  Js.get CacheKey_eqb (cacheKey text Examples.someText) (analysisCache initial) = None /\
  List.length (sent (run initial (callsOf text Examples.threeCalls))) = 3%nat.
Proof.
  split; [repeat constructor|]. split; [reflexivity|].
  apply (proj1 (proj2
           (CacheFacts.overlapping_calls_each_send_a_request
              initial text (cacheKey text Examples.someText) Examples.threeCalls
              ltac:(repeat constructor) eq_refl))).
Defined.

(** Two calls for the same text, the second arriving while the
    request of the first is in flight: the keys are equal, both handlers
    are suspended on a request of their own, and two requests were
    sent, not one. *)
Lemma two_overlapping_calls_send_two_requests :
  let s := run initial (callsOf text Examples.twoCalls) in
  Forall (fun c => cacheKey text (snd (fst c)) = cacheKey text Examples.someText)
         Examples.twoCalls /\
  List.length (suspended s) = 2%nat /\
  List.length (sent s) = 2%nat /\
  List.length (sent s) <> 1%nat /\
  pendingRequests s = [].
Proof.
  cbv zeta. split; [repeat constructor|].
  vm_compute. repeat split; congruence.
Qed.

(** After a thousand analyses of distinct texts the cache is at the
    limit; one more [setCache] drops the head of the order and stores the
    new entry at the end, and the size stays at the limit. *)
Lemma cache_at_limit_witness :
  let c := analysisCache (run initial (Examples.analyses 1000)) in
  let key := cacheKey text Examples.someText in
  CONFIG.MAX_CACHE_SIZE <= Js.size c /\
  setCache key Examples.safe 5000 c
  = Js.set CacheKey_eqb key {| data := Examples.safe; timestamp := 5000 |} (tl c).
Proof.
  cbv zeta.
  assert (H : CONFIG.MAX_CACHE_SIZE
              <= Js.size (analysisCache (run initial (Examples.analyses 1000))))
    by (vm_compute; discriminate).
  split; [exact H|].
  apply (proj1 (proj2 (proj2
           (CacheFacts.cache_never_exceeds_limit_fifo (Examples.analyses 1000))
           (cacheKey text Examples.someText) Examples.safe 5000)) H).
Defined.

(** A result stored at time 1000 is served at 300999 and not at
    301000. *)
Lemma cache_window_witness :
  let s1 := withCache (setCache (cacheKey text Examples.someText) Examples.safe 1000
                                (analysisCache initial)) initial in
  300999 - 1000 < CONFIG.CACHE_DURATION /\
  CONFIG.CACHE_DURATION <= 301000 - 1000 /\
  handleAnalysis text 7 Examples.someText 300999 s1
    = sendResponse 7 (Success Examples.safe) s1 /\
  sent (handleAnalysis text 8 Examples.someText 301000 s1)
    = [{| endpoint := "/analyze/text"; body := Examples.someText |}].
Proof.
  cbv zeta.
  assert (H1 : 300999 - 1000 < CONFIG.CACHE_DURATION) by (vm_compute; reflexivity).
  assert (H2 : CONFIG.CACHE_DURATION <= 301000 - 1000) by (vm_compute; discriminate).
  split; [exact H1|]. split; [exact H2|]. split.
  - apply (proj1 (proj2 (proj2
             (CacheFacts.cached_result_valid_for_cache_duration
                initial text Examples.someText Examples.safe 1000 300999 7))) H1).
  - apply (proj2 (proj2 (proj2
             (CacheFacts.cached_result_valid_for_cache_duration
                initial text Examples.someText Examples.safe 1000 301000 8))) H2).
Defined.

(** Confidence 0.7 without a severe label is in the middle band. *)
Lemma blocking_method_witness :
  (0.6 <? 0.7)%float = true /\ (0.8 <? 0.7)%float = false /\
  ~ In "severe_toxic" (DOMManipulator.categoriesOf (DOMManipulator.verdict 0.7 ["nsfw"])) /\
  DOMManipulator.getBlockingMethod image (DOMManipulator.verdict 0.7 ["nsfw"])
  = DOMManipulator.blur.
Proof.
  assert (H : ~ In "severe_toxic"
                (DOMManipulator.categoriesOf (DOMManipulator.verdict 0.7 ["nsfw"])))
    by (simpl; intros [H|[]]; discriminate).
  split; [reflexivity|]. split; [reflexivity|]. split; [exact H|].
  apply (proj1 (proj2 (proj2
           (MethodFacts.getBlockingMethod_rule image
              (DOMManipulator.verdict 0.7 ["nsfw"])))) eq_refl eq_refl H).
Defined.



(** Over the sample session the paragraph and the image are queued,
    once each, though the page is scanned three times and the paragraph
    is replaced and revealed in between. *)
Lemma session_queues_paragraph_and_image :
  map i_element
      (pushed (Pipeline.tab (Pipeline.run (Pipeline.start Examples.samplePage "example.com")
                                          Examples.session)))
  = [2%nat; 5%nat].
Proof. vm_compute. reflexivity. Qed.

(** The sample page, scanned twice, and the sample session on it. *)
Lemma scan_twice_witness :
  scanQueue Examples.plainTab = [] /\
  ContentScanner.scanExistingContent 6000
    (ContentScanner.scanExistingContent 1000 Examples.plainTab)
  = ContentScanner.scanExistingContent 1000 Examples.plainTab /\
  Dom.wellFormed Examples.samplePage = true /\
  NoDup (map i_element
             (pushed (Pipeline.tab
                        (Pipeline.run (Pipeline.start Examples.samplePage "example.com")
                                      Examples.session)))).
Proof.
  pose proof (DiscoveryFacts.each_node_is_queued_at_most_once
                Examples.plainTab 1000 6000 eq_refl) as K.
  cbv zeta in K. destruct K as (_ & _ & _ & K1 & K2 & _).
  split; [reflexivity|]. split; [exact K1|]. split; [reflexivity|].
  apply (K2 Examples.samplePage "example.com" Examples.session eq_refl).
Defined.

(** The request for the sample page's paragraph fails with status 503:
    the worker answers with a failure and the tab blocks nothing. *)
Lemma gateway_failure_witness :
  let s := Examples.underWay in
  let o := HttpResponse 503 None in
  let s2 := Pipeline.run s [Pipeline.FetchSettled 0 o 1500 None; Pipeline.Answer 0] in
  makeApiRequest o = inr "API request failed: 503" /\
  findSuspended 0 (suspended (Pipeline.worker s))
    = Some {| s_id := 0; s_type := text;
              s_key := cacheKey text {| payload := "Hello wonderful world";
                                        threshold := 0.6%float;
                                        ageGroup := "moderate" |} |} /\
  ContentScanner.findAwaiting 0 (Pipeline.tab s)
    = Some (AwaitResponse {| i_type := text; i_element := 2;
                             i_content := "Hello wonderful world";
                             i_timestamp := 1000 |}) /\
  Js.get Nat.eqb 0%nat (responses (Pipeline.worker s)) = None /\
  blockedElements (Pipeline.tab s2) = blockedElements (Pipeline.tab s).
Proof.
  cbv zeta. split; [reflexivity|]. split; [reflexivity|]. split; [reflexivity|].
  split; [reflexivity|].
  pose proof (FailureFacts.gateway_failure_blocks_nothing
                Examples.underWay 0%nat _ _ (HttpResponse 503 None) _ 1500 None
                (eq_refl : makeApiRequest (HttpResponse 503 None)
                           = inr "API request failed: 503")
                (eq_refl : findSuspended 0 (suspended (Pipeline.worker Examples.underWay))
                           = Some _)
                (eq_refl : ContentScanner.findAwaiting 0 (Pipeline.tab Examples.underWay)
                           = Some (AwaitResponse _))
                eq_refl) as K.
  cbv zeta in K.
  destruct K as (_ & _ & _ & _ & _ & _ & _ & _ & _ & K & _).
  exact K.
Defined.

(** A second verdict for a paragraph that is already blocked. *)
Lemma already_blocked_witness :
  let t := DOMManipulator.handleUnsafeContent Examples.hatefulParagraph
             Examples.plainTab in
  Js.setHas (d_element Examples.hatefulParagraph) (blockedElements t) = true /\
  DOMManipulator.handleUnsafeContent Examples.hatefulParagraph t = t.
Proof.
  cbv zeta. split; [reflexivity|].
  apply (proj1 (proj2
           (BlockedFacts.already_blocked_element_is_skipped
              Examples.samplePage "example.com" [] Examples.hatefulParagraph
              (DOMManipulator.handleUnsafeContent Examples.hatefulParagraph
                 Examples.plainTab)) eq_refl)).
Defined.


End Witnesses.

(** ** The hash behind the cache keys *)

Module HashFacts.
Import ServiceWorker Worker.

Lemma toInt32_plus : forall x k, Js.toInt32 (x + k * 2 ^ 32) = Js.toInt32 x.
Proof.
  intros x k. unfold Js.toInt32.
  replace (x + k * 2 ^ 32 + 2 ^ 31) with (x + 2 ^ 31 + k * 2 ^ 32) by ring.
  rewrite Z_mod_plus_full. reflexivity.
Qed.

Lemma toInt32_wraps : forall x, exists k, Js.toInt32 x = x + k * 2 ^ 32.
Proof.
  intros x. unfold Js.toInt32. exists (- ((x + 2 ^ 31) / 2 ^ 32)).
  pose proof (Z.div_mod (x + 2 ^ 31) (2 ^ 32)) as H.
  assert (N : 2 ^ 32 <> 0) by (intro E; discriminate E).
  specialize (H N). lia.
Qed.

Lemma toInt32_range : forall x, - 2 ^ 31 <= Js.toInt32 x < 2 ^ 31.
Proof.
  intros x. unfold Js.toInt32.
  assert (0 <= (x + 2 ^ 31) mod 2 ^ 32 < 2 ^ 32)
    by (apply Z.mod_pos_bound; reflexivity).
  assert (E : 2 ^ 32 = 2 * 2 ^ 31) by reflexivity. lia.
Qed.

Lemma toInt32_small : forall x, - 2 ^ 31 <= x < 2 ^ 31 -> Js.toInt32 x = x.
Proof.
  intros x H. unfold Js.toInt32.
  assert (E : 2 ^ 32 = 2 * 2 ^ 31) by reflexivity.
  rewrite Z.mod_small by lia. lia.
Qed.

Lemma hashLoop_polynomial : forall str a,
    hashLoop (Js.toInt32 a) str = Js.toInt32 (polynomial a str).
Proof.
  induction str as [|c rest IH]; intros a; [reflexivity|].
  cbn [hashLoop polynomial]. cbv zeta. rewrite <- IH. f_equal.
  destruct (toInt32_wraps a) as [k1 E1].
  destruct (toInt32_wraps (Js.toInt32 a * 32)) as [k2 E2].
  rewrite E2, E1.
  replace ((a + k1 * 2 ^ 32) * 32 + k2 * 2 ^ 32 - (a + k1 * 2 ^ 32) + Js.charCode c)
    with (31 * a + Js.charCode c + (31 * k1 + k2) * 2 ^ 32) by ring.
  apply toInt32_plus.
Qed.

(** X1.  [hashString] is the polynomial hash with multiplier 31 over
    the code units of the string, reduced to a signed 32-bit integer and
    printed in decimal: the truncation after every character gives the
    same number as one truncation at the end.  The number is always in
    the signed 32-bit range, the empty string hashes to "0", and
    appending a character [c] to a string takes the hash [h] to the
    truncation of [31 * h + c]. *)
Theorem hashString_is_polynomial_hash :
  forall str : string,
    hashString str = Js.intToString (Js.toInt32 (polynomial 0 str)) /\
    - 2 ^ 31 <= hashLoop 0 str < 2 ^ 31 /\
    hashString "" = "0" /\
    (forall c, hashLoop 0 (str ++ String c "")
               = Js.toInt32 (31 * hashLoop 0 str + Js.charCode c)).
Proof.
  intros str.
  assert (H0 : forall s, hashLoop 0 s = Js.toInt32 (polynomial 0 s))
    by (intros s; apply (hashLoop_polynomial s 0)).
  split; [unfold hashString; rewrite H0; reflexivity|].
  split; [rewrite H0; apply toInt32_range|].
  split; [reflexivity|].
  intros c. rewrite !H0.
  assert (P : forall s a, polynomial a (s ++ String c "")
                          = 31 * polynomial a s + Js.charCode c).
  { induction s as [|c' s IH]; intros a; [reflexivity|]. simpl. apply IH. }
  rewrite P. destruct (toInt32_wraps (polynomial 0 str)) as [k E]. rewrite E.
  replace (31 * (polynomial 0 str + k * 2 ^ 32) + Js.charCode c)
    with (31 * polynomial 0 str + Js.charCode c + (31 * k) * 2 ^ 32) by ring.
  symmetry. apply toInt32_plus.
Qed.

End HashFacts.

(** ** Messages, answers and the cache *)

Module AnswerFacts.
Import ServiceWorker Worker CacheFacts.

Lemma In_set : forall (k k0 : CacheKey) (v v0 : CacheEntry) (m : Cache),
    In (k, v) (Js.set CacheKey_eqb k0 v0 m) ->
    (k = k0 /\ v = v0) \/ In (k, v) m.
Proof.
  intros k k0 v v0 m. induction m as [|[k1 v1] rest IH]; simpl; intros H.
  - destruct H as [H|[]]. inversion H. left. split; reflexivity.
  - destruct (CacheKey_eqb k0 k1) eqn:E.
    + apply CacheKey_eqb_spec in E. subst k1. destruct H as [H|H].
      * inversion H. left. split; reflexivity.
      * right. right. exact H.
    + destruct H as [H|H]; [right; left; exact H|].
      destruct (IH H) as [K|K]; [left; exact K | right; right; exact K].
Qed.

Lemma In_delete : forall (k0 : CacheKey) (x : CacheKey * CacheEntry) (m : Cache),
    In x (Js.delete CacheKey_eqb k0 m) -> In x m.
Proof. intros k0 x m H. unfold Js.delete in H. apply filter_In in H. apply H. Qed.

Lemma In_setCache : forall k e key d now (c : Cache),
    In (k, e) (setCache key d now c) ->
    (k = key /\ e = {| data := d; timestamp := now |}) \/ In (k, e) c.
Proof.
  intros k e key d now c H. unfold setCache in H. apply In_set in H.
  destruct H as [H|H]; [left; exact H|]. right.
  destruct (Js.size c >=? CONFIG.MAX_CACHE_SIZE); [|exact H].
  unfold Js.deleteFirst in H. destruct (Js.firstKey c); [|exact H].
  apply (In_delete _ _ _ H).
Qed.

Lemma In_getFromCache : forall x key now (c : Cache),
    In x (snd (getFromCache key now c)) -> In x c.
Proof.
  intros x key now c. unfold getFromCache.
  destruct (Js.get CacheKey_eqb key c) as [e|]; simpl.
  - destruct (now - timestamp e <? CONFIG.CACHE_DURATION); simpl;
      [auto | apply In_delete].
  - apply In_delete.
Qed.

(** What [handleAnalysis] does, whichever way the lookup goes. *)
Lemma handleAnalysis_cases : forall type id d now s,
    let s' := handleAnalysis type id d now s in
    analysisCache s' = snd (getFromCache (cacheKey type d) now (analysisCache s)) /\
    ((exists r, fst (getFromCache (cacheKey type d) now (analysisCache s)) = Some r /\
                responses s' = responses s ++ [(id, Success r)] /\
                suspended s' = suspended s /\ sent s' = sent s)
     \/
     (fst (getFromCache (cacheKey type d) now (analysisCache s)) = None /\
      responses s' = responses s /\
      suspended s' = suspended s
                     ++ [{| s_id := id; s_type := type; s_key := cacheKey type d |}] /\
      sent s' = sent s ++ [{| endpoint := endpointOf type; body := d |}])).
Proof.
  intros type id d now s. unfold handleAnalysis. cbv zeta.
  destruct (getFromCache (cacheKey type d) now (analysisCache s)) as [[r|] c]; simpl.
  - split; [reflexivity|]. left. exists r. repeat split.
  - split; [reflexivity|]. right. repeat split.
Qed.

(** What [resumeAnalysis] does when a handler waits for the request. *)
Lemma resumeAnalysis_cases : forall id o now err s p,
    findSuspended id (suspended s) = Some p ->
    let s' := resumeAnalysis id o now err s in
    suspended s' = dropSuspended id (suspended s) /\
    sent s' = sent s /\
    (exists r, responses s' = responses s ++ [(id, r)]) /\
    ((exists msg, makeApiRequest o = inr msg /\ analysisCache s' = analysisCache s)
     \/
     (exists result, makeApiRequest o = inl result /\
                     analysisCache s'
                     = setCache (s_key p) result now (analysisCache s))).
Proof.
  intros id o now err s p F. unfold resumeAnalysis. rewrite F. cbv zeta.
  destruct (makeApiRequest o) as [result|msg].
  - destruct err as [msg|]; simpl.
    + repeat split; [eexists; reflexivity|]. right. exists result. split; reflexivity.
    + repeat split; [eexists; reflexivity|]. right. exists result. split; reflexivity.
  - simpl. repeat split; [eexists; reflexivity|]. left. exists msg. split; reflexivity.
Qed.

Lemma makeApiRequest_inl : forall o result,
    makeApiRequest o = inl result ->
    exists status, o = HttpResponse status (Some result) /\ response_ok status = true.
Proof.
  intros [msg|status [r|]] result H; simpl in H; try discriminate.
  - destruct (response_ok status) eqn:E; [|discriminate].
    inversion H. subst. exists status. split; [reflexivity | exact E].
  - destruct (response_ok status); discriminate.
Qed.

Lemma run_snoc : forall es e s, run s (es ++ [e]) = step (run s es) e.
Proof. intros es e s. unfold run. rewrite fold_left_app. reflexivity. Qed.

Lemma findSuspended_In : forall id l p,
    findSuspended id l = Some p -> In p l /\ s_id p = id.
Proof.
  intros id l p H. unfold findSuspended in H. apply find_some in H.
  destruct H as [H1 H2]. split; [exact H1 | apply Nat.eqb_eq; exact H2].
Qed.

Lemma In_dropSuspended : forall id l p, In p (dropSuspended id l) -> In p l.
Proof. intros id l p H. unfold dropSuspended in H. apply filter_In in H. apply H. Qed.

(** X4.  Whatever the worker has received, every entry of the analysis
    cache is the body of a Gateway response with a success status,
    stored with the time at which that response arrived, under the cache
    key of a message the worker received and whose request that response
    settled.  The cache holds nothing else: no failure, no verdict made
    up by the worker.  Likewise every handler that waits for the Gateway
    belongs to a message the worker received, with that message's key. *)
Theorem cached_verdicts_come_from_the_gateway :
  forall es : list Event,
    let s := run initial es in
    (forall k e, In (k, e) (analysisCache s) ->
                 exists id m t0 status t1 err,
                   In (onMessage id m t0) es /\ keyOf m = k /\
                   In (fetchSettled id (HttpResponse status (Some (data e))) t1 err) es /\
                   response_ok status = true /\ timestamp e = t1) /\
    (forall p, In p (suspended s) ->
               exists m t0, In (onMessage (s_id p) m t0) es /\ keyOf m = s_key p).
Proof.
  induction es as [|ev es IH] using rev_ind; cbv zeta.
  - split; [intros k e [] | intros p []].
  - rewrite run_snoc. destruct IH as [IHc IHs].
    assert (Mc : forall k e, In (k, e) (analysisCache (run initial es)) ->
                 exists id m t0 status t1 err,
                   In (onMessage id m t0) (es ++ [ev]) /\ keyOf m = k /\
                   In (fetchSettled id (HttpResponse status (Some (data e))) t1 err)
                      (es ++ [ev]) /\
                   response_ok status = true /\ timestamp e = t1).
    { intros k e H. destruct (IHc k e H) as (id & m & t0 & st & t1 & err & A & B & C & D).
      exists id, m, t0, st, t1, err. repeat split; try apply in_or_app; tauto. }
    assert (Ms : forall p, In p (suspended (run initial es)) ->
                 exists m t0, In (onMessage (s_id p) m t0) (es ++ [ev]) /\
                              keyOf m = s_key p).
    { intros p H. destruct (IHs p H) as (m & t0 & A & B).
      exists m, t0. split; [apply in_or_app; left; exact A | exact B]. }
    set (s := run initial es) in *.
    destruct ev as [id m now | id o now err].
    + assert (E : exists type d, m = messageOf type d /\ keyOf m = cacheKey type d).
      { destruct m as [d|d]; [exists text, d | exists image, d]; split; reflexivity. }
      destruct E as (type & d & -> & Hk). rewrite step_message.
      destruct (handleAnalysis_cases type id d now s) as (Hc & Hr).
      split.
      * intros k e H. rewrite Hc in H. apply In_getFromCache in H. apply Mc. exact H.
      * intros p H.
        destruct Hr as [(r & _ & _ & Hs & _)|(_ & _ & Hs & _)]; rewrite Hs in H.
        -- apply Ms. exact H.
        -- apply in_app_or in H. destruct H as [H|[H|[]]]; [apply Ms; exact H|].
           subst p. cbn [s_id s_key]. exists (messageOf type d), now.
           split; [apply in_or_app; right; left; reflexivity | exact Hk].
    + change (step s (fetchSettled id o now err)) with (resumeAnalysis id o now err s).
      destruct (findSuspended id (suspended s)) as [p|] eqn:F.
      * destruct (resumeAnalysis_cases id o now err s p F) as (Hs & _ & _ & Hc).
        destruct (findSuspended_In _ _ _ F) as [Hp Hid].
        split.
        -- intros k e H. destruct Hc as [(msg & _ & Hc)|(result & Hm & Hc)];
             rewrite Hc in H; [apply Mc; exact H|].
           apply In_setCache in H. destruct H as [[-> ->]|H]; [|apply Mc; exact H].
           destruct (makeApiRequest_inl _ _ Hm) as (status & -> & Hok).
           destruct (Ms p Hp) as (m & t0 & A & B). rewrite Hid in A.
           exists id, m, t0, status, now, err. cbn [data timestamp].
           repeat split; try assumption.
           apply in_or_app. right. left. reflexivity.
        -- intros q H. rewrite Hs in H. apply In_dropSuspended in H. apply Ms. exact H.
      * unfold resumeAnalysis. rewrite F. split; [exact Mc | exact Ms].
Qed.

Lemma inFlight_drop : forall id l,
    map s_id (dropSuspended id l) = filter (fun x => negb (Nat.eqb x id)) (map s_id l).
Proof.
  intros id l. unfold dropSuspended. induction l as [|p l IH]; [reflexivity|].
  simpl. destruct (negb (Nat.eqb (s_id p) id)); simpl; rewrite IH; reflexivity.
Qed.

Lemma NoDup_snoc : forall (l : list nat) x, NoDup l -> ~ In x l -> NoDup (l ++ [x]).
Proof.
  intros l x Hl Hx. apply NoDup_app; [exact Hl | repeat constructor; intros [] |].
  intros a Ha [Hb|[]]. subst a. contradiction.
Qed.

Lemma NoDup_parts : forall (a b : list nat),
    NoDup (a ++ b) <-> NoDup a /\ NoDup b /\ (forall x, In x a -> ~ In x b).
Proof.
  intros a b. split.
  - intros H. split; [apply (NoDup_app_remove_r _ _ H)|].
    split; [apply (NoDup_app_remove_l _ _ H)|].
    induction a as [|y a IH]; [intros x []|].
    simpl in H. inversion H as [|? ? Hy Hr]; subst.
    intros x [->|Hx]; [intro Hb; apply Hy; apply in_or_app; right; exact Hb|].
    apply IH; assumption.
  - intros (Ha & Hb & Hd). apply NoDup_app; assumption.
Qed.

(** X3.  When the messages the worker receives carry distinct numbers,
    then after any sequence of messages and settled requests every
    message received is accounted for exactly once: it has either been
    answered, once, or its Gateway request is still in flight, never
    both; and nothing is answered or in flight that was not received. *)
Theorem every_message_is_answered_at_most_once :
  forall es : list Event,
    NoDup (messageIds es) ->
    let s := run initial es in
    NoDup (answered s ++ inFlight s) /\
    (forall id, In id (messageIds es) <-> In id (answered s ++ inFlight s)).
Proof.
  induction es as [|ev es IH] using rev_ind; cbv zeta; intros Hnd.
  - split; [constructor | intros id; split; intros []].
  - rewrite run_snoc. unfold messageIds in Hnd. rewrite flat_map_app in Hnd.
    fold (messageIds es) in Hnd. simpl in Hnd.
    assert (Hes : NoDup (messageIds es)) by (apply (NoDup_app_remove_r _ _ Hnd)).
    destruct (IH Hes) as [N M]. set (s := run initial es) in *.
    apply NoDup_parts in N. destruct N as (Na & Nf & Nd).
    assert (Eids : messageIds (es ++ [ev])
                   = messageIds es ++ match ev with
                                      | onMessage id _ _ => [id]
                                      | fetchSettled _ _ _ _ => []
                                      end).
    { unfold messageIds. rewrite flat_map_app. simpl. rewrite app_nil_r. reflexivity. }
    rewrite Eids. destruct ev as [id m now | id o now err].
    + rewrite app_nil_r in Hnd.
      assert (Hfresh : ~ In id (answered s ++ inFlight s)).
      { intro H. apply M in H. apply NoDup_parts in Hnd.
        destruct Hnd as (_ & _ & D). apply (D id H). left. reflexivity. }
      assert (E : exists type d, m = messageOf type d)
        by (destruct m as [d|d]; [exists text, d | exists image, d]; reflexivity).
      destruct E as (type & d & ->). rewrite step_message.
      destruct (handleAnalysis_cases type id d now s) as (_ & Hr).
      unfold answered, inFlight in *.
      destruct Hr as [(r & _ & Hresp & Hs & _)|(_ & Hresp & Hs & _)];
        rewrite Hresp, Hs; rewrite ?map_app; cbn [map fst s_id].
      * split.
        -- apply NoDup_parts. split; [|split; [exact Nf|]].
           ++ apply NoDup_snoc; [exact Na|]. intro H. apply Hfresh.
              apply in_or_app. left. exact H.
           ++ intros x Hx Hin. apply in_app_or in Hx. destruct Hx as [Hx|[Hx|[]]].
              ** apply (Nd x Hx Hin).
              ** subst x. apply Hfresh. apply in_or_app. right. exact Hin.
        -- intros x. rewrite !in_app_iff. rewrite M, in_app_iff. simpl. tauto.
      * split.
        -- apply NoDup_parts. split; [exact Na|]. split.
           ++ apply NoDup_snoc; [exact Nf|]. intro H. apply Hfresh.
              apply in_or_app. right. exact H.
           ++ intros x Hx Hin. apply in_app_or in Hin. destruct Hin as [Hin|[Hin|[]]].
              ** apply (Nd x Hx Hin).
              ** subst x. apply Hfresh. apply in_or_app. left. exact Hx.
        -- intros x. rewrite !in_app_iff. rewrite M, in_app_iff. simpl. tauto.
    + rewrite app_nil_r.
      change (step s (fetchSettled id o now err)) with (resumeAnalysis id o now err s).
      destruct (findSuspended id (suspended s)) as [p|] eqn:F.
      * destruct (resumeAnalysis_cases id o now err s p F) as (Hs & _ & (r & Hresp) & _).
        destruct (findSuspended_In _ _ _ F) as [Hp Hid].
        assert (Hin : In id (inFlight s))
          by (unfold inFlight; rewrite <- Hid; apply in_map; exact Hp).
        unfold answered, inFlight in *. rewrite Hresp, Hs, inFlight_drop, map_app.
        cbn [map fst]. split.
        -- apply NoDup_parts. split; [|split].
           ++ apply NoDup_snoc; [exact Na|]. intro H. apply (Nd id H Hin).
           ++ apply NoDup_filter. exact Nf.
           ++ intros x Hx Hf. apply filter_In in Hf. destruct Hf as [Hf Hne].
              apply in_app_or in Hx. destruct Hx as [Hx|[Hx|[]]].
              ** apply (Nd x Hx Hf).
              ** subst x. rewrite Nat.eqb_refl in Hne. discriminate.
        -- intros x. rewrite M, !in_app_iff, filter_In. simpl.
           destruct (Nat.eqb x id) eqn:Q.
           ++ apply Nat.eqb_eq in Q. subst x. simpl. split; [intros _; tauto|].
              intros _. right. exact Hin.
           ++ apply Nat.eqb_neq in Q. simpl. split.
              ** intros [H|H]; [tauto|]. right. split; [exact H | reflexivity].
              ** intros [[H|[H|[]]]|[H _]]; [tauto | congruence | tauto].
      * unfold resumeAnalysis. rewrite F. split; [|exact M].
        apply NoDup_parts. repeat split; assumption.
Qed.

(** X2.  The cache key holds the 32-bit hash of the text, not the text.
    Take two analysis messages of one content type whose payloads have
    the same hash and whose threshold and age group agree.  Once the
    Gateway has answered the first with a success status, the second,
    arriving within CACHE_DURATION of that answer, is answered from the
    cache with the verdict of the first, and no Gateway request is sent
    for it, also when the two payloads differ. *)
Theorem equal_hashes_share_a_cache_entry :
  forall (type : ContentType) (d d' : AnalyzeData) (r : AnalysisResult)
         (t0 t1 now status : Z),
    hashString (payload d) = hashString (payload d') ->
    Js.printed (threshold d) = Js.printed (threshold d') ->
    ageGroup d = ageGroup d' ->
    response_ok status = true ->
    now - t1 < CONFIG.CACHE_DURATION ->
    let s := run initial [ onMessage 0 (messageOf type d) t0;
                           fetchSettled 0 (HttpResponse status (Some r)) t1 None;
                           onMessage 1 (messageOf type d') now ] in
    responses s = [(0%nat, Success r); (1%nat, Success r)] /\
    sent s = [{| endpoint := endpointOf type; body := d |}].
Proof.
  intros type d d' r t0 t1 now status Hh Ht Ha Hok Hnow.
  assert (K : cacheKey type d' = cacheKey type d)
    by (unfold cacheKey; rewrite Hh, Ht, Ha; reflexivity).
  cbv zeta. unfold run. cbn [fold_left]. rewrite !step_message.
  set (s1 := handleAnalysis type 0 d t0 initial).
  assert (E1 : s1 = {| analysisCache := []; pendingRequests := [];
                       suspended := [{| s_id := 0; s_type := type;
                                        s_key := cacheKey type d |}];
                       sent := [{| endpoint := endpointOf type; body := d |}];
                       responses := []; stats := [] |}) by reflexivity.
  change (step s1 (fetchSettled 0 (HttpResponse status (Some r)) t1 None))
    with (resumeAnalysis 0 (HttpResponse status (Some r)) t1 None s1).
  set (s2 := resumeAnalysis 0 (HttpResponse status (Some r)) t1 None s1).
  assert (E2 : analysisCache s2 = [(cacheKey type d, {| data := r; timestamp := t1 |})]
               /\ responses s2 = [(0%nat, Success r)]
               /\ sent s2 = [{| endpoint := endpointOf type; body := d |}]).
  { unfold s2. rewrite E1. unfold resumeAnalysis. cbn [suspended findSuspended find s_id].
    cbn [Nat.eqb]. unfold makeApiRequest. rewrite Hok. cbv zeta.
    destruct (is_safe r); repeat split. }
  destruct E2 as (C2 & R2 & S2).
  destruct (handleAnalysis_cases type 1 d' now s2) as (_ & Hr).
  assert (G : fst (getFromCache (cacheKey type d') now (analysisCache s2)) = Some r).
  { apply getFromCache_hit. exists {| data := r; timestamp := t1 |}.
    rewrite C2, K. simpl. rewrite (keq_refl _ _ CacheKey_eqb_spec).
    repeat split. exact Hnow. }
  destruct Hr as [(r' & G' & Hresp & _ & Hsent)|(G' & _)]; [|congruence].
  rewrite G in G'. inversion G'. subst r'.
  rewrite Hresp, Hsent, R2, S2. split; reflexivity.
Qed.

End AnswerFacts.

(** ** The default settings *)

Module InstallFacts.
Import Storage Install.

Lemma get_app : forall (V : Type) k (l1 l2 : list (string * V)),
    Js.get String.eqb k (l1 ++ l2)
    = match Js.get String.eqb k l1 with
      | Some v => Some v
      | None => Js.get String.eqb k l2
      end.
Proof.
  intros V k l1 l2. induction l1 as [|[k0 v0] l1 IH]; simpl; [reflexivity|].
  destruct (String.eqb k k0); [reflexivity | exact IH].
Qed.

(** Reading the answer of [get]. *)
Lemma get_of_get : forall (V : Type) k keys (a : list (string * V)),
    Js.get String.eqb k (Storage.get keys a)
    = if existsb (String.eqb k) keys then Js.get String.eqb k a else None.
Proof.
  intros V k keys a. unfold Storage.get.
  induction keys as [|k0 keys IH]; simpl; [reflexivity|].
  rewrite get_app, IH. destruct (String.eqb k k0) eqn:E.
  - apply String.eqb_eq in E. subst k0. simpl.
    destruct (Js.get String.eqb k a) as [v|] eqn:G; simpl.
    + rewrite String.eqb_refl. reflexivity.
    + destruct (existsb (String.eqb k) keys); reflexivity.
  - simpl. destruct (Js.get String.eqb k0 a) as [v|]; simpl; [rewrite E|]; reflexivity.
Qed.

(** Reading the area after [set]. *)
Lemma get_set_absent : forall k items (a : Area),
    ~ In k (map fst items) ->
    Js.get String.eqb k (Storage.set items a) = Js.get String.eqb k a.
Proof.
  intros k items. unfold Storage.set.
  induction items as [|[k0 v0] items IH]; intros a H; simpl; [reflexivity|].
  rewrite IH by (intro K; apply H; right; exact K). simpl.
  apply (get_set_other _ _ _ String.eqb_eq). intro E. apply H. left. exact E.
Qed.

Lemma get_set_present : forall k v items (a : Area),
    NoDup (map fst items) -> In (k, v) items ->
    Js.get String.eqb k (Storage.set items a) = Some v.
Proof.
  intros k v items. unfold Storage.set.
  induction items as [|[k0 v0] items IH]; intros a Hnd H; [destruct H|].
  simpl in Hnd. inversion Hnd as [|? ? Hk0 Hrest]; subst. simpl.
  destruct H as [H|H].
  - inversion H. subst k0 v0.
    change (fold_left (fun acc kv => Js.set String.eqb (fst kv) (snd kv) acc) items
                      (Js.set String.eqb k v a))
      with (Storage.set items (Js.set String.eqb k v a)).
    rewrite get_set_absent by exact Hk0.
    apply (get_set_same _ _ _ String.eqb_eq).
  - apply IH; assumption.
Qed.

Lemma NoDup_map_filter : forall (f : string * Value -> bool) (l : Area),
    NoDup (map fst l) -> NoDup (map fst (filter f l)).
Proof.
  intros f l. induction l as [|x l IH]; simpl; intros H; [constructor|].
  inversion H as [|? ? Hx Hl]; subst.
  destruct (f x); simpl; [|apply IH; exact Hl].
  constructor; [|apply IH; exact Hl].
  intro K. apply Hx. apply in_map_iff in K. destruct K as [y [E Hy]].
  apply filter_In in Hy. apply in_map_iff. exists y. split; [exact E | apply Hy].
Qed.

Lemma defaults_distinct : NoDup (map fst defaults).
Proof.
  simpl. repeat constructor; simpl; intros H;
    repeat (destruct H as [H|H]; [discriminate|]); exact H.
Qed.

Lemma has_get : forall k (a : Area),
    Js.has String.eqb k a = true <-> Js.get String.eqb k a <> None.
Proof.
  intros k a. unfold Js.has. destruct (Js.get String.eqb k a).
  - split; [discriminate | reflexivity].
  - split; [discriminate | congruence].
Qed.

Lemma existsb_key : forall k (l : Area),
    existsb (String.eqb k) (map fst l) = true <-> In k (map fst l).
Proof.
  intros k l. rewrite existsb_exists. split.
  - intros [x [Hx E]]. apply String.eqb_eq in E. subst x. exact Hx.
  - intros H. exists k. split; [exact H | apply String.eqb_refl].
Qed.

(** What [toSet] holds, in terms of the area that was read. *)
Lemma In_toSet : forall k v (atRead : Area),
    In (k, v) (toSet (Storage.get (map fst defaults) atRead)) <->
    In (k, v) defaults /\ Js.has String.eqb k atRead = false.
Proof.
  intros k v atRead. unfold toSet. rewrite filter_In. cbn [fst].
  split; intros [H1 H2]; (split; [exact H1|]).
  - apply negb_true_iff in H2. unfold Js.has in *. rewrite get_of_get in H2.
    assert (E : existsb (String.eqb k) (map fst defaults) = true).
    { apply existsb_key. apply in_map_iff. exists (k, v). split; [reflexivity | exact H1]. }
    rewrite E in H2. exact H2.
  - apply negb_true_iff. unfold Js.has in *. rewrite get_of_get.
    destruct (existsb (String.eqb k) (map fst defaults)); [exact H2 | reflexivity].
Qed.

Lemma get_writeMissing_absent : forall k missing (sync : Area),
    ~ In k (map fst missing) ->
    Js.get String.eqb k (writeMissing missing sync) = Js.get String.eqb k sync.
Proof.
  intros k [|x missing] sync H; [reflexivity|].
  apply (get_set_absent k (x :: missing) sync H).
Qed.

Lemma get_writeMissing_present : forall k v missing (sync : Area),
    NoDup (map fst missing) -> In (k, v) missing ->
    Js.get String.eqb k (writeMissing missing sync) = Some v.
Proof.
  intros k v [|x missing] sync Hnd H; [destruct H|].
  apply (get_set_present k v (x :: missing) sync Hnd H).
Qed.

Lemma filter_none : forall (A : Type) (f : A -> bool) (l : list A),
    (forall x, In x l -> f x = false) -> filter f l = [].
Proof.
  intros A f l. induction l as [|x l IH]; intros H; [reflexivity|].
  simpl. rewrite (H x (or_introl eq_refl)). apply IH.
  intros y Hy. apply H. right. exact Hy.
Qed.

Lemma get_all_present : forall keys (a : Area),
    (forall k, In k keys -> Js.has String.eqb k a = true) ->
    map fst (Storage.get keys a) = keys.
Proof.
  intros keys a. unfold Storage.get.
  induction keys as [|k keys IH]; intros H; [reflexivity|].
  simpl. rewrite map_app, IH by (intros k' Hk'; apply H; right; exact Hk').
  specialize (H k (or_introl eq_refl)). unfold Js.has in H.
  destruct (Js.get String.eqb k a); [reflexivity | discriminate].
Qed.

(** X5.  [setDefaultSettings] reads the five settings and then writes
    the defaults of those that were not there.  Whatever happens to the
    storage between its reading ([atRead]) and its writing ([atWrite]): a
    setting that was stored when it read is not written; no key other
    than the five is written; a default that was missing when it read is
    written with its default value (also over a value stored in
    between).  Run without interference it keeps every stored value, and
    afterwards all five settings are present, so [handleGetSettings]
    answers with all five (the allowlist among them); a second run
    writes nothing. *)
Theorem setDefaultSettings_fills_what_was_missing :
  forall atRead atWrite : Area,
    let after := writeMissing (toSet (Storage.get (map fst defaults) atRead)) atWrite in
    (forall k, Js.has String.eqb k atRead = true ->
               Js.get String.eqb k after = Js.get String.eqb k atWrite) /\
    (forall k, ~ In k (map fst defaults) ->
               Js.get String.eqb k after = Js.get String.eqb k atWrite) /\
    (forall k v, In (k, v) defaults -> Js.has String.eqb k atRead = false ->
                 Js.get String.eqb k after = Some v) /\
    (forall k v, Js.get String.eqb k atRead = Some v ->
                 Js.get String.eqb k (setDefaultSettings atRead) = Some v) /\
    map fst (handleGetSettings (setDefaultSettings atRead))
    = ["filteringLevel"; "ageGroup"; "enabledCategories"; "allowlist"; "parentalMode"] /\
    setDefaultSettings (setDefaultSettings atRead) = setDefaultSettings atRead.
Proof.
  intros atRead atWrite after.
  set (missing := toSet (Storage.get (map fst defaults) atRead)) in *.
  assert (Hnd : NoDup (map fst missing))
    by (apply NoDup_map_filter; apply defaults_distinct).
  assert (Hkeys : forall k, In k (map fst missing) ->
                            In k (map fst defaults) /\ Js.has String.eqb k atRead = false).
  { intros k H. apply in_map_iff in H. destruct H as [[k' v] [E H]]. simpl in E. subst k'.
    apply In_toSet in H. destruct H as [H1 H2]. split; [|exact H2].
    apply in_map_iff. exists (k, v). split; [reflexivity | exact H1]. }
  assert (A1 : forall sync k, Js.has String.eqb k atRead = true ->
                 Js.get String.eqb k (writeMissing missing sync)
                 = Js.get String.eqb k sync).
  { intros sync k H. apply get_writeMissing_absent. intro K.
    destruct (Hkeys k K) as [_ K2]. congruence. }
  assert (A3 : forall sync k v, In (k, v) defaults -> Js.has String.eqb k atRead = false ->
                 Js.get String.eqb k (writeMissing missing sync) = Some v).
  { intros sync k v H1 H2. apply get_writeMissing_present; [exact Hnd|].
    apply In_toSet. split; assumption. }
  assert (Hall : forall k, In k (map fst defaults) ->
                           Js.has String.eqb k (setDefaultSettings atRead) = true).
  { intros k H. apply has_get. unfold setDefaultSettings. fold missing.
    destruct (Js.has String.eqb k atRead) eqn:E.
    - rewrite A1 by exact E. apply has_get. exact E.
    - apply in_map_iff in H. destruct H as [[k' v] [E' H]]. simpl in E'. subst k'.
      rewrite (A3 atRead k v H E). discriminate. }
  split; [apply A1|]. split.
  - intros k H. apply get_writeMissing_absent. intro K. apply H. apply (Hkeys k K).
  - split; [apply A3|]. split; [|split].
    + intros k v H. unfold setDefaultSettings. fold missing.
      rewrite A1; [exact H|]. apply has_get. congruence.
    + unfold handleGetSettings. apply get_all_present. intros k Hk. apply Hall. exact Hk.
    + unfold setDefaultSettings at 1.
      replace (toSet (Storage.get (map fst defaults) (setDefaultSettings atRead)))
        with (@nil (string * Value)); [reflexivity|].
      symmetry. unfold toSet. apply filter_none. intros [k v] H. cbn [fst].
      apply negb_false_iff. apply has_get. rewrite get_of_get.
      assert (Hk : In k (map fst defaults))
        by (apply in_map_iff; exists (k, v); split; [reflexivity | exact H]).
      rewrite (proj2 (existsb_key k defaults) Hk). apply has_get. apply Hall. exact Hk.
Qed.

End InstallFacts.

(** ** The statistics *)

Module StatsFacts.
Import ServiceWorker Install.

Lemma get_updateStats : forall k name st,
    k <> "totalScanned" -> k <> name ->
    Js.get String.eqb k (updateStats name st) = Js.get String.eqb k st.
Proof.
  intros k name st H1 H2. unfold updateStats. cbv zeta.
  rewrite (get_set_other _ _ _ String.eqb_eq) by congruence.
  apply (get_set_other _ _ _ String.eqb_eq). congruence.
Qed.

Lemma stats_handleAnalysis : forall type id d now s,
    stats (handleAnalysis type id d now s) = stats s.
Proof.
  intros type id d now s. unfold handleAnalysis. cbv zeta.
  destruct (getFromCache _ _ _) as [[r|] c]; reflexivity.
Qed.

Lemma stats_step : forall s e k,
    k <> "totalScanned" -> k <> "text_analyzed" -> k <> "images_analyzed" ->
    k <> "content_blocked" ->
    Js.get String.eqb k (stats (step s e)) = Js.get String.eqb k (stats s).
Proof.
  intros s e k H1 H2 H3 H4. destruct e as [id m now | id o now err].
  - destruct m as [d|d]; cbn [step]; unfold handleTextAnalysis, handleImageAnalysis;
      rewrite stats_handleAnalysis; reflexivity.
  - cbn [step]. unfold resumeAnalysis.
    destruct (findSuspended id (suspended s)) as [p|]; [|reflexivity]. cbv zeta.
    destruct (makeApiRequest o) as [result|msg]; [|reflexivity].
    destruct err as [msg|]; [reflexivity|].
    cbn [stats sendResponse withCache].
    assert (N : k <> statNameOf (s_type p)) by (destruct (s_type p); assumption).
    destruct (is_safe result).
    + apply get_updateStats; assumption.
    + rewrite get_updateStats by assumption. apply get_updateStats; assumption.
Qed.

(** X6.  The worker counts under the keys 'text_analyzed',
    'images_analyzed', 'content_blocked' and 'totalScanned'; it never
    writes any other key of the local storage.  [handleGetStats] reads
    'totalScanned', 'contentBlocked', 'textAnalyzed', 'imagesAnalyzed'
    and 'lastReset'.  So, whatever the worker has analysed, the counters
    of blocked content, of texts and of images in its answer are what
    they were before; starting from an empty storage the answer holds
    'totalScanned' at most. *)
Theorem the_counters_read_are_not_the_counters_written :
  forall (es : list Event) (s0 : State),
    let s := run s0 es in
    (forall k, k <> "totalScanned" -> k <> "text_analyzed" ->
               k <> "images_analyzed" -> k <> "content_blocked" ->
               Js.get String.eqb k (stats s) = Js.get String.eqb k (stats s0)) /\
    (forall k, In k ["contentBlocked"; "textAnalyzed"; "imagesAnalyzed"; "lastReset"] ->
               Js.get String.eqb k (handleGetStats (stats s))
               = Js.get String.eqb k (handleGetStats (stats s0))) /\
    (stats s0 = [] ->
     handleGetStats (stats s)
     = match Js.get String.eqb "totalScanned" (stats s) with
       | Some n => [("totalScanned", n)]
       | None => []
       end).
Proof.
  intros es s0 s.
  assert (A : forall k, k <> "totalScanned" -> k <> "text_analyzed" ->
                        k <> "images_analyzed" -> k <> "content_blocked" ->
                        Js.get String.eqb k (stats s) = Js.get String.eqb k (stats s0)).
  { intros k H1 H2 H3 H4. unfold s, run. clear s. revert s0.
    induction es as [|e es IH]; intros s0; [reflexivity|].
    simpl. rewrite IH. apply stats_step; assumption. }
  assert (R : forall k, In k ["contentBlocked"; "textAnalyzed"; "imagesAnalyzed"; "lastReset"] ->
                        Js.get String.eqb k (stats s) = Js.get String.eqb k (stats s0)).
  { intros k H. apply A; intro E; subst k; simpl in H;
      repeat (destruct H as [H|H]; [discriminate H|]); exact H. }
  split; [exact A|]. split.
  - intros k H. unfold handleGetStats. rewrite !InstallFacts.get_of_get.
    destruct (existsb _ _); [apply R; exact H | reflexivity].
  - intros H0. unfold handleGetStats, Storage.get. cbn [flat_map].
    rewrite (R "contentBlocked"), (R "textAnalyzed"), (R "imagesAnalyzed"),
      (R "lastReset"), H0 by (simpl; tauto).
    cbn [Js.get]. rewrite !app_nil_r. reflexivity.
Qed.

End StatsFacts.

(** ** The allowlist toggle of the popup *)

Module PopupFacts.
Import Tabs PopupManager ContentScanner.

Lemma prefix_refl : forall s, String.prefix s s = true.
Proof.
  induction s as [|c s IH]; simpl; [reflexivity|].
  destruct (ascii_dec c c) as [_|N]; [exact IH | contradiction].
Qed.

Lemma includes_refl : forall s, Js.includes s s = true.
Proof. intros [|c s]; simpl; [reflexivity|]. rewrite prefix_refl. 
  destruct (ascii_dec c c) as [_|N]; [reflexivity | contradiction]. Qed.

Lemma includes_filter_out : forall host (al : list string),
    Js.arrayIncludes host (filter (fun site => negb (String.eqb site host)) al) = false.
Proof.
  intros host al. unfold Js.arrayIncludes. induction al as [|x al IH]; [reflexivity|].
  simpl. destruct (String.eqb x host) eqn:E; simpl; [exact IH|].
  rewrite String.eqb_sym, E. exact IH.
Qed.

Lemma filter_out_absent : forall host (al : list string),
    Js.arrayIncludes host al = false ->
    filter (fun site => negb (String.eqb site host)) al = al.
Proof.
  intros host al. unfold Js.arrayIncludes. induction al as [|x al IH]; [reflexivity|].
  simpl. intros H. apply orb_false_iff in H. destruct H as [H1 H2].
  rewrite String.eqb_sym, H1. simpl. rewrite IH by exact H2. reflexivity.
Qed.

(** X15.  [toggleSiteAllowlist] flips whether the tab's hostname is an
    entry of the allowlist and leaves every other entry as it is; with no
    allowlist in the settings it gives the one-entry list.  Toggling a
    hostname that was not listed and toggling again gives back the list.
    Once the hostname has been added, the scanner on a page of that
    hostname finds the page allowlisted, and [startScanning] queues
    nothing and leaves the page untouched. *)
Theorem toggleSiteAllowlist_flips_the_entry :
  forall (host : string) (al : list string),
    let al' := toggleSiteAllowlist host (Some al) in
    Js.arrayIncludes host al' = negb (Js.arrayIncludes host al) /\
    (forall site, site <> host -> (In site al' <-> In site al)) /\
    toggleSiteAllowlist host None = [host] /\
    (Js.arrayIncludes host al = false ->
     toggleSiteAllowlist host (Some al') = al /\
     forall (t : Tab) (s : Settings) (now : Z),
       hostname t = host -> settings t = Some s -> allowlist s = al' ->
       isScanning t = false ->
       isAllowlisted t = Some true /\
       pushed (startScanning now t) = pushed t /\
       outbox (startScanning now t) = outbox t /\
       page (startScanning now t) = page t).
Proof.
  intros host al al'. unfold al', toggleSiteAllowlist. cbv zeta.
  destruct (Js.arrayIncludes host al) eqn:E.
  - split; [apply includes_filter_out|]. split.
    + intros site Hne. rewrite filter_In. split; [tauto|]. intros H. split; [exact H|].
      apply negb_true_iff. apply String.eqb_neq. exact Hne.
    + split; [reflexivity | discriminate].
  - split.
    + unfold Js.arrayIncludes in *. rewrite existsb_app, E. simpl.
      rewrite String.eqb_refl. reflexivity.
    + split.
      * intros site Hne. rewrite in_app_iff. simpl. split; [|tauto].
        intros [H|[H|[]]]; [exact H | congruence].
      * split; [reflexivity|]. intros _. split.
        -- assert (I : Js.arrayIncludes host (al ++ [host]) = true).
           { unfold Js.arrayIncludes in *. rewrite existsb_app. simpl.
             rewrite String.eqb_refl. apply orb_true_r. }
           rewrite I. rewrite filter_app. simpl. rewrite String.eqb_refl. simpl.
           rewrite app_nil_r. apply filter_out_absent. exact E.
        -- intros t s now Hh Hs Ha Hi.
           assert (A : isAllowlisted (Tabs.setIsScanning true t) = Some true).
           { unfold isAllowlisted. cbn [settings hostname Tabs.setIsScanning].
             rewrite Hs, Ha, Hh. f_equal. rewrite existsb_app. simpl.
             rewrite includes_refl. simpl. apply orb_true_r. }
           split.
           ++ unfold isAllowlisted in *. exact A.
           ++ unfold startScanning. rewrite Hi, A. repeat split.
Qed.

(** X13.  [resumeScanning] sets [isScanning] and then calls
    [startScanning], which returns at once because [isScanning] is set.
    So resuming never scans: after a pause and a resume the tab is what
    it was, with [isScanning] set when filtering is enabled and cleared
    when it is not; nothing is queued or sent and no timer is added, also
    on a page that has not been scanned before. *)
Theorem resumeScanning_never_scans :
  forall (isEnabled : bool) (now : Z) (t : Tab),
    ContentScript.resumeScanning isEnabled now (ContentScript.pauseScanning t)
    = Tabs.setIsScanning isEnabled t /\
    let t' := ContentScript.resumeScanning isEnabled now t in
    page t' = page t /\ pushed t' = pushed t /\ outbox t' = outbox t /\
    intervals t' = intervals t /\ observing t' = observing t /\
    isScanning t' = (isEnabled || isScanning t)%bool.
Proof.
  intros isEnabled now t. unfold ContentScript.resumeScanning, ContentScript.pauseScanning.
  destruct isEnabled; cbv zeta.
  - unfold startScanning. cbn [isScanning Tabs.setIsScanning]. repeat split.
  - repeat split.
Qed.

End PopupFacts.

(** ** From the Gateway's verdict to the page *)

Module VerdictFacts.
Import ServiceWorker Tabs Pipeline BlockedFacts FailureFacts.

Lemma setHas_setAdd : forall x s, Js.setHas x (Js.setAdd x s) = true.
Proof.
  intros x s. unfold Js.setAdd. destruct (Js.setHas x s) eqn:E; [exact E|].
  unfold Js.setHas. rewrite existsb_app. simpl. rewrite Nat.eqb_refl.
  apply orb_true_r.
Qed.

Lemma tracked_after_handleUnsafeContent : forall detail t,
    Js.setHas (d_element detail)
      (blockedElements (DOMManipulator.handleUnsafeContent detail t)) = true.
Proof.
  intros detail t. unfold DOMManipulator.handleUnsafeContent.
  destruct (Js.setHas (d_element detail) (blockedElements t)) eqn:E; [exact E|].
  destruct (DOMManipulator.getBlockingMethod _ _).
  - rewrite blocked_replaceContent. apply setHas_setAdd.
  - rewrite blocked_blurContent. apply setHas_setAdd.
  - rewrite blocked_hideContent. apply setHas_setAdd.
Qed.

Lemma dispatched_handleUnsafeContent : forall detail t,
    dispatched (DOMManipulator.handleUnsafeContent detail t) = dispatched t.
Proof.
  intros detail t. unfold DOMManipulator.handleUnsafeContent.
  destruct (Js.setHas _ _); [reflexivity|].
  destruct (DOMManipulator.getBlockingMethod _ _).
  - unfold DOMManipulator.replaceContent. simpl.
    destruct (Dom.replaceChild _ _ _); reflexivity.
  - reflexivity.
  - unfold DOMManipulator.hideContent. simpl.
    destruct (Dom.insertBefore _ _ _); reflexivity.
Qed.

Lemma continueProcessing_fields : forall t,
    page (ContentScanner.continueProcessing t) = page t /\
    blockedElements (ContentScanner.continueProcessing t) = blockedElements t /\
    dispatched (ContentScanner.continueProcessing t) = dispatched t /\
    listeners (ContentScanner.continueProcessing t) = listeners t /\
    replacementElements (ContentScanner.continueProcessing t) = replacementElements t /\
    awaiting (ContentScanner.continueProcessing t) = awaiting t.
Proof.
  intros t. unfold ContentScanner.continueProcessing.
  destruct (scanQueue t); repeat split.
Qed.

(** X9.  A Gateway request that comes back with a success status and
    a verdict, followed by the delivery of the answer to the tab.  The
    worker caches the verdict under the handler's key and answers
    [{success: true, result}].  In the tab the verdict's [is_safe] alone
    decides: a safe verdict leaves the page, the tracking and the
    listeners as they were and dispatches nothing; an unsafe verdict
    dispatches exactly one unsafe-content event for the element, after
    which the element is tracked as blocked, whatever the confidence and
    whatever the method.  Either way the analysis no longer waits, so a
    second answer for the same message changes nothing. *)
Theorem verdict_decides_blocking :
  forall (s : System) (id : nat) (p : Suspended) (item : Item)
         (status : Z) (result : AnalysisResult) (now : Z),
    response_ok status = true ->
    findSuspended id (suspended (worker s)) = Some p ->
    ContentScanner.findAwaiting id (tab s) = Some (AwaitResponse item) ->
    Js.get Nat.eqb id (responses (worker s)) = None ->
    let s1 := step s (FetchSettled id (HttpResponse status (Some result)) now None) in
    let s2 := step s1 (Answer id) in
    let detail := {| d_element := i_element item; d_type := i_type item;
                     d_analysisResult := result |} in
    Js.get Nat.eqb id (responses (worker s1)) = Some (Success result) /\
    Js.get CacheKey_eqb (s_key p) (analysisCache (worker s1))
    = Some {| data := result; timestamp := now |} /\
    tab s1 = tab s /\
    (is_safe result = true ->
     page (tab s2) = page (tab s) /\
     blockedElements (tab s2) = blockedElements (tab s) /\
     replacementElements (tab s2) = replacementElements (tab s) /\
     listeners (tab s2) = listeners (tab s) /\
     dispatched (tab s2) = dispatched (tab s)) /\
    (is_safe result = false ->
     dispatched (tab s2) = dispatched (tab s) ++ [detail] /\
     Js.setHas (i_element item) (blockedElements (tab s2)) = true) /\
    ContentScanner.findAwaiting id (tab s2) = None /\
    step s2 (Answer id) = s2.
Proof.
  intros s id p item status result now Hok Hsusp Hawait Hnone s1 s2 detail.
  assert (M : makeApiRequest (HttpResponse status (Some result)) = inl result)
    by (simpl; rewrite Hok; reflexivity).
  assert (R1 : responses (worker s1) = responses (worker s) ++ [(id, Success result)]
               /\ analysisCache (worker s1)
                  = setCache (s_key p) result now (analysisCache (worker s))
               /\ tab s1 = tab s).
  { unfold s1. simpl. unfold resumeAnalysis. rewrite Hsusp, M. cbv zeta.
    destruct (is_safe result); repeat split. }
  destruct R1 as (R1 & C1 & T1).
  assert (E2 : Js.get Nat.eqb id (responses (worker s1)) = Some (Success result))
    by (rewrite R1; apply get_app_fresh; exact Hnone).
  assert (E3 : s2 = {| tab := ContentScanner.onResponse id (Success result) (tab s);
                       worker := worker s1 |}).
  { unfold s2. unfold step at 1. rewrite E2. unfold onTab. rewrite T1. reflexivity. }
  set (t1 := ContentScanner.dropAwaiting id (tab s)).
  assert (E4 : ContentScanner.onResponse id (Success result) (tab s)
               = ContentScanner.continueProcessing
                   (if negb (is_safe result)
                    then ContentScanner.handleUnsafeContent
                           (i_element item) (i_type item) result t1
                    else t1)).
  { unfold ContentScanner.onResponse. rewrite Hawait. reflexivity. }
  assert (A2 : ContentScanner.findAwaiting id (tab s2) = None).
  { rewrite E3. cbn [tab]. rewrite E4. unfold ContentScanner.findAwaiting.
    rewrite (proj2 (proj2 (proj2 (proj2 (proj2 (continueProcessing_fields _)))))).
    assert (K : forall d t, awaiting (DOMManipulator.handleUnsafeContent d t) = awaiting t).
    { intros d t. unfold DOMManipulator.handleUnsafeContent.
      destruct (Js.setHas _ _); [reflexivity|].
      destruct (DOMManipulator.getBlockingMethod _ _).
      - unfold DOMManipulator.replaceContent. simpl.
        destruct (Dom.replaceChild _ _ _); reflexivity.
      - reflexivity.
      - unfold DOMManipulator.hideContent. simpl.
        destruct (Dom.insertBefore _ _ _); reflexivity. }
    destruct (negb (is_safe result)).
    - unfold ContentScanner.handleUnsafeContent. rewrite K. unfold t1. simpl.
      apply (get_delete_same _ _ Nat.eqb).
    - unfold t1. simpl. apply (get_delete_same _ _ Nat.eqb). }
  split; [exact E2|]. split; [rewrite C1; apply CacheFacts.get_setCache_same|].
  split; [exact T1|]. split; [|split; [|split]].
  - intros Hs. rewrite E3. cbn [tab]. rewrite E4, Hs. cbn [negb].
    destruct (continueProcessing_fields t1) as (F1 & F2 & F3 & F4 & F5 & _).
    rewrite F1, F2, F3, F4, F5. repeat split.
  - intros Hs. rewrite E3. cbn [tab]. rewrite E4, Hs. cbn [negb].
    destruct (continueProcessing_fields
                (ContentScanner.handleUnsafeContent (i_element item) (i_type item)
                   result t1)) as (_ & F2 & F3 & _).
    rewrite F2, F3. unfold ContentScanner.handleUnsafeContent. fold detail. split.
    + rewrite dispatched_handleUnsafeContent. reflexivity.
    + apply (tracked_after_handleUnsafeContent detail).
  - exact A2.
  - unfold step. rewrite E3 in A2 |- *. cbn [worker tab] in *. rewrite E2.
    unfold onTab. cbn [tab worker]. f_equal.
    unfold ContentScanner.onResponse at 1. rewrite A2. reflexivity.
Qed.

End VerdictFacts.

(** ** Undoing a block *)

Module UndoFacts.
Import Dom Tabs DomFacts TreeFacts SwapFacts RevealFacts SinceFacts.
Import EvolveFacts StepFacts DiscoveryFacts RestoreFacts.

(** Replacing an element of a well-formed page by the placeholder, and
    putting it back: the two swaps, and where the placeholder sits in
    between. *)
Lemma block_and_back : forall (p : Page) (e : nat) (type : ContentType)
                              (r : AnalysisResult),
    wellFormed p = true ->
    containsUid e (document p) = true ->
    parentNode e p <> None ->
    let c := nextUid p in
    let R := DOMManipulator.replacementNode c type r in
    exists (frames : list Frame) (E : Node),
      document p = plug frames E /\
      (e < c)%nat /\
      replaceChild c e {| document := document p; detached := detached p ++ [R];
                          nextUid := (7 + c)%nat |}
      = Some {| document := plug frames R; detached := detached p ++ [E];
                nextUid := (7 + c)%nat |} /\
      replaceChild e c {| document := plug frames R; detached := detached p ++ [E];
                          nextUid := (7 + c)%nat |}
      = Some {| document := plug frames E; detached := detached p ++ [R];
                nextUid := (7 + c)%nat |} /\
      parentNode c {| document := plug frames R; detached := detached p ++ [E];
                      nextUid := (7 + c)%nat |} <> None.
Proof.
  intros p e type r Hwf He Hpar c R.
  set (doc := document p) in *. set (det := detached p) in *.
  unfold wellFormed in Hwf. apply andb_true_iff in Hwf. destruct Hwf as [Hnd Hlt].
  apply nodupb_NoDup in Hnd. rewrite forallb_forall in Hlt.
  change (allUids p) with (uids doc ++ flat_map uids det) in Hnd, Hlt.
  apply NoDup_app_inv in Hnd. destruct Hnd as (Hnd_doc & _ & Hdisj).
  assert (Hbelow : forall u, In u (uids doc ++ flat_map uids det) -> (u < c)%nat)
    by (intros u Hu; apply Nat.ltb_lt; apply Hlt; exact Hu).
  apply containsUid_In in He.
  assert (Hroot : isRoot e doc = false).
  { destruct (isRoot e doc) eqn:Q; [|reflexivity].
    exfalso. apply Hpar. apply parentNode_of_root. exact Q. }
  destruct (decompose doc e He Hroot) as (frames & E & Hne & Hdoc & HE).
  assert (HeE : In e (uids E)) by (apply isRoot_In, isRoot_rootUid; exact HE).
  assert (Hoff_e : forall fr, In fr frames -> ~ In e (frameUids fr)).
  { apply (off_path frames E e); [rewrite <- Hdoc; exact Hnd_doc | exact HeE]. }
  assert (Hc_doc : ~ In c (uids doc)).
  { intro H. assert (c < c)%nat by (apply Hbelow; apply in_or_app; left; exact H). lia. }
  assert (Hoff_c : forall fr, In fr frames -> ~ In c (frameUids fr)).
  { intros fr Hfr H. apply Hc_doc. rewrite Hdoc. apply In_uids_plug. right.
    exists fr. split; assumption. }
  assert (Hc_E : ~ In c (uids E)).
  { intro H. apply Hc_doc. rewrite Hdoc. apply In_uids_plug. left. exact H. }
  assert (He_lt : (e < c)%nat) by (apply Hbelow; apply in_or_app; left; exact He).
  assert (He_R : ~ In e (uids R)).
  { unfold R. rewrite uids_replacementNode. simpl. lia. }
  assert (Hdet : forall k, In k det -> ~ In e (uids k) /\ ~ In c (uids k)).
  { intros k Hk. split.
    - intro H. apply (Hdisj e He). apply in_flat_map. exists k. split; assumption.
    - intro H. assert (c < c)%nat; [|lia]. apply Hbelow. apply in_or_app. right.
      apply in_flat_map. exists k. split; assumption. }
  assert (HR : rootUid R = Some c) by apply rootUid_replacementNode.
  assert (Hec : e <> c) by lia.
  exists frames, E. split; [exact Hdoc|]. split; [exact He_lt|]. split; [|split].
  - rewrite Hdoc. apply replaceChild_swap; assumption.
  - apply replaceChild_swap; try assumption; try congruence.
    intros k Hk. destruct (Hdet k Hk). split; assumption.
  - apply parentNode_in_document; cbn [document].
    + apply In_uids_plug. left. apply isRoot_In, isRoot_rootUid. exact HR.
    + destruct frames as [|fr rest]; [congruence|].
      apply isRoot_plug. apply Hoff_c. left. reflexivity.
Qed.

Lemma querySelectorAll_document : forall sels p q,
    document p = document q -> querySelectorAll sels p = querySelectorAll sels q.
Proof. intros sels p q H. unfold querySelectorAll. rewrite H. reflexivity. Qed.

(** X7.  Take a well-formed page with nothing replaced, blurred or
    hidden on it, an element of the document that has a parent and is
    not tracked, and a verdict for which the method is [replace].  After
    the element has been replaced, [restoreAllContent] gives back the
    document exactly as it was before the block (the element does not
    get the class 'ai-firewall-safe' on this path), and clears the
    tracking: no element is blocked, no placeholder is remembered, and
    the blocked count is zero.  The placeholder's click listener stays
    registered. *)
Theorem replace_then_restoreAll_gives_back_the_document :
  forall (t : Tab) (e : nat) (type : ContentType) (r : AnalysisResult),
    wellFormed (page t) = true ->
    containsUid e (document (page t)) = true ->
    parentNode e (page t) <> None ->
    Js.setHas e (blockedElements t) = false ->
    DOMManipulator.getBlockingMethod type r = DOMManipulator.replace ->
    replacementElements t = [] ->
    querySelectorAll [[Class "ai-firewall-blurred"]] (page t) = [] ->
    querySelectorAll [[Attr "data-original-display"]] (page t) = [] ->
    let detail := {| d_element := e; d_type := type; d_analysisResult := r |} in
    let t1 := DOMManipulator.handleUnsafeContent detail t in
    let t2 := DOMManipulator.onUser DOMManipulator.RestoreAll t1 in
    DOMManipulator.getBlockedCount t1 = DOMManipulator.getBlockedCount t + 1 /\
    document (page t2) = document (page t) /\
    blockedElements t2 = [] /\
    replacementElements t2 = [] /\
    DOMManipulator.getBlockedCount t2 = 0 /\
    listeners t2 = listeners t ++ [ReplacementClick (nextUid (page t)) e type].
Proof.
  intros t e type r Hwf He Hpar Hnb Hm Hrep Hblur Hhid detail t1 t2.
  destruct (block_and_back (page t) e type r Hwf He Hpar)
    as (frames & E & Hdoc & Hlt & Swap1 & Swap2 & Hparc).
  cbv zeta in Swap1, Swap2, Hparc.
  set (c := nextUid (page t)) in *.
  set (R := DOMManipulator.replacementNode c type r) in *.
  pose proof (handleUnsafeContent_replace t e type r _ Hnb Hm Swap1) as Ht1.
  fold detail t1 c R in Ht1.
  set (p1 := {| document := plug frames R; detached := detached (page t) ++ [E];
                nextUid := (7 + c)%nat |}) in *.
  set (p2 := {| document := plug frames E; detached := detached (page t) ++ [R];
                nextUid := (7 + c)%nat |}) in *.
  assert (Hpage1 : page t1 = p1) by (rewrite Ht1; reflexivity).
  assert (Hrep1 : replacementElements t1 = [(c, e)])
    by (rewrite Ht1; cbn [replacementElements setPage setReplacementElements];
        rewrite Hrep; reflexivity).
  assert (Hrest : DOMManipulator.restoreReplaced (replacementElements t1) (page t1)
                  = Some p2).
  { rewrite Hrep1, Hpage1. cbn [DOMManipulator.restoreReplaced].
    destruct (parentNode c p1) as [par|]; [|congruence].
    rewrite Swap2. reflexivity. }
  assert (Hd2 : document p2 = document (page t)) by (symmetry; exact Hdoc).
  assert (Ht2 : t2 = setBlockedElements [] (setReplacementElements [] (setPage p2 t1))).
  { unfold t2. cbn [DOMManipulator.onUser]. unfold DOMManipulator.restoreAllContent.
    rewrite Hrest.
    rewrite (querySelectorAll_document _ p2 (page t) Hd2), Hblur. cbn [fold_left].
    rewrite (querySelectorAll_document _ p2 (page t) Hd2), Hhid. reflexivity. }
  split.
  - unfold DOMManipulator.getBlockedCount. rewrite Ht1.
    cbn [blockedElements setPage setReplacementElements setListeners setBlockedElements].
    unfold Js.setAdd. rewrite Hnb. rewrite length_app. simpl. lia.
  - rewrite Ht2. cbn [page blockedElements replacementElements listeners
                       setBlockedElements setReplacementElements setPage].
    split; [exact Hd2|]. split; [reflexivity|]. split; [reflexivity|].
    split; [reflexivity|]. rewrite Ht1. reflexivity.
Qed.

Lemma unblur : forall c a v el,
    hasClass c el = false ->
    classList_remove c (setAttribute a v (classList_add c el)) = setAttribute a v el.
Proof.
  intros c a v el H. unfold classList_add. rewrite H.
  unfold classList_remove, setAttribute, setClassList. cbn [classList uid tagName
    attributes styleDisplay cssDisplay cssVisibility src srcset width height].
  f_equal. rewrite filter_app. simpl. rewrite String.eqb_refl. simpl.
  rewrite app_nil_r. unfold hasClass, Js.arrayIncludes in H.
  induction (classList el) as [|x l IH]; [reflexivity|].
  simpl in H. apply orb_false_iff in H. destruct H as [H1 H2].
  simpl. rewrite H1. simpl. rewrite IH by exact H2. reflexivity.
Qed.

Lemma no_listener_left : forall x ls,
    existsb (DOMManipulator.sameListener (RemoveBlur x))
      (filter (fun l => negb (DOMManipulator.sameListener (RemoveBlur x) l)) ls) = false.
Proof.
  intros x ls. induction ls as [|l ls IH]; [reflexivity|]. cbn [filter].
  destruct (DOMManipulator.sameListener (RemoveBlur x) l) eqn:Q; cbn [negb];
    [exact IH|]. cbn [existsb]. rewrite Q. exact IH.
Qed.

(** X8.  Take an element of the page that is not tracked and does not
    carry the class 'ai-firewall-blurred', and a verdict for which the
    method is [blur].  Handling the verdict adds that class and the
    tooltip to the element and tracks it.  A click on the element then
    takes the blur class away again and adds 'ai-firewall-safe': the
    element is what it was before, plus that class and the tooltip, which
    stays.  It is no longer tracked, the click listener is gone (one more
    click changes nothing), and no sequence of events of the pipeline
    queues the element again. *)
Theorem blur_then_click_marks_the_element_safe :
  forall (t : Tab) (e : nat) (type : ContentType) (r : AnalysisResult)
         (el : Element) (anc : list Element),
    (e < nextUid (page t))%nat ->
    locate e (page t) = Some (el, anc) ->
    hasClass "ai-firewall-blurred" el = false ->
    Js.setHas e (blockedElements t) = false ->
    DOMManipulator.getBlockingMethod type r = DOMManipulator.blur ->
    scanQueue t = [] ->
    let detail := {| d_element := e; d_type := type; d_analysisResult := r |} in
    let title := ("Content blurred by AI-Firewall. Reason: "
                    ++ DOMManipulator.getBlockingReason r ++ ". Click to reveal.")%string in
    let t1 := DOMManipulator.handleUnsafeContent detail t in
    let t2 := DOMManipulator.onUser (DOMManipulator.ClickBlurred e) t1 in
    option_map fst (locate e (page t1))
    = Some (setAttribute "title" title (classList_add "ai-firewall-blurred" el)) /\
    Js.setHas e (blockedElements t1) = true /\
    option_map fst (locate e (page t2))
    = Some (classList_add "ai-firewall-safe" (setAttribute "title" title el)) /\
    blockedElements t2 = blockedElements t /\
    DOMManipulator.onUser (DOMManipulator.ClickBlurred e) t2 = t2 /\
    (forall w es,
        exists more,
          pushed (Pipeline.tab
                    (Pipeline.run {| Pipeline.tab := t2; Pipeline.worker := w |} es))
          = pushed t ++ more /\
          ~ In e (map i_element more)).
Proof.
  intros t e type r el anc Hlt Hloc Hnb Hnt Hm Hq detail title t1 t2.
  assert (Hu : uid el = e) by (apply (locate_uid e (page t) (el, anc) Hloc)).
  set (f1 := classList_add "ai-firewall-blurred").
  set (f2 := setAttribute "title" title).
  set (f3 := classList_remove "ai-firewall-blurred").
  set (f4 := classList_add "ai-firewall-safe").
  assert (U1 : forall x, uid (f1 x) = uid x) by (intro; apply uid_classList_add).
  assert (U2 : forall x, uid (f2 x) = uid x) by reflexivity.
  assert (U3 : forall x, uid (f3 x) = uid x) by reflexivity.
  assert (U4 : forall x, uid (f4 x) = uid x) by (intro; apply uid_classList_add).
  assert (Ht1 : t1 = setPage (updateElement e f2 (updateElement e f1 (page t)))
                       (setListeners (listeners t ++ [RemoveBlur e])
                          (setBlockedElements (Js.setAdd e (blockedElements t)) t))).
  { unfold t1, detail, DOMManipulator.handleUnsafeContent.
    cbn [d_element d_type d_analysisResult]. rewrite Hnt, Hm. reflexivity. }
  assert (Hl : existsb (DOMManipulator.sameListener (RemoveBlur e)) (listeners t1) = true).
  { rewrite Ht1. cbn [listeners setPage setListeners]. rewrite existsb_app. simpl.
    rewrite Nat.eqb_refl. apply orb_true_r. }
  assert (Ht2 : t2 = DOMManipulator.removeBlur e t1)
    by (unfold t2; cbn [DOMManipulator.onUser]; rewrite Hl; reflexivity).
  assert (Hp2 : page t2 = updateElement e f4 (updateElement e f3 (page t1)))
    by (rewrite Ht2; reflexivity).
  assert (L1 : option_map fst (locate e (page t1)) = Some (f2 (f1 el))).
  { rewrite Ht1. cbn [page setPage].
    rewrite (locate_updateElement e f2 e _ U2), (locate_updateElement e f1 e _ U1), Hloc.
    simpl. unfold atUid. rewrite Hu, Nat.eqb_refl, U1, Hu, Nat.eqb_refl. reflexivity. }
  assert (L2 : option_map fst (locate e (page t2)) = Some (f4 (f2 el))).
  { rewrite Hp2, (locate_updateElement e f4 e _ U4), (locate_updateElement e f3 e _ U3).
    destruct (locate e (page t1)) as [[el1 anc1]|]; [|discriminate].
    simpl in L1. inversion L1. subst el1. simpl. unfold atUid.
    rewrite U2, U1, Hu, Nat.eqb_refl, U3, U2, U1, Hu, Nat.eqb_refl.
    unfold f3, f2, f1. rewrite (unblur _ _ _ _ Hnb). reflexivity. }
  assert (Hb2 : blockedElements t2 = blockedElements t).
  { rewrite Ht2, Ht1. cbn [blockedElements DOMManipulator.removeBlur setPage setListeners
                             setBlockedElements].
    apply setDelete_setAdd. exact Hnt. }
  assert (Hl2 : existsb (DOMManipulator.sameListener (RemoveBlur e)) (listeners t2) = false).
  { rewrite Ht2. cbn [listeners DOMManipulator.removeBlur setPage setListeners
                        setBlockedElements]. apply no_listener_left. }
  split; [exact L1|]. split.
  { rewrite Ht1. cbn [blockedElements setPage setListeners setBlockedElements].
    unfold Js.setAdd. rewrite Hnt. unfold Js.setHas. rewrite existsb_app. simpl.
    rewrite Nat.eqb_refl. apply orb_true_r. }
  split; [exact L2|]. split; [exact Hb2|]. split.
  { cbn [DOMManipulator.onUser]. rewrite Hl2. reflexivity. }
  intros w es.
  assert (Hq2 : scanQueue t2 = []) by (rewrite Ht2, Ht1; exact Hq).
  assert (Hpu : pushed t2 = pushed t) by (rewrite Ht2, Ht1; reflexivity).
  assert (Hs2 : Pipeline.everywhere (hasClass "ai-firewall-safe") e (page t2)).
  { rewrite Hp2. apply safe_after_update. rewrite Ht1. exact Hlt. }
  destruct (safe_is_never_queued es {| Pipeline.tab := t2; Pipeline.worker := w |}
              e Hq2 Hs2) as (more & M1 & M2).
  exists more. simpl in M1. split; [rewrite M1, Hpu; reflexivity | exact M2].
Qed.

End UndoFacts.

(** ** Only filtered text reaches the Gateway *)

Module FilterFacts.
Import ServiceWorker Tabs ContentScanner Pipeline Filtering SinceFacts.

Lemma filtered_processQueue : forall t, filteredTab t -> filteredTab (processQueue t).
Proof.
  intros t (Q & P & O). unfold processQueue.
  destruct (scanQueue t) as [|item rest] eqn:E; [repeat split; [rewrite E|..]; assumption|].
  assert (Qr : forall i, In i rest -> i_type i = text -> shouldAnalyzeText (i_content i) = true)
    by (intros i Hi; apply Q; right; exact Hi).
  destruct (i_type item) eqn:T.
  - unfold analyzeText, continueProcessing.
    cbn [settings scanQueue markProcessed setPage setScanQueue].
    destruct (settings t) as [s|].
    + repeat split; cbn [scanQueue pushed outbox sendMessage markProcessed setPage
                           setScanQueue]; try assumption.
      intros id d H. apply in_app_or in H. destruct H as [H|[H|[]]]; [apply (O id d H)|].
      inversion H. subst. cbn [payload]. apply Q; [left; reflexivity | exact T].
    + destruct rest; repeat split; cbn [scanQueue pushed outbox markProcessed setPage
                                          setScanQueue setTimeouts]; assumption.
  - unfold analyzeImage. repeat split;
      cbn [scanQueue pushed outbox suspend markProcessed setPage setScanQueue];
      assumption.
Qed.

Lemma filtered_push : forall item t,
    filteredTab t ->
    (i_type item = text -> shouldAnalyzeText (i_content item) = true) ->
    filteredTab (recordPush item t).
Proof.
  intros item t (Q & P & O) H. repeat split; cbn [scanQueue pushed outbox recordPush].
  - intros i Hi. apply in_app_or in Hi. destruct Hi as [Hi|[Hi|[]]];
      [apply Q; exact Hi | subst i; exact H].
  - intros i Hi. apply in_app_or in Hi. destruct Hi as [Hi|[Hi|[]]];
      [apply P; exact Hi | subst i; exact H].
  - exact O.
Qed.

Lemma filtered_visitText : forall now t x, filteredTab t -> filteredTab (visitText now t x).
Proof.
  intros now t x F. unfold visitText.
  destruct (shouldIgnoreElement x t); [exact F|].
  destruct (shouldAnalyzeText (extractText x t)) eqn:E; [|exact F].
  unfold queueTextAnalysis. apply filtered_processQueue. apply filtered_push; [exact F|].
  intros _. exact E.
Qed.

Lemma filtered_visitImage : forall now t x, filteredTab t -> filteredTab (visitImage now t x).
Proof.
  intros now t x F. unfold visitImage.
  destruct (shouldIgnoreElement x t); [exact F|].
  destruct (shouldAnalyzeImage x t); [|exact F].
  unfold queueImageAnalysis. apply filtered_processQueue. apply filtered_push; [exact F|].
  discriminate.
Qed.

Lemma filtered_fold : forall (B : Type) (f : Tab -> B -> Tab) l t,
    (forall t x, filteredTab t -> filteredTab (f t x)) ->
    filteredTab t -> filteredTab (fold_left f l t).
Proof.
  intros B f l. induction l as [|x l IH]; intros t H F; [exact F|].
  simpl. apply IH; [exact H | apply H; exact F].
Qed.

Lemma filtered_scanExistingContent : forall now t,
    filteredTab t -> filteredTab (scanExistingContent now t).
Proof.
  intros now t F. unfold scanExistingContent, scanImageContent, scanGoogleSearchResults,
    scanTextContent.
  apply filtered_fold; [apply filtered_visitImage|].
  assert (F1 : filteredTab (fold_left (visitText now)
                              (Dom.querySelectorAll textSelectors (page t)) t))
    by (apply filtered_fold; [apply filtered_visitText | exact F]).
  destruct (Js.includes _ _); [|exact F1].
  apply filtered_fold; [|exact F1].
  intros t0 sel F0. apply filtered_fold; [apply filtered_visitText | exact F0].
Qed.

Lemma filtered_frame : forall t t',
    scanQueue t' = scanQueue t -> pushed t' = pushed t -> outbox t' = outbox t ->
    filteredTab t -> filteredTab t'.
Proof.
  intros t t' H1 H2 H3 (Q & P & O). unfold filteredTab. rewrite H1, H2, H3.
  repeat split; assumption.
Qed.

Lemma filtered_startScanning : forall now t,
    filteredTab t -> filteredTab (startScanning now t).
Proof.
  intros now t F. unfold startScanning. destruct (isScanning t); [exact F|].
  assert (F1 : filteredTab (setIsScanning true t))
    by (apply (filtered_frame t); [reflexivity.. | exact F]).
  destruct (isAllowlisted _) as [[|]|]; try exact F1.
  apply (filtered_frame (scanExistingContent now (setIsScanning true t)));
    [reflexivity.. |]. apply filtered_scanExistingContent. exact F1.
Qed.

Lemma filtered_init : forall answer now t, filteredTab t -> filteredTab (init answer now t).
Proof.
  intros answer now t F. unfold init.
  assert (F1 : filteredTab (loadSettings answer t))
    by (apply (filtered_frame t); [destruct answer as [[s|]|]; reflexivity.. | exact F]).
  destruct (settings (loadSettings answer t));
    [|destruct (isScanning (loadSettings answer t))].
  - apply (filtered_frame (startScanning now (loadSettings answer t))); [reflexivity..|].
    apply filtered_startScanning. exact F1.
  - apply (filtered_frame (startScanning now (loadSettings answer t))); [reflexivity..|].
    apply filtered_startScanning. exact F1.
  - apply filtered_startScanning. exact F1.
Qed.

Lemma filtered_periodicRescan : forall now t,
    filteredTab t -> filteredTab (periodicRescan now t).
Proof.
  intros now t F. unfold periodicRescan.
  destruct (isAllowlisted t) as [[|]|]; try exact F.
  apply filtered_scanExistingContent. exact F.
Qed.

Lemma filtered_onMutations : forall now nodes t,
    filteredTab t -> filteredTab (onMutations now nodes t).
Proof.
  intros now nodes t F. unfold onMutations. apply filtered_fold; [|exact F].
  intros t0 node F0. unfold scanNewElement.
  apply filtered_fold; [apply filtered_visitImage|].
  apply filtered_fold; [apply filtered_visitText | exact F0].
Qed.

Lemma filtered_onTimeout : forall t, filteredTab t -> filteredTab (onTimeout t).
Proof.
  intros t F. unfold onTimeout. destruct (timeouts t) as [|n]; [exact F|].
  apply filtered_processQueue. apply (filtered_frame t); [reflexivity.. | exact F].
Qed.

Lemma filtered_continueProcessing : forall t,
    filteredTab t -> filteredTab (continueProcessing t).
Proof.
  intros t F. unfold continueProcessing. destruct (scanQueue t) eqn:E; [exact F|].
  apply (filtered_frame t); [reflexivity.. | exact F].
Qed.

Lemma filtered_onImageData : forall id d t,
    filteredTab t -> filteredTab (onImageData id d t).
Proof.
  intros id d t F. unfold onImageData.
  destruct (findAwaiting id t) as [[item|item]|]; try exact F. cbv zeta.
  assert (F1 : filteredTab (dropAwaiting id t))
    by (apply (filtered_frame t); [reflexivity.. | exact F]).
  destruct d as [d|]; [|apply filtered_continueProcessing; exact F1].
  destruct (settings (dropAwaiting id t)) as [s|];
    [|apply filtered_continueProcessing; exact F1].
  destruct F1 as (Q & P & O). repeat split; cbn [scanQueue pushed outbox sendMessage];
    try assumption.
  intros i d0 H. apply in_app_or in H. destruct H as [H|[H|[]]];
    [apply (O i d0 H) | discriminate H].
Qed.

Lemma outbox_handleUnsafeContent : forall d t,
    outbox (DOMManipulator.handleUnsafeContent d t) = outbox t.
Proof.
  intros d t. unfold DOMManipulator.handleUnsafeContent.
  destruct (Js.setHas _ _); [reflexivity|].
  destruct (DOMManipulator.getBlockingMethod _ _).
  - unfold DOMManipulator.replaceContent. simpl.
    destruct (Dom.replaceChild _ _ _); reflexivity.
  - reflexivity.
  - unfold DOMManipulator.hideContent. simpl.
    destruct (Dom.insertBefore _ _ _); reflexivity.
Qed.

Lemma outbox_onUser : forall u t, outbox (DOMManipulator.onUser u t) = outbox t.
Proof.
  intros u t. destruct u as [c confirmed | e | b | ]; simpl.
  - destruct (find _ _) as [[c' o ty| |]|]; try reflexivity.
    unfold DOMManipulator.showOriginalContent.
    destruct confirmed; [|reflexivity].
    destruct (Dom.replaceChild _ _ _); reflexivity.
  - destruct (existsb _ _); reflexivity.
  - destruct (find _ _) as [[| |b' e' od]|]; reflexivity.
  - unfold DOMManipulator.restoreAllContent.
    destruct (DOMManipulator.restoreReplaced _ _); reflexivity.
Qed.

Lemma filtered_onResponse : forall id r t,
    filteredTab t -> filteredTab (onResponse id r t).
Proof.
  intros id r t F. unfold onResponse.
  destruct (findAwaiting id t) as [[item|item]|]; try exact F.
  apply filtered_continueProcessing.
  assert (F1 : filteredTab (dropAwaiting id t))
    by (apply (filtered_frame t); [reflexivity.. | exact F]).
  destruct r as [result|err]; [|exact F1].
  destruct (negb (is_safe result)); [|exact F1].
  unfold handleUnsafeContent.
  apply (filtered_frame (dropAwaiting id t)); [| | |exact F1].
  - rewrite queue_empty_handleUnsafeContent. reflexivity.
  - rewrite (proj1 (pushed_handleUnsafeContent _ _)). reflexivity.
  - rewrite outbox_handleUnsafeContent. reflexivity.
Qed.

Lemma get_In : forall (V : Type) id (m : list (nat * V)) v,
    Js.get Nat.eqb id m = Some v -> In (id, v) m.
Proof.
  intros V id m v. induction m as [|[k x] m IH]; simpl; [discriminate|].
  destruct (Nat.eqb id k) eqn:E.
  - intros H. inversion H. apply Nat.eqb_eq in E. subst. left. reflexivity.
  - intros H. right. apply IH. exact H.
Qed.

Lemma filtered_step : forall s e, filtered s -> filtered (step s e).
Proof.
  intros s e [Ft Fw]. destruct e; simpl.
  - split; [apply filtered_init; exact Ft | exact Fw].
  - split; [apply filtered_periodicRescan; exact Ft | exact Fw].
  - split; [apply filtered_onMutations; exact Ft | exact Fw].
  - split; [apply filtered_onTimeout; exact Ft | exact Fw].
  - split; [apply filtered_onImageData; exact Ft | exact Fw].
  - split; [|exact Fw]. cbn [tab onTab].
    apply (filtered_frame (tab s)); [| | |exact Ft].
    + apply queue_empty_onUser.
    + apply DiscoveryFacts.pushed_onUser.
    + apply outbox_onUser.
  - destruct (Js.get Nat.eqb id (outbox (tab s))) as [m|] eqn:G; [|split; assumption].
    apply get_In in G. split; cbn [tab worker onTab onWorker].
    + destruct Ft as (Q & P & O). repeat split; cbn [scanQueue pushed outbox takeFromOutbox];
        try assumption.
      intros i d H. unfold Js.delete in H. apply filter_In in H. apply (O i d (proj1 H)).
    + assert (K : forall type d, (type = text -> shouldAnalyzeText (payload d) = true) ->
                                 filteredWorker (handleAnalysis type id d now (worker s))).
      { intros type d Hd req Hreq Hend.
        destruct (AnswerFacts.handleAnalysis_cases type id d now (worker s)) as (_ & C).
        destruct C as [(r & _ & _ & _ & Hs)|(_ & _ & _ & Hs)]; rewrite Hs in Hreq.
        - apply (Fw req Hreq Hend).
        - apply in_app_or in Hreq. destruct Hreq as [Hreq|[Hreq|[]]];
            [apply (Fw req Hreq Hend)|].
          subst req. cbn [endpoint body] in *. apply Hd.
          destruct type; [reflexivity | discriminate Hend]. }
      destruct m as [d|d]; cbn [ServiceWorker.step].
      * apply K. intros _. destruct Ft as (_ & _ & O). apply (O id d G).
      * apply K. discriminate.
  - split; [exact Ft|]. cbn [worker onWorker]. intros req Hreq Hend.
    apply (Fw req); [|exact Hend].
    cbn [ServiceWorker.step] in Hreq.
    destruct (findSuspended id (suspended (worker s))) as [p|] eqn:F.
    + destruct (AnswerFacts.resumeAnalysis_cases id o now storageError (worker s) p F)
        as (_ & Hs & _). rewrite Hs in Hreq. exact Hreq.
    + unfold resumeAnalysis in Hreq. rewrite F in Hreq. exact Hreq.
  - destruct (Js.get Nat.eqb id (responses (worker s))) as [r|]; [|split; assumption].
    split; [apply filtered_onResponse; exact Ft | exact Fw].
Qed.

Lemma shouldAnalyzeText_bounds : forall txt,
    shouldAnalyzeText txt = true <->
    (5 <= String.length txt <= 5000)%nat /\ Js.hasLetter txt = true.
Proof.
  intros txt. unfold shouldAnalyzeText. cbv zeta.
  destruct (Z.of_nat (String.length txt) <? 5) eqn:A;
    destruct (5000 <? Z.of_nat (String.length txt)) eqn:B; simpl;
    try apply Z.ltb_lt in A; try apply Z.ltb_ge in A;
    try apply Z.ltb_lt in B; try apply Z.ltb_ge in B;
    try (split; [discriminate | intros [[H1 H2] _]; lia]).
  destruct (Js.hasLetter txt); simpl.
  - split; [intros _; split; [lia | reflexivity] | reflexivity].
  - split; [discriminate | intros [_ H]; discriminate H].
Qed.

(** X11.  Whatever happens on a page (start, rescans, mutations,
    timers, image data, deliveries, settled requests, answers, clicks),
    every text the scanner has queued, and every text request the
    service worker has sent to the Gateway, carries a text of at least 5
    and at most 5000 characters that contains a letter: the text
    [shouldAnalyzeText] accepted when the element was visited.  Nothing
    shorter, longer or letterless is ever sent for analysis. *)
Theorem only_filtered_text_reaches_the_gateway :
  forall (p : Dom.Page) (host : string) (es : list Event),
    let s := run (start p host) es in
    (forall item, In item (pushed (tab s)) -> i_type item = text ->
                  (5 <= String.length (i_content item) <= 5000)%nat /\
                  Js.hasLetter (i_content item) = true) /\
    (forall req, In req (sent (worker s)) -> endpoint req = "/analyze/text" ->
                 (5 <= String.length (payload (body req)) <= 5000)%nat /\
                 Js.hasLetter (payload (body req)) = true).
Proof.
  intros p host es s.
  assert (F : filtered s).
  { unfold s, run.
    assert (G : forall l s0, filtered s0 -> filtered (fold_left step l s0)).
    { induction l as [|e l IH]; intros s0 H; [exact H|].
      simpl. apply IH. apply filtered_step. exact H. }
    apply G. split.
    - split; [|split].
      + intros item H. destruct H.
      + intros item H. destruct H.
      + intros id d H. destruct H.
    - intros req H. destruct H. }
  destruct F as [(_ & P & _) Fw]. split.
  - intros item Hi Ht. apply shouldAnalyzeText_bounds. apply (P item Hi Ht).
  - intros req Hr He. apply shouldAnalyzeText_bounds. apply (Fw req Hr He).
Qed.

End FilterFacts.

(** ** Scanning and blocking keep to their own state *)

Module SeparationFacts.
Import Tabs ContentScanner Pipeline Manipulator.

Lemma state_processQueue : forall t, state (processQueue t) = state t.
Proof.
  intros t. unfold processQueue, analyzeText, analyzeImage, continueProcessing.
  destruct (scanQueue t) as [|item rest]; [reflexivity|]. simpl.
  destruct (i_type item); simpl; [|reflexivity].
  destruct (settings t); simpl; [reflexivity|].
  destruct rest; reflexivity.
Qed.

Lemma state_visitText : forall now t el, state (visitText now t el) = state t.
Proof.
  intros now t el. unfold visitText, queueTextAnalysis.
  destruct (shouldIgnoreElement el t); [reflexivity|].
  destruct (shouldAnalyzeText _); [|reflexivity].
  rewrite state_processQueue. reflexivity.
Qed.

Lemma state_visitImage : forall now t el, state (visitImage now t el) = state t.
Proof.
  intros now t el. unfold visitImage, queueImageAnalysis.
  destruct (shouldIgnoreElement el t); [reflexivity|].
  destruct (shouldAnalyzeImage _ _); [|reflexivity].
  rewrite state_processQueue. reflexivity.
Qed.

Lemma state_fold : forall (B : Type) (f : Tab -> B -> Tab) l t,
    (forall t x, state (f t x) = state t) -> state (fold_left f l t) = state t.
Proof.
  intros B f l. induction l as [|x l IH]; intros t H; simpl; [reflexivity|].
  rewrite IH by exact H. apply H.
Qed.

Lemma state_scanExistingContent : forall now t,
    state (scanExistingContent now t) = state t.
Proof.
  intros now t. unfold scanExistingContent, scanImageContent, scanGoogleSearchResults,
    scanTextContent.
  rewrite state_fold by apply state_visitImage.
  destruct (Js.includes _ _).
  - rewrite state_fold.
    + apply state_fold. apply state_visitText.
    + intros t1 sel. apply state_fold. apply state_visitText.
  - apply state_fold. apply state_visitText.
Qed.

Lemma state_startScanning : forall now t, state (startScanning now t) = state t.
Proof.
  intros now t. unfold startScanning. destruct (isScanning t); [reflexivity|].
  destruct (isAllowlisted _) as [[|]|]; try reflexivity.
  change (state (continuousScanning (scanExistingContent now (setIsScanning true t))))
    with (state (scanExistingContent now (setIsScanning true t))).
  rewrite state_scanExistingContent. reflexivity.
Qed.

Lemma state_init : forall answer now t, state (init answer now t) = state t.
Proof.
  intros answer now t. unfold init.
  assert (H : state (loadSettings answer t) = state t)
    by (destruct answer as [[s|]|]; reflexivity).
  destruct (settings (loadSettings answer t));
    [|destruct (isScanning (loadSettings answer t))].
  - change (state (setupMutationObserver (startScanning now (loadSettings answer t))))
      with (state (startScanning now (loadSettings answer t))).
    rewrite state_startScanning. exact H.
  - change (state (setupMutationObserver (startScanning now (loadSettings answer t))))
      with (state (startScanning now (loadSettings answer t))).
    rewrite state_startScanning. exact H.
  - rewrite state_startScanning. exact H.
Qed.

Lemma state_periodicRescan : forall now t, state (periodicRescan now t) = state t.
Proof.
  intros now t. unfold periodicRescan.
  destruct (isAllowlisted t) as [[|]|]; try reflexivity.
  apply state_scanExistingContent.
Qed.

Lemma state_onMutations : forall now nodes t, state (onMutations now nodes t) = state t.
Proof.
  intros now nodes t. unfold onMutations.
  apply state_fold. intros t1 node. unfold scanNewElement.
  rewrite state_fold by apply state_visitImage.
  apply state_fold. apply state_visitText.
Qed.

Lemma state_onTimeout : forall t, state (onTimeout t) = state t.
Proof.
  intros t. unfold onTimeout. destruct (timeouts t); [reflexivity|].
  rewrite state_processQueue. reflexivity.
Qed.

Lemma state_onImageData : forall id d t, state (onImageData id d t) = state t.
Proof.
  intros id d t. unfold onImageData, continueProcessing.
  destruct (findAwaiting id t) as [[item|item]|]; try reflexivity.
  simpl. destruct d; [destruct (settings t)|]; simpl; try reflexivity;
    destruct (scanQueue t); reflexivity.
Qed.

Lemma never_hide : forall type r,
    DOMManipulator.getBlockingMethod type r <> DOMManipulator.hide.
Proof.
  intros type r. unfold DOMManipulator.getBlockingMethod. cbv zeta.
  destruct (_ || _); [discriminate|]. destruct (_ <? _)%float; discriminate.
Qed.

Lemma listeners_handleUnsafeContent : forall detail t l,
    In l (listeners (DOMManipulator.handleUnsafeContent detail t)) ->
    In l (listeners t) \/ isShowHidden l = false.
Proof.
  intros detail t l. unfold DOMManipulator.handleUnsafeContent.
  destruct (Js.setHas _ _); [intros H; left; exact H|].
  destruct (DOMManipulator.getBlockingMethod (d_type detail) (d_analysisResult detail))
    eqn:M.
  - unfold DOMManipulator.replaceContent, DOMManipulator.createReplacementElement.
    cbv zeta. cbn [page setPage setListeners setReplacementElements].
    destruct (Dom.replaceChild _ _ _);
      cbn [listeners setPage setListeners setReplacementElements setBlockedElements];
      intros H; apply in_app_or in H;
      (destruct H as [H|[H|[]]]; [left; exact H | right; subst l; reflexivity]).
  - unfold DOMManipulator.blurContent. cbv zeta.
    cbn [listeners setPage setListeners setBlockedElements].
    intros H. apply in_app_or in H.
    destruct H as [H|[H|[]]]; [left; exact H | right; subst l; reflexivity].
  - exfalso. apply (never_hide _ _ M).
Qed.

Lemma listeners_onUser : forall u t l,
    In l (listeners (DOMManipulator.onUser u t)) -> In l (listeners t).
Proof.
  intros u t l. destruct u as [c confirmed | e | b | ]; simpl.
  - destruct (find _ _) as [[c' o ty| |]|]; try (intros H; exact H).
    unfold DOMManipulator.showOriginalContent.
    destruct confirmed; [|intros H; exact H].
    destruct (Dom.replaceChild _ _ _); intros H; exact H.
  - destruct (existsb _ _); [|intros H; exact H].
    unfold DOMManipulator.removeBlur.
    cbn [listeners setPage setListeners setBlockedElements].
    intros H. apply filter_In in H. apply H.
  - destruct (find _ _) as [[| |b' e' od]|]; intros H; exact H.
  - unfold DOMManipulator.restoreAllContent.
    destruct (DOMManipulator.restoreReplaced _ _); intros H; exact H.
Qed.

Lemma listeners_of_state : forall t t', state t' = state t -> listeners t' = listeners t.
Proof. intros t t' H. unfold state in H. inversion H. reflexivity. Qed.

(** X10.  [handleUnsafeContent] has a case for the method 'hide', but
    [getBlockingMethod] never returns it.  So on any page and after any
    sequence of events of the pipeline, no show-button listener of
    [hideContent] is registered, and a click meant for such a button
    changes nothing: blocked content is replaced or blurred, never
    hidden. *)
Theorem blocked_content_is_never_hidden :
  forall (p : Dom.Page) (host : string) (es : list Event),
    let t := tab (run (start p host) es) in
    (forall l, In l (listeners t) -> isShowHidden l = false) /\
    (forall button, DOMManipulator.onUser (DOMManipulator.ClickShowHidden button) t = t).
Proof.
  intros p host es t.
  assert (I : forall l, In l (listeners t) -> isShowHidden l = false).
  { unfold t, run.
    assert (G : forall evs s,
               (forall l, In l (listeners (tab s)) -> isShowHidden l = false) ->
               forall l, In l (listeners (tab (fold_left step evs s))) ->
                         isShowHidden l = false).
    { induction evs as [|e evs IH]; intros s H; [exact H|].
      simpl. apply IH. intros l Hl.
      assert (S : forall f, state (f (tab s)) = state (tab s) ->
                            In l (listeners (f (tab s))) -> isShowHidden l = false).
      { intros f Hf Hin. rewrite (listeners_of_state _ _ Hf) in Hin. apply H. exact Hin. }
      destruct e; simpl in Hl.
      - apply (S (init answer now)); [apply state_init | exact Hl].
      - apply (S (periodicRescan now)); [apply state_periodicRescan | exact Hl].
      - apply (S (onMutations now addedNodes)); [apply state_onMutations | exact Hl].
      - apply (S onTimeout); [apply state_onTimeout | exact Hl].
      - apply (S (onImageData id imageData)); [apply state_onImageData | exact Hl].
      - apply H. apply (listeners_onUser _ _ _ Hl).
      - destruct (Js.get _ _ _); simpl in Hl; apply H; exact Hl.
      - apply H. exact Hl.
      - destruct (Js.get _ _ _) as [r|]; simpl in Hl; [|apply H; exact Hl].
        unfold onResponse in Hl.
        destruct (findAwaiting id (tab s)) as [[item|item]|]; try (apply H; exact Hl).
        unfold continueProcessing in Hl.
        assert (K : In l (listeners
                            match r with
                            | Success result =>
                                if negb (is_safe result)
                                then handleUnsafeContent (i_element item) (i_type item)
                                       result (dropAwaiting id (tab s))
                                else dropAwaiting id (tab s)
                            | Failure _ => dropAwaiting id (tab s)
                            end))
          by (destruct (scanQueue _); exact Hl).
        destruct r as [result|err]; [|apply H; exact K].
        destruct (negb (is_safe result)); [|apply H; exact K].
        unfold handleUnsafeContent in K.
        apply listeners_handleUnsafeContent in K.
        destruct K as [K|K]; [apply H; exact K | exact K]. }
    apply G. intros l []. }
  split; [exact I|].
  intros button. cbn [DOMManipulator.onUser].
  destruct (find _ (listeners t)) as [l|] eqn:F; [|reflexivity].
  apply find_some in F. destruct F as [Hin Hl].
  specialize (I l Hin). destruct l; try reflexivity. discriminate I.
Qed.

End SeparationFacts.

(** ** What scanning does not look at *)

Module NeutralFacts.
Import Tabs ContentScanner Scanning MarkFacts SinceFacts ScanFacts.

Section Neutral.
(** A change [g] of the tab that commutes with everything scanning
    writes and that keeps what scanning reads. *)
Variable g : Tab -> Tab.
Hypothesis g_page : forall t, page (g t) = page t.
Hypothesis g_hostname : forall t, hostname (g t) = hostname t.
Hypothesis g_queue : forall t, scanQueue (g t) = scanQueue t.
Hypothesis g_timeouts : forall t, timeouts (g t) = timeouts t.
Hypothesis g_settings : forall t,
    match settings (g t), settings t with
    | Some s', Some s =>
        getThreshold text s' = getThreshold text s /\
        getThreshold image s' = getThreshold image s /\
        settingsAgeGroup s' = settingsAgeGroup s
    | None, None => True
    | _, _ => False
    end.
Hypothesis g_setPage : forall p t, g (setPage p t) = setPage p (g t).
Hypothesis g_setScanQueue : forall q t, g (setScanQueue q t) = setScanQueue q (g t).
Hypothesis g_setTimeouts : forall n t, g (setTimeouts n t) = setTimeouts n (g t).
Hypothesis g_sendMessage : forall m k t, g (sendMessage m k t) = sendMessage m k (g t).
Hypothesis g_suspend : forall k t, g (suspend k t) = suspend k (g t).
Hypothesis g_recordPush : forall i t, g (recordPush i t) = recordPush i (g t).

Lemma neutral_continueProcessing : forall t,
    continueProcessing (g t) = g (continueProcessing t).
Proof.
  intros t. unfold continueProcessing. rewrite g_queue, g_timeouts.
  destruct (scanQueue t); [reflexivity|]. rewrite g_setTimeouts. reflexivity.
Qed.

Lemma neutral_processQueue : forall t, processQueue (g t) = g (processQueue t).
Proof.
  intros t. unfold processQueue. rewrite g_queue.
  destruct (scanQueue t) as [|item rest]; [reflexivity|]. cbv zeta.
  rewrite <- g_setScanQueue.
  set (t1 := setScanQueue rest t).
  assert (M : markProcessed (i_element item) (g t1) = g (markProcessed (i_element item) t1))
    by (unfold markProcessed; rewrite g_page, g_setPage; reflexivity).
  rewrite M. set (t2 := markProcessed (i_element item) t1).
  destruct (i_type item).
  - unfold analyzeText. pose proof (g_settings t2) as S.
    destruct (settings (g t2)) as [s'|], (settings t2) as [s|]; try contradiction.
    + destruct S as (S1 & S2 & S3). rewrite S1, S3, g_sendMessage. reflexivity.
    + apply neutral_continueProcessing.
  - unfold analyzeImage. rewrite g_suspend. reflexivity.
Qed.

Lemma neutral_visitText : forall now t x, visitText now (g t) x = g (visitText now t x).
Proof.
  intros now t x. unfold visitText.
  rewrite (shouldIgnoreElement_page x t (g t) (g_page t)).
  destruct (shouldIgnoreElement x t); [reflexivity|].
  assert (E : extractText x (g t) = extractText x t)
    by (unfold extractText; rewrite g_page; reflexivity).
  rewrite E. destruct (shouldAnalyzeText (extractText x t)); [|reflexivity].
  unfold queueTextAnalysis. rewrite <- g_recordPush. apply neutral_processQueue.
Qed.

Lemma neutral_visitImage : forall now t x, visitImage now (g t) x = g (visitImage now t x).
Proof.
  intros now t x. unfold visitImage.
  rewrite (shouldIgnoreElement_page x t (g t) (g_page t)).
  destruct (shouldIgnoreElement x t); [reflexivity|].
  assert (E : shouldAnalyzeImage x (g t) = shouldAnalyzeImage x t)
    by (unfold shouldAnalyzeImage; rewrite g_page; reflexivity).
  rewrite E. destruct (shouldAnalyzeImage x t); [|reflexivity].
  unfold queueImageAnalysis. rewrite <- g_recordPush. apply neutral_processQueue.
Qed.

Lemma neutral_fold : forall (B : Type) (f : Tab -> B -> Tab) l t,
    (forall t x, f (g t) x = g (f t x)) ->
    fold_left f l (g t) = g (fold_left f l t).
Proof.
  intros B f l. induction l as [|x l IH]; intros t H; [reflexivity|].
  simpl. rewrite H. apply IH. exact H.
Qed.

Lemma neutral_scanNewElement : forall now node t,
    scanNewElement now node (g t) = g (scanNewElement now node t).
Proof.
  intros now node t. unfold scanNewElement. rewrite g_page.
  rewrite (neutral_fold _ (visitText now)) by apply neutral_visitText.
  rewrite g_page. apply neutral_fold. apply neutral_visitImage.
Qed.

Lemma neutral_onMutations : forall now nodes t,
    onMutations now nodes (g t) = g (onMutations now nodes t).
Proof.
  intros now nodes t. unfold onMutations.
  apply (neutral_fold _ (fun t1 node => scanNewElement now node t1)).
  intros t1 node. apply neutral_scanNewElement.
Qed.

Lemma neutral_scanExistingContent : forall now t,
    scanExistingContent now (g t) = g (scanExistingContent now t).
Proof.
  intros now t. unfold scanExistingContent, scanImageContent, scanGoogleSearchResults,
    scanTextContent. cbv zeta. rewrite g_page.
  rewrite (neutral_fold _ (visitText now)) by apply neutral_visitText.
  set (t1 := fold_left (visitText now) _ t). rewrite g_hostname.
  destruct (Js.includes (hostname t1) "google.").
  - rewrite (neutral_fold _ (fun t0 selector =>
                               fold_left (visitText now)
                                 (Dom.querySelectorAll [selector] (page t0)) t0)).
    + rewrite g_page. apply neutral_fold. apply neutral_visitImage.
    + intros t0 sel. rewrite g_page. apply neutral_fold. apply neutral_visitText.
  - rewrite g_page. apply neutral_fold. apply neutral_visitImage.
Qed.

End Neutral.

(** X12.  On a page that is allowlisted (an entry is inside the
    hostname or the hostname inside an entry), the scanner's [init]
    queues nothing, touches no element and starts no periodic rescan, yet
    it still installs the mutation observer.  And the observer's scan
    never looks at the allowlist: for any allowlist put into the
    settings, [onMutations] queues, marks and sends exactly what it does
    with the settings as they are.  So elements added later to an
    allowlisted page are analysed like on any other page. *)
Theorem mutation_scan_ignores_the_allowlist :
  forall (al : list string) (now : Z) (nodes : list nat) (t : Tab),
    onMutations now nodes (withAllowlist al t)
    = withAllowlist al (onMutations now nodes t) /\
    (forall s : Settings,
        isScanning t = false ->
        listedEitherWay (hostname t) (allowlist s) = true ->
        let t' := init (Some (Some s)) now t in
        observing t' = true /\ intervals t' = intervals t /\
        pushed t' = pushed t /\ outbox t' = outbox t /\ page t' = page t).
Proof.
  intros al now nodes t. split.
  - apply (neutral_onMutations (withAllowlist al)); intros; unfold withAllowlist.
    + destruct (settings t0); reflexivity.
    + destruct (settings t0); reflexivity.
    + destruct (settings t0); reflexivity.
    + destruct (settings t0) as [s|] eqn:E; cbn [settings setSettings].
      * repeat split.
      * rewrite E. exact I.
    + cbn [settings setPage]. destruct (settings t0); reflexivity.
    + cbn [settings setScanQueue]. destruct (settings t0); reflexivity.
    + cbn [settings setTimeouts]. destruct (settings t0); reflexivity.
    + cbn [settings sendMessage]. destruct (settings t0); reflexivity.
    + cbn [settings suspend]. destruct (settings t0); reflexivity.
    + cbn [settings recordPush]. destruct (settings t0); reflexivity.
  - intros s Hs Hl t'. unfold t', init, loadSettings.
    cbn [settings setSettings]. unfold startScanning.
    cbn [isScanning setSettings]. rewrite Hs.
    unfold isAllowlisted. cbn [settings hostname setSettings setIsScanning].
    unfold listedEitherWay in Hl. rewrite Hl. repeat split.
Qed.

Lemma destroy_when_idle : forall t,
    scanQueue t = [] -> destroy t = setIsScanning false (setObserving false t).
Proof.
  intros t H. unfold destroy, setScanQueue, setIsScanning, setObserving.
  cbn [page hostname blockedElements replacementElements listeners scanQueue isScanning
       settings intervals timeouts observing awaiting outbox nextRequest pushed
       dispatched]. rewrite H. reflexivity.
Qed.

(** X14.  [destroy] disconnects the mutation observer, clears
    [isScanning] and empties the queue, but it does not cancel the
    interval timer of [continuousScanning]: the number of timers is what
    it was.  And the timer's callback does not look at what [destroy]
    changed: with an empty queue, a periodic rescan after [destroy]
    queues, marks and sends exactly what it would have without it.  So
    after filtering has been switched off, the page goes on being
    scanned every five seconds. *)
Theorem destroy_does_not_stop_the_periodic_rescan :
  forall (t : Tab) (now : Z),
    scanQueue t = [] ->
    intervals (destroy t) = intervals t /\
    observing (destroy t) = false /\
    isScanning (destroy t) = false /\
    periodicRescan now (destroy t) = destroy (periodicRescan now t).
Proof.
  intros t now Hq. split; [reflexivity|]. split; [reflexivity|]. split; [reflexivity|].
  set (q := fun t => setIsScanning false (setObserving false t)).
  assert (Q : forall t0 now0, scanExistingContent now0 (q t0) = q (scanExistingContent now0 t0)).
  { intros t0 now0. apply (neutral_scanExistingContent q); intros; try reflexivity.
    unfold q. cbn [settings setIsScanning setObserving].
    destruct (settings t1); [repeat split | exact I]. }
  assert (Hq' : scanQueue (periodicRescan now t) = []).
  { destruct (periodicRescan_since now t t [] (since_refl t Hq)) as (more & S).
    apply S. }
  rewrite (destroy_when_idle _ Hq), (destroy_when_idle _ Hq'). fold (q t).
  fold (q (periodicRescan now t)).
  unfold periodicRescan.
  assert (A : isAllowlisted (q t) = isAllowlisted t) by reflexivity.
  rewrite A. destruct (isAllowlisted t) as [[|]|]; try reflexivity.
  apply Q.
Qed.

End NeutralFacts.

(** ** One verdict per element, and none without the Gateway *)

Module BookFacts.
Import ServiceWorker Tabs ContentScanner Pipeline Bookkeeping Manipulator.
Import SinceFacts SeparationFacts.

Lemma occ_app : forall x l1 l2, occ x (l1 ++ l2) = (occ x l1 + occ x l2)%nat.
Proof. intros x l1 l2. unfold occ. apply count_occ_app. Qed.

Lemma occ_one : forall x, occ x [x] = 1%nat.
Proof. intros x. unfold occ. simpl. destruct (Nat.eq_dec x x); [reflexivity | contradiction]. Qed.

Lemma awaitedOf_delete : forall id (m : list (nat * Await)) x,
    (occ x (awaitedOf (Js.delete Nat.eqb id m)) <= occ x (awaitedOf m))%nat.
Proof.
  intros id m x. unfold Js.delete, awaitedOf, occ.
  induction m as [|[k a] m IH]; [apply Nat.le_refl|]. cbn [filter fst].
  destruct (negb (Nat.eqb id k)); cbn [map count_occ snd];
    destruct (Nat.eq_dec (i_element (itemOf a)) x); lia.
Qed.

Lemma awaitedOf_taken : forall id (m : list (nat * Await)) a,
    Js.get Nat.eqb id m = Some a ->
    (occ (i_element (itemOf a)) (awaitedOf (Js.delete Nat.eqb id m)) + 1
     <= occ (i_element (itemOf a)) (awaitedOf m))%nat.
Proof.
  intros id m a. induction m as [|[k b] m IH]; [discriminate|].
  cbn [Js.get]. unfold Js.delete. cbn [filter fst].
  destruct (Nat.eqb id k) eqn:E; cbn [negb].
  - intros H. inversion H. subst b.
    pose proof (awaitedOf_delete id m (i_element (itemOf a))) as D.
    unfold Js.delete in D. unfold awaitedOf, occ in *. cbn [map count_occ snd].
    destruct (Nat.eq_dec (i_element (itemOf a)) (i_element (itemOf a)));
      [lia | contradiction].
  - intros H. specialize (IH H). unfold Js.delete in IH.
    unfold awaitedOf, occ in *. cbn [map count_occ snd].
    destruct (Nat.eq_dec (i_element (itemOf b)) (i_element (itemOf a))); lia.
Qed.

Lemma balanced_frame : forall t t',
    scanQueue t' = scanQueue t -> awaiting t' = awaiting t ->
    dispatched t' = dispatched t -> pushed t' = pushed t ->
    balanced t -> balanced t'.
Proof.
  intros t t' H1 H2 H3 H4 B x. specialize (B x).
  unfold queuedElements, awaitedElements, dispatchedElements, pushedElements in *.
  rewrite H1, H2, H3, H4. exact B.
Qed.

Lemma balanced_processQueue : forall t, balanced t -> balanced (processQueue t).
Proof.
  intros t B. unfold processQueue.
  destruct (scanQueue t) as [|item rest] eqn:E; [exact B|].
  assert (B1 : forall x, (occ x (map i_element rest) + occ x (awaitedElements t)
                          + occ x [i_element item] + occ x (dispatchedElements t)
                          <= occ x (pushedElements t))%nat).
  { intros x. specialize (B x). unfold queuedElements in B. rewrite E in B.
    change (map i_element (item :: rest)) with ([i_element item] ++ map i_element rest) in B.
    rewrite occ_app in B. lia. }
  destruct (i_type item).
  - unfold analyzeText, continueProcessing.
    cbn [settings scanQueue markProcessed setPage setScanQueue].
    destruct (settings t) as [s|].
    + intros x. specialize (B1 x).
      unfold queuedElements, awaitedElements, dispatchedElements, pushedElements, awaitedOf
        in *.
      cbn [scanQueue awaiting dispatched pushed sendMessage markProcessed setPage
           setScanQueue]. rewrite map_app, occ_app. cbn [map snd itemOf]. lia.
    + assert (B2 : balanced (markProcessed (i_element item) (setScanQueue rest t))).
      { intros x. specialize (B1 x).
        unfold queuedElements, awaitedElements, dispatchedElements, pushedElements in *.
        cbn [scanQueue awaiting dispatched pushed markProcessed setPage setScanQueue].
        lia. }
      destruct rest; [exact B2|].
      apply (balanced_frame (markProcessed (i_element item) (setScanQueue (i :: rest) t)));
        [reflexivity.. | exact B2].
  - unfold analyzeImage. intros x. specialize (B1 x).
    unfold queuedElements, awaitedElements, dispatchedElements, pushedElements, awaitedOf
      in *.
    cbn [scanQueue awaiting dispatched pushed suspend markProcessed setPage setScanQueue].
    rewrite map_app, occ_app. cbn [map snd itemOf]. lia.
Qed.

Lemma balanced_push : forall item t, balanced t -> balanced (recordPush item t).
Proof.
  intros item t B x. specialize (B x).
  unfold queuedElements, awaitedElements, dispatchedElements, pushedElements in *.
  cbn [scanQueue awaiting dispatched pushed recordPush].
  rewrite !map_app, !occ_app. lia.
Qed.

Lemma balanced_visitText : forall now t x, balanced t -> balanced (visitText now t x).
Proof.
  intros now t x B. unfold visitText.
  destruct (shouldIgnoreElement x t); [exact B|].
  destruct (shouldAnalyzeText _); [|exact B].
  unfold queueTextAnalysis. apply balanced_processQueue, balanced_push, B.
Qed.

Lemma balanced_visitImage : forall now t x, balanced t -> balanced (visitImage now t x).
Proof.
  intros now t x B. unfold visitImage.
  destruct (shouldIgnoreElement x t); [exact B|].
  destruct (shouldAnalyzeImage _ _); [|exact B].
  unfold queueImageAnalysis. apply balanced_processQueue, balanced_push, B.
Qed.

Lemma balanced_fold : forall (B : Type) (f : Tab -> B -> Tab) l t,
    (forall t x, balanced t -> balanced (f t x)) ->
    balanced t -> balanced (fold_left f l t).
Proof.
  intros B f l. induction l as [|x l IH]; intros t H F; [exact F|].
  simpl. apply IH; [exact H | apply H; exact F].
Qed.

Lemma balanced_scanExistingContent : forall now t,
    balanced t -> balanced (scanExistingContent now t).
Proof.
  intros now t F. unfold scanExistingContent, scanImageContent, scanGoogleSearchResults,
    scanTextContent.
  apply balanced_fold; [apply balanced_visitImage|].
  assert (F1 : balanced (fold_left (visitText now)
                           (Dom.querySelectorAll textSelectors (page t)) t))
    by (apply balanced_fold; [apply balanced_visitText | exact F]).
  destruct (Js.includes _ _); [|exact F1].
  apply balanced_fold; [|exact F1].
  intros t0 sel F0. apply balanced_fold; [apply balanced_visitText | exact F0].
Qed.

Lemma balanced_startScanning : forall now t, balanced t -> balanced (startScanning now t).
Proof.
  intros now t F. unfold startScanning. destruct (isScanning t); [exact F|].
  assert (F1 : balanced (setIsScanning true t))
    by (apply (balanced_frame t); [reflexivity.. | exact F]).
  destruct (isAllowlisted _) as [[|]|]; try exact F1.
  apply (balanced_frame (scanExistingContent now (setIsScanning true t)));
    [reflexivity.. |]. apply balanced_scanExistingContent. exact F1.
Qed.

Lemma balanced_init : forall answer now t, balanced t -> balanced (init answer now t).
Proof.
  intros answer now t F. unfold init.
  assert (F1 : balanced (loadSettings answer t))
    by (apply (balanced_frame t); [destruct answer as [[s|]|]; reflexivity.. | exact F]).
  destruct (settings (loadSettings answer t));
    [|destruct (isScanning (loadSettings answer t))].
  - apply (balanced_frame (startScanning now (loadSettings answer t))); [reflexivity..|].
    apply balanced_startScanning. exact F1.
  - apply (balanced_frame (startScanning now (loadSettings answer t))); [reflexivity..|].
    apply balanced_startScanning. exact F1.
  - apply balanced_startScanning. exact F1.
Qed.

Lemma balanced_periodicRescan : forall now t,
    balanced t -> balanced (periodicRescan now t).
Proof.
  intros now t F. unfold periodicRescan.
  destruct (isAllowlisted t) as [[|]|]; try exact F.
  apply balanced_scanExistingContent. exact F.
Qed.

Lemma balanced_onMutations : forall now nodes t,
    balanced t -> balanced (onMutations now nodes t).
Proof.
  intros now nodes t F. unfold onMutations. apply balanced_fold; [|exact F].
  intros t0 node F0. unfold scanNewElement.
  apply balanced_fold; [apply balanced_visitImage|].
  apply balanced_fold; [apply balanced_visitText | exact F0].
Qed.

Lemma balanced_onTimeout : forall t, balanced t -> balanced (onTimeout t).
Proof.
  intros t F. unfold onTimeout. destruct (timeouts t) as [|n]; [exact F|].
  apply balanced_processQueue. apply (balanced_frame t); [reflexivity.. | exact F].
Qed.

Lemma balanced_continueProcessing : forall t,
    balanced t -> balanced (continueProcessing t).
Proof.
  intros t F. unfold continueProcessing. destruct (scanQueue t) eqn:E; [exact F|].
  apply (balanced_frame t); [reflexivity.. | exact F].
Qed.

(** Taking an analysis off the waiting list, and putting its element
    on one of the lists again. *)
Lemma balanced_taken : forall id a t t',
    findAwaiting id t = Some a ->
    balanced t ->
    scanQueue t' = scanQueue t -> pushed t' = pushed t ->
    (forall x, (occ x (awaitedElements t') + occ x (dispatchedElements t')
                <= occ x (awaitedOf (Js.delete Nat.eqb id (awaiting t)))
                   + occ x [i_element (itemOf a)]
                   + occ x (dispatchedElements t))%nat) ->
    balanced t'.
Proof.
  intros id a t t' Hf B H1 H2 H x. specialize (B x). specialize (H x).
  unfold findAwaiting in Hf.
  pose proof (awaitedOf_taken id (awaiting t) a Hf) as T.
  pose proof (awaitedOf_delete id (awaiting t) x) as D.
  unfold queuedElements, pushedElements in *. rewrite H1, H2.
  unfold awaitedElements in B.
  destruct (Nat.eq_dec (i_element (itemOf a)) x) as [Q|Q].
  - subst x. rewrite occ_one in H. lia.
  - assert (Z0 : occ x [i_element (itemOf a)] = 0%nat).
    { unfold occ. simpl. destruct (Nat.eq_dec (i_element (itemOf a)) x);
        [contradiction | reflexivity]. }
    lia.
Qed.

Lemma balanced_onImageData : forall id d t,
    balanced t -> balanced (onImageData id d t).
Proof.
  intros id d t F. unfold onImageData.
  destruct (findAwaiting id t) as [[item|item]|] eqn:A; try exact F. cbv zeta.
  assert (G : forall t', scanQueue t' = scanQueue t -> pushed t' = pushed t ->
                         dispatched t' = dispatched t ->
                         (awaiting t' = Js.delete Nat.eqb id (awaiting t) \/
                          exists n, awaiting t' = Js.delete Nat.eqb id (awaiting t)
                                                  ++ [(n, AwaitResponse item)]) ->
                         balanced t').
  { intros t' H1 H2 H3 H4. apply (balanced_taken id (AwaitImageData item) t t' A F H1 H2).
    intros x. unfold awaitedElements, dispatchedElements. rewrite H3.
    destruct H4 as [H4|[n H4]]; rewrite H4.
    - lia.
    - unfold awaitedOf. rewrite map_app, occ_app. cbn [map snd itemOf]. lia. }
  destruct d as [d|].
  - destruct (settings (dropAwaiting id t)) as [s|] eqn:S.
    + apply G; try reflexivity. right. eexists. reflexivity.
    + apply balanced_continueProcessing. apply G; try reflexivity. left. reflexivity.
  - apply balanced_continueProcessing. apply G; try reflexivity. left. reflexivity.
Qed.

Lemma awaiting_handleUnsafeContent : forall d t,
    awaiting (DOMManipulator.handleUnsafeContent d t) = awaiting t.
Proof.
  intros d t. unfold DOMManipulator.handleUnsafeContent.
  destruct (Js.setHas _ _); [reflexivity|].
  destruct (DOMManipulator.getBlockingMethod _ _).
  - unfold DOMManipulator.replaceContent. simpl.
    destruct (Dom.replaceChild _ _ _); reflexivity.
  - reflexivity.
  - unfold DOMManipulator.hideContent. simpl.
    destruct (Dom.insertBefore _ _ _); reflexivity.
Qed.

Lemma balanced_onResponse : forall id r t, balanced t -> balanced (onResponse id r t).
Proof.
  intros id r t F. unfold onResponse.
  destruct (findAwaiting id t) as [[item|item]|] eqn:A; try exact F. cbv zeta.
  apply balanced_continueProcessing.
  assert (G : forall t', scanQueue t' = scanQueue t -> pushed t' = pushed t ->
                         awaiting t' = Js.delete Nat.eqb id (awaiting t) ->
                         (dispatched t' = dispatched t \/
                          exists res, dispatched t'
                                      = dispatched t
                                        ++ [{| d_element := i_element item;
                                               d_type := i_type item;
                                               d_analysisResult := res |}]) ->
                         balanced t').
  { intros t' H1 H2 H3 H4. apply (balanced_taken id (AwaitResponse item) t t' A F H1 H2).
    intros x. unfold awaitedElements, dispatchedElements. rewrite H3.
    destruct H4 as [H4|[res H4]]; rewrite H4.
    - lia.
    - rewrite map_app, occ_app. cbn [map d_element itemOf]. lia. }
  destruct r as [result|err]; [|apply G; try reflexivity; left; reflexivity].
  destruct (negb (is_safe result)); [|apply G; try reflexivity; left; reflexivity].
  unfold handleUnsafeContent. apply G.
  - rewrite queue_empty_handleUnsafeContent. reflexivity.
  - rewrite (proj1 (pushed_handleUnsafeContent _ _)). reflexivity.
  - rewrite awaiting_handleUnsafeContent. reflexivity.
  - right. exists result. rewrite VerdictFacts.dispatched_handleUnsafeContent. reflexivity.
Qed.

Lemma awaiting_onUser : forall u t, awaiting (DOMManipulator.onUser u t) = awaiting t.
Proof.
  intros u t. destruct u as [c confirmed | e | b | ]; simpl.
  - destruct (find _ _) as [[c' o ty| |]|]; try reflexivity.
    unfold DOMManipulator.showOriginalContent.
    destruct confirmed; [|reflexivity].
    destruct (Dom.replaceChild _ _ _); reflexivity.
  - destruct (existsb _ _); reflexivity.
  - destruct (find _ _) as [[| |b' e' od]|]; reflexivity.
  - unfold DOMManipulator.restoreAllContent.
    destruct (DOMManipulator.restoreReplaced _ _); reflexivity.
Qed.

Lemma dispatched_onUser : forall u t, dispatched (DOMManipulator.onUser u t) = dispatched t.
Proof.
  intros u t. destruct u as [c confirmed | e | b | ]; simpl.
  - destruct (find _ _) as [[c' o ty| |]|]; try reflexivity.
    unfold DOMManipulator.showOriginalContent.
    destruct confirmed; [|reflexivity].
    destruct (Dom.replaceChild _ _ _); reflexivity.
  - destruct (existsb _ _); reflexivity.
  - destruct (find _ _) as [[| |b' e' od]|]; reflexivity.
  - unfold DOMManipulator.restoreAllContent.
    destruct (DOMManipulator.restoreReplaced _ _); reflexivity.
Qed.

Lemma balanced_step : forall s e, balanced (tab s) -> balanced (tab (step s e)).
Proof.
  intros s e B. destruct e; simpl.
  - apply balanced_init; exact B.
  - apply balanced_periodicRescan; exact B.
  - apply balanced_onMutations; exact B.
  - apply balanced_onTimeout; exact B.
  - apply balanced_onImageData; exact B.
  - apply (balanced_frame (tab s)); [| | | |exact B].
    + apply queue_empty_onUser.
    + apply awaiting_onUser.
    + apply dispatched_onUser.
    + apply DiscoveryFacts.pushed_onUser.
  - destruct (Js.get _ _ _); simpl; [|exact B].
    apply (balanced_frame (tab s)); [reflexivity.. | exact B].
  - exact B.
  - destruct (Js.get _ _ _); simpl; [apply balanced_onResponse; exact B | exact B].
Qed.

Lemma balanced_run : forall es s, balanced (tab s) -> balanced (tab (run s es)).
Proof.
  induction es as [|e es IH]; intros s B; [exact B|].
  simpl. apply IH. apply balanced_step. exact B.
Qed.

Lemma occ_In : forall x l, In x l <-> (0 < occ x l)%nat.
Proof. intros x l. unfold occ. apply (count_occ_In Nat.eq_dec). Qed.

Lemma NoDup_occ : forall l, NoDup l <-> forall x, (occ x l <= 1)%nat.
Proof. intros l. unfold occ. apply (NoDup_count_occ Nat.eq_dec). Qed.

(** X16.  On a well-formed page, whatever the sequence of events of
    the pipeline: no element has two analyses waiting, no element is
    reported unsafe twice, no element is waiting for a verdict after it
    has been reported, and every element waiting or reported was queued
    by the scanner before.  So each element of the page gets at most one
    verdict handled, however many scans, answers and clicks there are. *)
Theorem each_element_is_reported_at_most_once :
  forall (p : Dom.Page) (host : string) (es : list Event),
    Dom.wellFormed p = true ->
    let t := tab (run (start p host) es) in
    NoDup (awaitedElements t ++ dispatchedElements t) /\
    (forall x, In x (awaitedElements t ++ dispatchedElements t) ->
               In x (pushedElements t)).
Proof.
  intros p host es Hwf t.
  assert (B : balanced t).
  { unfold t. apply balanced_run. intros x. simpl. apply Nat.le_refl. }
  assert (N : NoDup (pushedElements t)).
  { unfold t, pushedElements.
    apply (DiscoveryFacts.settled_run es (start p host)
             (DiscoveryFacts.settled_start p host Hwf)). }
  split.
  - apply NoDup_occ. intros x. rewrite occ_app.
    pose proof (proj1 (NoDup_occ _) N x). specialize (B x). lia.
  - intros x H. apply occ_In. apply occ_In in H. rewrite occ_app in H.
    specialize (B x). lia.
Qed.

(** *** No block without an unsafe verdict of the Gateway *)

Lemma fromGateway_more : forall es e r, fromGateway es r -> fromGateway (es ++ [e]) r.
Proof.
  intros es e r (id & st & now & err & H & Hok).
  exists id, st, now, err. split; [apply in_or_app; left; exact H | exact Hok].
Qed.

Lemma In_setAdd : forall x y s, In x (Js.setAdd y s) -> In x s \/ x = y.
Proof.
  intros x y s. unfold Js.setAdd. destruct (Js.setHas y s); [left; assumption|].
  intros H. apply in_app_or in H. destruct H as [H|[H|[]]]; [left; exact H | right; auto].
Qed.

Lemma blocked_handleUnsafeContent : forall d t x,
    In x (blockedElements (DOMManipulator.handleUnsafeContent d t)) ->
    In x (blockedElements t) \/ x = d_element d.
Proof.
  intros d t x. unfold DOMManipulator.handleUnsafeContent.
  destruct (Js.setHas _ _); [left; assumption|].
  destruct (DOMManipulator.getBlockingMethod _ _).
  - rewrite BlockedFacts.blocked_replaceContent. apply In_setAdd.
  - rewrite BlockedFacts.blocked_blurContent. apply In_setAdd.
  - rewrite BlockedFacts.blocked_hideContent. apply In_setAdd.
Qed.

Lemma blocked_onUser : forall u t x,
    In x (blockedElements (DOMManipulator.onUser u t)) -> In x (blockedElements t).
Proof.
  intros u t x. destruct u as [c confirmed | e | b | ]; simpl.
  - destruct (find _ _) as [[c' o ty| |]|]; try (intros H; exact H).
    unfold DOMManipulator.showOriginalContent.
    destruct confirmed; [|intros H; exact H].
    destruct (Dom.replaceChild _ _ _); [|intros H; exact H].
    cbn [blockedElements setBlockedElements]. unfold Js.setDelete.
    intros H. apply filter_In in H. apply H.
  - destruct (existsb _ _); [|intros H; exact H].
    unfold DOMManipulator.removeBlur. cbn [blockedElements setBlockedElements].
    unfold Js.setDelete. intros H. apply filter_In in H. apply H.
  - destruct (find _ _) as [[| |b' e' od]|]; try (intros H; exact H).
    unfold DOMManipulator.showHidden. cbn [blockedElements setBlockedElements].
    unfold Js.setDelete. intros H. apply filter_In in H. apply H.
  - unfold DOMManipulator.restoreAllContent.
    destruct (DOMManipulator.restoreReplaced _ _); [|intros H; exact H].
    cbn [blockedElements setBlockedElements]. intros [].
Qed.

Lemma hit_In : forall key now (c : Cache) r,
    fst (getFromCache key now c) = Some r -> exists e, In (key, e) c /\ data e = r.
Proof.
  intros key now c r H. apply CacheFacts.getFromCache_hit in H.
  destruct H as (e & G & D & _). exists e. split; [|exact D]. clear D.
  induction c as [|[k v] c IH]; [discriminate|]. simpl in G.
  destruct (CacheKey_eqb key k) eqn:E.
  - apply CacheKey_eqb_spec in E. inversion G. subst. left. reflexivity.
  - right. apply IH. exact G.
Qed.

Lemma justified_tab : forall es s e (f : Tab -> Tab),
    justified es s ->
    state (f (tab s)) = state (tab s) ->
    justified (es ++ [e]) {| tab := f (tab s); worker := worker s |}.
Proof.
  intros es s e f (J1 & J2 & J3 & J4) H. unfold state in H. inversion H as [[H1 H2 H3 H4]].
  unfold justified. cbn [tab worker]. rewrite H1, H4.
  split; [exact J1|]. split; [|split].
  - intros d Hd. destruct (J2 d Hd) as [A B]. split; [exact A|].
    apply fromGateway_more. exact B.
  - intros id r Hr. apply fromGateway_more. apply (J3 id r Hr).
  - intros k en Hk. apply fromGateway_more. apply (J4 k en Hk).
Qed.

Lemma justified_step : forall es s e, justified es s -> justified (es ++ [e]) (step s e).
Proof.
  intros es s e J. pose proof J as (J1 & J2 & J3 & J4).
  assert (M2 : forall d, In d (dispatched (tab s)) ->
                         is_safe (d_analysisResult d) = false /\
                         fromGateway (es ++ [e]) (d_analysisResult d)).
  { intros d Hd. destruct (J2 d Hd) as [A B]. split; [exact A|].
    apply fromGateway_more. exact B. }
  assert (M3 : forall id r, In (id, Success r) (responses (worker s)) ->
                            fromGateway (es ++ [e]) r)
    by (intros id r Hr; apply fromGateway_more; apply (J3 id r Hr)).
  assert (M4 : forall k en, In (k, en) (analysisCache (worker s)) ->
                            fromGateway (es ++ [e]) (data en))
    by (intros k en Hk; apply fromGateway_more; apply (J4 k en Hk)).
  destruct e as [answer now | now | now nodes | | id d | u | id now | id o now err | id].
  - apply (justified_tab es s _ (init answer now) J). apply state_init.
  - apply (justified_tab es s _ (periodicRescan now) J). apply state_periodicRescan.
  - apply (justified_tab es s _ (onMutations now nodes) J). apply state_onMutations.
  - apply (justified_tab es s _ onTimeout J). apply state_onTimeout.
  - apply (justified_tab es s _ (onImageData id d) J). apply state_onImageData.
  - unfold justified. cbn [step onTab tab worker]. rewrite dispatched_onUser.
    split; [|split; [exact M2 | split; [exact M3 | exact M4]]].
    intros x Hx. apply J1. apply (blocked_onUser _ _ _ Hx).
  - cbn [step]. destruct (Js.get Nat.eqb id (outbox (tab s))) as [m|];
      [|split; [exact J1 | split; [exact M2 | split; [exact M3 | exact M4]]]].
    unfold justified. cbn [onWorker onTab tab worker takeFromOutbox blockedElements
                             dispatched].
    split; [exact J1|]. split; [exact M2|].
    assert (K : forall type dd,
               (forall i r, In (i, Success r)
                              (responses (handleAnalysis type id dd now (worker s))) ->
                            fromGateway (es ++ [Deliver id now]) r) /\
               (forall k en, In (k, en)
                               (analysisCache (handleAnalysis type id dd now (worker s))) ->
                             fromGateway (es ++ [Deliver id now]) (data en))).
    { intros type dd.
      destruct (AnswerFacts.handleAnalysis_cases type id dd now (worker s)) as (Hc & C).
      split.
      - intros i r Hr.
        destruct C as [(r0 & Hit & Hresp & _)|(_ & Hresp & _)]; rewrite Hresp in Hr.
        + apply in_app_or in Hr. destruct Hr as [Hr|[Hr|[]]]; [apply (M3 i r Hr)|].
          inversion Hr. subst i r0.
          destruct (hit_In _ _ _ _ Hit) as (en & Hin & Hd). rewrite <- Hd.
          apply (M4 _ en Hin).
        + apply (M3 i r Hr).
      - intros k en Hk. rewrite Hc in Hk. apply AnswerFacts.In_getFromCache in Hk.
        apply (M4 k en Hk). }
    destruct m as [dd|dd]; cbn [ServiceWorker.step]; apply K.
  - unfold justified. cbn [step onWorker tab worker ServiceWorker.step].
    split; [exact J1|]. split; [exact M2|].
    destruct (findSuspended id (suspended (worker s))) as [p|] eqn:F;
      [|unfold resumeAnalysis; rewrite F; split; [exact M3 | exact M4]].
    assert (G : forall result, makeApiRequest o = inl result ->
                               fromGateway (es ++ [FetchSettled id o now err]) result).
    { intros result Hm. destruct (AnswerFacts.makeApiRequest_inl _ _ Hm) as (st & -> & Hok).
      exists id, st, now, err. split; [apply in_or_app; right; left; reflexivity | exact Hok]. }
    split.
    + intros i r Hr. unfold resumeAnalysis in Hr. rewrite F in Hr. cbv zeta in Hr.
      destruct (makeApiRequest o) as [result|msg] eqn:Hm.
      * destruct err as [msg|]; cbn [responses sendResponse withCache] in Hr;
          apply in_app_or in Hr; destruct Hr as [Hr|[Hr|[]]];
          try (apply (M3 i r Hr)); [discriminate Hr|].
        inversion Hr. subst. apply G. reflexivity.
      * cbn [responses sendResponse] in Hr. apply in_app_or in Hr.
        destruct Hr as [Hr|[Hr|[]]]; [apply (M3 i r Hr) | discriminate Hr].
    + intros k en Hk.
      destruct (AnswerFacts.resumeAnalysis_cases id o now err (worker s) p F)
        as (_ & _ & _ & C).
      destruct C as [(msg & _ & Hc)|(result & Hm & Hc)]; rewrite Hc in Hk;
        [apply (M4 k en Hk)|].
      apply AnswerFacts.In_setCache in Hk. destruct Hk as [[_ ->]|Hk];
        [apply G; exact Hm | apply (M4 k en Hk)].
  - cbn [step]. destruct (Js.get Nat.eqb id (responses (worker s))) as [r|] eqn:R;
      [|split; [exact J1 | split; [exact M2 | split; [exact M3 | exact M4]]]].
    apply FilterFacts.get_In in R.
    unfold justified. cbn [onTab tab worker].
    split; [|split; [|split; [exact M3 | exact M4]]].
    + intros x Hx. unfold onResponse in *.
      destruct (findAwaiting id (tab s)) as [[item|item]|]; try (apply J1; exact Hx).
      destruct (VerdictFacts.continueProcessing_fields
                  match r with
                  | Success result =>
                      if negb (is_safe result)
                      then handleUnsafeContent (i_element item) (i_type item) result
                             (dropAwaiting id (tab s))
                      else dropAwaiting id (tab s)
                  | Failure _ => dropAwaiting id (tab s)
                  end) as (_ & F2 & F3 & _).
      rewrite F2 in Hx. rewrite F3.
      destruct r as [result|msg]; [|apply J1; exact Hx].
      destruct (negb (is_safe result)); [|apply J1; exact Hx].
      unfold handleUnsafeContent in *.
      rewrite VerdictFacts.dispatched_handleUnsafeContent.
      cbn [dispatched recordDispatch dropAwaiting setAwaiting].
      apply blocked_handleUnsafeContent in Hx.
      cbn [blockedElements recordDispatch dropAwaiting setAwaiting d_element] in Hx.
      destruct Hx as [Hx|Hx].
      * destruct (J1 x Hx) as (d & Hd & Hel). exists d. split; [|exact Hel].
        apply in_or_app. left. exact Hd.
      * eexists. split; [apply in_or_app; right; left; reflexivity|].
        cbn [d_element]. symmetry. exact Hx.
    + intros d Hd. unfold onResponse in Hd.
      destruct (findAwaiting id (tab s)) as [[item|item]|]; try (apply M2; exact Hd).
      destruct (VerdictFacts.continueProcessing_fields
                  match r with
                  | Success result =>
                      if negb (is_safe result)
                      then handleUnsafeContent (i_element item) (i_type item) result
                             (dropAwaiting id (tab s))
                      else dropAwaiting id (tab s)
                  | Failure _ => dropAwaiting id (tab s)
                  end) as (_ & _ & F3 & _).
      rewrite F3 in Hd.
      destruct r as [result|msg]; [|apply M2; exact Hd].
      destruct (negb (is_safe result)) eqn:U; [|apply M2; exact Hd].
      unfold handleUnsafeContent in Hd.
      rewrite VerdictFacts.dispatched_handleUnsafeContent in Hd.
      cbn [dispatched recordDispatch dropAwaiting setAwaiting] in Hd.
      apply in_app_or in Hd. destruct Hd as [Hd|[Hd|[]]]; [apply M2; exact Hd|].
      subst d. cbn [d_analysisResult]. split.
      * apply negb_true_iff. exact U.
      * apply (M3 id result R).
Qed.

(** X17.  Whatever the sequence of events of the pipeline: an element
    is tracked as blocked only if an unsafe-content event was dispatched
    for it; every unsafe-content event carries a verdict whose [is_safe]
    is false; and that verdict is the body of a Gateway response that
    arrived with a success status (served at once or from the cache).  So
    nothing is blocked without an unsafe verdict of the Gateway: not
    after a failed request, not after a safe verdict, not by a click. *)
Theorem nothing_is_blocked_without_an_unsafe_verdict :
  forall (p : Dom.Page) (host : string) (es : list Event),
    let s := run (start p host) es in
    (forall x, In x (blockedElements (tab s)) ->
               exists d, In d (dispatched (tab s)) /\ d_element d = x) /\
    (forall d, In d (dispatched (tab s)) ->
               is_safe (d_analysisResult d) = false /\
               exists id status now err,
                 In (FetchSettled id (HttpResponse status (Some (d_analysisResult d)))
                                  now err) es /\
                 response_ok status = true).
Proof.
  intros p host es s.
  assert (J : justified es s).
  { unfold s. induction es as [|e es IH] using rev_ind.
    - unfold justified. simpl. repeat split; intros; contradiction.
    - unfold run. rewrite fold_left_app. apply justified_step. exact IH. }
  destruct J as (J1 & J2 & _). split; [exact J1 | exact J2].
Qed.

End BookFacts.

(** ** When the settings cannot be read *)

Module InitFacts.
Import Tabs ContentScanner.

(** X18.  Take a scanner that has not started and has no settings
    yet.  When reading the answer to GET_SETTINGS throws, [init] scans
    nothing: it sets [isScanning] and stops there, with no mutation
    observer and no interval timer; after that a rescan callback, a
    resume and the analysis of a queued text all do nothing, so the page
    is never analysed.  When the worker answers without success, the
    defaults are used instead: no site is allowlisted, the page is
    scanned, the observer is installed and the interval timer is
    started. *)
Theorem settings_failure_disables_the_scanner :
  forall (t : Tab) (now now' : Z) (item : Item),
    isScanning t = false ->
    settings t = None ->
    let t1 := init None now t in
    t1 = setIsScanning true t /\
    periodicRescan now' t1 = t1 /\
    ContentScript.resumeScanning true now' t1 = t1 /\
    outbox (analyzeText item t1) = outbox t1 /\
    init (Some None) now t
    = setupMutationObserver
        (continuousScanning
           (scanExistingContent now
              (setIsScanning true (setSettings (Some defaultSettings) t)))).
Proof.
  intros t now now' item Hs Hn t1.
  assert (E : t1 = setIsScanning true t).
  { unfold t1, init, loadSettings. rewrite Hn. unfold startScanning. rewrite Hs.
    unfold isAllowlisted. cbn [settings setIsScanning]. rewrite Hn. reflexivity. }
  split; [exact E|]. rewrite E. split; [|split; [|split]].
  - unfold periodicRescan, isAllowlisted. cbn [settings setIsScanning]. rewrite Hn.
    reflexivity.
  - unfold ContentScript.resumeScanning, startScanning. cbn [isScanning setIsScanning].
    reflexivity.
  - unfold analyzeText, continueProcessing. cbn [settings setIsScanning]. rewrite Hn.
    destruct (scanQueue (setIsScanning true t)); reflexivity.
  - unfold init, loadSettings. cbn [settings setSettings]. unfold startScanning.
    cbn [isScanning setSettings]. rewrite Hs. reflexivity.
Qed.

End InitFacts.

(** ** What a scan queues was wanted *)

Module OriginFacts.
Import Dom Tabs ContentScanner MarkFacts ScanFacts Origin.

(** What one visit of a text candidate adds. *)
Lemma visitText_origin : forall now t t' items x,
    since t t' items ->
    exists more,
      since t (visitText now t' x) (items ++ more) /\
      (forall item, In item more ->
                    i_type item = text /\ i_element item = x /\
                    i_timestamp item = now /\ wantsText t x = true /\
                    i_content item = extractText x t).
Proof.
  intros now t t' items x S.
  pose proof S as (H1 & H2 & H3 & H4 & H5 & H6).
  pose proof (shouldIgnoreElement_markAll x _ t t' H3) as Hign.
  pose proof (extractText_markAll x _ t t' H3) as Htxt.
  unfold visitText, wantsText.
  destruct (shouldIgnoreElement x t') eqn:E.
  - exists []. rewrite app_nil_r. split; [exact S | intros item []].
  - symmetry in Hign. apply orb_false_iff in Hign. destruct Hign as [Hi1 Hi2].
    rewrite Htxt. destruct (shouldAnalyzeText (extractText x t)) eqn:A.
    + destruct (queueTextAnalysis_effect x (extractText x t) now t' H1)
        as (Q1 & Q2 & Q3 & Q4).
      exists [{| i_type := text; i_element := x; i_content := extractText x t;
                 i_timestamp := now |}]. split.
      * apply (since_push t t' _ items _ S); simpl; assumption.
      * intros item [Hi|[]]. subst item. simpl. rewrite Hi1.
        repeat split; reflexivity.
    + exists []. rewrite app_nil_r. split; [exact S | intros item []].
Qed.

Lemma visitImage_origin : forall now t t' items x,
    since t t' items ->
    exists more,
      since t (visitImage now t' x) (items ++ more) /\
      (forall item, In item more ->
                    i_type item = image /\ i_element item = x /\
                    i_timestamp item = now /\ wantsImage t x = true /\
                    i_content item = "").
Proof.
  intros now t t' items x S.
  pose proof S as (H1 & H2 & H3 & H4 & H5 & H6).
  pose proof (shouldIgnoreElement_markAll x _ t t' H3) as Hign.
  pose proof (shouldAnalyzeImage_markAll x _ t t' H3) as Himg.
  unfold visitImage, wantsImage.
  destruct (shouldIgnoreElement x t') eqn:E.
  - exists []. rewrite app_nil_r. split; [exact S | intros item []].
  - symmetry in Hign. apply orb_false_iff in Hign. destruct Hign as [Hi1 Hi2].
    rewrite Himg. destruct (shouldAnalyzeImage x t) eqn:A.
    + destruct (queueImageAnalysis_effect x now t' H1) as (Q1 & Q2 & Q3 & Q4).
      exists [{| i_type := image; i_element := x; i_content := "";
                 i_timestamp := now |}]. split.
      * apply (since_push t t' _ items _ S); simpl; assumption.
      * intros item [Hi|[]]. subst item. simpl. rewrite Hi1.
        repeat split; reflexivity.
    + exists []. rewrite app_nil_r. split; [exact S | intros item []].
Qed.

(** A pass over a list of candidates adds entries for members of the
    list only. *)
Lemma pass_origin : forall (visit : Z -> Tab -> nat -> Tab) (P : Tab -> Z -> nat -> Item -> Prop),
    (forall now t t' items x,
        since t t' items ->
        exists more, since t (visit now t' x) (items ++ more) /\
                     (forall item, In item more -> P t now x item)) ->
    forall now t l t' items,
      since t t' items ->
      exists more,
        since t (fold_left (visit now) l t') (items ++ more) /\
        (forall item, In item more -> exists x, In x l /\ P t now x item).
Proof.
  intros visit P Hv now t. induction l as [|y l IH]; intros t' items S.
  - exists []. rewrite app_nil_r. split; [exact S | intros item []].
  - destruct (Hv now t t' items y S) as (m1 & S1 & C1).
    destruct (IH (visit now t' y) (items ++ m1) S1) as (m2 & S2 & C2).
    exists (m1 ++ m2). rewrite app_assoc. split; [exact S2|].
    intros item Hi. apply in_app_or in Hi. destruct Hi as [Hi|Hi].
    + exists y. split; [left; reflexivity | apply C1; exact Hi].
    + destruct (C2 item Hi) as (x & Hx & Px).
      exists x. split; [right; exact Hx | exact Px].
Qed.

Lemma googlePass_origin : forall now t sels t' items,
    forallb (fun sel => plainSelectors [sel]) sels = true ->
    since t t' items ->
    exists more,
      since t (fold_left
                 (fun t1 selector =>
                    fold_left (visitText now)
                              (querySelectorAll [selector] (page t1)) t1)
                 sels t') (items ++ more) /\
      (forall item, In item more ->
         exists sel, In sel sels /\
                     In (i_element item) (querySelectorAll [sel] (page t)) /\
                     i_type item = text /\ i_timestamp item = now /\
                     wantsText t (i_element item) = true /\
                     i_content item = extractText (i_element item) t).
Proof.
  intros now t. induction sels as [|sel sels IH]; intros t' items Hp S.
  - exists []. rewrite app_nil_r. split; [exact S | intros item []].
  - simpl in Hp. apply andb_true_iff in Hp. destruct Hp as [Hsel Hrest].
    simpl.
    destruct (pass_origin visitText _ visitText_origin now t
                (querySelectorAll [sel] (page t')) t' items S) as (m1 & S1 & C1).
    rewrite (since_query [sel] t t' items S Hsel) in C1.
    destruct (IH _ (items ++ m1) Hrest S1) as (m2 & S2 & C2).
    exists (m1 ++ m2). rewrite app_assoc. split; [exact S2|].
    intros item Hi. apply in_app_or in Hi. destruct Hi as [Hi|Hi].
    + destruct (C1 item Hi) as (x & Hx & T & Ex & Ts & W & Ct). subst x.
      exists sel. split; [left; reflexivity|]. repeat split; assumption.
    + destruct (C2 item Hi) as (sel' & Hs & R).
      exists sel'. split; [right; exact Hs | exact R].
Qed.

Lemma scanned_text : forall now t item x,
    textCandidate t x ->
    i_type item = text /\ i_element item = x /\ i_timestamp item = now /\
    wantsText t x = true /\ i_content item = extractText x t ->
    scanned t now item.
Proof.
  intros now t item x C (T & Ex & Ts & W & Ct). subst x.
  unfold scanned. rewrite T. repeat split; assumption.
Qed.

Lemma scanned_image : forall now t item x,
    imageCandidate t x ->
    i_type item = image /\ i_element item = x /\ i_timestamp item = now /\
    wantsImage t x = true /\ i_content item = "" ->
    scanned t now item.
Proof.
  intros now t item x C (T & Ex & Ts & W & Ct). subst x.
  unfold scanned. rewrite T. repeat split; assumption.
Qed.

Lemma scanExistingContent_origin : forall now t,
    scanQueue t = [] ->
    exists items,
      since t (scanExistingContent now t) items /\
      Forall (scanned t now) items.
Proof.
  intros now t Hq. pose proof (since_refl t Hq) as S.
  unfold scanExistingContent, scanTextContent, scanImageContent.
  destruct (pass_origin visitText _ visitText_origin now t
              (querySelectorAll textSelectors (page t)) t [] S) as (m1 & S1 & C1).
  set (t1 := fold_left (visitText now) (querySelectorAll textSelectors (page t)) t) in *.
  assert (Hh : hostname t1 = hostname t) by apply S1.
  assert (F1 : Forall (scanned t now) m1).
  { apply Forall_forall. intros item Hi. destruct (C1 item Hi) as (x & Hx & R).
    apply (scanned_text now t item x); [left; exact Hx | exact R]. }
  rewrite Hh.
  destruct (Js.includes (hostname t) "google.") eqn:G.
  - destruct (googlePass_origin now t googleSelectors t1 ([] ++ m1) eq_refl S1)
      as (m2 & S2 & C2).
    unfold scanGoogleSearchResults.
    set (t2 := fold_left _ googleSelectors t1) in *.
    destruct (pass_origin visitImage _ visitImage_origin now t
                (querySelectorAll imageSelectors (page t2)) t2 _ S2)
      as (m3 & S3 & C3).
    rewrite (since_query imageSelectors t t2 _ S2 eq_refl) in C3.
    exists ((m1 ++ m2) ++ m3). split; [exact S3|].
    apply Forall_app. split; [apply Forall_app; split; [exact F1|]|].
    + apply Forall_forall. intros item Hi.
      destruct (C2 item Hi) as (sel & Hs & Hx & T & Ts & W & Ct).
      apply (scanned_text now t item (i_element item)).
      * right. split; [exact G|]. exists sel. split; assumption.
      * repeat split; assumption.
    + apply Forall_forall. intros item Hi. destruct (C3 item Hi) as (x & Hx & R).
      apply (scanned_image now t item x); [exact Hx | exact R].
  - destruct (pass_origin visitImage _ visitImage_origin now t
                (querySelectorAll imageSelectors (page t1)) t1 _ S1)
      as (m3 & S3 & C3).
    rewrite (since_query imageSelectors t t1 _ S1 eq_refl) in C3.
    exists (m1 ++ m3). split; [exact S3|].
    apply Forall_app. split; [exact F1|].
    apply Forall_forall. intros item Hi. destruct (C3 item Hi) as (x & Hx & R).
    apply (scanned_image now t item x); [exact Hx | exact R].
Qed.

(** X19.  Everything a scan of the page queues was asked for: with the
    queue empty before, each entry [scanExistingContent] adds carries
    the time of the scan and an element that, in the state the scan
    started in, matched one of the selectors the scan iterates over
    (the text selectors, a Google selector on a hostname with 'google.',
    or the image selectors), was not ignored and passed the text or the
    image test; a text entry carries the trimmed text content the
    element had in that state, an image entry no content.  The scan
    changes the page only by marking the queued elements as processed. *)
Theorem a_scan_queues_only_wanted_candidates :
  forall (t : Tab) (now : Z),
    scanQueue t = [] ->
    exists items,
      pushed (scanExistingContent now t) = pushed t ++ items /\
      Forall (scanned t now) items /\
      page (scanExistingContent now t) = markAll (map i_element items) (page t).
Proof.
  intros t now Hq.
  destruct (scanExistingContent_origin now t Hq) as (items & S & F).
  exists items. destruct S as (H1 & H2 & H3 & _).
  split; [exact H2|]. split; [exact F | exact H3].
Qed.

End OriginFacts.

(** ** The scanner never analyses a placeholder *)

Module PlaceholderFacts.
Import Dom Tabs ContentScanner Pipeline Placeholders.
Import DomFacts TreeFacts EvolveFacts.

Section Trees.
Variable cs : list nat.

Lemma tidy_element : forall inside e kids,
    tidy cs inside (ElementNode e kids) = true <->
    isInner cs (uid e) = inside /\
    (isContainer cs (uid e) = true -> hasClass "ai-firewall-blocked" e = true) /\
    Forall (fun k => tidy cs (inside || isContainer cs (uid e)) k = true) kids.
Proof.
  intros inside e kids. cbn [tidy]. rewrite !andb_true_iff, forallb_forall, Forall_forall.
  rewrite Bool.eqb_true_iff.
  split; intros ((A & B) & C) || intros (A & B & C).
  - split; [exact A|]. split; [|exact C].
    intros H. rewrite H in B. simpl in B. exact B.
  - split; [split; [exact A|] | exact C].
    destruct (isContainer cs (uid e)); [apply B; reflexivity | reflexivity].
Qed.

(** The subtree of an element that is not an inner element of a
    placeholder stands on its own. *)
Lemma tidy_findNode : forall u n inside S,
    tidy cs inside n = true -> findNode u n = Some S ->
    isInner cs u = false -> tidy cs false S = true.
Proof.
  intros u n. induction n as [s | e kids IH] using Node_induction;
    intros inside S T F Hu.
  - discriminate.
  - rewrite findNode_element in F. destruct (Nat.eqb (uid e) u) eqn:E.
    + inversion F. subst S. apply Nat.eqb_eq in E.
      pose proof (proj1 (proj1 (tidy_element inside e kids) T)) as A.
      rewrite E, Hu in A. subst inside. exact T.
    + apply tidy_element in T. destruct T as (_ & _ & K).
      apply firstSome_In in F. destruct F as (k & Hk & Fk).
      rewrite Forall_forall in IH, K.
      apply (IH k Hk _ S (K k Hk) Fk Hu).
Qed.

Lemma tidy_removeChild : forall u n inside,
    tidy cs inside n = true -> tidy cs inside (removeChild u n) = true.
Proof.
  intros u n. induction n as [s | e kids IH] using Node_induction; intros inside T.
  - reflexivity.
  - rewrite removeChild_element. apply tidy_element in T.
    destruct T as (A & B & K). apply tidy_element.
    split; [exact A|]. split; [exact B|].
    rewrite Forall_forall in *. intros k Hk.
    apply in_map_iff in Hk. destruct Hk as (k0 & Ek & Hk0). subst k.
    apply filter_In in Hk0. destruct Hk0 as [Hk0 _].
    apply (IH k0 Hk0). apply (K k0 Hk0).
Qed.

(** A tree that stands on its own can take the place of an element that
    is not an inner element of a placeholder. *)
Lemma tidy_substChild : forall old N n,
    isInner cs old = false -> tidy cs false N = true ->
    forall inside,
      tidy cs inside n = true -> tidy cs inside (substChild old N n) = true.
Proof.
  intros old N n Ho TN. induction n as [s | e kids IH] using Node_induction;
    intros inside T.
  - reflexivity.
  - cbn [substChild]. apply tidy_element in T. destruct T as (A & B & K).
    apply tidy_element. split; [exact A|]. split; [exact B|].
    rewrite Forall_forall in *. intros k Hk.
    apply in_map_iff in Hk. destruct Hk as (k0 & Ek & Hk0). subst k.
    specialize (K k0 Hk0). destruct (isRoot old k0) eqn:R.
    + destruct k0 as [s0 | e0 kids0]; [discriminate|].
      unfold isRoot in R. simpl in R. apply Nat.eqb_eq in R.
      pose proof (proj1 (proj1 (tidy_element _ e0 kids0) K)) as A0.
      rewrite R, Ho in A0. rewrite <- A0. exact TN.
    + apply (IH k0 Hk0). exact K.
Qed.

Lemma tidy_updateNode : forall u f n,
    keepsClass f ->
    forall inside,
      tidy cs inside n = true -> tidy cs inside (updateNode u f n) = true.
Proof.
  intros u f n Hf.
  induction n as [s | e kids IH] using Node_induction; intros inside T.
  - reflexivity.
  - cbn [updateNode]. apply tidy_element in T. destruct T as (A & B & K).
    assert (U : uid (if Nat.eqb (uid e) u then f e else e) = uid e)
      by (destruct (Nat.eqb (uid e) u); [apply Hf | reflexivity]).
    apply tidy_element. rewrite U. split; [exact A|]. split.
    + intros C. specialize (B C). destruct (Nat.eqb (uid e) u); [|exact B].
      apply Hf. exact B.
    + rewrite Forall_forall in *. intros k Hk.
      apply in_map_iff in Hk. destruct Hk as (k0 & Ek & Hk0). subst k.
      apply (IH k0 Hk0). apply (K k0 Hk0).
Qed.

Lemma tidyPage_trees : forall p,
    tidyPage cs p = true <-> forall n, In n (trees p) -> tidy cs false n = true.
Proof. intros p. unfold tidyPage. apply forallb_forall. Qed.

Lemma tidyPage_parts : forall doc det nx,
    tidyPage cs {| document := doc; detached := det; nextUid := nx |} = true <->
    tidy cs false doc = true /\ forall n, In n det -> tidy cs false n = true.
Proof.
  intros doc det nx. rewrite tidyPage_trees. unfold trees. simpl. split.
  - intros H. split; [apply H; left; reflexivity | intros n Hn; apply H; right; exact Hn].
  - intros [H1 H2] n [Hn|Hn]; [subst n; exact H1 | apply H2; exact Hn].
Qed.

Lemma tidy_findInPage : forall u p S,
    tidyPage cs p = true -> findInPage u p = Some S ->
    isInner cs u = false -> tidy cs false S = true.
Proof.
  intros u p S T F Hu. unfold findInPage in F.
  apply firstSome_In in F. destruct F as (n & Hn & Fn).
  apply (tidy_findNode u n false S); [|exact Fn | exact Hu].
  apply (proj1 (tidyPage_trees p) T n Hn).
Qed.

Lemma tidyPage_updateElement : forall u f p,
    keepsClass f -> tidyPage cs p = true -> tidyPage cs (updateElement u f p) = true.
Proof.
  intros u f [doc det nx] Hf T. unfold updateElement. simpl.
  apply tidyPage_parts in T. destruct T as [T1 T2]. apply tidyPage_parts. split.
  - apply tidy_updateNode; assumption.
  - intros n Hn. apply in_map_iff in Hn. destruct Hn as (n0 & E & Hn0). subst n.
    apply tidy_updateNode; [exact Hf | apply T2; exact Hn0].
Qed.

Lemma tidyPage_removeFromPage : forall u p,
    tidyPage cs p = true -> tidyPage cs (removeFromPage u p) = true.
Proof.
  intros u [doc det nx] T. unfold removeFromPage. simpl.
  apply tidyPage_parts in T. destruct T as [T1 T2]. apply tidyPage_parts. split.
  - apply tidy_removeChild. exact T1.
  - intros n Hn. apply in_map_iff in Hn. destruct Hn as (n0 & E & Hn0). subst n.
    apply filter_In in Hn0. destruct Hn0 as [Hn0 _].
    apply tidy_removeChild. apply T2. exact Hn0.
Qed.

(** Swapping two elements neither of which is an inner element of a
    placeholder keeps the placeholders apart. *)
Lemma tidyPage_replaceChild : forall new old p p',
    replaceChild new old p = Some p' ->
    isInner cs new = false -> isInner cs old = false ->
    tidyPage cs p = true -> tidyPage cs p' = true.
Proof.
  intros new old p p' R Hn Ho T. unfold replaceChild in R. cbv zeta in R.
  pose proof (tidyPage_removeFromPage new p T) as T1.
  remember (removeFromPage new p) as p1 eqn:Ep1. clear Ep1.
  destruct (parentNode old p); [|discriminate].
  destruct (findInPage new p) as [newN|] eqn:FN; [|discriminate].
  destruct (Nat.eqb new old); [inversion R; subst p'; exact T|].
  destruct (containsUid old newN); [discriminate|].
  destruct (findInPage old p1) as [oldN|] eqn:FO; [|discriminate].
  inversion R. subst p'. clear R.
  pose proof (tidy_findInPage new p newN T FN Hn) as TN.
  pose proof (tidy_findInPage old _ oldN T1 FO Ho) as TO.
  destruct p1 as [doc1 det1 nx1]. simpl.
  apply tidyPage_parts in T1. destruct T1 as [D1 D2]. apply tidyPage_parts. split.
  - apply tidy_substChild; assumption.
  - intros k Hin. apply in_app_or in Hin. destruct Hin as [Hin|[Hin|[]]].
    + apply in_map_iff in Hin. destruct Hin as (k0 & E & Hk0). subst k.
      apply tidy_substChild; [exact Ho | exact TN | apply D2; exact Hk0].
    + subst k. exact TO.
Qed.

(** Where an element is, read off its ancestors. *)
Lemma tidy_located : forall n anc inside,
    tidy cs inside n = true ->
    inside = existsb (fun a => isContainer cs (uid a)) anc ->
    Forall (fun a => isContainer cs (uid a) = true ->
                     hasClass "ai-firewall-blocked" a = true) anc ->
    forall l, In l (descendantsOrSelf anc n) ->
      isInner cs (uid (fst l)) = existsb (fun a => isContainer cs (uid a)) (snd l) /\
      Forall (fun a => isContainer cs (uid a) = true ->
                       hasClass "ai-firewall-blocked" a = true) (fst l :: snd l).
Proof.
  intros n. induction n as [s | e kids IH] using Node_induction;
    intros anc inside T Hi Ha l Hl.
  - destruct Hl.
  - apply tidy_element in T. destruct T as (A & B & K).
    cbn [descendantsOrSelf] in Hl. destruct Hl as [Hl|Hl].
    + subst l. simpl. split; [congruence|]. constructor; assumption.
    + apply in_flat_map in Hl. destruct Hl as (k & Hk & Hl).
      rewrite Forall_forall in IH, K.
      apply (IH k Hk (e :: anc) _ (K k Hk)); [| |exact Hl].
      * simpl. rewrite Hi. apply orb_comm.
      * constructor; assumption.
Qed.

Lemma blocked_matches : forall e anc,
    hasClass "ai-firewall-blocked" e = true ->
    matchesAny ignoreSelectors (e, anc) = true.
Proof.
  intros e anc H. unfold matchesAny. apply existsb_exists.
  exists [Class "ai-firewall-blocked"]. split.
  - simpl. tauto.
  - unfold matches. simpl rev. cbn [fst snd].
    rewrite RevealFacts.matchesAncestors_nil. simpl. simpl in H. rewrite H. reflexivity.
Qed.

Lemma shielded_closest : forall anc e,
    Forall (fun a => isContainer cs (uid a) = true ->
                     hasClass "ai-firewall-blocked" a = true) (e :: anc) ->
    isContainer cs (uid e) || existsb (fun a => isContainer cs (uid a)) anc = true ->
    closestFrom ignoreSelectors e anc = true.
Proof.
  induction anc as [|a anc IH]; intros e F H.
  - simpl in H. rewrite orb_false_r in H. inversion F as [|? ? Fe _]. subst.
    cbn [closestFrom]. rewrite (blocked_matches e [] (Fe H)). reflexivity.
  - inversion F as [|? ? Fe Fr]. subst. cbn [closestFrom].
    destruct (isContainer cs (uid e)) eqn:C.
    + rewrite (blocked_matches e (a :: anc) (Fe eq_refl)). reflexivity.
    + simpl in H. rewrite (IH a Fr H). apply orb_true_r.
Qed.

(** The scanner ignores every element of a placeholder. *)
Lemma placeholder_is_ignored : forall x t,
    tidyPage cs (page t) = true -> ofPlaceholder cs x = true ->
    shouldIgnoreElement x t = true.
Proof.
  intros x t T H. unfold shouldIgnoreElement.
  destruct (locate x (page t)) as [l|] eqn:L; [|reflexivity].
  unfold locate in L. apply find_some in L. destruct L as [Hin Hu].
  apply Nat.eqb_eq in Hu.
  apply in_flat_map in Hin. destruct Hin as (n & Hn & Hl).
  pose proof (proj1 (tidyPage_trees (page t)) T n Hn) as Tn.
  destruct (tidy_located n [] false Tn eq_refl (Forall_nil _) l Hl) as [I F].
  assert (C : closest ignoreSelectors l = true).
  { unfold closest. apply shielded_closest; [exact F|].
    rewrite <- I, Hu. exact H. }
  rewrite C. reflexivity.
Qed.

End Trees.

(** A placeholder made of fresh identities changes nothing for the
    trees there are. *)
Lemma isContainer_app : forall cs c u,
    isContainer (cs ++ [c]) u = isContainer cs u || Nat.eqb u c.
Proof.
  intros cs c u. unfold isContainer. rewrite existsb_app. simpl.
  rewrite orb_false_r. reflexivity.
Qed.

Lemma isInner_app : forall cs c u,
    isInner (cs ++ [c]) u = isInner cs u || (Nat.ltb c u && Nat.ltb u (7 + c)).
Proof.
  intros cs c u. unfold isInner. rewrite existsb_app. simpl.
  rewrite orb_false_r. reflexivity.
Qed.

Lemma tidy_fresh : forall cs c n inside,
    (forall el, In el (elements n) -> (uid el < c)%nat) ->
    tidy (cs ++ [c]) inside n = tidy cs inside n.
Proof.
  intros cs c n. induction n as [s | e kids IH] using Node_induction;
    intros inside Hb.
  - reflexivity.
  - assert (He : (uid e < c)%nat).
    { apply Hb. apply In_elements_kid. left. reflexivity. }
    cbn [tidy]. rewrite isContainer_app, isInner_app.
    replace (Nat.eqb (uid e) c) with false
      by (symmetry; apply Nat.eqb_neq; lia).
    replace (Nat.ltb c (uid e)) with false
      by (symmetry; apply Nat.ltb_ge; lia).
    simpl. rewrite !orb_false_r. f_equal.
    rewrite Forall_forall in IH.
    assert (Q : forall l, (forall k, In k l -> In k kids) ->
                          forallb (tidy (cs ++ [c]) (inside || isContainer cs (uid e))) l
                          = forallb (tidy cs (inside || isContainer cs (uid e))) l).
    { induction l as [|k l IHl]; intros Hl; [reflexivity|]. simpl.
      rewrite IHl by (intros k' Hk'; apply Hl; right; exact Hk').
      rewrite (IH k (Hl k (or_introl eq_refl))); [reflexivity|].
      intros el Hel. apply Hb. apply In_elements_kid. right.
      exists k. split; [apply Hl; left; reflexivity | exact Hel]. }
    apply Q. intros k Hk. exact Hk.
Qed.

(** What the scripts do to an element keeps the class. *)
Lemma keepsClass_setAttribute : forall a v, keepsClass (setAttribute a v).
Proof. intros a v e. split; [reflexivity | auto]. Qed.

Lemma keepsClass_classList_add : forall c, keepsClass (classList_add c).
Proof.
  intros c e. unfold classList_add. destruct (hasClass c e); [split; auto|].
  split; [reflexivity|].
  unfold hasClass, Js.arrayIncludes. cbn [classList setClassList]. intros H.
  rewrite existsb_app, H. reflexivity.
Qed.

Lemma keepsClass_classList_remove : forall c,
    c <> "ai-firewall-blocked" -> keepsClass (classList_remove c).
Proof.
  intros c Hc e. split; [reflexivity|].
  unfold hasClass, Js.arrayIncludes, classList_remove.
  cbn [classList setClassList]. intros H.
  apply existsb_exists in H. destruct H as [x [Hx Ex]].
  apply existsb_exists. exists x. split; [|exact Ex].
  apply filter_In. split; [exact Hx|].
  apply String.eqb_eq in Ex. subst x. apply negb_true_iff.
  apply String.eqb_neq. exact Hc.
Qed.

Lemma keepsClass_setStyleDisplay : forall f,
    keepsClass (fun e => setStyleDisplay (f e) e).
Proof. intros f e. split; [reflexivity | auto]. Qed.

Lemma tidyPage_updates : forall cs (f : Element -> Element) us p,
    keepsClass f -> tidyPage cs p = true ->
    tidyPage cs (fold_left (fun q u => updateElement u f q) us p) = true.
Proof.
  intros cs f us. induction us as [|u us IH]; intros p Hf T; [exact T|].
  simpl. apply IH; [exact Hf|]. apply tidyPage_updateElement; assumption.
Qed.

Lemma tidyPage_markAll : forall cs us p,
    tidyPage cs p = true -> tidyPage cs (markAll us p) = true.
Proof.
  intros cs us p T. unfold markAll, markPage.
  apply (tidyPage_updates cs mark us p); [|exact T].
  apply keepsClass_setAttribute.
Qed.

Lemma tidyPage_none : forall p, tidyPage [] p = true.
Proof.
  intros p. apply tidyPage_trees. intros n _.
  induction n as [s | e kids IH] using Node_induction; [reflexivity|].
  apply tidy_element. split; [reflexivity|]. split; [discriminate|].
  simpl. exact IH.
Qed.

Lemma ofPlaceholder_false : forall cs x,
    ofPlaceholder cs x = false -> isContainer cs x = false /\ isInner cs x = false.
Proof. intros cs x H. apply orb_false_iff. exact H. Qed.

Lemma isInner_far : forall cs u,
    (forall c, In c cs -> (c + 7 <= u)%nat) -> isInner cs u = false.
Proof.
  intros cs u H. unfold isInner.
  destruct (existsb _ cs) eqn:E; [|reflexivity].
  apply existsb_exists in E. destruct E as (c & Hc & E).
  apply andb_true_iff in E. destruct E as [_ E]. apply Nat.ltb_lt in E.
  specialize (H c Hc). lia.
Qed.

Lemma isContainer_In : forall cs u, isContainer cs u = true <-> In u cs.
Proof.
  intros cs u. unfold isContainer. rewrite existsb_exists. split.
  - intros (c & Hc & E). apply Nat.eqb_eq in E. subst c. exact Hc.
  - intros H. exists u. split; [exact H | apply Nat.eqb_refl].
Qed.

Lemma isContainer_far : forall cs u,
    (forall c, In c cs -> (c + 7 <= u)%nat) -> isContainer cs u = false.
Proof.
  intros cs u H. destruct (isContainer cs u) eqn:E; [|reflexivity].
  apply isContainer_In in E. specialize (H u E). lia.
Qed.

(** Every element of a placeholder is one of its container's seven. *)
Lemma ofPlaceholder_In : forall cs c k,
    In c cs -> (k < 7)%nat -> ofPlaceholder cs (c + k) = true.
Proof.
  intros cs c k Hc Hk. unfold ofPlaceholder. destruct k as [|k].
  - rewrite Nat.add_0_r. rewrite (proj2 (isContainer_In cs c) Hc). reflexivity.
  - apply orb_true_iff. right. unfold isInner. apply existsb_exists.
    exists c. split; [exact Hc|]. apply andb_true_iff. split; apply Nat.ltb_lt; lia.
Qed.

(** The placeholder as it is created. *)
Lemma tidy_replacementNode : forall cs c type r,
    (forall c', In c' cs -> (c' + 7 <= c)%nat) ->
    tidy (cs ++ [c]) false (DOMManipulator.replacementNode c type r) = true.
Proof.
  intros cs c type r H.
  assert (C0 : isContainer (cs ++ [c]) c = true)
    by (rewrite isContainer_app, Nat.eqb_refl; apply orb_true_r).
  assert (I0 : isInner (cs ++ [c]) c = false).
  { rewrite isInner_app, (isInner_far cs c H).
    replace (Nat.ltb c c) with false by (symmetry; apply Nat.ltb_ge; lia).
    reflexivity. }
  assert (Ck : forall k, (0 < k < 7)%nat -> isContainer (cs ++ [c]) (k + c) = false).
  { intros k Hk. rewrite isContainer_app.
    rewrite (isContainer_far cs (k + c)) by (intros c' Hc'; specialize (H c' Hc'); lia).
    simpl. apply Nat.eqb_neq. lia. }
  assert (Ik : forall k, (0 < k < 7)%nat -> isInner (cs ++ [c]) (k + c) = true).
  { intros k Hk. rewrite isInner_app. apply orb_true_iff. right.
    apply andb_true_iff. split; apply Nat.ltb_lt; lia. }
  unfold DOMManipulator.replacementNode.
  cbn [tidy forallb uid setClassList setAttribute blank fold_right fst snd].
  change (0 + c)%nat with c. rewrite C0, I0.
  rewrite !Ik, !Ck by lia. reflexivity.
Qed.

Lemma In_set_nat : forall (k k0 v v0 : nat) (m : list (nat * nat)),
    In (k, v) (Js.set Nat.eqb k0 v0 m) -> (k = k0 /\ v = v0) \/ In (k, v) m.
Proof.
  intros k k0 v v0 m. induction m as [|[k1 v1] rest IH]; simpl; intros H.
  - destruct H as [H|[]]. inversion H. left. split; reflexivity.
  - destruct (Nat.eqb k0 k1) eqn:E.
    + apply Nat.eqb_eq in E. subst k1. destruct H as [H|H].
      * inversion H. left. split; reflexivity.
      * right. right. exact H.
    + destruct H as [H|H]; [right; left; exact H|].
      destruct (IH H) as [K|K]; [left; exact K | right; right; exact K].
Qed.

Lemma In_delete_nat : forall (k0 : nat) (x : nat * nat) (m : list (nat * nat)),
    In x (Js.delete Nat.eqb k0 m) -> In x m.
Proof. intros k0 x m H. unfold Js.delete in H. apply filter_In in H. apply H. Qed.

(** ** The invariant, event by event *)

Lemma kept_frame : forall t t',
    page t' = page t -> listeners t' = listeners t ->
    replacementElements t' = replacementElements t -> pushed t' = pushed t ->
    kept t -> kept t'.
Proof.
  intros t t' E1 E2 E3 E4 K. unfold kept, containers in *.
  rewrite E1, E2, E3, E4. exact K.
Qed.

(** Scanning: what is queued was not ignored, so it is no part of a
    placeholder. *)
Lemma kept_since : forall t t' items,
    since t t' items ->
    listeners t' = listeners t -> replacementElements t' = replacementElements t ->
    kept t -> kept t'.
Proof.
  intros t t' items (S1 & S2 & S3 & S4 & S5 & S6) El Er (K1 & K2 & K3 & K4 & K5).
  unfold kept, containers in *. rewrite El, Er, S2, S3.
  assert (Hin : forall x, In x (map i_element (pushed t)) ->
                          In x (map i_element (pushed t ++ items)))
    by (intros x Hx; rewrite map_app; apply in_or_app; left; exact Hx).
  split; [|split; [|split; [|split]]].
  - intros c Hc. rewrite DiscoveryFacts.nextUid_markAll. apply K1. exact Hc.
  - apply tidyPage_markAll. exact K2.
  - intros x Hx. rewrite map_app in Hx. apply in_app_or in Hx.
    destruct Hx as [Hx|Hx]; [apply K3; exact Hx|].
    destruct (ofPlaceholder (flat_map containerOf (listeners t)) x) eqn:E; [|reflexivity].
    pose proof (placeholder_is_ignored _ x t K2 E) as I.
    rewrite (S6 x Hx) in I. discriminate.
  - intros l Hl. specialize (K4 l Hl). destruct l; auto.
  - intros c e H. destruct (K5 c e H) as [A B]. split; auto.
Qed.

(** A placeholder is created and put somewhere on the page. *)
Lemma kept_created : forall t t' e type,
    allBelow (page t) ->
    (forall x, In x (map i_element (pushed t)) -> (x < nextUid (page t))%nat) ->
    In e (map i_element (pushed t)) ->
    kept t ->
    listeners t' = listeners t ++ [ReplacementClick (nextUid (page t)) e type] ->
    replacementElements t'
    = Js.set Nat.eqb (nextUid (page t)) e (replacementElements t) ->
    pushed t' = pushed t ->
    tidyPage (containers t ++ [nextUid (page t)]) (page t') = true ->
    (7 + nextUid (page t) <= nextUid (page t'))%nat ->
    kept t'.
Proof.
  intros t t' e type B Hlt He (K1 & K2 & K3 & K4 & K5) El Er Ep T Hn.
  set (c := nextUid (page t)) in *. set (cs := containers t) in *.
  assert (Ecs : containers t' = cs ++ [c]).
  { unfold containers. rewrite El, flat_map_app. reflexivity. }
  unfold kept. rewrite Ecs, Ep, Er.
  assert (Hfar : forall c', In c' cs -> (c' + 7 <= c)%nat)
    by (intros c' Hc'; apply K1; exact Hc').
  assert (Hold : forall u, (u < c)%nat ->
                           isContainer (cs ++ [c]) u = isContainer cs u /\
                           isInner (cs ++ [c]) u = isInner cs u).
  { intros u Hu. rewrite isContainer_app, isInner_app.
    replace (Nat.eqb u c) with false by (symmetry; apply Nat.eqb_neq; lia).
    replace (Nat.ltb c u) with false by (symmetry; apply Nat.ltb_ge; lia).
    simpl. rewrite !orb_false_r. split; reflexivity. }
  split; [|split; [|split; [|split]]].
  - intros c' Hc'. apply in_app_or in Hc'. destruct Hc' as [Hc'|[Hc'|[]]].
    + destruct (K1 c' Hc') as [A I]. fold c in A. split; [lia|].
      rewrite (proj2 (Hold c' ltac:(lia))). exact I.
    + subst c'. split; [lia|].
      rewrite isInner_app, (isInner_far cs c Hfar).
      replace (Nat.ltb c c) with false by (symmetry; apply Nat.ltb_ge; lia).
      reflexivity.
  - exact T.
  - intros x Hx. pose proof (Hlt x Hx) as L. fold c in L.
    unfold ofPlaceholder. destruct (Hold x L) as [A I]. rewrite A, I.
    apply (K3 x Hx).
  - intros l Hl. rewrite El in Hl. apply in_app_or in Hl.
    destruct Hl as [Hl|[Hl|[]]].
    + apply (K4 l Hl).
    + subst l. exact He.
  - intros k v H. apply In_set_nat in H. destruct H as [[A I]|H].
    + subst k v. split; [apply in_or_app; right; left; reflexivity | exact He].
    + destruct (K5 k v H) as [A I]. split; [apply in_or_app; left; exact A | exact I].
Qed.

Lemma kept_replaceContent : forall e type r t,
    allBelow (page t) ->
    (forall x, In x (map i_element (pushed t)) -> (x < nextUid (page t))%nat) ->
    In e (map i_element (pushed t)) ->
    kept t -> kept (DOMManipulator.replaceContent e type r t).
Proof.
  intros e type r t B Hlt He K.
  pose proof K as (K1 & K2 & K3 & K4 & K5).
  set (c := nextUid (page t)). set (cs := containers t).
  set (R := DOMManipulator.replacementNode c type r).
  set (p1 := {| document := document (page t); detached := detached (page t) ++ [R];
                nextUid := (7 + c)%nat |}).
  assert (Hfar : forall c', In c' cs -> (c' + 7 <= c)%nat)
    by (intros c' Hc'; apply K1; exact Hc').
  assert (T1 : tidyPage (cs ++ [c]) p1 = true).
  { pose proof (proj1 (tidyPage_trees _ _) K2) as K2'.
    apply tidyPage_parts. split.
    - rewrite tidy_fresh; [apply K2'; left; reflexivity|].
      intros el Hel. apply B. apply In_pageElements. left. exact Hel.
    - intros n Hn. apply in_app_or in Hn. destruct Hn as [Hn|[Hn|[]]].
      + rewrite tidy_fresh; [apply K2'; right; exact Hn|].
        intros el Hel. apply B. apply In_pageElements. right.
        exists n. split; assumption.
      + subst n. apply tidy_replacementNode. exact Hfar. }
  assert (Ie : isInner (cs ++ [c]) e = false).
  { rewrite isInner_app. unfold cs.
    rewrite (proj2 (ofPlaceholder_false _ _ (K3 e He))).
    pose proof (Hlt e He) as L. fold c in L.
    replace (Nat.ltb c e) with false by (symmetry; apply Nat.ltb_ge; lia).
    reflexivity. }
  assert (Ic : isInner (cs ++ [c]) c = false).
  { rewrite isInner_app, (isInner_far cs c Hfar).
    replace (Nat.ltb c c) with false by (symmetry; apply Nat.ltb_ge; lia).
    reflexivity. }
  unfold DOMManipulator.replaceContent, DOMManipulator.createReplacementElement.
  cbn [page setPage setListeners setReplacementElements replacementElements listeners].
  fold c R p1.
  destruct (replaceChild c e p1) as [p2|] eqn:RC.
  - apply (kept_created t _ e type B Hlt He K); try reflexivity.
    + cbn [page setPage]. fold c cs.
      apply (tidyPage_replaceChild (cs ++ [c]) c e p1 p2 RC Ic Ie T1).
    + cbn [page setPage].
      pose proof (pageEvolves_replaceChild _ _ _ _ RC) as [Hn _]. exact Hn.
  - apply (kept_created t _ e type B Hlt He K); try reflexivity. exact T1.
Qed.

(** The page changes, no placeholder is created. *)
Lemma kept_changed : forall t t',
    kept t ->
    containers t' = containers t ->
    (forall l, In l (listeners t') ->
               In l (listeners t) \/ exists x, l = RemoveBlur x) ->
    (forall x, In x (replacementElements t') -> In x (replacementElements t)) ->
    pushed t' = pushed t ->
    tidyPage (containers t) (page t') = true ->
    (nextUid (page t) <= nextUid (page t'))%nat ->
    kept t'.
Proof.
  intros t t' (K1 & K2 & K3 & K4 & K5) Ec El Er Ep T Hn.
  unfold kept. rewrite Ec, Ep. split; [|split; [|split; [|split]]].
  - intros c Hc. destruct (K1 c Hc) as [A I]. split; [lia | exact I].
  - exact T.
  - exact K3.
  - intros l Hl. destruct (El l Hl) as [H|[x H]]; [apply (K4 l H) | subst l; exact I].
  - intros c e H. apply (K5 c e (Er _ H)).
Qed.

Lemma containers_app : forall ls x,
    flat_map containerOf (ls ++ [RemoveBlur x]) = flat_map containerOf ls.
Proof. intros ls x. rewrite flat_map_app. simpl. apply app_nil_r. Qed.

Lemma kept_blurContent : forall e type r t,
    kept t -> kept (DOMManipulator.blurContent e type r t).
Proof.
  intros e type r t K. pose proof K as (K1 & K2 & K3 & K4 & K5).
  apply (kept_changed t _ K).
  - unfold containers, DOMManipulator.blurContent.
    cbn [listeners setPage setListeners]. apply containers_app.
  - unfold DOMManipulator.blurContent. cbn [listeners setPage setListeners].
    intros l Hl. apply in_app_or in Hl. destruct Hl as [Hl|[Hl|[]]].
    + left. exact Hl.
    + right. exists e. symmetry. exact Hl.
  - intros x Hx. exact Hx.
  - reflexivity.
  - unfold DOMManipulator.blurContent. cbn [page setPage setListeners].
    apply tidyPage_updateElement; [apply keepsClass_setAttribute|].
    apply tidyPage_updateElement; [apply keepsClass_classList_add | exact K2].
  - apply (StepFacts.evolves_blurContent e type r t).
Qed.

Lemma kept_handleUnsafeContent : forall d t,
    allBelow (page t) ->
    (forall x, In x (map i_element (pushed t)) -> (x < nextUid (page t))%nat) ->
    In (d_element d) (map i_element (pushed t)) ->
    kept t -> kept (DOMManipulator.handleUnsafeContent d t).
Proof.
  intros d t B Hlt He K. unfold DOMManipulator.handleUnsafeContent.
  destruct (Js.setHas (d_element d) (blockedElements t)); [exact K|].
  set (t1 := setBlockedElements _ t).
  assert (K' : kept t1) by (apply (kept_frame t t1); try reflexivity; exact K).
  destruct (DOMManipulator.getBlockingMethod (d_type d) (d_analysisResult d)) eqn:M.
  - apply kept_replaceContent; assumption.
  - apply kept_blurContent. exact K'.
  - exfalso. apply (SeparationFacts.never_hide _ _ M).
Qed.

Lemma In_containers : forall t c e type,
    In (ReplacementClick c e type) (listeners t) -> In c (containers t).
Proof.
  intros t c e type H. unfold containers. apply in_flat_map.
  exists (ReplacementClick c e type). split; [exact H | left; reflexivity].
Qed.

Lemma kept_showOriginalContent : forall c e confirmed t,
    In c (containers t) -> In e (map i_element (pushed t)) ->
    kept t -> kept (DOMManipulator.showOriginalContent c e confirmed t).
Proof.
  intros c e confirmed t Hc He K. pose proof K as (K1 & K2 & K3 & K4 & K5).
  unfold DOMManipulator.showOriginalContent.
  destruct confirmed; [|exact K].
  destruct (replaceChild e c (page t)) as [p|] eqn:R; [|exact K].
  apply (kept_changed t _ K); try reflexivity.
  - intros l Hl. left. exact Hl.
  - cbn [replacementElements setBlockedElements setReplacementElements].
    intros x Hx. apply (In_delete_nat c x _ Hx).
  - cbn [page setBlockedElements setReplacementElements setPage].
    apply tidyPage_updateElement; [apply keepsClass_classList_add|].
    apply (tidyPage_replaceChild _ e c (page t) p R);
      [apply (ofPlaceholder_false _ _ (K3 e He)) | apply (K1 c Hc) | exact K2].
  - cbn [page setBlockedElements setReplacementElements setPage]. simpl.
    apply (pageEvolves_replaceChild _ _ _ _ R).
Qed.

Lemma containers_filter : forall x ls,
    flat_map containerOf
      (filter (fun l => negb (DOMManipulator.sameListener (RemoveBlur x) l)) ls)
    = flat_map containerOf ls.
Proof.
  intros x ls. induction ls as [|l ls IH]; [reflexivity|].
  destruct l as [c e ty | y | b e od]; simpl.
  - f_equal. exact IH.
  - destruct (Nat.eqb x y); simpl; exact IH.
  - exact IH.
Qed.

Lemma kept_removeBlur : forall e t, kept t -> kept (DOMManipulator.removeBlur e t).
Proof.
  intros e t K. pose proof K as (K1 & K2 & K3 & K4 & K5).
  apply (kept_changed t _ K); try reflexivity.
  - unfold containers, DOMManipulator.removeBlur.
    cbn [listeners setBlockedElements setListeners setPage].
    apply containers_filter.
  - unfold DOMManipulator.removeBlur.
    cbn [listeners setBlockedElements setListeners setPage].
    intros l Hl. apply filter_In in Hl. left. apply Hl.
  - intros x Hx. exact Hx.
  - unfold DOMManipulator.removeBlur. cbn [page setBlockedElements setListeners setPage].
    apply tidyPage_updateElement; [apply keepsClass_classList_add|].
    apply tidyPage_updateElement; [|exact K2].
    apply keepsClass_classList_remove. discriminate.
Qed.

Lemma tidyPage_restoreReplaced : forall cs l p p',
    (forall c e, In (c, e) l -> isInner cs c = false /\ isInner cs e = false) ->
    DOMManipulator.restoreReplaced l p = Some p' ->
    tidyPage cs p = true -> tidyPage cs p' = true.
Proof.
  intros cs. induction l as [|[c e] l IH]; intros p p' H R T; simpl in R.
  - inversion R. subst p'. exact T.
  - assert (Hl : forall c0 e0, In (c0, e0) l ->
                               isInner cs c0 = false /\ isInner cs e0 = false)
      by (intros c0 e0 H0; apply H; right; exact H0).
    destruct (parentNode c p) as [par|]; [|apply (IH p p' Hl R T)].
    destruct (replaceChild e c p) as [p1|] eqn:RC; [|discriminate].
    apply (IH p1 p' Hl R).
    destruct (H c e (or_introl eq_refl)) as [Ic Ie].
    apply (tidyPage_replaceChild cs e c p p1 RC Ie Ic T).
Qed.

Lemma kept_restoreAllContent : forall t,
    kept t -> kept (DOMManipulator.restoreAllContent t).
Proof.
  intros t K. pose proof K as (K1 & K2 & K3 & K4 & K5).
  unfold DOMManipulator.restoreAllContent.
  destruct (DOMManipulator.restoreReplaced (replacementElements t) (page t))
    as [p1|] eqn:R; [|exact K].
  assert (Hr : forall c e, In (c, e) (replacementElements t) ->
                           isInner (containers t) c = false /\
                           isInner (containers t) e = false).
  { intros c e H. destruct (K5 c e H) as [A I]. split.
    - apply (K1 c A).
    - apply (ofPlaceholder_false _ _ (K3 e I)). }
  apply (kept_changed t _ K); try reflexivity.
  - intros l Hl. left. exact Hl.
  - intros x [].
  - cbn [page setBlockedElements setReplacementElements setPage].
    apply (tidyPage_updates (containers t)
             (fun e => setStyleDisplay
                         match getAttribute "data-original-display" e with
                         | Some v => v
                         | None => ""
                         end e)).
    + apply (keepsClass_setStyleDisplay
               (fun e => match getAttribute "data-original-display" e with
                         | Some v => v
                         | None => ""
                         end)).
    + apply (tidyPage_updates (containers t) (classList_remove "ai-firewall-blurred")).
      * apply keepsClass_classList_remove. discriminate.
      * apply (tidyPage_restoreReplaced (containers t) _ _ _ Hr R K2).
  - pose proof (StepFacts.evolves_onUser DOMManipulator.RestoreAll t) as [Hn _].
    simpl in Hn. unfold DOMManipulator.restoreAllContent in Hn. rewrite R in Hn.
    exact Hn.
Qed.

Lemma kept_onUser : forall u t, kept t -> kept (DOMManipulator.onUser u t).
Proof.
  intros u t K. pose proof K as (K1 & K2 & K3 & K4 & K5).
  destruct u as [c confirmed | e | b | ]; simpl.
  - destruct (find _ (listeners t)) as [l|] eqn:F; [|exact K].
    apply find_some in F. destruct F as [Hin Hm].
    destruct l as [c' o ty| |]; try exact K.
    apply kept_showOriginalContent;
      [apply (In_containers t c' o ty Hin) | apply (K4 _ Hin) | exact K].
  - destruct (existsb _ _); [apply kept_removeBlur; exact K | exact K].
  - destruct (find _ (listeners t)) as [l|] eqn:F; [|exact K].
    apply find_some in F. destruct F as [Hin Hm].
    destruct l as [| |b' e' od]; try exact K. destruct (K4 _ Hin).
  - apply kept_restoreAllContent. exact K.
Qed.

(** What an analysis waits with has been queued. *)
Lemma awaited_was_pushed : forall id a t,
    Bookkeeping.balanced t -> findAwaiting id t = Some a ->
    In (i_element (Bookkeeping.itemOf a)) (map i_element (pushed t)).
Proof.
  intros id a t Bal F. unfold findAwaiting in F. apply FilterFacts.get_In in F.
  assert (H : In (i_element (Bookkeeping.itemOf a)) (Bookkeeping.awaitedElements t)).
  { unfold Bookkeeping.awaitedElements, Bookkeeping.awaitedOf.
    apply (in_map (fun a0 => i_element (Bookkeeping.itemOf (snd a0))) _ _ F). }
  apply BookFacts.occ_In. apply BookFacts.occ_In in H.
  specialize (Bal (i_element (Bookkeeping.itemOf a))).
  unfold Bookkeeping.pushedElements in Bal. lia.
Qed.

Lemma kept_onResponse : forall id r t,
    settled t -> Bookkeeping.balanced t -> kept t -> kept (onResponse id r t).
Proof.
  intros id r t (Q & B & N & M) Bal K. unfold onResponse.
  destruct (findAwaiting id t) as [[item|item]|] eqn:F; try exact K.
  pose proof (awaited_was_pushed id _ t Bal F) as He. simpl in He.
  set (t1 := dropAwaiting id t).
  assert (K1 : kept t1) by (apply (kept_frame t t1); try reflexivity; exact K).
  match goal with
  | |- kept (continueProcessing ?t2) =>
      assert (K2 : kept t2); [|apply (kept_frame t2 (continueProcessing t2));
                                 [unfold continueProcessing; destruct (scanQueue t2);
                                  reflexivity .. | exact K2]]
  end.
  destruct r as [result|err]; [|exact K1].
  destruct (negb (is_safe result)); [|exact K1].
  unfold handleUnsafeContent.
  apply kept_handleUnsafeContent.
  - exact B.
  - intros x Hx. apply (M x Hx).
  - exact He.
  - apply (kept_frame t1); try reflexivity. exact K1.
Qed.

Lemma kept_step : forall s e,
    settled (tab s) -> Bookkeeping.balanced (tab s) -> kept (tab s) ->
    kept (tab (step s e)).
Proof.
  intros s e St Bal K. pose proof St as (Q & _).
  destruct (isDiscovery e) eqn:D.
  - destruct (DiscoveryFacts.discovery_step_since s e D Q) as (items & S).
    assert (E : Manipulator.state (tab (step s e)) = Manipulator.state (tab s)).
    { destruct e; try discriminate; simpl.
      - apply SeparationFacts.state_init.
      - apply SeparationFacts.state_periodicRescan.
      - apply SeparationFacts.state_onMutations. }
    unfold Manipulator.state in E. inversion E as [[E1 E2 E3 E4]].
    apply (kept_since _ _ items S E3 E2 K).
  - destruct e; try discriminate; simpl.
    + apply (kept_frame (tab s)); [| | | |exact K];
        (unfold onTimeout; destruct (timeouts (tab s)); [reflexivity|];
         unfold processQueue; cbn [scanQueue setTimeouts]; rewrite Q; reflexivity).
    + pose proof (SeparationFacts.state_onImageData id imageData (tab s)) as E.
      unfold Manipulator.state in E. inversion E as [[E1 E2 E3 E4]].
      apply (kept_frame (tab s)); [| exact E3 | exact E2 | | exact K].
      * apply StepFacts.page_onImageData.
      * apply DiscoveryFacts.pushed_onImageData.
    + apply kept_onUser. exact K.
    + destruct (Js.get _ _ _); simpl; [|exact K].
      apply (kept_frame (tab s)); [reflexivity.. | exact K].
    + exact K.
    + destruct (Js.get _ _ _); simpl; [|exact K].
      apply kept_onResponse; assumption.
Qed.

Lemma kept_run : forall es s,
    settled (tab s) -> Bookkeeping.balanced (tab s) -> kept (tab s) ->
    kept (tab (run s es)).
Proof.
  induction es as [|e es IH]; intros s St Bal K; [exact K|].
  simpl. apply IH.
  - apply DiscoveryFacts.settled_step. exact St.
  - apply BookFacts.balanced_step. exact Bal.
  - apply kept_step; assumption.
Qed.

Lemma kept_start : forall p host, kept (tab (start p host)).
Proof.
  intros p host. unfold kept. simpl. split; [|split; [|split; [|split]]].
  - intros c [].
  - apply tidyPage_none.
  - intros x [].
  - intros l [].
  - intros c e [].
Qed.

Lemma placeholder_uids : forall c type r x,
    In x (uids (DOMManipulator.replacementNode c type r)) ->
    exists k, (k < 7)%nat /\ x = (c + k)%nat.
Proof.
  intros c type r x H. rewrite RevealFacts.uids_replacementNode in H.
  simpl in H.
  destruct H as [H|[H|[H|[H|[H|[H|[H|[]]]]]]]]; subst x;
    [exists 0%nat | exists 1%nat | exists 2%nat | exists 3%nat
     | exists 4%nat | exists 5%nat | exists 6%nat]; split; lia.
Qed.

(** X20.  The scanner never analyses what the manipulator puts on the
    page.  From a well-formed page and over any sequence of events of
    the pipeline, for every placeholder created so far (its click
    listener [ReplacementClick c e type] is registered, [c] being the
    container [createReplacementElement] made) and every element of the
    tree built for it (the container, the icon, the message, the
    details, the actions and the two buttons): the scanner ignores the
    element ([shouldIgnoreElement] holds of it, whether the placeholder
    is on the page or has been taken off again), and the element has
    never been queued for analysis. *)
Theorem placeholders_are_never_analysed :
  forall (p : Page) (host : string) (es : list Event),
    wellFormed p = true ->
    let t := tab (run (start p host) es) in
    forall c e type r x,
      In (ReplacementClick c e type) (listeners t) ->
      In x (uids (DOMManipulator.replacementNode c type r)) ->
      shouldIgnoreElement x t = true /\
      ~ In x (map i_element (pushed t)).
Proof.
  intros p host es Hwf t c e type r x Hl Hx.
  assert (K : kept t).
  { unfold t. apply kept_run.
    - apply (DiscoveryFacts.settled_start p host Hwf).
    - intros y. simpl. apply Nat.le_refl.
    - apply kept_start. }
  destruct K as (K1 & K2 & K3 & K4 & K5).
  destruct (placeholder_uids c type r x Hx) as (k & Hk & Ex). subst x.
  pose proof (ofPlaceholder_In (containers t) c k (In_containers t c e type Hl) Hk) as P.
  split.
  - apply (placeholder_is_ignored (containers t) _ t K2 P).
  - intros H. rewrite (K3 _ H) in P. discriminate.
Qed.

End PlaceholderFacts.


(** ** Forests with unique identities *)

Module ForestFacts.
Import Dom Tabs DomFacts TreeFacts EvolveFacts SwapFacts Keeping.
Import Bookkeeping BookFacts.















(** *** Counting identities *)








End ForestFacts.


(** ** Placeholders and originals stay in order *)

Module OrderFacts.
Import Dom Tabs ContentScanner DomFacts TreeFacts EvolveFacts SwapFacts Keeping.
Import ForestFacts.










End OrderFacts.


(** ** The order, event by event *)

Module KeepingFacts.
Import Dom Tabs ContentScanner Pipeline DomFacts TreeFacts EvolveFacts SwapFacts.
Import Keeping Placeholders ForestFacts OrderFacts PlaceholderFacts.






















End KeepingFacts.

(** ** A reveal at any moment of a run *)

Module HeldFacts.
Import Dom Tabs DomFacts TreeFacts EvolveFacts SwapFacts RevealFacts SinceFacts.
Import Pipeline Keeping Placeholders ForestFacts OrderFacts PlaceholderFacts.
Import KeepingFacts RestoreFacts Nesting.











End HeldFacts.

(** ** More properties at concrete inputs *)

Module Cases.
Import ServiceWorker.

(** "Aa" and "BB" are different texts with the same hash: the verdict
    for the first is served for the second. *)
Lemma colliding_texts_witness :
  let d := {| payload := "Aa"; threshold := 0.6%float; ageGroup := "moderate" |} in
  let d' := {| payload := "BB"; threshold := 0.6%float; ageGroup := "moderate" |} in
  payload d <> payload d' /\
  hashString (payload d) = hashString (payload d') /\
  responses (run initial [ onMessage 0 (ANALYZE_TEXT d) 1000;
                           fetchSettled 0 (HttpResponse 200 (Some Examples.hateful))
                                        1500 None;
                           onMessage 1 (ANALYZE_TEXT d') 2000 ])
  = [(0%nat, Success Examples.hateful); (1%nat, Success Examples.hateful)].
Proof.
  cbv zeta. split; [discriminate|]. split; [reflexivity|].
  apply (proj1 (AnswerFacts.equal_hashes_share_a_cache_entry
                  text
                  {| payload := "Aa"; threshold := 0.6%float; ageGroup := "moderate" |}
                  {| payload := "BB"; threshold := 0.6%float; ageGroup := "moderate" |}
                  Examples.hateful 1000 1500 2000 200
                  eq_refl eq_refl eq_refl eq_refl eq_refl)).
Defined.

(** Two messages, the first one answered by the Gateway. *)
Lemma two_messages_witness :
  let es := [ onMessage 0 (ANALYZE_TEXT Examples.someText) 1000;
              onMessage 1 (ANALYZE_IMAGE Examples.someText) 1001;
              fetchSettled 0 (HttpResponse 200 (Some Examples.safe)) 1500 None ] in
  NoDup (Worker.messageIds es) /\
  NoDup (Worker.answered (run initial es) ++ Worker.inFlight (run initial es)).
Proof.
  cbv zeta.
  assert (H : NoDup (Worker.messageIds
                       [ onMessage 0 (ANALYZE_TEXT Examples.someText) 1000;
                         onMessage 1 (ANALYZE_IMAGE Examples.someText) 1001;
                         fetchSettled 0 (HttpResponse 200 (Some Examples.safe))
                                      1500 None ])).
  { simpl. constructor; [intros [H|[]]; discriminate H|].
    constructor; [intros []|constructor]. }
  split; [exact H|].
  apply (proj1 (AnswerFacts.every_message_is_answered_at_most_once _ H)).
Defined.

(** The paragraph of the sample page, replaced and restored. *)
Lemma restoreAll_witness :
  let t := Examples.plainTab in
  let t1 := DOMManipulator.handleUnsafeContent Examples.hatefulParagraph t in
  let t2 := DOMManipulator.onUser DOMManipulator.RestoreAll t1 in
  Dom.wellFormed (page t) = true /\
  Dom.parentNode 2 (page t) <> None /\
  Dom.document (page t1) <> Dom.document (page t) /\
  Dom.document (page t2) = Dom.document (page t).
Proof.
  cbv zeta.
  assert (Hp : Dom.parentNode 2 (page Examples.plainTab) <> None)
    by (vm_compute; discriminate).
  split; [reflexivity|]. split; [exact Hp|]. split; [vm_compute; discriminate|].
  apply (proj1 (proj2
           (UndoFacts.replace_then_restoreAll_gives_back_the_document
              Examples.plainTab 2%nat text Examples.hateful
              eq_refl eq_refl Hp eq_refl eq_refl eq_refl eq_refl eq_refl))).
Defined.

(** The paragraph of the sample page, blurred and clicked. *)
Lemma blur_witness :
  let t := Examples.plainTab in
  let r := DOMManipulator.verdict 0.7 ["nsfw"] in
  let t1 := DOMManipulator.handleUnsafeContent
              {| d_element := 2; d_type := text; d_analysisResult := r |} t in
  let t2 := DOMManipulator.onUser (DOMManipulator.ClickBlurred 2) t1 in
  Dom.locate 2 (page t)
  = Some (Dom.blank 2 "p", [Dom.blank 1 "body"; Dom.blank 0 "html"]) /\
  DOMManipulator.getBlockingMethod text r = DOMManipulator.blur /\
  option_map (fun l => Dom.classList (fst l)) (Dom.locate 2 (page t1))
  = Some ["ai-firewall-blurred"] /\
  option_map (fun l => Dom.classList (fst l)) (Dom.locate 2 (page t2))
  = Some ["ai-firewall-safe"] /\
  blockedElements t2 = blockedElements t.
Proof.
  cbv zeta.
  split; [reflexivity|]. split; [reflexivity|].
  split; [vm_compute; reflexivity|]. split; [vm_compute; reflexivity|].
  apply (proj1 (proj2 (proj2 (proj2
           (UndoFacts.blur_then_click_marks_the_element_safe
              Examples.plainTab 2%nat text (DOMManipulator.verdict 0.7 ["nsfw"])
              (Dom.blank 2 "p") [Dom.blank 1 "body"; Dom.blank 0 "html"]
              (ltac:(vm_compute; lia)) eq_refl eq_refl eq_refl eq_refl eq_refl))))).
Defined.

(** The request for the sample page's paragraph comes back with an
    unsafe verdict: the paragraph is tracked as blocked. *)
Lemma unsafe_verdict_witness :
  let s := Examples.underWay in
  let s2 := Pipeline.run s [ Pipeline.FetchSettled 0
                               (HttpResponse 200 (Some Examples.hateful)) 1500 None;
                             Pipeline.Answer 0 ] in
  response_ok 200 = true /\
  Js.get Nat.eqb 0%nat (responses (Pipeline.worker s)) = None /\
  is_safe Examples.hateful = false /\
  Js.setHas 2 (blockedElements (Pipeline.tab s)) = false /\
  Js.setHas 2 (blockedElements (Pipeline.tab s2)) = true.
Proof.
  cbv zeta. split; [reflexivity|]. split; [reflexivity|]. split; [reflexivity|].
  split; [reflexivity|].
  pose proof (VerdictFacts.verdict_decides_blocking
                Examples.underWay 0%nat _ _ 200 Examples.hateful 1500
                eq_refl
                (eq_refl : findSuspended 0 (suspended (Pipeline.worker Examples.underWay))
                           = Some _)
                (eq_refl : ContentScanner.findAwaiting 0 (Pipeline.tab Examples.underWay)
                           = Some (AwaitResponse _))
                eq_refl) as K.
  cbv zeta in K. destruct K as (_ & _ & _ & _ & K & _).
  apply (proj2 (K eq_refl)).
Defined.

(** The sample session reports the paragraph once. *)
Lemma session_reports_witness :
  let t := Pipeline.tab (Pipeline.run (Pipeline.start Examples.samplePage "example.com")
                                      Examples.session) in
  Dom.wellFormed Examples.samplePage = true /\
  Bookkeeping.dispatchedElements t = [2%nat] /\
  NoDup (Bookkeeping.awaitedElements t ++ Bookkeeping.dispatchedElements t).
Proof.
  cbv zeta. split; [reflexivity|]. split; [vm_compute; reflexivity|].
  apply (proj1 (BookFacts.each_element_is_reported_at_most_once
                  Examples.samplePage "example.com" Examples.session eq_refl)).
Defined.

(** The sample page goes on being scanned after [destroy]. *)
Lemma destroy_witness :
  let t := Examples.plainTab in
  scanQueue t = [] /\
  map i_element (pushed (ContentScanner.periodicRescan 6000 (ContentScanner.destroy t)))
  = [2%nat; 5%nat] /\
  ContentScanner.periodicRescan 6000 (ContentScanner.destroy t)
  = ContentScanner.destroy (ContentScanner.periodicRescan 6000 t).
Proof.
  cbv zeta. split; [reflexivity|]. split; [vm_compute; reflexivity|].
  apply (proj2 (proj2 (proj2
           (NeutralFacts.destroy_does_not_stop_the_periodic_rescan
              Examples.plainTab 6000 eq_refl)))).
Defined.

(** A mutation on an allowlisted page is scanned. *)
Lemma allowlisted_mutation_example :
  let t := ContentScanner.init (Some (Some (Examples.settingsWith (Some "moderate")
                                             ["example.com"])))
             1000 (Tabs.fresh Examples.samplePage "example.com") in
  ContentScanner.isAllowlisted t = Some true /\
  pushed t = [] /\ observing t = true /\ intervals t = 0%nat /\
  map i_element (pushed (ContentScanner.onMutations 2000 [1%nat] t)) = [2%nat; 5%nat].
Proof. vm_compute. repeat split; reflexivity. Qed.

(** A blocked paragraph in the sample session, and the Gateway's
    verdict behind it. *)
Lemma session_block_example :
  let s := Pipeline.run (Pipeline.start Examples.samplePage "example.com")
                        (firstn 4 Examples.session) in
  blockedElements (Pipeline.tab s) = [2%nat] /\
  map d_analysisResult (dispatched (Pipeline.tab s)) = [Examples.hateful] /\
  map (fun r => payload (body r)) (sent (Pipeline.worker s)) = ["Hello wonderful world"].
Proof. vm_compute. repeat split; reflexivity. Qed.

(** The defaults on an empty storage and on one with a level chosen. *)
Lemma defaults_example :
  Install.setDefaultSettings [] = Install.defaults /\
  Js.get String.eqb "filteringLevel"
    (Install.setDefaultSettings [("filteringLevel", Storage.VStr "strict")])
  = Some (Storage.VStr "strict") /\
  Js.get String.eqb "allowlist"
    (Install.setDefaultSettings [("filteringLevel", Storage.VStr "strict")])
  = Some (Storage.VList []).
Proof. vm_compute. repeat split; reflexivity. Qed.

(** The hash of two short texts. *)
Lemma hash_example :
  hashString "Aa" = "2112" /\ hashString "BB" = "2112" /\
  Js.toInt32 (Worker.polynomial 0 "Hello wonderful world") < 0.
Proof. vm_compute. repeat split; reflexivity. Qed.

(** A scanner whose settings could not be read, on the sample page. *)
Lemma settings_failure_witness :
  let t := Tabs.fresh Examples.samplePage "example.com" in
  isScanning t = false /\ settings t = None /\
  pushed (ContentScanner.init None 1000 t) = [] /\
  ContentScanner.periodicRescan 6000 (ContentScanner.init None 1000 t)
  = ContentScanner.init None 1000 t /\
  map i_element (pushed (ContentScanner.init (Some None) 1000 t)) = [2%nat; 5%nat].
Proof.
  cbv zeta. split; [reflexivity|]. split; [reflexivity|]. split; [reflexivity|].
  split; [|vm_compute; reflexivity].
  apply (proj1 (proj2
           (InitFacts.settings_failure_disables_the_scanner
              (Tabs.fresh Examples.samplePage "example.com") 1000 6000
              {| i_type := text; i_element := 2; i_content := "Hello wonderful world";
                 i_timestamp := 1000 |}
              eq_refl eq_refl))).
Defined.

(** The sample page, scanned: the paragraph and the image are queued,
    each a wanted candidate of the page as it was. *)
Lemma scan_witness :
  scanQueue Examples.plainTab = [] /\
  exists items,
    pushed (ContentScanner.scanExistingContent 1000 Examples.plainTab)
    = pushed Examples.plainTab ++ items /\
    Forall (Origin.scanned Examples.plainTab 1000) items /\
    page (ContentScanner.scanExistingContent 1000 Examples.plainTab)
    = ContentScanner.markAll (map i_element items) (page Examples.plainTab).
Proof.
  split; [reflexivity|].
  apply (OriginFacts.a_scan_queues_only_wanted_candidates Examples.plainTab 1000).
  reflexivity.
Defined.

(** The sample session up to the replacement of the paragraph: the
    placeholder's message, a [div] with a text of letters, is ignored. *)
Lemma placeholder_witness :
  let t := Pipeline.tab (Pipeline.run (Pipeline.start Examples.samplePage "example.com")
                                      (firstn 4 Examples.session)) in
  Dom.wellFormed Examples.samplePage = true /\
  In (ReplacementClick 8 2 text) (listeners t) /\
  In 10%nat (Dom.uids (DOMManipulator.replacementNode 8 text Examples.hateful)) /\
  ContentScanner.shouldIgnoreElement 10 t = true /\
  ~ In 10%nat (map i_element (pushed t)).
Proof.
  cbv zeta.
  assert (L : In (ReplacementClick 8 2 text)
                 (listeners (Pipeline.tab
                    (Pipeline.run (Pipeline.start Examples.samplePage "example.com")
                                  (firstn 4 Examples.session)))))
    by (vm_compute; left; reflexivity).
  assert (U : In 10%nat (Dom.uids (DOMManipulator.replacementNode 8 text Examples.hateful)))
    by (vm_compute; right; right; left; reflexivity).
  split; [reflexivity|]. split; [exact L|]. split; [exact U|].
  apply (PlaceholderFacts.placeholders_are_never_analysed
           Examples.samplePage "example.com" (firstn 4 Examples.session) eq_refl
           8%nat 2%nat text Examples.hateful 10%nat L U).
Defined.



End Cases.
